(** * macKinect-native: the capture and distribution engine

    A shallow embedding of the two backend adapters
    ([src/backends/freenect_v1_backend.cpp], [src/backends/freenect_v2_backend.cpp]),
    of the point-list export of [src/control_center_v1.cpp] and of the producer
    loop of [src/dal_plugin/KinectCameraDALPlugin.cpp], followed by the
    properties of the specification that were checked against them.

    Conventions.
    - C++ [int], [uint16_t], [uint32_t], [uint64_t] and [std::size_t] values are
      [Z]; wrap-around is written out where a counter can reach it.
    - A [std::vector] is a [list]; a pointer that may be null is an [option].
    - The native driver libraries are not part of the repository.  Each native
      call is answered by an oracle that sees the chronological log of all
      native calls made so far, and the call is appended to that log.  The
      code is thus a state-passing program over the log. *)

From Stdlib Require Import Ascii.
From stdpp Require Import base numbers list strings gmap pretty.

Open Scope Z_scope.

(** ** Data model ([src/backends/backend.h]) *)

Inductive KinectGeneration := kV1 | kV2.

Inductive StreamKind := kRgb | kIr | kDepth.

(** [a == b] on stream kinds. *)
Definition StreamKind_eqb (a b : StreamKind) : bool :=
  match a, b with
  | kRgb, kRgb | kIr, kIr | kDepth, kDepth => true
  | _, _ => false
  end.

(** [p != nullptr]. *)
Definition non_null {A} (p : option A) : bool :=
  match p with Some _ => true | None => false end.

Module ProbeResult.
Record t := mk { available : bool; detail : string }.
End ProbeResult.

Module PreviewResult.
Record t := mk {
    success : bool;
    detail : string;
    color_frames : Z;   (* std::uint64_t *)
    depth_frames : Z    (* std::uint64_t *)
  }.
(** The default member initialisers of the struct. *)
Definition init : t := mk false "" 0 0.
End PreviewResult.

Module DeviceInfo.
Record t := mk { generation : KinectGeneration; serial : string; name : string }.
End DeviceInfo.

Module FrameData.
Record t := mk {
    rgb : list Z;        (* std::vector<uint8_t>  *)
    depth : list Z;      (* std::vector<uint16_t> *)
    ir : list Z;         (* std::vector<uint8_t>  *)
    width : Z;
    height : Z;
    timestamp : Z        (* uint32_t *)
  }.
(** A default-constructed [FrameData]. *)
Definition empty : t := mk [] [] [] 0 0 0.
End FrameData.

(** [std::vector::empty()]. *)
Definition vec_empty {A} (v : list A) : bool :=
  match v with [] => true | _ => false end.

(** Native memory behind a [void *] or [unsigned char *]: the sample stored at
    each offset. *)
Definition NativeBuf := nat → Z.

(** [resize(n)] followed by a [memcpy] of [n] elements out of native memory. *)
Definition copy_from_native (src : NativeBuf) (n : Z) : list Z :=
  src <$> seq 0 (Z.to_nat n).

Global Arguments copy_from_native : simpl never.

(** [std::to_string] on an [int]. *)
Definition to_string (n : Z) : string := pretty n.

(** ** A state-passing monad over the log of native calls *)

Section CallLog.
Context {Call : Type}.

Definition Logged (A : Type) : Type := list Call → A * list Call.

Definition ret {A} (a : A) : Logged A := λ h, (a, h).
Definition bind {A B} (m : Logged A) (f : A → Logged B) : Logged B :=
  λ h, let '(a, h') := m h in f a h'.

(** A native call [c]: the oracle [answer] sees the log before the call. *)
Definition native {A} (c : Call) (answer : list Call → A) : Logged A :=
  λ h, (answer h, h ++ [c]).

(** [if (b) { m }] for a statement [m]. *)
Definition when (b : bool) (m : Logged ()) : Logged () :=
  if b then m else ret ().
End CallLog.

Arguments Logged : clear implicits.

Notation "'let*' x ':=' m 'in' k" := (bind m (λ x, k))
  (at level 10, x name, m at level 200, k at level 200, only parsing).
Notation "'let*' ' pat ':=' m 'in' k" := (bind m (λ x, let 'pat := x in k))
  (at level 10, pat pattern, m at level 200, k at level 200, only parsing).

(** ** std::stoi, as used on the tail of a positional identifier *)

Module Stoi.
Definition isspace (c : ascii) : bool :=
  let n := nat_of_ascii c in
  ((n =? 32) || ((9 <=? n) && (n <=? 13)))%nat.

Definition digit (c : ascii) : option Z :=
  let n := nat_of_ascii c in
  if ((48 <=? n) && (n <=? 57))%nat then Some (Z.of_nat n - 48) else None.

Fixpoint skip_space (s : string) : string :=
  match s with
  | String c s' => if isspace c then skip_space s' else s
  | EmptyString => s
  end.

(** The value of the longest prefix of decimal digits, [None] when the
    prefix is empty. *)
Fixpoint digits (s : string) (acc : option Z) : option Z :=
  match s with
  | String c s' =>
      match digit c with
      | Some d => digits s' (Some (10 * default 0 acc + d))
      | None => acc
      end
  | EmptyString => acc
  end.

Definition INT_MIN : Z := - 2 ^ 31.
Definition INT_MAX : Z := 2 ^ 31 - 1.

(** [None] stands for both exceptions of [std::stoi]:
    [std::invalid_argument] (no digits) and [std::out_of_range]. *)
Definition stoi (s : string) : option Z :=
  let s1 := skip_space s in
  let '(negative, s2) :=
    match s1 with
    | String "-" r => (true, r)
    | String "+" r => (false, r)
    | _ => (false, s1)
    end in
  match digits s2 None with
  | None => None
  | Some v =>
      let v' := if negative then - v else v in
      if (INT_MIN <=? v') && (v' <=? INT_MAX) then Some v' else None
  end.
End Stoi.

(** ** The frame counters and the verdict shared by both [preview] functions *)

(** [++counter] on a [std::uint64_t]. *)
Definition incr64 (n : Z) : Z := (n + 1) mod 2 ^ 64.

Definition count_frame (frame : FrameData.t) (result : PreviewResult.t)
  : PreviewResult.t :=
  let color :=
    if negb (vec_empty (FrameData.rgb frame))
    then incr64 (PreviewResult.color_frames result)
    else PreviewResult.color_frames result in
  let depth :=
    if negb (vec_empty (FrameData.depth frame))
    then incr64 (PreviewResult.depth_frames result)
    else PreviewResult.depth_frames result in
  PreviewResult.mk (PreviewResult.success result) (PreviewResult.detail result)
    color depth.

Definition with_detail (detail : string) (result : PreviewResult.t) : PreviewResult.t :=
  PreviewResult.mk (PreviewResult.success result) detail
    (PreviewResult.color_frames result) (PreviewResult.depth_frames result).

(** [(a + b) > 0] on [std::uint64_t]. *)
Definition sum64_positive (a b : Z) : bool := 0 <? (a + b) mod 2 ^ 64.

Definition finish_preview (result : PreviewResult.t) : PreviewResult.t :=
  let success :=
    sum64_positive (PreviewResult.color_frames result) (PreviewResult.depth_frames result) in
  PreviewResult.mk success
    (if success then "Preview captured." else "No frames captured.")
    (PreviewResult.color_frames result) (PreviewResult.depth_frames result).

(** ** Generation 1: [freenect_v1_backend.cpp] *)

Module V1.

Definition kWidth : Z := 640.
Definition kHeight : Z := 480.
Definition kPixelCount : Z := kWidth * kHeight.

Definition IsSyntheticIndexSerial (serial : string) : bool :=
  String.prefix "DeviceIndex-" serial.

(** [freenect_device *]: the physical unit a session is bound to. *)
Abbreviation DevPtr := nat.

Inductive freenect_video_format := FREENECT_VIDEO_RGB | FREENECT_VIDEO_IR_8BIT.

Global Instance freenect_video_format_eq_dec : EqDecision freenect_video_format.
Proof. solve_decision. Defined.

(** One node of the list built by [freenect_list_device_attributes]. *)
Record freenect_device_attributes := { camera_serial : option string }.

(** The native calls with a result or an effect on the hardware, and the
    sleeps between retries. *)
Inductive Call :=
  | c_num_devices
  | c_list_device_attributes
  | c_open_device_by_camera_serial (serial : string)
  | c_open_device (index : Z)
  | c_close_device (dev : DevPtr)
  | c_set_depth_mode (dev : DevPtr)
  | c_set_video_mode (dev : DevPtr) (format : freenect_video_format)
  | c_start_depth (dev : DevPtr)
  | c_stop_depth (dev : DevPtr)
  | c_start_video (dev : DevPtr)
  | c_stop_video (dev : DevPtr)
  | c_start_audio (dev : DevPtr)
  | c_stop_audio (dev : DevPtr)
  | c_process_events
  | c_sleep_for (ms : Z).

Global Instance Call_eq_dec : EqDecision Call.
Proof. solve_decision. Defined.

Definition History := list Call.

(** A frame callback delivered by the driver while it processes events. *)
Inductive Callback :=
  | cb_depth (depth : option NativeBuf) (timestamp : Z)
  | cb_video (video : option NativeBuf) (timestamp : Z).

(** The driver library and the hardware behind it.  The two [is_valid] fields
    are those of the modes that [freenect_find_depth_mode] and
    [freenect_find_video_mode] return for (RESOLUTION_MEDIUM, DEPTH_MM) and for
    (RESOLUTION_MEDIUM, format); [freenect_process_events_timeout] answers
    with its return code and the callbacks it ran. *)
Record Driver := {
  freenect_num_devices : History → Z;
  freenect_list_device_attributes : History → Z * list freenect_device_attributes;
  freenect_open_device_by_camera_serial : History → string → Z * option DevPtr;
  freenect_open_device : History → Z → Z * option DevPtr;
  freenect_find_depth_mode_is_valid : bool;
  freenect_find_video_mode_is_valid : freenect_video_format → bool;
  freenect_set_depth_mode : History → DevPtr → Z;
  freenect_set_video_mode : History → DevPtr → freenect_video_format → Z;
  freenect_start_depth : History → DevPtr → Z;
  freenect_stop_depth : History → DevPtr → Z;
  freenect_start_video : History → DevPtr → Z;
  freenect_stop_video : History → DevPtr → Z;
  freenect_start_audio : History → DevPtr → Z;
  freenect_stop_audio : History → DevPtr → Z;
  freenect_process_events_timeout : History → Z * list Callback
}.

Abbreviation Native := (Logged Call).

(** [FreenectV1Backend]; [ctx_] records whether the context pointer is
    non-null. *)
Module Backend.
Record t := mk { ctx_ : bool; has_audio_firmware_ : bool }.
End Backend.

(** [FreenectV1Device].  [audio_level_] is a float written by the audio
    callback only and read by no operation modelled here; it is left out. *)
Module Device.
Record t := mk {
  ctx_ : bool;
  dev_ : option DevPtr;
  index_ : Z;
  serial_ : string;
  audio_supported_ : bool;
  running_ : bool;
  depth_started_ : bool;
  video_started_ : bool;
  audio_started_ : bool;
  audio_enabled_ : bool;
  requested_stream_ : StreamKind;
  active_stream_ : StreamKind;
  frame_ : FrameData.t;
  has_new_frame_ : bool
}.

(** The constructor: every other member has its default initialiser. *)
Definition new (ctx : bool) (index : Z) (serial : string) (audio_supported : bool) : t :=
  mk ctx None index serial audio_supported false false false false false kRgb kRgb
    FrameData.empty false.

(** Assignments to single members. *)
Definition set_dev_ (v : option DevPtr) (d : t) : t :=
  mk (ctx_ d) v (index_ d) (serial_ d) (audio_supported_ d) (running_ d)
    (depth_started_ d) (video_started_ d) (audio_started_ d) (audio_enabled_ d)
    (requested_stream_ d) (active_stream_ d) (frame_ d) (has_new_frame_ d).

Definition set_running_ (v : bool) (d : t) : t :=
  mk (ctx_ d) (dev_ d) (index_ d) (serial_ d) (audio_supported_ d) v (depth_started_ d)
    (video_started_ d) (audio_started_ d) (audio_enabled_ d) (requested_stream_ d)
    (active_stream_ d) (frame_ d) (has_new_frame_ d).

Definition set_depth_started_ (v : bool) (d : t) : t :=
  mk (ctx_ d) (dev_ d) (index_ d) (serial_ d) (audio_supported_ d) (running_ d) v
    (video_started_ d) (audio_started_ d) (audio_enabled_ d) (requested_stream_ d)
    (active_stream_ d) (frame_ d) (has_new_frame_ d).

Definition set_video_started_ (v : bool) (d : t) : t :=
  mk (ctx_ d) (dev_ d) (index_ d) (serial_ d) (audio_supported_ d) (running_ d)
    (depth_started_ d) v (audio_started_ d) (audio_enabled_ d) (requested_stream_ d)
    (active_stream_ d) (frame_ d) (has_new_frame_ d).

Definition set_audio_started_ (v : bool) (d : t) : t :=
  mk (ctx_ d) (dev_ d) (index_ d) (serial_ d) (audio_supported_ d) (running_ d)
    (depth_started_ d) (video_started_ d) v (audio_enabled_ d) (requested_stream_ d)
    (active_stream_ d) (frame_ d) (has_new_frame_ d).

Definition set_audio_enabled_ (v : bool) (d : t) : t :=
  mk (ctx_ d) (dev_ d) (index_ d) (serial_ d) (audio_supported_ d) (running_ d)
    (depth_started_ d) (video_started_ d) (audio_started_ d) v (requested_stream_ d)
    (active_stream_ d) (frame_ d) (has_new_frame_ d).

Definition set_requested_stream_ (v : StreamKind) (d : t) : t :=
  mk (ctx_ d) (dev_ d) (index_ d) (serial_ d) (audio_supported_ d) (running_ d)
    (depth_started_ d) (video_started_ d) (audio_started_ d) (audio_enabled_ d) v
    (active_stream_ d) (frame_ d) (has_new_frame_ d).

Definition set_active_stream_ (v : StreamKind) (d : t) : t :=
  mk (ctx_ d) (dev_ d) (index_ d) (serial_ d) (audio_supported_ d) (running_ d)
    (depth_started_ d) (video_started_ d) (audio_started_ d) (audio_enabled_ d)
    (requested_stream_ d) v (frame_ d) (has_new_frame_ d).

Definition set_frame_ (v : FrameData.t) (d : t) : t :=
  mk (ctx_ d) (dev_ d) (index_ d) (serial_ d) (audio_supported_ d) (running_ d)
    (depth_started_ d) (video_started_ d) (audio_started_ d) (audio_enabled_ d)
    (requested_stream_ d) (active_stream_ d) v (has_new_frame_ d).

Definition set_has_new_frame_ (v : bool) (d : t) : t :=
  mk (ctx_ d) (dev_ d) (index_ d) (serial_ d) (audio_supported_ d) (running_ d)
    (depth_started_ d) (video_started_ d) (audio_started_ d) (audio_enabled_ d)
    (requested_stream_ d) (active_stream_ d) (frame_ d) v.
End Device.

Section WithDriver.
Variable drv : Driver.

Definition sleep_for (ms : Z) : Native () :=
  native (c_sleep_for ms) (λ _, ()).

(** *** FreenectV1Device::open

    [open] runs once, on a freshly constructed object whose [dev_] is null,
    so a native open that leaves its out-parameter untouched and one that
    stores null in it coincide: both are the answer [None].  The
    registrations of the user pointer and of the callbacks return nothing
    and are not logged. *)
Definition open (d : Device.t) : Native (bool * Device.t) :=
  if negb (Device.ctx_ d) then ret (false, d)
  else
    let* d :=
      if negb (String.eqb (Device.serial_ d) "")
         && negb (IsSyntheticIndexSerial (Device.serial_ d))
      then
        let* '(rc, dev) :=
          native (c_open_device_by_camera_serial (Device.serial_ d))
            (λ h, freenect_open_device_by_camera_serial drv h (Device.serial_ d)) in
        ret (Device.set_dev_ dev d)
      else ret d in
    let* '(failed, d) :=
      if negb (non_null (Device.dev_ d)) && (0 <=? Device.index_ d)
      then
        let* '(rc, dev) :=
          native (c_open_device (Device.index_ d))
            (λ h, freenect_open_device drv h (Device.index_ d)) in
        ret ((rc <? 0) || negb (non_null dev), Device.set_dev_ dev d)
      else ret (false, d) in
    if failed then ret (false, d)
    else if negb (non_null (Device.dev_ d)) then ret (false, d)
    else ret (true, d).

(** *** FreenectV1Device::ApplyVideoMode *)
Definition ApplyVideoMode (d : Device.t) : Native (bool * Device.t) :=
  match Device.dev_ d with
  | None => ret (false, d)
  | Some dev =>
      let format :=
        if StreamKind_eqb (Device.requested_stream_ d) kIr
        then FREENECT_VIDEO_IR_8BIT else FREENECT_VIDEO_RGB in
      if negb (freenect_find_video_mode_is_valid drv format) then ret (false, d)
      else
        let* d :=
          if Device.video_started_ d then
            let* _ := native (c_stop_video dev) (λ h, freenect_stop_video drv h dev) in
            ret (Device.set_video_started_ false d)
          else ret d in
        let* rc :=
          native (c_set_video_mode dev format)
            (λ h, freenect_set_video_mode drv h dev format) in
        if rc <? 0 then ret (false, d)
        else
          let* rc := native (c_start_video dev) (λ h, freenect_start_video drv h dev) in
          if rc <? 0 then ret (false, d)
          else
            ret (true,
                 Device.set_active_stream_ (Device.requested_stream_ d)
                   (Device.set_video_started_ true d))
  end.

(** *** FreenectV1Device::setAudioEnabled *)
Definition setAudioEnabled (enabled : bool) (d : Device.t) : Native (bool * Device.t) :=
  if negb (Device.audio_supported_ d) then
    ret (false, Device.set_audio_enabled_ false d)
  else
    let d := Device.set_audio_enabled_ enabled d in
    match Device.dev_ d with
    | None => ret (false, d)
    | Some dev =>
        if negb (Device.running_ d) then ret (false, d)
        else
          let* d :=
            if enabled then
              if negb (Device.audio_started_ d) then
                let* rc :=
                  native (c_start_audio dev) (λ h, freenect_start_audio drv h dev) in
                if rc =? 0 then ret (Device.set_audio_started_ true d) else ret d
              else ret d
            else if Device.audio_started_ d then
              let* _ := native (c_stop_audio dev) (λ h, freenect_stop_audio drv h dev) in
              ret (Device.set_audio_started_ false d)
            else ret d in
          ret (Device.audio_started_ d, d)
    end.

Definition audioEnabled (d : Device.t) : bool :=
  Device.audio_enabled_ d && Device.audio_started_ d.

(** *** FreenectV1Device::start *)
Definition start (d : Device.t) : Native (bool * Device.t) :=
  match Device.dev_ d with
  | None => ret (false, d)
  | Some dev =>
      if Device.running_ d then ret (true, d)
      else if negb (freenect_find_depth_mode_is_valid drv) then ret (false, d)
      else
        let* rc := native (c_set_depth_mode dev) (λ h, freenect_set_depth_mode drv h dev) in
        if rc <? 0 then ret (false, d)
        else
          let* '(applied, d) := ApplyVideoMode d in
          if negb applied then ret (false, d)
          else
            let* rc := native (c_start_depth dev) (λ h, freenect_start_depth drv h dev) in
            if rc <? 0 then ret (false, d)
            else
              let d := Device.set_depth_started_ true d in
              (* ApplyVideoMode() starts video the first time. Only start
                 explicitly if it wasn't started there. *)
              let* '(video_ok, d) :=
                if negb (Device.video_started_ d) then
                  let* rc :=
                    native (c_start_video dev) (λ h, freenect_start_video drv h dev) in
                  if rc <? 0 then
                    let* _ :=
                      native (c_stop_depth dev) (λ h, freenect_stop_depth drv h dev) in
                    ret (false, Device.set_depth_started_ false d)
                  else ret (true, Device.set_video_started_ true d)
                else ret (true, d) in
              if negb video_ok then ret (false, d)
              else
                let d := Device.set_running_ true d in
                let* d :=
                  if Device.audio_enabled_ d then
                    let* '(_, d) := setAudioEnabled true d in ret d
                  else ret d in
                ret (true, d)
  end.

(** *** FreenectV1Device::stop *)
Definition stop (d : Device.t) : Native (bool * Device.t) :=
  match Device.dev_ d with
  | None => ret (false, d)
  | Some dev =>
      if negb (Device.running_ d) then ret (true, d)
      else
        let* d :=
          if Device.audio_started_ d then
            let* _ := native (c_stop_audio dev) (λ h, freenect_stop_audio drv h dev) in
            ret (Device.set_audio_started_ false d)
          else ret d in
        let* d :=
          if Device.video_started_ d then
            let* _ := native (c_stop_video dev) (λ h, freenect_stop_video drv h dev) in
            ret (Device.set_video_started_ false d)
          else ret d in
        let* d :=
          if Device.depth_started_ d then
            let* _ := native (c_stop_depth dev) (λ h, freenect_stop_depth drv h dev) in
            ret (Device.set_depth_started_ false d)
          else ret d in
        ret (true, Device.set_running_ false d)
  end.

(** *** FreenectV1Device::~FreenectV1Device *)
Definition destroy (d : Device.t) : Native () :=
  let* '(_, d) := stop d in
  match Device.dev_ d with
  | Some dev => native (c_close_device dev) (λ _, ())
  | None => ret ()
  end.

(** *** The frame callbacks

    [self] is what [freenect_get_user] returns; the second argument is the
    native frame pointer. *)
Definition OnDepthFrame (self : option Device.t) (depth : option NativeBuf) (timestamp : Z)
  : option Device.t :=
  match self, depth with
  | Some d, Some src =>
      let f := Device.frame_ d in
      Some (Device.set_has_new_frame_ true
              (Device.set_frame_
                 (FrameData.mk (FrameData.rgb f)
                    (copy_from_native src kPixelCount)
                    (FrameData.ir f) kWidth kHeight timestamp) d))
  | _, _ => self
  end.

Definition OnVideoFrame (self : option Device.t) (video : option NativeBuf) (timestamp : Z)
  : option Device.t :=
  match self, video with
  | Some d, Some src =>
      let f := Device.frame_ d in
      let f' :=
        if StreamKind_eqb (Device.active_stream_ d) kIr then
          FrameData.mk (FrameData.rgb f) (FrameData.depth f)
            (copy_from_native src kPixelCount) kWidth kHeight timestamp
        else
          FrameData.mk (copy_from_native src (kPixelCount * 3)) (FrameData.depth f)
            (FrameData.ir f) kWidth kHeight timestamp in
      Some (Device.set_has_new_frame_ true (Device.set_frame_ f' d))
  | _, _ => self
  end.

(** One callback run by the driver on the device registered as its user. *)
Definition deliver (d : Device.t) (cb : Callback) : Device.t :=
  default d
    match cb with
    | cb_depth depth timestamp => OnDepthFrame (Some d) depth timestamp
    | cb_video video timestamp => OnVideoFrame (Some d) video timestamp
    end.

(** *** FreenectV1Device::update

    The driver runs the frame callbacks inside
    [freenect_process_events_timeout]. *)
Definition update (d : Device.t) : Native (bool * Device.t) :=
  if negb (Device.running_ d) then ret (false, d)
  else
    let* d :=
      if negb (StreamKind_eqb (Device.requested_stream_ d) (Device.active_stream_ d))
      then let* '(_, d) := ApplyVideoMode d in ret d
      else ret d in
    let* '(rc, callbacks) :=
      native c_process_events (freenect_process_events_timeout drv) in
    let d := foldl deliver d callbacks in
    if rc <? 0 then ret (false, d)
    else ret (Device.has_new_frame_ d, d).

(** *** FreenectV1Device::getFrame

    The result is the returned flag, the caller's [out_frame] after the
    call, and the device. *)
Definition getFrame (d : Device.t) (out_frame : FrameData.t)
  : bool * FrameData.t * Device.t :=
  if negb (Device.has_new_frame_ d) then (false, out_frame, d)
  else (true, Device.frame_ d, Device.set_has_new_frame_ false d).

Definition setStreamKind (kind : StreamKind) (d : Device.t) : Device.t :=
  Device.set_requested_stream_ kind d.

Definition streamKind (d : Device.t) : StreamKind := Device.requested_stream_ d.

(** *** FreenectV1Backend::EnumerateCountWithRetries *)

(** The [for] loop; [todo] is [clamped_attempts - attempt]. *)
Fixpoint EnumerateCount_loop (todo : nat) (attempt clamped_attempts delay_ms : Z)
  : Native Z :=
  match todo with
  | O => ret 0
  | S todo' =>
      let* count := native c_num_devices (freenect_num_devices drv) in
      if negb (count =? 0) then ret count
      else
        let* _ := when (attempt + 1 <? clamped_attempts) (sleep_for (Z.max 0 delay_ms)) in
        EnumerateCount_loop todo' (attempt + 1) clamped_attempts delay_ms
  end.

Definition EnumerateCountWithRetries (be : Backend.t) (attempts delay_ms : Z)
  : Native Z :=
  if negb (Backend.ctx_ be) then ret (-1)
  else
    let clamped_attempts := Z.max 1 attempts in
    EnumerateCount_loop (Z.to_nat clamped_attempts) 0 clamped_attempts delay_ms.

(** *** FreenectV1Backend::probe *)

Definition probe (be : Backend.t) : Native ProbeResult.t :=
  if negb (Backend.ctx_ be) then
    ret (ProbeResult.mk false "libfreenect initialization failed.")
  else
    let* count := EnumerateCountWithRetries be 4 80 in
    if count <? 0 then
      ret (ProbeResult.mk false "Kinect v1 enumeration failed.")
    else if count =? 0 then
      if Backend.has_audio_firmware_ be then
        ret (ProbeResult.mk true
               "Backend ready. No Kinect v1 devices are currently attached.")
      else
        ret (ProbeResult.mk true
               ("Backend ready (camera/depth only). "
                +:+ "No Kinect v1 devices are currently attached."))
    else if negb (Backend.has_audio_firmware_ be) then
      ret (ProbeResult.mk true
             (to_string count
              +:+ " Kinect v1 device(s) detected. "
              +:+ "Audio disabled because audios.bin firmware was not found."))
    else
      ret (ProbeResult.mk true (to_string count +:+ " Kinect v1 device(s) detected.")).

(** *** FreenectV1Backend::listDevices *)

Definition synthetic_serial (index : Z) : string :=
  "DeviceIndex-" +:+ to_string index.

(** The walk along the [next] pointers of the attribute list. *)
Fixpoint devices_of_attributes (attrs : list freenect_device_attributes) (index : Z)
  : list DeviceInfo.t :=
  match attrs with
  | [] => []
  | cur :: next =>
      DeviceInfo.mk kV1
        (match camera_serial cur with
         | Some s => s
         | None => synthetic_serial index
         end)
        "Kinect v1"
      :: devices_of_attributes next (index + 1)
  end.

(** The first loop of [listDevices]; [None] when all four attempts came
    back without a usable attribute list. *)
Fixpoint listDevices_loop (todo : nat) (attempt : Z) : Native (option (list DeviceInfo.t)) :=
  match todo with
  | O => ret None
  | S todo' =>
      let* '(count, attrs) :=
        native c_list_device_attributes (freenect_list_device_attributes drv) in
      if (0 <? count) && negb (vec_empty attrs) then
        ret (Some (devices_of_attributes attrs 0))
      else
        let* _ := when (attempt + 1 <? 4) (sleep_for 80) in
        listDevices_loop todo' (attempt + 1)
  end.

Definition listDevices (be : Backend.t) : Native (list DeviceInfo.t) :=
  if negb (Backend.ctx_ be) then ret []
  else
    let* found := listDevices_loop 4 0 in
    match found with
    | Some devices => ret devices
    | None =>
        (* Fallback by index only. *)
        let* n := EnumerateCountWithRetries be 4 80 in
        let fallback_count := Z.max 0 n in
        ret ((λ i, DeviceInfo.mk kV1 (synthetic_serial i) "Kinect v1")
               <$> seqZ 0 fallback_count)
    end.

(** *** FreenectV1Backend::openDevice *)

(** The lambda [try_open]; a device that fails to open is destroyed when
    the lambda returns. *)
Definition try_open (be : Backend.t) (index : Z) (candidate_serial : string)
  : Native (option Device.t) :=
  let device :=
    Device.new (Backend.ctx_ be) index candidate_serial (Backend.has_audio_firmware_ be) in
  let* '(opened, device) := open device in
  if negb opened then
    let* _ := destroy device in ret None
  else ret (Some device).

(** [serial.substr(pos)] for [pos <= serial.size()]. *)
Definition substr (pos : nat) (s : string) : string :=
  String.substring pos (String.length s - pos) s.

(** The first [i] with [devices[i].serial == serial]. *)
Fixpoint find_serial (devices : list DeviceInfo.t) (serial : string) (i : Z) : option Z :=
  match devices with
  | [] => None
  | info :: rest =>
      if String.eqb (DeviceInfo.serial info) serial then Some i
      else find_serial rest serial (i + 1)
  end.

(** [for (int i = 0; i < count; ++i) if (seen.insert(i).second)
    candidates.push_back(i);], with [todo = count - i]. *)
Fixpoint add_unseen (todo : nat) (i : Z) (candidates : list Z) (seen : gset Z)
  : list Z * gset Z :=
  match todo with
  | O => (candidates, seen)
  | S todo' =>
      if bool_decide (i ∈ seen) then add_unseen todo' (i + 1) candidates seen
      else add_unseen todo' (i + 1) (candidates ++ [i]) ({[ i ]} ∪ seen)
  end.

(** [for (int index : candidates) if (auto device = try_open(index, serial))
    return device;] *)
Fixpoint open_candidates (be : Backend.t) (serial : string) (candidates : list Z)
  : Native (option Device.t) :=
  match candidates with
  | [] => ret None
  | index :: rest =>
      let* device := try_open be index serial in
      match device with
      | Some d => ret (Some d)
      | None => open_candidates be serial rest
      end
  end.

(** The positional candidates of one attempt, in the order they are tried. *)
Definition candidates_of (be : Backend.t) (serial : string) (count : Z)
  : Native (list Z) :=
  let* '(candidates, seen) :=
    if String.prefix "DeviceIndex-" serial then
      match Stoi.stoi (substr 12 serial) with
      | Some parsed => ret ([parsed], ({[ parsed ]} : gset Z))
      | None => ret ([], ∅)
      end
    else if negb (String.eqb serial "") then
      let* devices := listDevices be in
      match find_serial devices serial 0 with
      | Some idx => ret ([idx], {[ idx ]})
      | None => ret ([], ∅)
      end
    else ret ([], ∅) in
  ret (fst (add_unseen (Z.to_nat count) 0 candidates seen)).

Definition kMaxRetries : nat := 6.

(** The retry loop of [openDevice], with [todo = kMaxRetries - attempt]. *)
Fixpoint openDevice_loop (be : Backend.t) (serial : string) (todo : nat)
  : Native (option Device.t) :=
  match todo with
  | O => ret None
  | S todo' =>
      let* exact :=
        if negb (String.eqb serial "") && negb (IsSyntheticIndexSerial serial)
        then try_open be (-1) serial
        else ret None in
      match exact with
      | Some d => ret (Some d)
      | None =>
          let* n := EnumerateCountWithRetries be 2 80 in
          let count := Z.max 0 n in
          let* candidates := candidates_of be serial count in
          let* opened := open_candidates be serial candidates in
          match opened with
          | Some d => ret (Some d)
          | None =>
              let* _ := sleep_for 250 in
              openDevice_loop be serial todo'
          end
      end
  end.

Definition openDevice (be : Backend.t) (serial : string) : Native (option Device.t) :=
  if negb (Backend.ctx_ be) then ret None
  else openDevice_loop be serial kMaxRetries.

(** *** FreenectV1Backend::preview

    [polls] is the number of times [steady_clock::now() < end] holds before
    the deadline passes: the wall clock is outside the program, it is
    monotone and [duration] is finite, so the loop body runs a finite
    number of times that the environment decides. *)

Fixpoint preview_loop (polls : nat) (device : Device.t) (result : PreviewResult.t)
  : Native (Device.t * PreviewResult.t) :=
  match polls with
  | O => ret (device, result)
  | S polls' =>
      let* '(_, device) := update device in
      let '(got, frame, device) := getFrame device FrameData.empty in
      preview_loop polls' device (if got then count_frame frame result else result)
  end.

Definition preview (be : Backend.t) (polls : nat) : Native PreviewResult.t :=
  let result := PreviewResult.init in
  let* devices := listDevices be in
  match devices with
  | [] => ret (with_detail "No Kinect v1 device available for preview." result)
  | first :: _ =>
      let* device := openDevice be (DeviceInfo.serial first) in
      match device with
      | None => ret (with_detail "Could not start Kinect v1 preview." result)
      | Some device =>
          let* '(started, device) := start device in
          if negb started then
            let* _ := destroy device in
            ret (with_detail "Could not start Kinect v1 preview." result)
          else
            let* '(device, result) := preview_loop polls device result in
            let* '(_, device) := stop device in
            let result := finish_preview result in
            let* _ := destroy device in
            ret result
      end
  end.

End WithDriver.
End V1.

(** ** Generation 2: [freenect_v2_backend.cpp] *)

Module V2.

(** [libfreenect2::Freenect2Device *]. *)
Abbreviation DevPtr := nat.

(** [libfreenect2::Frame], with the element type of its [data].  The header
    of the library is not part of the repository: the dimensions are
    integers of the library's choosing, here [Z]. *)
Module Frame.
Record t (E : Type) := mk {
    width : Z;
    height : Z;
    timestamp : Z;
    data : nat → E
  }.
Arguments mk {E}.
Arguments width {E}.
Arguments height {E}.
Arguments timestamp {E}.
Arguments data {E}.
End Frame.

(** [libfreenect2::FrameMap]: [frames.count(type) > 0] is [Some]. *)
Module FrameMap.
Record t (float : Type) := mk {
    Color : option (Frame.t Z);       (* BGRA bytes *)
    Ir : option (Frame.t float);
    Depth : option (Frame.t float)
  }.
Arguments mk {float}.
Arguments Color {float}.
Arguments Ir {float}.
Arguments Depth {float}.
End FrameMap.

Inductive Call :=
  | c_enumerateDevices
  | c_getDeviceSerialNumber (index : Z)
  | c_openDevice (serial : string)
  | c_start (dev : DevPtr)
  | c_stop (dev : DevPtr)
  | c_close (dev : DevPtr)
  | c_waitForNewFrame
  | c_release.

Global Instance Call2_eq_dec : EqDecision Call.
Proof. solve_decision. Defined.

Definition History := list Call.

(** The library as the backend sees it; [waitForNewFrame] answers [None]
    when no bundle arrived within the timeout. *)
Record Driver (float : Type) := {
    enumerateDevices : History → Z;
    getDeviceSerialNumber : History → Z → string;
    openDevice_native : History → string → option DevPtr;
    start_native : History → DevPtr → bool;
    waitForNewFrame : History → option (FrameMap.t float)
  }.
Arguments enumerateDevices {float}.
Arguments getDeviceSerialNumber {float}.
Arguments openDevice_native {float}.
Arguments start_native {float}.
Arguments waitForNewFrame {float}.

Abbreviation Native := (Logged Call).

(** [FreenectV2Device]. *)
Module Device.
Record t := mk {
    ctx_ : bool;                   (* [ctx_ != nullptr] *)
    serial_ : string;
    dev_ : option DevPtr;
    frame_ : FrameData.t;
    has_new_frame_ : bool;
    running_ : bool;
    selected_stream_ : StreamKind
  }.

Definition new (ctx : bool) (serial : string) : t :=
  mk ctx serial None FrameData.empty false false kRgb.

Definition set_dev_ (v : option DevPtr) (d : t) : t :=
  mk (ctx_ d) (serial_ d) v (frame_ d) (has_new_frame_ d) (running_ d) (selected_stream_ d).
Definition set_frame_ (v : FrameData.t) (d : t) : t :=
  mk (ctx_ d) (serial_ d) (dev_ d) v (has_new_frame_ d) (running_ d) (selected_stream_ d).
Definition set_has_new_frame_ (v : bool) (d : t) : t :=
  mk (ctx_ d) (serial_ d) (dev_ d) (frame_ d) v (running_ d) (selected_stream_ d).
Definition set_running_ (v : bool) (d : t) : t :=
  mk (ctx_ d) (serial_ d) (dev_ d) (frame_ d) (has_new_frame_ d) v (selected_stream_ d).
Definition set_selected_stream_ (v : StreamKind) (d : t) : t :=
  mk (ctx_ d) (serial_ d) (dev_ d) (frame_ d) (has_new_frame_ d) (running_ d) v.
End Device.

(** The locals of [update] once the three conversions are done. *)
Module Converted.
Record t := mk {
    rgb_data : list Z;
    depth_data : list Z;
    ir_data : list Z;
    rgb_w : Z; rgb_h : Z;
    depth_w : Z; depth_h : Z;
    ir_w : Z; ir_h : Z;
    rgb_ts : Z; depth_ts : Z; ir_ts : Z
  }.
End Converted.

(** Conversion of an integer to [int] and to [std::size_t]. *)
Definition to_int (n : Z) : Z := (n + 2 ^ 31) mod 2 ^ 32 - 2 ^ 31.
Definition to_size_t (n : Z) : Z := n mod 2 ^ 64.

(** *** The three closures of [update]

    Each one either leaves [next_frame] alone or fills its own buffer and
    the common header.  A closure that succeeded moved its buffer away; no
    closure runs after a success, so the moved-from buffer is never read. *)
Definition assign_rgb (c : Converted.t) (next_frame : FrameData.t) : bool * FrameData.t :=
  if vec_empty (Converted.rgb_data c) || (Converted.rgb_w c <=? 0) || (Converted.rgb_h c <=? 0)
  then (false, next_frame)
  else (true,
        FrameData.mk (Converted.rgb_data c) (FrameData.depth next_frame)
          (FrameData.ir next_frame)
          (Converted.rgb_w c) (Converted.rgb_h c) (Converted.rgb_ts c)).

Definition assign_depth (c : Converted.t) (next_frame : FrameData.t) : bool * FrameData.t :=
  if vec_empty (Converted.depth_data c) || (Converted.depth_w c <=? 0)
     || (Converted.depth_h c <=? 0)
  then (false, next_frame)
  else (true,
        FrameData.mk (FrameData.rgb next_frame) (Converted.depth_data c)
          (FrameData.ir next_frame)
          (Converted.depth_w c) (Converted.depth_h c) (Converted.depth_ts c)).

Definition assign_ir (c : Converted.t) (next_frame : FrameData.t) : bool * FrameData.t :=
  if vec_empty (Converted.ir_data c) || (Converted.ir_w c <=? 0) || (Converted.ir_h c <=? 0)
  then (false, next_frame)
  else (true,
        FrameData.mk (FrameData.rgb next_frame) (FrameData.depth next_frame)
          (Converted.ir_data c)
          (Converted.ir_w c) (Converted.ir_h c) (Converted.ir_ts c)).

(** [a() || b()] on closures that update [next_frame]. *)
Definition or_else (a b : FrameData.t → bool * FrameData.t) (next_frame : FrameData.t)
  : bool * FrameData.t :=
  let '(done, next_frame) := a next_frame in
  if done then (true, next_frame) else b next_frame.

(** From [FrameData next_frame;] down to the test [if (assigned)]. *)
Definition select_frame (selected_stream_ : StreamKind) (c : Converted.t)
  : bool * FrameData.t :=
  let next_frame := FrameData.empty in
  let '(assigned, next_frame) :=
    match selected_stream_ with
    | kRgb => assign_rgb c next_frame
    | kIr => assign_ir c next_frame
    | kDepth => assign_depth c next_frame
    end in
  if negb assigned then
    or_else (assign_rgb c) (or_else (assign_ir c) (assign_depth c)) next_frame
  else (assigned, next_frame).

Section WithDriver.
Variable float : Type.
(** [static_cast<std::uint16_t>(std::max(0.0f, std::min(65535.0f, mm)))] *)
Variable depth_sample : float → Z.
(** [static_cast<std::uint8_t>(std::max(0.0f, std::min(255.0f, v / 65535.0f * 255.0f)))] *)
Variable ir_sample : float → Z.
Variable drv : Driver float.

(** *** The conversions at the head of [update]

    A vector is resized (zero-filled) and then written index by index. *)
Definition convert_color (color : Frame.t Z) : list Z :=
  let size := to_size_t (Frame.width color * Frame.height color * 3) in
  let src := Frame.data color in
  foldl (λ rgb_data i,
           <[(i * 3 + 2)%nat := src (i * 4 + 0)%nat]>
             (<[(i * 3 + 1)%nat := src (i * 4 + 1)%nat]>
                (<[(i * 3 + 0)%nat := src (i * 4 + 2)%nat]> rgb_data)))
    (replicate (Z.to_nat size) 0)
    (seq 0 (Z.to_nat (Frame.width color * Frame.height color))).

Definition convert_depth (depth : Frame.t float) : list Z :=
  let size := to_size_t (Frame.width depth * Frame.height depth) in
  let src := Frame.data depth in
  foldl (λ depth_data i, <[i := depth_sample (src i)]> depth_data)
    (replicate (Z.to_nat size) 0)
    (seq 0 (Z.to_nat (Frame.width depth * Frame.height depth))).

Definition convert_ir (ir : Frame.t float) : list Z :=
  let size := to_size_t (Frame.width ir * Frame.height ir) in
  let src := Frame.data ir in
  foldl (λ ir_data i, <[i := ir_sample (src i)]> ir_data)
    (replicate (Z.to_nat size) 0)
    (seq 0 (Z.to_nat (Frame.width ir * Frame.height ir))).

Definition convert (frames : FrameMap.t float) : Converted.t :=
  let '(rgb_data, rgb_w, rgb_h, rgb_ts) :=
    match FrameMap.Color frames with
    | Some color =>
        (convert_color color, to_int (Frame.width color), to_int (Frame.height color),
         Frame.timestamp color)
    | None => ([], 0, 0, 0)
    end in
  let '(depth_data, depth_w, depth_h, depth_ts) :=
    match FrameMap.Depth frames with
    | Some depth =>
        (convert_depth depth, to_int (Frame.width depth), to_int (Frame.height depth),
         Frame.timestamp depth)
    | None => ([], 0, 0, 0)
    end in
  let '(ir_data, ir_w, ir_h, ir_ts) :=
    match FrameMap.Ir frames with
    | Some ir =>
        (convert_ir ir, to_int (Frame.width ir), to_int (Frame.height ir),
         Frame.timestamp ir)
    | None => ([], 0, 0, 0)
    end in
  Converted.mk rgb_data depth_data ir_data rgb_w rgb_h depth_w depth_h ir_w ir_h
    rgb_ts depth_ts ir_ts.

(** *** FreenectV2Device *)

Definition open (d : Device.t) : Native (bool * Device.t) :=
  if negb (Device.ctx_ d) then ret (false, d)
  else
    let* dev := native (c_openDevice (Device.serial_ d))
                  (λ h, openDevice_native drv h (Device.serial_ d)) in
    let d := Device.set_dev_ dev d in
    match dev with
    | None => ret (false, d)
    | Some _ => ret (true, d)
    end.

Definition start (d : Device.t) : Native (bool * Device.t) :=
  match Device.dev_ d with
  | None => ret (false, d)
  | Some dev =>
      if Device.running_ d then ret (true, d)
      else
        let* started := native (c_start dev) (λ h, start_native drv h dev) in
        if negb started then ret (false, d)
        else ret (true, Device.set_running_ true d)
  end.

Definition stop (d : Device.t) : Native (bool * Device.t) :=
  match Device.dev_ d with
  | None => ret (false, d)
  | Some dev =>
      let* d :=
        (if Device.running_ d then
           let* _ := native (c_stop dev) (λ _, ()) in
           ret (Device.set_running_ false d)
         else ret d) in
      ret (true, d)
  end.

Definition destroy (d : Device.t) : Native () :=
  let* '(_, d) := stop d in
  match Device.dev_ d with
  | Some dev => native (c_close dev) (λ _, ())
  | None => ret ()
  end.

Definition update (d : Device.t) : Native (bool * Device.t) :=
  if negb (Device.running_ d) then ret (false, d)
  else
    let* frames := native c_waitForNewFrame (waitForNewFrame drv) in
    match frames with
    | None => ret (false, d)
    | Some frames =>
        let '(assigned, next_frame) :=
          select_frame (Device.selected_stream_ d) (convert frames) in
        let d :=
          if assigned
          then Device.set_has_new_frame_ true (Device.set_frame_ next_frame d)
          else d in
        let* _ := native c_release (λ _, ()) in
        ret (assigned, d)
    end.

Definition getFrame (d : Device.t) (out_frame : FrameData.t)
  : bool * FrameData.t * Device.t :=
  if negb (Device.has_new_frame_ d) then (false, out_frame, d)
  else (true, Device.frame_ d, Device.set_has_new_frame_ false d).

Definition setStreamKind (kind : StreamKind) (d : Device.t) : Device.t :=
  Device.set_selected_stream_ kind d.

(** *** FreenectV2Backend: the context is a member object, always there *)

Definition probe : Native ProbeResult.t :=
  let* count := native c_enumerateDevices (enumerateDevices drv) in
  if count <=? 0 then ret (ProbeResult.mk false "No Kinect v2 devices found.")
  else ret (ProbeResult.mk true (to_string count +:+ " Kinect v2 device(s) detected.")).

(** The loop of [listDevices], with [todo = count - i]. *)
Fixpoint listDevices_loop (todo : nat) (i : Z) (devices : list DeviceInfo.t)
  : Native (list DeviceInfo.t) :=
  match todo with
  | O => ret devices
  | S todo' =>
      let* serial := native (c_getDeviceSerialNumber i)
                       (λ h, getDeviceSerialNumber drv h i) in
      listDevices_loop todo' (i + 1) (devices ++ [DeviceInfo.mk kV2 serial "Kinect v2"])
  end.

Definition listDevices : Native (list DeviceInfo.t) :=
  let* count := native c_enumerateDevices (enumerateDevices drv) in
  listDevices_loop (Z.to_nat count) 0 [].

Definition openDevice (serial : string) : Native (option Device.t) :=
  if String.eqb serial "" then ret None
  else
    let device := Device.new true serial in
    let* '(opened, device) := open device in
    if negb opened then
      let* _ := destroy device in ret None
    else ret (Some device).

Fixpoint preview_loop (polls : nat) (device : Device.t) (result : PreviewResult.t)
  : Native (Device.t * PreviewResult.t) :=
  match polls with
  | O => ret (device, result)
  | S polls' =>
      let* '(updated, device) := update device in
      if updated then
        let '(got, frame, device) := getFrame device FrameData.empty in
        preview_loop polls' device (if got then count_frame frame result else result)
      else preview_loop polls' device result
  end.

Definition preview (polls : nat) : Native PreviewResult.t :=
  let result := PreviewResult.init in
  let* devices := listDevices in
  match devices with
  | [] => ret (with_detail "No Kinect v2 device available for preview." result)
  | first :: _ =>
      let* device := openDevice (DeviceInfo.serial first) in
      match device with
      | None => ret (with_detail "Could not start Kinect v2 preview." result)
      | Some device =>
          let* '(started, device) := start device in
          if negb started then
            let* _ := destroy device in
            ret (with_detail "Could not start Kinect v2 preview." result)
          else
            let* '(device, result) := preview_loop polls device result in
            let* '(_, device) := stop device in
            let result := finish_preview result in
            let* _ := destroy device in
            ret result
      end
  end.

End WithDriver.
End V2.

(** ** The point-list export of [control_center_v1.cpp] *)

Module ControlCenter.

Definition kFrameWidth : nat := 640.
Definition kFrameHeight : nat := 480.
Definition kFramePixels : nat := kFrameWidth * kFrameHeight.
Definition kFrameRgbBytes : nat := kFramePixels * 3.

(** One line of the body: [wx wy d r g b]. *)
Record PlyPoint (double : Type) := {
    wx : double; wy : double; pd : Z; pr : Z; pg : Z; pb : Z
  }.
Arguments Build_PlyPoint {double}.

(** The file as written: the count of the [element vertex] header line (all
    other header lines are constant text) and the body lines in order. *)
Record PlyFile (double : Type) := {
    element_vertex : Z;
    points : list (PlyPoint double)
  }.
Arguments Build_PlyFile {double}.
Arguments element_vertex {double}.
Arguments points {double}.

(** [d >= 350 && d <= 6000], the test of the counting loop. *)
Definition counted (d : Z) : bool := (350 <=? d) && (d <=? 6000).

(** [d < 350 || d > 6000], the test before [continue] in the writing loop. *)
Definition skipped (d : Z) : bool := (d <? 350) || (6000 <? d).

Section PointCloud.
Variable double : Type.
(** [freenect_camera_to_world(g_dev, x, y, d, &wx, &wy)] *)
Variable freenect_camera_to_world : nat → nat → Z → double * double.

(** The first loop: [valid_points]. *)
Definition count_valid (depth : list Z) : Z :=
  foldl (λ valid_points d, if counted d then valid_points + 1 else valid_points) 0 depth.

(** The body of the inner loop.  [operator[]] past the end of a vector is
    undefined behaviour: [None]. *)
Definition write_point (depth rgb : list Z) (x y : nat) : option (list (PlyPoint double)) :=
  let index := (y * kFrameWidth + x)%nat in
  d ← depth !! index;
  if skipped d then Some []
  else
    let '(wx, wy) := freenect_camera_to_world x y d in
    r ← rgb !! (index * 3 + 0)%nat;
    g ← rgb !! (index * 3 + 1)%nat;
    b ← rgb !! (index * 3 + 2)%nat;
    Some [Build_PlyPoint wx wy d r g b].

(** [for (int x = 0; x < kFrameWidth; ++x)] and the loop over [y] around it;
    the lines come out in the order they are written. *)
Definition write_row (depth rgb : list Z) (y : nat) : option (list (PlyPoint double)) :=
  (λ written, concat written) <$> mapM (λ x, write_point depth rgb x y) (seq 0 kFrameWidth).

Definition write_body (depth rgb : list Z) : option (list (PlyPoint double)) :=
  (λ written, concat written) <$> mapM (write_row depth rgb) (seq 0 kFrameHeight).

(** [SavePointCloudPly]: the returned count and the file, if one was
    written.  [g_dev] tells whether the global device pointer is non-null,
    [is_open] whether the output stream opened.  The whole result is
    [None] when a vector is read past its end. *)
Definition SavePointCloudPly (g_dev is_open : bool) (depth rgb : list Z)
  : option (Z * option (PlyFile double)) :=
  if negb g_dev then Some (0, None)
  else
    let valid_points := count_valid depth in
    if negb is_open then Some (0, None)
    else
      body ← write_body depth rgb;
      Some (valid_points, Some (Build_PlyFile valid_points body)).
End PointCloud.
End ControlCenter.

(** ** The producer side of the sample queue of [KinectCameraDALPlugin.cpp] *)

Module DAL.

Definition kQueueCapacity : Z := 8.

Definition noErr : Z := 0.
Definition kCMSimpleQueueError_QueueIsFull : Z := -12773.

(** [CMSimpleQueue] of CoreMedia, a FIFO of fixed capacity: the elements,
    oldest first.  Enqueueing into a full queue is refused, dequeueing from
    an empty one yields null. *)
Record CMSimpleQueue (A : Type) := {
    capacity : Z;
    elements : list A
  }.
Arguments Build_CMSimpleQueue {A}.
Arguments capacity {A}.
Arguments elements {A}.

Section Queue.
Context {A : Type}.

Definition CMSimpleQueueCreate (capacity : Z) : CMSimpleQueue A :=
  Build_CMSimpleQueue capacity [].

Definition CMSimpleQueueGetCount (q : CMSimpleQueue A) : Z :=
  Z.of_nat (length (elements q)).

Definition CMSimpleQueueDequeue (q : CMSimpleQueue A) : option A * CMSimpleQueue A :=
  match elements q with
  | [] => (None, q)
  | oldest :: rest => (Some oldest, Build_CMSimpleQueue (capacity q) rest)
  end.

Definition CMSimpleQueueEnqueue (q : CMSimpleQueue A) (element : A) : Z * CMSimpleQueue A :=
  if CMSimpleQueueGetCount q <? capacity q
  then (noErr, Build_CMSimpleQueue (capacity q) (elements q ++ [element]))
  else (kCMSimpleQueueError_QueueIsFull, q).

(** The globals that [ProducerLoop] touches under [gStateMutex], with a
    log of the samples handed to [CFRelease] and of those announced
    through [gQueueAlteredProc]. *)
Record State := {
    gSampleQueue : option (CMSimpleQueue A);
    gQueueAlteredProc : bool;      (* [gQueueAlteredProc != nullptr] *)
    released : list A;
    announced : list A
  }.

(** [while (CMSimpleQueueGetCount(q) >= kQueueCapacity) { dequeue; release }].
    Every round removes an element, so [fuel] beyond the number of
    elements is never used. *)
Fixpoint evict (fuel : nat) (q : CMSimpleQueue A) (released : list A)
  : CMSimpleQueue A * list A :=
  match fuel with
  | O => (q, released)
  | S fuel' =>
      if kQueueCapacity <=? CMSimpleQueueGetCount q then
        let '(old_sample, q) := CMSimpleQueueDequeue q in
        evict fuel' q
          (match old_sample with Some old => released ++ [old] | None => released end)
      else (q, released)
  end.

(** One round of [ProducerLoop] after [CreateSampleBuffer] returned
    [sample]; the sleep until the next tick is not modelled. *)
Definition produce (st : State) (sample : option A) : State :=
  match sample with
  | None => st
  | Some s =>
      match gSampleQueue st with
      | None =>
          {| gSampleQueue := None; gQueueAlteredProc := gQueueAlteredProc st;
             released := released st ++ [s]; announced := announced st |}
      | Some q =>
          let '(q, rel) := evict (S (length (elements q))) q (released st) in
          let '(enqueue_rc, q) := CMSimpleQueueEnqueue q s in
          if enqueue_rc =? noErr then
            {| gSampleQueue := Some q; gQueueAlteredProc := gQueueAlteredProc st;
               released := rel;
               announced := if gQueueAlteredProc st then announced st ++ [s]
                            else announced st |}
          else
            {| gSampleQueue := Some q; gQueueAlteredProc := gQueueAlteredProc st;
               released := rel ++ [s]; announced := announced st |}
      end
  end.

(** What happens to the queue while the producer runs: a round of the
    producer, or the host taking the oldest sample. *)
Inductive Event :=
  | Produced (sample : option A)
  | HostDequeue.

Definition step (st : State) (e : Event) : State :=
  match e with
  | Produced sample => produce st sample
  | HostDequeue =>
      match gSampleQueue st with
      | None => st
      | Some q =>
          {| gSampleQueue := Some (snd (CMSimpleQueueDequeue q));
             gQueueAlteredProc := gQueueAlteredProc st;
             released := released st; announced := announced st |}
      end
  end.

(** [ProducerLoop] from the moment the host obtained the queue
    ([CMSimpleQueueCreate] with [kQueueCapacity]). *)
Definition initial (proc : bool) : State :=
  {| gSampleQueue := Some (CMSimpleQueueCreate kQueueCapacity);
     gQueueAlteredProc := proc; released := []; announced := [] |}.

Definition ProducerLoop (st : State) (events : list Event) : State :=
  foldl step st events.
End Queue.
Arguments State : clear implicits.
Arguments Event : clear implicits.
End DAL.

(** ** The WAV recorder of [control_center_v1.cpp] *)

Module Recorder.

(** Conversions to the unsigned types. *)
Definition to_u8 (n : Z) : Z := n mod 2 ^ 8.
Definition to_u16 (n : Z) : Z := n mod 2 ^ 16.
Definition to_u32 (n : Z) : Z := n mod 2 ^ 32.
Definition to_u64 (n : Z) : Z := n mod 2 ^ 64.
Definition UINT32_MAX : Z := 2 ^ 32 - 1.

(** The bytes of a string literal. *)
Fixpoint bytes_of (s : string) : list Z :=
  match s with
  | EmptyString => []
  | String c s' => Z.of_nat (nat_of_ascii c) :: bytes_of s'
  end.

(** [PutLe16(dst, value)] and [PutLe32(dst, value)]: the bytes stored at
    [dst[0]], [dst[1]], ...; the argument is converted to the type of the
    parameter. *)
Definition PutLe16 (value : Z) : list Z :=
  let value := to_u16 value in
  [to_u8 (Z.land value 255); to_u8 (Z.land (Z.shiftr value 8) 255)].

Definition PutLe32 (value : Z) : list Z :=
  let value := to_u32 value in
  [to_u8 (Z.land value 255); to_u8 (Z.land (Z.shiftr value 8) 255);
   to_u8 (Z.land (Z.shiftr value 16) 255); to_u8 (Z.land (Z.shiftr value 24) 255)].

(** A store of [bytes] at [buf + off], as [memcpy] and the two functions above
    do on the header array. *)
Definition poke (off : nat) (bytes : list Z) (buf : list Z) : list Z :=
  take off buf ++ bytes ++ drop (off + length bytes) buf.

(** The files behind the streams: for each path that was opened, the bytes of
    the file and the position of its stream.  A [FILE *] is the path it was
    opened on. *)
Abbreviation Store := (gmap string (list Z * nat)).

Inductive Call :=
  | c_TimestampNow
  | c_mkdir (path : string)
  | c_fopen (path : string)
  | c_fwrite (file : string) (size count : Z)
  | c_fclose (file : string).

Abbreviation History := (list Call).

(** The C library and the clock.  [fwrite_answer] is the number of elements
    that [fwrite] reports as written. *)
Record Stdio := {
    TimestampNow_answer : History → string;
    fopen_answer : History → string → bool;
    fwrite_answer : History → string → Z → Z → Z
  }.

Abbreviation Native := (Logged Call).

Module WavSink.
Record t := mk {
    file : option string;
    path : string;
    bits_per_sample : Z;
    sample_count : Z       (* std::uint64_t *)
  }.
Definition init : t := mk None "" 0 0.
End WavSink.

(** The globals of the recorder, and the files. *)
Record State := {
    g_mic_wavs : list WavSink.t;       (* WavSink g_mic_wavs[4] *)
    g_cancelled_wav : WavSink.t;
    g_audio_recording : bool;
    g_audio_stream_available : bool;
    g_status_message : string;
    files : Store
  }.

Definition initial : State :=
  {| g_mic_wavs := replicate 4 WavSink.init; g_cancelled_wav := WavSink.init;
     g_audio_recording := false; g_audio_stream_available := false;
     g_status_message := "Ready."; files := ∅ |}.

Definition set_files (fs : Store) (st : State) : State :=
  {| g_mic_wavs := g_mic_wavs st; g_cancelled_wav := g_cancelled_wav st;
     g_audio_recording := g_audio_recording st;
     g_audio_stream_available := g_audio_stream_available st;
     g_status_message := g_status_message st; files := fs |}.

Definition set_mic (i : nat) (sink : WavSink.t) (st : State) : State :=
  {| g_mic_wavs := <[i := sink]> (g_mic_wavs st); g_cancelled_wav := g_cancelled_wav st;
     g_audio_recording := g_audio_recording st;
     g_audio_stream_available := g_audio_stream_available st;
     g_status_message := g_status_message st; files := files st |}.

Definition set_cancelled (sink : WavSink.t) (st : State) : State :=
  {| g_mic_wavs := g_mic_wavs st; g_cancelled_wav := sink;
     g_audio_recording := g_audio_recording st;
     g_audio_stream_available := g_audio_stream_available st;
     g_status_message := g_status_message st; files := files st |}.

Definition set_recording (b : bool) (st : State) : State :=
  {| g_mic_wavs := g_mic_wavs st; g_cancelled_wav := g_cancelled_wav st;
     g_audio_recording := b;
     g_audio_stream_available := g_audio_stream_available st;
     g_status_message := g_status_message st; files := files st |}.

(** [SetStatus]; the copy printed on standard output is not modelled. *)
Definition SetStatus (message : string) (st : State) : State :=
  {| g_mic_wavs := g_mic_wavs st; g_cancelled_wav := g_cancelled_wav st;
     g_audio_recording := g_audio_recording st;
     g_audio_stream_available := g_audio_stream_available st;
     g_status_message := message; files := files st |}.

Section WithStdio.
Variable io : Stdio.

(** [std::fopen(path, "wb+")]: the file is created or emptied. *)
Definition fopen (path : string) (fs : Store) : Native (option string * Store) :=
  let* ok := native (c_fopen path) (λ h, fopen_answer io h path) in
  if ok then ret (Some path, <[path := ([], 0%nat)]> fs) else ret (None, fs).

(** [std::fseek(file, 0, SEEK_SET)]. *)
Definition rewind (file : string) (fs : Store) : Store :=
  match fs !! file with
  | Some (bytes, _) => <[file := (bytes, 0%nat)]> fs
  | None => fs
  end.

(** [std::fwrite(data, size, count, file)]: the elements that the library
    reports as written are stored at the position of the stream, over what
    the file held there. *)
Definition fwrite (data : list Z) (size count : Z) (file : string) (fs : Store)
  : Native (Z * Store) :=
  let* answer := native (c_fwrite file size count) (λ h, fwrite_answer io h file size count) in
  let written := Z.max 0 (Z.min count answer) in
  match fs !! file with
  | Some (bytes, pos) =>
      let stored := take (Z.to_nat (written * size)) data in
      ret (written, <[file := (poke pos stored bytes, (pos + length stored)%nat)]> fs)
  | None => ret (written, fs)
  end.

Definition fclose (file : string) : Native () :=
  native (c_fclose file) (λ _, ()).

(** *** WriteWavHeader

    [sample_rate * channels * bits_per_sample] is an [int] product: the model
    is the code for arguments whose product fits an [int]. *)
Definition WriteWavHeader (file : option string) (sample_rate bits_per_sample data_bytes : Z)
    (fs : Store) : Native (bool * Store) :=
  match file with
  | None => ret (false, fs)
  | Some file =>
      let data_bytes := to_u32 data_bytes in
      let header := replicate 44 0 in
      let channels := 1 in
      let byte_rate := to_u32 (Z.quot (sample_rate * channels * bits_per_sample) 8) in
      let block_align := to_u16 (Z.quot (channels * bits_per_sample) 8) in
      let chunk_size := to_u32 (36 + data_bytes) in
      let header := poke 0 (bytes_of "RIFF") header in
      let header := poke 4 (PutLe32 chunk_size) header in
      let header := poke 8 (bytes_of "WAVE") header in
      let header := poke 12 (bytes_of "fmt ") header in
      let header := poke 16 (PutLe32 16) header in
      let header := poke 20 (PutLe16 1) header in
      let header := poke 22 (PutLe16 channels) header in
      let header := poke 24 (PutLe32 (to_u32 sample_rate)) header in
      let header := poke 28 (PutLe32 byte_rate) header in
      let header := poke 32 (PutLe16 block_align) header in
      let header := poke 34 (PutLe16 (to_u16 bits_per_sample)) header in
      let header := poke 36 (bytes_of "data") header in
      let header := poke 40 (PutLe32 data_bytes) header in
      let fs := rewind file fs in
      let* '(written, fs) := fwrite header 1 44 file fs in
      ret (written =? 44, fs)
  end.

(** *** CloseWavSink, on a sink that is not null *)
Definition CloseWavSink (sink : WavSink.t) (fs : Store) : Native (WavSink.t * Store) :=
  match WavSink.file sink with
  | None => ret (sink, fs)
  | Some file =>
      let bytes_per_sample := to_u32 (Z.quot (WavSink.bits_per_sample sink) 8) in
      let bytes_u64 := to_u64 (WavSink.sample_count sink * bytes_per_sample) in
      let data_bytes :=
        if UINT32_MAX <? bytes_u64 then UINT32_MAX else to_u32 bytes_u64 in
      let* '(_, fs) :=
        WriteWavHeader (Some file) 16000 (WavSink.bits_per_sample sink) data_bytes fs in
      let* _ := fclose file in
      ret (WavSink.mk None (WavSink.path sink) (WavSink.bits_per_sample sink)
             (WavSink.sample_count sink), fs)
  end.

(** *** StopAudioRecordingLocked *)

(** [for (WavSink &sink : g_mic_wavs) CloseWavSink(&sink);], from index [i]. *)
Fixpoint close_mics (todo : nat) (i : nat) (st : State) : Native State :=
  match todo with
  | O => ret st
  | S todo' =>
      match g_mic_wavs st !! i with
      | Some sink =>
          let* '(sink, fs) := CloseWavSink sink (files st) in
          close_mics todo' (S i) (set_files fs (set_mic i sink st))
      | None => ret st
      end
  end.

Definition StopAudioRecordingLocked (st : State) : Native State :=
  let* st := close_mics (length (g_mic_wavs st)) 0 st in
  let* '(sink, fs) := CloseWavSink (g_cancelled_wav st) (files st) in
  ret (set_recording false (set_files fs (set_cancelled sink st))).

(** *** StartAudioRecordingLocked *)

(** The lambda [open_sink]: the answer and the sink afterwards. *)
Definition open_sink (base_dir : string) (sink : WavSink.t) (name : string)
    (bits_per_sample : Z) (fs : Store) : Native (bool * WavSink.t * Store) :=
  let filepath := base_dir +:+ "/" +:+ name in
  let* '(file, fs) := fopen filepath fs in
  let sink := WavSink.mk file filepath bits_per_sample 0 in
  match file with
  | None => ret (false, sink, fs)
  | Some _ =>
      let* '(ok, fs) := WriteWavHeader file 16000 bits_per_sample 0 fs in
      ret (ok, sink, fs)
  end.

(** [open_sink(&g_mic_wavs[i], name, 32)]. *)
Definition open_mic (base_dir : string) (i : nat) (name : string) (st : State)
  : Native (bool * State) :=
  let* '(ok, sink, fs) :=
    open_sink base_dir (default WavSink.init (g_mic_wavs st !! i)) name 32 (files st) in
  ret (ok, set_files fs (set_mic i sink st)).

Definition open_cancelled (base_dir : string) (st : State) : Native (bool * State) :=
  let* '(ok, sink, fs) :=
    open_sink base_dir (g_cancelled_wav st) "cancelled.wav" 16 (files st) in
  ret (ok, set_files fs (set_cancelled sink st)).

(** [a && b] on two steps that change the state. *)
Definition and_then (a b : State → Native (bool * State)) (st : State)
  : Native (bool * State) :=
  let* '(ok, st) := a st in
  if ok then b st else ret (false, st).

Definition StartAudioRecordingLocked (st : State) : Native (bool * State) :=
  let* stamp := native c_TimestampNow (TimestampNow_answer io) in
  let base_dir := "captures/audio/" +:+ stamp in
  let* _ := native (c_mkdir "captures") (λ _, ()) in
  let* _ := native (c_mkdir "captures/audio") (λ _, ()) in
  let* _ := native (c_mkdir base_dir) (λ _, ()) in
  let* '(opened, st) :=
    and_then (open_mic base_dir 0 "mic1.wav")
      (and_then (open_mic base_dir 1 "mic2.wav")
         (and_then (open_mic base_dir 2 "mic3.wav")
            (and_then (open_mic base_dir 3 "mic4.wav") (open_cancelled base_dir)))) st in
  if negb opened then
    let* st := StopAudioRecordingLocked st in
    ret (false, SetStatus "Failed to open all WAV files for microphone recording." st)
  else
    ret (true, SetStatus ("Audio recording started: " +:+ base_dir) (set_recording true st)).

(** *** ToggleAudioRecording *)
Definition ToggleAudioRecording (st : State) : Native State :=
  if negb (g_audio_stream_available st) then
    ret (SetStatus "Audio stream is unavailable on this device/session." st)
  else if negb (g_audio_recording st) then
    let* '(_, st) := StartAudioRecordingLocked st in ret st
  else
    let* st := StopAudioRecordingLocked st in
    ret (SetStatus "Audio recording stopped." st).

(** *** audio_in_cb

    A block of samples is the raw bytes behind its pointer, [None] for a null
    pointer.  The level meter ([g_audio_level], a [double] that only the
    display reads) is not modelled. *)

(** The lambdas [write_i32] and [write_i16], by the size of a sample. *)
Definition write_samples (size : Z) (num_samples : Z) (sink : WavSink.t)
    (samples : option (list Z)) (fs : Store) : Native (WavSink.t * Store) :=
  match WavSink.file sink, samples with
  | Some file, Some data =>
      let* '(_, fs) := fwrite data size (to_u64 num_samples) file fs in
      ret (WavSink.mk (WavSink.file sink) (WavSink.path sink) (WavSink.bits_per_sample sink)
             (to_u64 (WavSink.sample_count sink + to_u64 num_samples)), fs)
  | _, _ => ret (sink, fs)
  end.

Definition write_mic (num_samples : Z) (i : nat) (samples : option (list Z)) (st : State)
  : Native State :=
  let* '(sink, fs) :=
    write_samples 4 num_samples (default WavSink.init (g_mic_wavs st !! i)) samples
      (files st) in
  ret (set_files fs (set_mic i sink st)).

Definition audio_in_cb (num_samples : Z) (mic1 mic2 mic3 mic4 cancelled : option (list Z))
    (st : State) : Native State :=
  if negb (g_audio_recording st) then ret st
  else
    let* st := write_mic num_samples 0 mic1 st in
    let* st := write_mic num_samples 1 mic2 st in
    let* st := write_mic num_samples 2 mic3 st in
    let* st := write_mic num_samples 3 mic4 st in
    let* '(sink, fs) :=
      write_samples 2 num_samples (g_cancelled_wav st) cancelled (files st) in
    ret (set_files fs (set_cancelled sink st)).
End WithStdio.
End Recorder.

(** ** The stream control of [KinectCameraDALPlugin.cpp]

    [StartProducingIfNeeded], [StopProducingIfNeeded], [FlushQueueLocked],
    [TeardownObjects] and the entry points of the host that reach them, with
    the producer thread of the previous section.  The entry points are taken
    one at a time, and a round of [ProducerLoop] as one step: the rounds
    touch the queue under [gStateMutex] only, and [StopProducingIfNeeded]
    and [TeardownObjects] join the thread before they flush the queue. *)

Module DALStream.

Inductive OSStatus :=
  | noErr
  | kCMIOHardwareBadDeviceError
  | kCMIOHardwareBadStreamError
  | kCMIOHardwareIllegalOperationError
  | kCMIOHardwareUnspecifiedError.

Definition kCMIOObjectUnknown : Z := 0.
Definition kCMIODeviceUnknown : Z := kCMIOObjectUnknown.
Definition kCMIOStreamUnknown : Z := kCMIOObjectUnknown.

Definition to_u32 (z : Z) : Z := z mod 2 ^ 32.
Definition to_u64 (z : Z) : Z := z mod 2 ^ 64.

Section Plugin.
Context {A : Type}.

(** What the plugin does to the rest of the process, in order;
    [CreateSampleBuffer] with the sample it returned. *)
Inductive Effect :=
  | e_source_start                       (* gKinectSource.start() *)
  | e_source_stop                        (* gKinectSource.stop() *)
  | e_thread_start                       (* std::thread(ProducerLoop) *)
  | e_thread_join                        (* gProducerThread.join() *)
  | e_properties_changed                 (* CMIOObjectPropertiesChanged, both addresses *)
  | e_CreateSampleBuffer (frame_index : Z) (sample : option A).

(** The globals; [queue] holds [gSampleQueue] and [gQueueAlteredProc] with
    the samples released so far, [taken] the samples the host dequeued. *)
Record Plugin := {
    gPlugInRef : bool;             (* [gPlugInRef != nullptr] *)
    gDeviceObjectID : Z;
    gStreamObjectID : Z;
    gRunningClients : Z;           (* std::atomic<UInt32> *)
    gProducerRunning : bool;
    gProducerThread : bool;        (* [gProducerThread.joinable()] *)
    gFrameCounter : Z;             (* std::atomic<uint64_t> *)
    queue : DAL.State A;
    taken : list A;
    effects : list Effect
  }.

Definition set_clients (n : Z) (p : Plugin) : Plugin :=
  {| gPlugInRef := gPlugInRef p; gDeviceObjectID := gDeviceObjectID p;
     gStreamObjectID := gStreamObjectID p; gRunningClients := n;
     gProducerRunning := gProducerRunning p; gProducerThread := gProducerThread p;
     gFrameCounter := gFrameCounter p; queue := queue p; taken := taken p;
     effects := effects p |}.

Definition set_running (b : bool) (p : Plugin) : Plugin :=
  {| gPlugInRef := gPlugInRef p; gDeviceObjectID := gDeviceObjectID p;
     gStreamObjectID := gStreamObjectID p; gRunningClients := gRunningClients p;
     gProducerRunning := b; gProducerThread := gProducerThread p;
     gFrameCounter := gFrameCounter p; queue := queue p; taken := taken p;
     effects := effects p |}.

Definition set_thread (b : bool) (p : Plugin) : Plugin :=
  {| gPlugInRef := gPlugInRef p; gDeviceObjectID := gDeviceObjectID p;
     gStreamObjectID := gStreamObjectID p; gRunningClients := gRunningClients p;
     gProducerRunning := gProducerRunning p; gProducerThread := b;
     gFrameCounter := gFrameCounter p; queue := queue p; taken := taken p;
     effects := effects p |}.

Definition set_counter (n : Z) (p : Plugin) : Plugin :=
  {| gPlugInRef := gPlugInRef p; gDeviceObjectID := gDeviceObjectID p;
     gStreamObjectID := gStreamObjectID p; gRunningClients := gRunningClients p;
     gProducerRunning := gProducerRunning p; gProducerThread := gProducerThread p;
     gFrameCounter := n; queue := queue p; taken := taken p;
     effects := effects p |}.

Definition set_queue (q : DAL.State A) (p : Plugin) : Plugin :=
  {| gPlugInRef := gPlugInRef p; gDeviceObjectID := gDeviceObjectID p;
     gStreamObjectID := gStreamObjectID p; gRunningClients := gRunningClients p;
     gProducerRunning := gProducerRunning p; gProducerThread := gProducerThread p;
     gFrameCounter := gFrameCounter p; queue := q; taken := taken p;
     effects := effects p |}.

Definition set_taken (l : list A) (p : Plugin) : Plugin :=
  {| gPlugInRef := gPlugInRef p; gDeviceObjectID := gDeviceObjectID p;
     gStreamObjectID := gStreamObjectID p; gRunningClients := gRunningClients p;
     gProducerRunning := gProducerRunning p; gProducerThread := gProducerThread p;
     gFrameCounter := gFrameCounter p; queue := queue p; taken := l;
     effects := effects p |}.

Definition set_ids (device stream : Z) (p : Plugin) : Plugin :=
  {| gPlugInRef := gPlugInRef p; gDeviceObjectID := device;
     gStreamObjectID := stream; gRunningClients := gRunningClients p;
     gProducerRunning := gProducerRunning p; gProducerThread := gProducerThread p;
     gFrameCounter := gFrameCounter p; queue := queue p; taken := taken p;
     effects := effects p |}.

Definition effect (e : Effect) (p : Plugin) : Plugin :=
  {| gPlugInRef := gPlugInRef p; gDeviceObjectID := gDeviceObjectID p;
     gStreamObjectID := gStreamObjectID p; gRunningClients := gRunningClients p;
     gProducerRunning := gProducerRunning p; gProducerThread := gProducerThread p;
     gFrameCounter := gFrameCounter p; queue := queue p; taken := taken p;
     effects := effects p ++ [e] |}.

(** The globals when the library is loaded, and after
    [PlugInInitializeWithObjectID] created the two objects. *)
Definition loaded : Plugin :=
  {| gPlugInRef := false; gDeviceObjectID := kCMIODeviceUnknown;
     gStreamObjectID := kCMIOStreamUnknown; gRunningClients := 0;
     gProducerRunning := false; gProducerThread := false; gFrameCounter := 0;
     queue := {| DAL.gSampleQueue := None; DAL.gQueueAlteredProc := false;
                 DAL.released := []; DAL.announced := [] |};
     taken := []; effects := [] |}.

Definition initialized (device stream : Z) : Plugin :=
  {| gPlugInRef := true; gDeviceObjectID := device;
     gStreamObjectID := stream; gRunningClients := 0;
     gProducerRunning := false; gProducerThread := false; gFrameCounter := 0;
     queue := {| DAL.gSampleQueue := None; DAL.gQueueAlteredProc := false;
                 DAL.released := []; DAL.announced := [] |};
     taken := []; effects := [] |}.

(** *** NotifyDeviceRunningChanged *)
Definition NotifyDeviceRunningChanged (p : Plugin) : Plugin :=
  if negb (gPlugInRef p) || (gDeviceObjectID p =? kCMIODeviceUnknown) then p
  else effect e_properties_changed p.

(** *** FlushQueueLocked

    [while (CMSimpleQueueGetCount(gSampleQueue) > 0) { dequeue; release }];
    every round removes an element, so [fuel] beyond the number of elements
    is never used. *)
Fixpoint flush (fuel : nat) (q : DAL.CMSimpleQueue A) (released : list A)
  : DAL.CMSimpleQueue A * list A :=
  match fuel with
  | O => (q, released)
  | S fuel' =>
      if 0 <? DAL.CMSimpleQueueGetCount q then
        let '(token, q) := DAL.CMSimpleQueueDequeue q in
        flush fuel' q (match token with Some t => released ++ [t] | None => released end)
      else (q, released)
  end.

Definition FlushQueueLocked (st : DAL.State A) : DAL.State A :=
  match DAL.gSampleQueue st with
  | None => st
  | Some q =>
      let '(q, rel) := flush (S (length (DAL.elements q))) q (DAL.released st) in
      {| DAL.gSampleQueue := Some q; DAL.gQueueAlteredProc := DAL.gQueueAlteredProc st;
         DAL.released := rel; DAL.announced := DAL.announced st |}
  end.

(** *** StartProducingIfNeeded

    Assigning to a [std::thread] that is joinable calls [std::terminate]:
    [None]. *)
Definition StartProducingIfNeeded (p : Plugin) : option Plugin :=
  let previous := gRunningClients p in
  let p := set_clients (to_u32 (previous + 1)) p in
  if negb (previous =? 0) then Some (NotifyDeviceRunningChanged p)
  else
    let p := set_counter 0 p in
    let p := effect e_source_start p in
    let p := set_running true p in
    if gProducerThread p then None
    else
      let p := effect e_thread_start (set_thread true p) in
      Some (NotifyDeviceRunningChanged p).

(** *** StopProducingIfNeeded *)
Definition join (p : Plugin) : Plugin :=
  if gProducerThread p then effect e_thread_join (set_thread false p) else p.

Definition StopProducingIfNeeded (p : Plugin) : Plugin :=
  let previous := gRunningClients p in
  let p := set_clients (to_u32 (previous - 1)) p in
  if 1 <? previous then NotifyDeviceRunningChanged p
  else
    let p := set_running false p in
    let p := join p in
    let p := effect e_source_stop p in
    let p := set_queue (FlushQueueLocked (queue p)) p in
    NotifyDeviceRunningChanged p.

(** *** TeardownObjects and PlugInTeardown

    The calls of [CMIOObjectsPublishedAndDied] are not modelled. *)
Definition TeardownObjects (p : Plugin) : Plugin :=
  let p := set_running false p in
  let p := join p in
  let p := set_clients 0 p in
  let p := effect e_source_stop p in
  let q := FlushQueueLocked (queue p) in
  set_queue {| DAL.gSampleQueue := None; DAL.gQueueAlteredProc := false;
               DAL.released := DAL.released q; DAL.announced := DAL.announced q |} p.

Definition PlugInTeardown (p : Plugin) : OSStatus * Plugin :=
  let p := TeardownObjects p in
  (noErr, set_ids kCMIODeviceUnknown kCMIOStreamUnknown p).

(** *** PlugInDeviceSuspend

    [while (gRunningClients.load() > 0) StopProducingIfNeeded();] every
    round takes one client off, so [fuel] beyond the number of clients is
    never used. *)
Fixpoint suspend (fuel : nat) (p : Plugin) : Plugin :=
  match fuel with
  | O => p
  | S fuel' =>
      if 0 <? gRunningClients p then suspend fuel' (StopProducingIfNeeded p) else p
  end.

Definition PlugInDeviceSuspend (device_id : Z) (p : Plugin) : OSStatus * Plugin :=
  if negb (device_id =? gDeviceObjectID p) then (kCMIOHardwareBadDeviceError, p)
  else (noErr, suspend (Z.to_nat (gRunningClients p)) p).

(** *** PlugInDeviceResume *)
Definition PlugInDeviceResume (device_id : Z) (p : Plugin) : OSStatus * Plugin :=
  if negb (device_id =? gDeviceObjectID p) then (kCMIOHardwareBadDeviceError, p)
  else (noErr, p).

(** *** PlugInDeviceStartStream *)
Definition PlugInDeviceStartStream (device_id stream_id : Z) (p : Plugin)
  : option (OSStatus * Plugin) :=
  if negb (device_id =? gDeviceObjectID p) then Some (kCMIOHardwareBadDeviceError, p)
  else if negb (stream_id =? gStreamObjectID p) then Some (kCMIOHardwareBadStreamError, p)
  else p ← StartProducingIfNeeded p; Some (noErr, p).

(** *** PlugInDeviceStopStream *)
Definition PlugInDeviceStopStream (device_id stream_id : Z) (p : Plugin)
  : OSStatus * Plugin :=
  if negb (device_id =? gDeviceObjectID p) then (kCMIOHardwareBadDeviceError, p)
  else if negb (stream_id =? gStreamObjectID p) then (kCMIOHardwareBadStreamError, p)
  else (noErr, if 0 <? gRunningClients p then StopProducingIfNeeded p else p).

(** *** PlugInStreamCopyBufferQueue

    [queue] tells whether the out-pointer is non-null, [queue_altered_proc]
    whether the callback is, and [created] whether [CMSimpleQueueCreate]
    succeeds if it is called. *)
Definition PlugInStreamCopyBufferQueue (stream_id : Z) (queue_altered_proc : bool)
    (queue_out : bool) (created : bool) (p : Plugin)
  : OSStatus * Plugin * option (DAL.CMSimpleQueue A) :=
  if negb queue_out then (kCMIOHardwareIllegalOperationError, p, None)
  else if negb (stream_id =? gStreamObjectID p) then (kCMIOHardwareBadStreamError, p, None)
  else
    let st := queue p in
    let sample_queue :=
      match DAL.gSampleQueue st with
      | Some q => Some q
      | None => if created then Some (DAL.CMSimpleQueueCreate DAL.kQueueCapacity) else None
      end in
    match sample_queue with
    | None => (kCMIOHardwareUnspecifiedError, p, None)
    | Some q =>
        (noErr,
         set_queue {| DAL.gSampleQueue := Some q; DAL.gQueueAlteredProc := queue_altered_proc;
                      DAL.released := DAL.released st; DAL.announced := DAL.announced st |} p,
         Some q)
    end.

(** *** One round of [ProducerLoop]

    The loop runs while [gProducerRunning]; [sample] is what
    [CreateSampleBuffer] returned for the frame index. *)
Definition producer_round (sample : option A) (p : Plugin) : Plugin :=
  if negb (gProducerRunning p && gProducerThread p) then p
  else
    let frame_index := gFrameCounter p in
    let p := set_counter (to_u64 (frame_index + 1)) p in
    let p := effect (e_CreateSampleBuffer frame_index sample) p in
    set_queue (DAL.produce (queue p) sample) p.

(** The host takes the oldest sample off the queue it was given. *)
Definition host_dequeue (p : Plugin) : Plugin :=
  match DAL.gSampleQueue (queue p) with
  | None => p
  | Some q =>
      let '(token, q) := DAL.CMSimpleQueueDequeue q in
      let st := queue p in
      let p :=
        set_queue {| DAL.gSampleQueue := Some q;
                     DAL.gQueueAlteredProc := DAL.gQueueAlteredProc st;
                     DAL.released := DAL.released st; DAL.announced := DAL.announced st |} p in
      match token with Some t => set_taken (taken p ++ [t]) p | None => p end
  end.

(** What happens to the plugin, one thing at a time. *)
Inductive Event :=
  | StartStream (device_id stream_id : Z)
  | StopStream (device_id stream_id : Z)
  | Suspend (device_id : Z)
  | Resume (device_id : Z)
  | CopyBufferQueue (stream_id : Z) (queue_altered_proc queue_out created : bool)
  | Teardown
  | Round (sample : option A)
  | HostDequeue.

Definition step (p : Plugin) (e : Event) : option Plugin :=
  match e with
  | StartStream device_id stream_id => snd <$> PlugInDeviceStartStream device_id stream_id p
  | StopStream device_id stream_id => Some (snd (PlugInDeviceStopStream device_id stream_id p))
  | Suspend device_id => Some (snd (PlugInDeviceSuspend device_id p))
  | Resume device_id => Some (snd (PlugInDeviceResume device_id p))
  | CopyBufferQueue stream_id proc queue_out created =>
      Some (snd (fst (PlugInStreamCopyBufferQueue stream_id proc queue_out created p)))
  | Teardown => Some (snd (PlugInTeardown p))
  | Round sample => Some (producer_round sample p)
  | HostDequeue => Some (host_dequeue p)
  end.

Fixpoint run (p : Plugin) (events : list Event) : option Plugin :=
  match events with
  | [] => Some p
  | e :: events => p ← step p e; run p events
  end.
End Plugin.
Arguments Effect : clear implicits.
Arguments Plugin : clear implicits.
Arguments Event : clear implicits.
End DALStream.

(** ** The pixel buffers of [KinectCameraDALPlugin.cpp]

    [FillFallbackPattern] and [FillFromRGB] write through a raw pointer
    [base]: the memory behind it is a map from byte offsets to bytes.
    [operator[]] past the end of the source vector is undefined behaviour:
    [None]. *)

Module DALFill.

Definition kOutputWidth : Z := 640.
Definition kOutputHeight : Z := 480.

Definition to_u8 (z : Z) : Z := z mod 2 ^ 8.
Definition to_u64 (z : Z) : Z := z mod 2 ^ 64.

Abbreviation Memory := (gmap Z Z).

(** [v[i]] for a [std::size_t] index. *)
Definition at_index (v : list Z) (i : Z) : option Z :=
  if i <? 0 then None else v !! Z.to_nat i.

(** [for (int i = 0; i < n; ++i) body], where the body can fail. *)
Fixpoint for_each {I : Type} (items : list I) (body : I → Memory → option Memory)
    (m : Memory) : option Memory :=
  match items with
  | [] => Some m
  | i :: items => m ← body i m; for_each items body m
  end.

(** [row[x * 4 + 0] = b; row[x * 4 + 1] = g; row[x * 4 + 2] = r;
     row[x * 4 + 3] = 255;] with [row] at offset [row] from [base]. *)
Definition write_bgra (row x b g r : Z) (m : Memory) : Memory :=
  <[row + (x * 4 + 3) := 255]>
    (<[row + (x * 4 + 2) := r]> (<[row + (x * 4 + 1) := g]> (<[row + (x * 4 + 0) := b]> m))).

(** *** FillFallbackPattern

    The sums are taken in [uint64_t], the type of [frame_index]. *)
Definition FillFallbackPattern (base : Memory) (bytes_per_row : Z) (frame_index : Z)
  : option Memory :=
  for_each (seqZ 0 kOutputHeight)
    (λ y m,
       let row := y * bytes_per_row in
       for_each (seqZ 0 kOutputWidth)
         (λ x m,
            let r := to_u8 (to_u64 (x + frame_index) mod 256) in
            let g := to_u8 (to_u64 (y + to_u64 (frame_index * 2)) mod 256) in
            let b := to_u8 (to_u64 (to_u64 (x + y) + to_u64 (frame_index * 3)) mod 256) in
            Some (write_bgra row x b g r m))
         m)
    base.

(** *** FillFromRGB

    [gFrameCounter] is the value that [gFrameCounter.load()] returns. *)
Definition FillFromRGB (rgb : list Z) (src_width src_height : Z) (base : Memory)
    (bytes_per_row : Z) (gFrameCounter : Z) : option Memory :=
  if (src_width <=? 0) || (src_height <=? 0)
     || (Z.of_nat (length rgb) <? to_u64 (src_width * src_height * 3))
  then FillFallbackPattern base bytes_per_row gFrameCounter
  else
    for_each (seqZ 0 kOutputHeight)
      (λ y m,
         let sy := Z.quot (y * src_height) kOutputHeight in
         let row := y * bytes_per_row in
         for_each (seqZ 0 kOutputWidth)
           (λ x m,
              let sx := Z.quot (x * src_width) kOutputWidth in
              let si := to_u64 ((sy * src_width + sx) * 3) in
              b ← at_index rgb (si + 2);
              g ← at_index rgb (si + 1);
              r ← at_index rgb (si + 0);
              Some (write_bgra row x b g r m))
           m)
      base.
End DALFill.

(** ** The command line of [main.cpp] *)

Module CLI.

Module BackendChoice.
Inductive t := kAuto | kV1 | kV2.
End BackendChoice.

Record Options := {
    run_preview : bool;
    list_devices : bool;
    preview_seconds : Z;
    backend : BackendChoice.t
  }.

(** The default member initialisers of the struct. *)
Definition default_options : Options :=
  {| run_preview := false; list_devices := false; preview_seconds := 5;
     backend := BackendChoice.kAuto |}.

Definition set_run_preview (b : bool) (o : Options) : Options :=
  {| run_preview := b; list_devices := list_devices o;
     preview_seconds := preview_seconds o; backend := backend o |}.

Definition set_list_devices (b : bool) (o : Options) : Options :=
  {| run_preview := run_preview o; list_devices := b;
     preview_seconds := preview_seconds o; backend := backend o |}.

Definition set_preview_seconds (n : Z) (o : Options) : Options :=
  {| run_preview := run_preview o; list_devices := list_devices o;
     preview_seconds := n; backend := backend o |}.

Definition set_backend (c : BackendChoice.t) (o : Options) : Options :=
  {| run_preview := run_preview o; list_devices := list_devices o;
     preview_seconds := preview_seconds o; backend := c |}.

Definition EXIT_SUCCESS : Z := 0.
Definition EXIT_FAILURE : Z := 1.

Definition nl : string := String "010" "".

(** What [main] writes and whom it hands over to, in order. *)
Inductive Output :=
  | to_cout (text : string)
  | to_cerr (text : string)
  | call_RunGuiApp (argv : list string).

Definition PrintUsage (program : string) : Output :=
  to_cout ("Usage: " +:+ program +:+ " [options]" +:+ nl
           +:+ nl
           +:+ "Options:" +:+ nl
           +:+ "  --gui               Run the graphical interface (default if no args)" +:+ nl
           +:+ "  --list              List connected devices" +:+ nl
           +:+ "  --preview [sec]     Run a CLI preview for N seconds" +:+ nl
           +:+ "  --backend [v1|v2]   Force a specific backend" +:+ nl
           +:+ "  --help, -h          Show this help" +:+ nl).

(** *** ParsePositiveInt

    [Some parsed] when it returns true, having stored [parsed] in [*value];
    the [catch (...)] turns both exceptions of [std::stoi] into false. *)
Definition ParsePositiveInt (text : string) : option Z :=
  match Stoi.stoi text with
  | Some parsed => if parsed <=? 0 then None else Some parsed
  | None => None
  end.

(** *** ParseBackendChoice *)
Definition ParseBackendChoice (raw : string) : option BackendChoice.t :=
  if String.eqb raw "auto" then Some BackendChoice.kAuto
  else if String.eqb raw "v1" then Some BackendChoice.kV1
  else if String.eqb raw "v2" then Some BackendChoice.kV2
  else None.

(** *** MatchesChoice, on the generation that the backend reports *)
Definition MatchesChoice (generation : KinectGeneration) (choice : BackendChoice.t) : bool :=
  match choice with
  | BackendChoice.kAuto => true
  | BackendChoice.kV1 => match generation with kV1 => true | kV2 => false end
  | BackendChoice.kV2 => match generation with kV2 => true | kV1 => false end
  end.

(** *** The loop over the arguments of [main]

    [argv[i + 1][0] != '-'], where the first character of an empty C string
    is the terminator. *)
Definition starts_with_dash (s : string) : bool :=
  match s with
  | String c _ => Ascii.eqb c "-"
  | EmptyString => false
  end.

Inductive Parsed :=
  | Exit (code : Z) (output : Output)
  | Run (options : Options) (gui_mode cli_mode : bool).

(** [args] is what is left of [argv] from index [i] on. *)
Fixpoint parse_args (program : string) (args : list string) (options : Options)
    (gui_mode cli_mode : bool) : Parsed :=
  match args with
  | [] => Run options gui_mode cli_mode
  | arg :: rest =>
      if String.eqb arg "--help" || String.eqb arg "-h" then
        Exit EXIT_SUCCESS (PrintUsage program)
      else if String.eqb arg "--gui" then
        parse_args program rest options true cli_mode
      else if String.eqb arg "--list" then
        parse_args program rest (set_list_devices true options) gui_mode true
      else if String.eqb arg "--preview" then
        let options := set_run_preview true options in
        match rest with
        | next :: rest' =>
            if negb (starts_with_dash next) then
              match ParsePositiveInt next with
              | None => Exit EXIT_FAILURE (to_cerr ("Invalid preview seconds: " +:+ next +:+ nl))
              | Some value =>
                  parse_args program rest' (set_preview_seconds value options) gui_mode true
              end
            else parse_args program rest options gui_mode true
        | [] => parse_args program rest options gui_mode true
        end
      else if String.prefix "--preview=" arg then
        let options := set_run_preview true options in
        match ParsePositiveInt (V1.substr (String.length "--preview=") arg) with
        | None => Exit EXIT_FAILURE (to_cerr ("Invalid preview seconds: " +:+ arg +:+ nl))
        | Some value =>
            parse_args program rest (set_preview_seconds value options) gui_mode true
        end
      else if String.eqb arg "--backend" then
        match rest with
        | [] =>
            Exit EXIT_FAILURE (to_cerr ("--backend expects one value: auto, v1, or v2" +:+ nl))
        | next :: rest' =>
            match ParseBackendChoice next with
            | None => Exit EXIT_FAILURE (to_cerr ("Invalid backend value: " +:+ next +:+ nl))
            | Some choice => parse_args program rest' (set_backend choice options) gui_mode cli_mode
            end
        end
      else parse_args program rest options gui_mode cli_mode
  end.

(** *** The two backends, as [main] sees them

    What a backend object answers to the calls that [main] makes on it, each
    at most once. *)
Record Answers := {
    probe : ProbeResult.t;
    listDevices : list DeviceInfo.t;
    preview : Z → PreviewResult.t
  }.

Record Backend := {
    name : string;
    generation : KinectGeneration;
    answers : Answers
  }.

(** [CreateKinectV1Backend()] and [CreateKinectV2Backend()]: the name and the
    generation are those of the classes. *)
Definition CreateKinectV1Backend (a : Answers) : Backend :=
  {| name := "libfreenect (Kinect v1)"; generation := kV1; answers := a |}.

Definition CreateKinectV2Backend (a : Answers) : Backend :=
  {| name := "libfreenect2 (Kinect v2)"; generation := kV2; answers := a |}.

Definition KinectGenerationLabel (gen : KinectGeneration) : string :=
  match gen with
  | kV1 => "Kinect v1"
  | kV2 => "Kinect v2"
  end.

(** The body of the loop over the backends; the result is what is written
    and whether the backend was selected. *)
Definition report (options : Options) (b : Backend) : list Output * bool :=
  if negb (MatchesChoice (generation b) (backend options)) then ([], false)
  else
    let probed := probe (answers b) in
    let head :=
      [to_cout ("[" +:+ name b +:+ "] "
                +:+ (if ProbeResult.available probed then "available" else "unavailable")
                +:+ nl)]
        ++ (if negb (String.eqb (ProbeResult.detail probed) "")
            then [to_cout ("  " +:+ ProbeResult.detail probed +:+ nl)] else []) in
    if negb (ProbeResult.available probed) then (head, true)
    else
      let devices := listDevices (answers b) in
      if vec_empty devices then (head ++ [to_cout ("  Devices: none" +:+ nl)], true)
      else
        let listed :=
          [to_cout ("  Devices:" +:+ nl)]
            ++ ((λ device,
                   to_cout ("    - " +:+ KinectGenerationLabel (DeviceInfo.generation device)
                            +:+ " serial: " +:+ DeviceInfo.serial device +:+ nl))
                  <$> devices) in
        if run_preview options then
          let result := preview (answers b) (preview_seconds options) in
          (head ++ listed
             ++ [to_cout ("  Preview: "
                          +:+ (if PreviewResult.success result then "success" else "failed")
                          +:+ nl);
                 to_cout ("    " +:+ PreviewResult.detail result +:+ nl);
                 to_cout ("    color frames: "
                          +:+ to_string (PreviewResult.color_frames result) +:+ nl);
                 to_cout ("    depth frames: "
                          +:+ to_string (PreviewResult.depth_frames result) +:+ nl)],
           true)
        else (head ++ listed, true).

(** [for (const auto &backend_ptr : backends)] with [selected_backends]. *)
Fixpoint report_all (options : Options) (backends : list Backend) (selected_backends : Z)
  : list Output * Z :=
  match backends with
  | [] => ([], selected_backends)
  | b :: backends =>
      let '(out, selected) := report options b in
      let '(outs, n) :=
        report_all options backends
          (if selected then selected_backends + 1 else selected_backends) in
      (out ++ outs, n)
  end.

(** *** main

    [argv] with the program name first; [RunGuiApp] is what the graphical
    interface returns, [v1] and [v2] what the two backends answer.  The
    result is the exit status and what was written. *)
Definition main (RunGuiApp : list string → Z) (v1 v2 : Answers) (argv : list string)
  : Z * list Output :=
  let program := default "" (head argv) in
  let gui_mode := bool_decide (length argv = 1%nat) in
  match parse_args program (tail argv) default_options gui_mode false with
  | Exit code output => (code, [output])
  | Run options gui_mode cli_mode =>
      if gui_mode && negb cli_mode then (RunGuiApp argv, [call_RunGuiApp argv])
      else
        let backends := [CreateKinectV1Backend v1; CreateKinectV2Backend v2] in
        let '(out, selected_backends) := report_all options backends 0 in
        if selected_backends =? 0
        then (EXIT_FAILURE,
              out ++ [to_cerr ("No backend matched the requested backend filter." +:+ nl)])
        else (EXIT_SUCCESS, out)
  end.
End CLI.

(** ** The depth view of [gui/app.cpp]

    The branch of [Idle] that turns the depth buffer of a frame into the
    grey levels of [g_app.depth_buffer_visual].  [operator[]] past the end
    of a vector is undefined behaviour: [None]. *)

Module GuiApp.

Definition to_u8 (z : Z) : Z := z mod 2 ^ 8.
Definition to_size_t (z : Z) : Z := z mod 2 ^ 64.

(** The body of the loop at index [i]:
    [uint8_t val = static_cast<uint8_t>(d / 16);] stored three times. *)
Definition shade (depth : list Z) (i : nat) (visual : list Z) : option (list Z) :=
  d ← depth !! i;
  let val := to_u8 (d / 16) in
  if (i * 3 + 2 <? length visual)%nat
  then Some (<[(i * 3 + 2)%nat := val]> (<[(i * 3 + 1)%nat := val]> (<[(i * 3 + 0)%nat := val]>
                                                                        visual)))
  else None.

Fixpoint shade_all (depth : list Z) (indices : list nat) (visual : list Z)
  : option (list Z) :=
  match indices with
  | [] => Some visual
  | i :: indices => visual ← shade depth i visual; shade_all depth indices visual
  end.

(** From [size_t pixel_count = frame.width * frame.height;] to the end of
    the loop: the new [g_app.depth_buffer_visual]. *)
Definition depth_visual (frame : FrameData.t) (depth_buffer_visual : list Z)
  : option (list Z) :=
  let pixel_count := to_size_t (FrameData.width frame * FrameData.height frame) in
  let size := to_size_t (pixel_count * 3) in
  let visual :=
    if negb (Z.of_nat (length depth_buffer_visual) =? size)
    then resize (Z.to_nat size) 0 depth_buffer_visual
    else depth_buffer_visual in
  shade_all (FrameData.depth frame) (seq 0 (Z.to_nat pixel_count)) visual.
End GuiApp.

(** ** The capture bundle of [control_center_v1.cpp]

    A [std::ofstream] is not followed byte by byte: a function returns what
    it sent to the stream, in order, and the answer of [good()] is an oracle
    of the C++ library. *)

Module Capture.
Import ControlCenter.

Definition nl : string := String "010" "".

(** *** SaveColorPpm

    [is_open] and [good] are the answers of the stream; the result is the
    returned flag and the bytes sent to the stream, if it opened. *)
Definition SaveColorPpm (is_open good : bool) (rgb : list Z) : bool * option (list Z) :=
  if negb is_open then (false, None)
  else
    (good,
     Some (Recorder.bytes_of
             ("P6" +:+ nl +:+ to_string (Z.of_nat kFrameWidth) +:+ " "
              +:+ to_string (Z.of_nat kFrameHeight) +:+ nl +:+ "255" +:+ nl)
             ++ rgb)).

(** *** SaveDepthPgm16

    [hi] and [lo] as the bytes that [out.put] stores. *)
Definition put_hi_lo (value : Z) : list Z :=
  [Z.land (Z.shiftr value 8) 255; Z.land value 255].

Definition SaveDepthPgm16 (is_open good : bool) (depth : list Z) : bool * option (list Z) :=
  if negb is_open then (false, None)
  else
    (good,
     Some (Recorder.bytes_of
             ("P5" +:+ nl +:+ to_string (Z.of_nat kFrameWidth) +:+ " "
              +:+ to_string (Z.of_nat kFrameHeight) +:+ nl +:+ "65535" +:+ nl)
             ++ concat (put_hi_lo <$> depth))).

(** *** CaptureFrameBundle *)

(** The answers of the three output streams. *)
Record Streams := {
    color_is_open : bool; color_good : bool;
    depth_is_open : bool; depth_good : bool;
    ply_is_open : bool
  }.

(** What a capture leaves: the status line, the directories made and what
    was sent to each of the three files, if it opened. *)
Record Captured (double : Type) := {
    status : string;
    made : list string;
    color_ppm : option (string * list Z);
    depth_pgm : option (string * list Z);
    scan_ply : option (string * PlyFile double)
  }.
Arguments Build_Captured {double}.
Arguments status {double}.
Arguments made {double}.
Arguments color_ppm {double}.
Arguments depth_pgm {double}.
Arguments scan_ply {double}.

Section WithDevice.
Variable double : Type.
Variable freenect_camera_to_world : nat → nat → Z → double * double.

(** [g_rgb_front] and [g_depth_mm_front] are the front buffers, null or not;
    [stamp] is what [TimestampNow()] returns and [g_dev] whether the device
    pointer is non-null.  The result is [None] when a vector is read past its
    end. *)
Definition CaptureFrameBundle (g_rgb_front g_depth_mm_front : option NativeBuf)
    (stamp : string) (g_dev : bool) (io : Streams) : option (Captured double) :=
  match g_rgb_front, g_depth_mm_front with
  | Some rgb_front, Some depth_front =>
      let rgb := copy_from_native rgb_front (Z.of_nat kFrameRgbBytes) in
      let depth := copy_from_native depth_front (Z.of_nat kFramePixels) in
      let dir := "captures/" +:+ stamp in
      let '(color_ok, color) := SaveColorPpm (color_is_open io) (color_good io) rgb in
      let '(depth_ok, depth_file) :=
        SaveDepthPgm16 (depth_is_open io) (depth_good io) depth in
      '(points, ply) ← SavePointCloudPly double freenect_camera_to_world g_dev
                         (ply_is_open io) depth rgb;
      Some {| status :=
                "Capture saved to " +:+ dir
                +:+ " (color=" +:+ (if color_ok : bool then "ok" else "fail")
                +:+ ", depth=" +:+ (if depth_ok : bool then "ok" else "fail")
                +:+ ", points=" +:+ to_string points +:+ ")";
              made := ["captures"; dir];
              color_ppm := (λ bytes, (dir +:+ "/color.ppm", bytes)) <$> color;
              depth_pgm := (λ bytes, (dir +:+ "/depth_mm.pgm", bytes)) <$> depth_file;
              scan_ply := (λ file, (dir +:+ "/scan.ply", file)) <$> ply |}
  | _, _ =>
      Some {| status := "No frame buffers available to capture."; made := [];
              color_ppm := None; depth_pgm := None; scan_ply := None |}
  end.
End WithDevice.
End Capture.

(** ** The frame source of [KinectCameraDALPlugin.cpp]

    [KinectFrameSource::nextRGB] and the part of [CreateSampleBuffer] that
    fills the pixel buffer, over the [KinectDevice] interface of
    [backend.h]. *)

Module FrameSource.

(** The virtual functions of [KinectDevice] that the frame source calls on
    [device_], for a device type [D] whose native calls are [Call]. *)
Class KinectDevice (Call D : Type) := {
    setStreamKind : StreamKind → D → D;
    update : D → Logged Call (bool * D);
    getFrame : D → FrameData.t → bool * FrameData.t * D
  }.

(** [FreenectV1Device] and [FreenectV2Device] implement it. *)
Definition FreenectV1Device (drv : V1.Driver) : KinectDevice V1.Call V1.Device.t :=
  {| setStreamKind := V1.setStreamKind;
     update := V1.update drv;
     getFrame := V1.getFrame |}.

Definition FreenectV2Device (float : Type) (depth_sample ir_sample : float → Z)
    (drv : V2.Driver float) : KinectDevice V2.Call V2.Device.t :=
  {| setStreamKind := V2.setStreamKind;
     update := V2.update float depth_sample ir_sample drv;
     getFrame := V2.getFrame |}.

Section Source.
Context {Call D : Type} (device : KinectDevice Call D).

(** *** KinectFrameSource::nextRGB

    [Some (rgb, width, height)] when it returns true, having stored the three
    in its reference parameters; with it, [device_] after the call. *)
Definition nextRGB (device_ : option D)
  : Logged Call (option (list Z * Z * Z) * option D) :=
  match device_ with
  | None => ret (None, None)
  | Some d =>
      let d := setStreamKind kRgb d in
      let* '(updated, d) := update d in
      if negb updated then ret (None, Some d)
      else
        let '(got, frame, d) := getFrame d FrameData.empty in
        if negb got || vec_empty (FrameData.rgb frame) || (FrameData.width frame <=? 0)
           || (FrameData.height frame <=? 0)
        then ret (None, Some d)
        else ret (Some (FrameData.rgb frame, FrameData.width frame, FrameData.height frame),
                  Some d)
  end.

(** *** CreateSampleBuffer, from [gKinectSource.nextRGB] to the end of the
    filling

    [base] is the memory of the locked pixel buffer, [gFrameCounter] what
    [gFrameCounter.load()] returns inside [FillFromRGB]. *)
Definition fill_pixels (device_ : option D) (base : DALFill.Memory)
    (bytes_per_row frame_index gFrameCounter : Z)
  : Logged Call (option DALFill.Memory * option D) :=
  let* '(next, device_) := nextRGB device_ in
  match next with
  | Some (rgb, src_width, src_height) =>
      ret (DALFill.FillFromRGB rgb src_width src_height base bytes_per_row gFrameCounter,
           device_)
  | None => ret (DALFill.FillFallbackPattern base bytes_per_row frame_index, device_)
  end.
End Source.
End FrameSource.

(** ** The keyboard controls of [control_center_v1.cpp] *)

Module Controls.

Inductive freenect_led_options :=
  | LED_OFF | LED_GREEN | LED_RED | LED_YELLOW | LED_BLINK_GREEN | LED_BLINK_RED_YELLOW.

Inductive freenect_flag :=
  | FREENECT_AUTO_EXPOSURE | FREENECT_AUTO_FLICKER | FREENECT_AUTO_WHITE_BALANCE
  | FREENECT_NEAR_MODE | FREENECT_MIRROR_DEPTH | FREENECT_MIRROR_VIDEO.

Inductive freenect_flag_value := FREENECT_OFF | FREENECT_ON.

Inductive freenect_video_format :=
  | FREENECT_VIDEO_RGB | FREENECT_VIDEO_YUV_RGB | FREENECT_VIDEO_IR_8BIT.

Inductive freenect_depth_format :=
  | FREENECT_DEPTH_REGISTERED | FREENECT_DEPTH_MM | FREENECT_DEPTH_11BIT.

(** [value == FREENECT_ON ? FREENECT_OFF : FREENECT_ON] *)
Definition toggled (value : freenect_flag_value) : freenect_flag_value :=
  match value with FREENECT_ON => FREENECT_OFF | FREENECT_OFF => FREENECT_ON end.

Definition VideoFormatLabel (format : freenect_video_format) : string :=
  match format with
  | FREENECT_VIDEO_RGB => "RGB"
  | FREENECT_VIDEO_YUV_RGB => "YUV->RGB"
  | FREENECT_VIDEO_IR_8BIT => "IR8"
  end.

Definition DepthFormatLabel (format : freenect_depth_format) : string :=
  match format with
  | FREENECT_DEPTH_REGISTERED => "REGISTERED(mm)"
  | FREENECT_DEPTH_MM => "MM"
  | FREENECT_DEPTH_11BIT => "RAW11"
  end.

Definition OnOffLabel (value : freenect_flag_value) : string :=
  match value with FREENECT_ON => "on" | FREENECT_OFF => "off" end.

(** The calls into the driver; the device is [g_dev], null or not. *)
Inductive Call :=
  | c_set_tilt_degs (g_dev : bool) (angle : Z)
  | c_set_led (g_dev : bool) (mode : freenect_led_options)
  | c_set_flag (g_dev : bool) (flag : freenect_flag) (value : freenect_flag_value)
  | c_set_exposure (g_dev : bool) (time_us : Z)
  | c_set_ir_brightness (g_dev : bool) (brightness : Z).

(** The globals that the keys act on. *)
Record State := mk {
    g_dev : bool;                          (* [g_dev != nullptr] *)
    g_freenect_angle : Z;
    g_led_mode : freenect_led_options;
    g_requested_video_format : freenect_video_format;
    g_requested_depth_format : freenect_depth_format;
    g_auto_exposure : freenect_flag_value;
    g_auto_white_balance : freenect_flag_value;
    g_mirror : freenect_flag_value;
    g_near_mode : freenect_flag_value;
    g_manual_exposure_us : Z;
    g_ir_brightness : Z;
    g_status_message : string
  }.

(** The initialisers of the globals. *)
Definition initial (g_dev : bool) : State :=
  mk g_dev 0 LED_GREEN FREENECT_VIDEO_RGB FREENECT_DEPTH_REGISTERED FREENECT_ON FREENECT_ON
    FREENECT_ON FREENECT_OFF 33333 20 "Ready.".

Definition set_angle (v : Z) (s : State) : State :=
  mk (g_dev s) v (g_led_mode s) (g_requested_video_format s) (g_requested_depth_format s)
    (g_auto_exposure s) (g_auto_white_balance s) (g_mirror s) (g_near_mode s)
    (g_manual_exposure_us s) (g_ir_brightness s) (g_status_message s).
Definition set_led_mode (v : freenect_led_options) (s : State) : State :=
  mk (g_dev s) (g_freenect_angle s) v (g_requested_video_format s)
    (g_requested_depth_format s) (g_auto_exposure s) (g_auto_white_balance s) (g_mirror s)
    (g_near_mode s) (g_manual_exposure_us s) (g_ir_brightness s) (g_status_message s).
Definition set_video_format (v : freenect_video_format) (s : State) : State :=
  mk (g_dev s) (g_freenect_angle s) (g_led_mode s) v (g_requested_depth_format s)
    (g_auto_exposure s) (g_auto_white_balance s) (g_mirror s) (g_near_mode s)
    (g_manual_exposure_us s) (g_ir_brightness s) (g_status_message s).
Definition set_depth_format (v : freenect_depth_format) (s : State) : State :=
  mk (g_dev s) (g_freenect_angle s) (g_led_mode s) (g_requested_video_format s) v
    (g_auto_exposure s) (g_auto_white_balance s) (g_mirror s) (g_near_mode s)
    (g_manual_exposure_us s) (g_ir_brightness s) (g_status_message s).
Definition set_auto_exposure (v : freenect_flag_value) (s : State) : State :=
  mk (g_dev s) (g_freenect_angle s) (g_led_mode s) (g_requested_video_format s)
    (g_requested_depth_format s) v (g_auto_white_balance s) (g_mirror s) (g_near_mode s)
    (g_manual_exposure_us s) (g_ir_brightness s) (g_status_message s).
Definition set_auto_white_balance (v : freenect_flag_value) (s : State) : State :=
  mk (g_dev s) (g_freenect_angle s) (g_led_mode s) (g_requested_video_format s)
    (g_requested_depth_format s) (g_auto_exposure s) v (g_mirror s) (g_near_mode s)
    (g_manual_exposure_us s) (g_ir_brightness s) (g_status_message s).
Definition set_mirror (v : freenect_flag_value) (s : State) : State :=
  mk (g_dev s) (g_freenect_angle s) (g_led_mode s) (g_requested_video_format s)
    (g_requested_depth_format s) (g_auto_exposure s) (g_auto_white_balance s) v
    (g_near_mode s) (g_manual_exposure_us s) (g_ir_brightness s) (g_status_message s).
Definition set_manual_exposure_us (v : Z) (s : State) : State :=
  mk (g_dev s) (g_freenect_angle s) (g_led_mode s) (g_requested_video_format s)
    (g_requested_depth_format s) (g_auto_exposure s) (g_auto_white_balance s) (g_mirror s)
    (g_near_mode s) v (g_ir_brightness s) (g_status_message s).
Definition set_ir_brightness (v : Z) (s : State) : State :=
  mk (g_dev s) (g_freenect_angle s) (g_led_mode s) (g_requested_video_format s)
    (g_requested_depth_format s) (g_auto_exposure s) (g_auto_white_balance s) (g_mirror s)
    (g_near_mode s) (g_manual_exposure_us s) v (g_status_message s).

(** [SetStatus]; the copy printed on standard output is not modelled. *)
Definition SetStatus (message : string) (s : State) : State :=
  mk (g_dev s) (g_freenect_angle s) (g_led_mode s) (g_requested_video_format s)
    (g_requested_depth_format s) (g_auto_exposure s) (g_auto_white_balance s) (g_mirror s)
    (g_near_mode s) (g_manual_exposure_us s) (g_ir_brightness s) message.

Abbreviation Native := (Logged Call).

(** A call whose answer the program ignores. *)
Definition call (c : Call) : Native () := native c (λ _, ()).

(** [static_cast<uint16_t>] *)
Definition to_u16 (n : Z) : Z := n mod 2 ^ 16.

(** *** ApplyTilt ... ApplyIrBrightness *)
Definition ApplyTilt (s : State) : Native State :=
  if negb (g_dev s) then ret s
  else
    let s := set_angle (Z.max (-30) (Z.min 30 (g_freenect_angle s))) s in
    let* _ := call (c_set_tilt_degs (g_dev s) (g_freenect_angle s)) in
    ret s.

Definition ApplyMirror (s : State) : Native State :=
  if negb (g_dev s) then ret s
  else
    let* _ := call (c_set_flag (g_dev s) FREENECT_MIRROR_DEPTH (g_mirror s)) in
    let* _ := call (c_set_flag (g_dev s) FREENECT_MIRROR_VIDEO (g_mirror s)) in
    ret s.

Definition ApplyAutoExposureBundle (s : State) : Native State :=
  if negb (g_dev s) then ret s
  else
    let* _ := call (c_set_flag (g_dev s) FREENECT_AUTO_EXPOSURE (g_auto_exposure s)) in
    let* _ := call (c_set_flag (g_dev s) FREENECT_AUTO_FLICKER (g_auto_exposure s)) in
    let* _ := call (c_set_flag (g_dev s) FREENECT_AUTO_WHITE_BALANCE (g_auto_exposure s)) in
    ret s.

Definition ApplyWhiteBalance (s : State) : Native State :=
  if negb (g_dev s) then ret s
  else
    let* _ :=
      call (c_set_flag (g_dev s) FREENECT_AUTO_WHITE_BALANCE (g_auto_white_balance s)) in
    ret s.

Definition ApplyNearMode (s : State) : Native State :=
  if negb (g_dev s) then ret s
  else
    let* _ := call (c_set_flag (g_dev s) FREENECT_NEAR_MODE (g_near_mode s)) in
    ret s.

Definition ApplyManualExposure (s : State) : Native State :=
  if negb (g_dev s) then ret s
  else
    match g_auto_exposure s with
    | FREENECT_OFF =>
        let* _ := call (c_set_exposure (g_dev s) (g_manual_exposure_us s)) in ret s
    | FREENECT_ON => ret s
    end.

Definition ApplyIrBrightness (s : State) : Native State :=
  if negb (g_dev s) then ret s
  else
    let s := set_ir_brightness (Z.max 1 (Z.min 50 (g_ir_brightness s))) s in
    let* _ := call (c_set_ir_brightness (g_dev s) (to_u16 (g_ir_brightness s))) in
    ret s.

(** *** keyPressed

    What a key leaves to another function of the program. *)
Inductive Action :=
  | handled
  | do_ShutdownAndExit (exit_code : Z)
  | do_PrintHelp
  | do_ToggleAudioRecording
  | do_CaptureFrameBundle.

(** [key == 'x' || key == 'X'] *)
Definition is_key (key : ascii) (lower upper : ascii) : bool :=
  Ascii.eqb key lower || Ascii.eqb key upper.

Definition set_led_key (mode : freenect_led_options) (message : string) (s : State)
  : Native (State * Action) :=
  let s := set_led_mode mode s in
  let* _ := call (c_set_led (g_dev s) (g_led_mode s)) in
  ret (SetStatus message s, handled).

Definition keyPressed (key : ascii) (s : State) : Native (State * Action) :=
  if Ascii.eqb key (ascii_of_nat 27) then ret (s, do_ShutdownAndExit 0)
  else if is_key key "h" "H" then ret (s, do_PrintHelp)
  else if is_key key "w" "W" then
    let* s := ApplyTilt (set_angle (g_freenect_angle s + 2) s) in
    ret (SetStatus "Tilt increased." s, handled)
  else if is_key key "x" "X" then
    let* s := ApplyTilt (set_angle (g_freenect_angle s - 2) s) in
    ret (SetStatus "Tilt decreased." s, handled)
  else if is_key key "s" "S" then
    let* s := ApplyTilt (set_angle 0 s) in
    ret (SetStatus "Tilt centered." s, handled)
  else if is_key key "v" "V" then
    let s :=
      set_video_format
        (match g_requested_video_format s with
         | FREENECT_VIDEO_RGB => FREENECT_VIDEO_YUV_RGB
         | _ => FREENECT_VIDEO_RGB
         end) s in
    ret (SetStatus ("Requested video mode: "
                    +:+ VideoFormatLabel (g_requested_video_format s)) s, handled)
  else if is_key key "d" "D" then
    let s :=
      set_depth_format
        (match g_requested_depth_format s with
         | FREENECT_DEPTH_REGISTERED => FREENECT_DEPTH_MM
         | _ => FREENECT_DEPTH_REGISTERED
         end) s in
    ret (SetStatus ("Requested depth mode: "
                    +:+ DepthFormatLabel (g_requested_depth_format s)) s, handled)
  else if is_key key "m" "M" then
    let* s := ApplyMirror (set_mirror (toggled (g_mirror s)) s) in
    ret (SetStatus ("Mirror: " +:+ OnOffLabel (g_mirror s)) s, handled)
  else if is_key key "e" "E" then
    let* s := ApplyAutoExposureBundle (set_auto_exposure (toggled (g_auto_exposure s)) s) in
    let* s := ApplyManualExposure s in
    ret (SetStatus ("Auto exposure bundle: " +:+ OnOffLabel (g_auto_exposure s)) s, handled)
  else if is_key key "b" "B" then
    let* s :=
      ApplyWhiteBalance (set_auto_white_balance (toggled (g_auto_white_balance s)) s) in
    ret (SetStatus ("Auto white balance: " +:+ OnOffLabel (g_auto_white_balance s)) s,
         handled)
  else if is_key key "n" "N" then
    ret (SetStatus "Near mode not supported on this Kinect device" s, handled)
  else if Ascii.eqb key "[" then
    let s := set_manual_exposure_us (Z.max 1000 (g_manual_exposure_us s - 1000)) s in
    let* s := ApplyManualExposure s in
    ret (SetStatus ("Manual exposure set to " +:+ to_string (g_manual_exposure_us s)
                    +:+ " us.") s, handled)
  else if Ascii.eqb key "]" then
    let s := set_manual_exposure_us (Z.min 200000 (g_manual_exposure_us s + 1000)) s in
    let* s := ApplyManualExposure s in
    ret (SetStatus ("Manual exposure set to " +:+ to_string (g_manual_exposure_us s)
                    +:+ " us.") s, handled)
  else if Ascii.eqb key "-" then
    let* s := ApplyIrBrightness (set_ir_brightness (g_ir_brightness s - 1) s) in
    ret (SetStatus ("IR brightness set to " +:+ to_string (g_ir_brightness s)) s, handled)
  else if Ascii.eqb key "=" then
    let* s := ApplyIrBrightness (set_ir_brightness (g_ir_brightness s + 1) s) in
    ret (SetStatus ("IR brightness set to " +:+ to_string (g_ir_brightness s)) s, handled)
  else if is_key key "a" "A" then ret (s, do_ToggleAudioRecording)
  else if is_key key "c" "C" then ret (s, do_CaptureFrameBundle)
  else if Ascii.eqb key "0" then set_led_key LED_OFF "LED set to OFF." s
  else if Ascii.eqb key "1" then set_led_key LED_GREEN "LED set to GREEN." s
  else if Ascii.eqb key "2" then set_led_key LED_RED "LED set to RED." s
  else if Ascii.eqb key "3" then set_led_key LED_YELLOW "LED set to YELLOW." s
  else if Ascii.eqb key "4" || Ascii.eqb key "5" then
    set_led_key LED_BLINK_GREEN "LED set to BLINK_GREEN." s
  else if Ascii.eqb key "6" then
    set_led_key LED_BLINK_RED_YELLOW "LED set to BLINK_RED_YELLOW." s
  else ret (s, handled).

(** A run of keys, up to the one that ends the program.  The recorder and
    the capture set the status line themselves: [status_after] is what they
    leave in it. *)
Fixpoint keys (status_after : Action → string) (pressed : list ascii) (s : State)
  : Native State :=
  match pressed with
  | [] => ret s
  | key :: pressed =>
      let* '(s, action) := keyPressed key s in
      match action with
      | do_ShutdownAndExit _ => ret s
      | do_ToggleAudioRecording | do_CaptureFrameBundle =>
          keys status_after pressed (SetStatus (status_after action) s)
      | do_PrintHelp | handled => keys status_after pressed s
      end
  end.
End Controls.

(** ** The frame buffers of [control_center_v1.cpp]

    [depth_cb], [rgb_cb] and the head of [DrawGLScene], which hand the
    frames of the driver thread over to the drawing thread under
    [g_frame_mutex].  A buffer is the address that [malloc] returned; [heap]
    holds what is stored behind each address. *)

Module FrameBuffers.

Abbreviation Ptr := nat.

Inductive freenect_video_format :=
  | FREENECT_VIDEO_RGB | FREENECT_VIDEO_YUV_RGB | FREENECT_VIDEO_IR_8BIT.

Record State := mk {
    g_depth_mm_mid : Ptr;
    g_depth_mm_front : Ptr;
    g_depth_rgb_mid : Ptr;
    g_depth_rgb_front : Ptr;
    g_rgb_back : Ptr;
    g_rgb_mid : Ptr;
    g_rgb_front : Ptr;
    g_got_rgb : bool;                 (* [g_got_rgb != 0] *)
    g_got_depth : bool;               (* [g_got_depth != 0] *)
    g_rgb_frames : Z;                 (* std::uint64_t *)
    g_depth_frames : Z;               (* std::uint64_t *)
    g_current_video_format : freenect_video_format;
    video_buffer : Ptr;               (* the buffer of [freenect_set_video_buffer] *)
    heap : gmap Ptr (list Z);
    shown : list (option (list Z) * option (list Z))
                                      (* the textures uploaded: color, depth *)
  }.

Definition to_u64 (n : Z) : Z := n mod 2 ^ 64.

(** The globals after the allocations of [main] and the first
    [freenect_set_video_buffer(g_dev, g_rgb_back)] of the driver thread: seven
    buffers, zero-filled. *)
Definition started (depth_mm_mid depth_mm_front depth_rgb_mid depth_rgb_front
    rgb_back rgb_mid rgb_front : Ptr) : State :=
  mk depth_mm_mid depth_mm_front depth_rgb_mid depth_rgb_front rgb_back rgb_mid rgb_front
    false false 0 0 FREENECT_VIDEO_RGB rgb_back
    (list_to_map
       [(depth_mm_mid, replicate ControlCenter.kFramePixels 0);
        (depth_mm_front, replicate ControlCenter.kFramePixels 0);
        (depth_rgb_mid, replicate ControlCenter.kFrameRgbBytes 0);
        (depth_rgb_front, replicate ControlCenter.kFrameRgbBytes 0);
        (rgb_back, replicate ControlCenter.kFrameRgbBytes 0);
        (rgb_mid, replicate ControlCenter.kFrameRgbBytes 0);
        (rgb_front, replicate ControlCenter.kFrameRgbBytes 0)])
    [].

Section Callbacks.
(** [DepthToFalseColor(mm, rgb)]: the three bytes stored at [rgb]; the
    arithmetic is in [float]. *)
Variable DepthToFalseColor : Z → list Z.

(** *** depth_cb

    [depth] is what the driver handed over, [kFramePixels] samples. *)
Definition depth_cb (depth : list Z) (s : State) : State :=
  let heap := <[g_depth_mm_mid s := depth]> (heap s) in
  let heap := <[g_depth_rgb_mid s := concat (DepthToFalseColor <$> depth)]> heap in
  mk (g_depth_mm_mid s) (g_depth_mm_front s) (g_depth_rgb_mid s) (g_depth_rgb_front s)
    (g_rgb_back s) (g_rgb_mid s) (g_rgb_front s) (g_got_rgb s) true (g_rgb_frames s)
    (to_u64 (g_depth_frames s + 1)) (g_current_video_format s) (video_buffer s) heap
    (shown s).

(** *** rgb_cb

    [rgb] is the buffer that the driver filled.  A failed [assert] ends the
    program: [None].  [memcpy] from an address that holds nothing is
    undefined behaviour: [None]. *)
Definition rgb_cb (rgb : Ptr) (s : State) : option State :=
  match g_current_video_format s with
  | FREENECT_VIDEO_RGB | FREENECT_VIDEO_YUV_RGB =>
      if negb (g_rgb_back s =? rgb)%nat then None
      else
        let back := g_rgb_mid s in
        Some (mk (g_depth_mm_mid s) (g_depth_mm_front s) (g_depth_rgb_mid s)
                (g_depth_rgb_front s) back rgb (g_rgb_front s) true (g_got_depth s)
                (to_u64 (g_rgb_frames s + 1)) (g_depth_frames s) (g_current_video_format s)
                back (heap s) (shown s))
  | FREENECT_VIDEO_IR_8BIT =>
      bytes ← heap s !! rgb;
      Some (mk (g_depth_mm_mid s) (g_depth_mm_front s) (g_depth_rgb_mid s)
              (g_depth_rgb_front s) (g_rgb_back s) (g_rgb_mid s) (g_rgb_front s) true
              (g_got_depth s) (to_u64 (g_rgb_frames s + 1)) (g_depth_frames s)
              (g_current_video_format s) (video_buffer s)
              (<[g_rgb_mid s := bytes]> (heap s)) (shown s))
  end.

(** *** DrawGLScene, up to the two calls of [glTexImage2D]

    With neither flag set it waits on [g_frame_cond]: nothing happens. *)
Definition DrawGLScene (s : State) : State :=
  if negb (g_got_depth s) && negb (g_got_rgb s) then s
  else
    let '(mm_front, mm_mid, depth_front, depth_mid) :=
      if g_got_depth s
      then (g_depth_mm_mid s, g_depth_mm_front s, g_depth_rgb_mid s, g_depth_rgb_front s)
      else (g_depth_mm_front s, g_depth_mm_mid s, g_depth_rgb_front s, g_depth_rgb_mid s) in
    let '(rgb_front, rgb_mid) :=
      if g_got_rgb s then (g_rgb_mid s, g_rgb_front s) else (g_rgb_front s, g_rgb_mid s) in
    mk mm_mid mm_front depth_mid depth_front (g_rgb_back s) rgb_mid rgb_front false false
      (g_rgb_frames s) (g_depth_frames s) (g_current_video_format s) (video_buffer s)
      (heap s)
      (shown s ++ [(heap s !! rgb_front, heap s !! depth_front)]).

(** *** The video branch of the loop of [freenect_threadfunc]

    A change of the video format: [format] is the new value of
    [g_current_video_format] (the old one if the mode was not valid), and the
    back buffer is handed to the driver again. *)
Definition video_mode_changed (format : freenect_video_format) (s : State) : State :=
  mk (g_depth_mm_mid s) (g_depth_mm_front s) (g_depth_rgb_mid s) (g_depth_rgb_front s)
    (g_rgb_back s) (g_rgb_mid s) (g_rgb_front s) (g_got_rgb s) (g_got_depth s)
    (g_rgb_frames s) (g_depth_frames s) format (g_rgb_back s) (heap s) (shown s).

(** What happens to the buffers, one thing at a time.  For a video frame the
    driver fills the buffer it was given last and runs [rgb_cb] on it. *)
Inductive Event :=
  | VideoFrame (bytes : list Z)
  | DepthFrame (depth : list Z)
  | Draw
  | VideoFormat (format : freenect_video_format).

Definition step (s : State) (e : Event) : option State :=
  match e with
  | VideoFrame bytes =>
      let filled :=
        mk (g_depth_mm_mid s) (g_depth_mm_front s) (g_depth_rgb_mid s) (g_depth_rgb_front s)
          (g_rgb_back s) (g_rgb_mid s) (g_rgb_front s) (g_got_rgb s) (g_got_depth s)
          (g_rgb_frames s) (g_depth_frames s) (g_current_video_format s) (video_buffer s)
          (<[video_buffer s := bytes]> (heap s)) (shown s) in
      rgb_cb (video_buffer s) filled
  | DepthFrame depth => Some (depth_cb depth s)
  | Draw => Some (DrawGLScene s)
  | VideoFormat format => Some (video_mode_changed format s)
  end.

Fixpoint run (s : State) (events : list Event) : option State :=
  match events with
  | [] => Some s
  | e :: events => s ← step s e; run s events
  end.
End Callbacks.
End FrameBuffers.

(** * Vocabulary of the properties *)

Module V1Spec.
Import V1.

(** The delays of the sleeps recorded in a log, in order. *)
Definition sleeps (h : History) : list Z :=
  omap (λ c, match c with c_sleep_for ms => Some ms | _ => None end) h.

(** The log of [k] unsuccessful rounds of a retry loop: the query [c], then
    the sleep. *)
Definition rounds (c : Call) (delay : Z) (k : nat) : History :=
  concat (replicate k [c; c_sleep_for delay]).
Global Arguments rounds : simpl never.

(** The number of times the call [c] occurs in a log. *)
Definition calls_of (c : Call) (h : History) : nat :=
  length (filter (λ c', c' = c) h).

(** A driver given by its answers to the enumerations, to the two ways of
    opening, to [freenect_start_depth] and to the processing of events; all
    modes are valid and every other call succeeds. *)
Definition make_driver
    (num : History → Z)
    (attrs : History → Z * list freenect_device_attributes)
    (by_serial : History → string → Z * option DevPtr)
    (by_index : History → Z → Z * option DevPtr)
    (start_depth : History → DevPtr → Z)
    (events : History → Z * list Callback) : Driver :=
  {| freenect_num_devices := num;
     freenect_list_device_attributes := attrs;
     freenect_open_device_by_camera_serial := by_serial;
     freenect_open_device := by_index;
     freenect_find_depth_mode_is_valid := true;
     freenect_find_video_mode_is_valid := λ _, true;
     freenect_set_depth_mode := λ _ _, 0;
     freenect_set_video_mode := λ _ _ _, 0;
     freenect_start_depth := start_depth;
     freenect_stop_depth := λ _ _, 0;
     freenect_start_video := λ _ _, 0;
     freenect_stop_video := λ _ _, 0;
     freenect_start_audio := λ _ _, 0;
     freenect_stop_audio := λ _ _, 0;
     freenect_process_events_timeout := events |}.

(** A driver that answers every enumeration from a script indexed by the
    number of enumerations made before, and opens nothing. *)
Definition scripted_driver
    (num : nat → Z) (attrs : nat → Z * list freenect_device_attributes) : Driver :=
  make_driver (λ h, num (calls_of c_num_devices h))
    (λ h, attrs (calls_of c_list_device_attributes h))
    (λ _ _, (-1, None)) (λ _ _, (-1, None)) (λ _ _, 0) (λ _, (0, [])).

(** One unit, of serial [unit_serial], at index 0: it is listed, and it opens
    by its serial and by its index as the session [0].  [start_depth] and
    [events] are as given. *)
Definition one_unit_driver (unit_serial : string)
    (start_depth : History → DevPtr → Z) (events : History → Z * list Callback) : Driver :=
  make_driver (λ _, 1)
    (λ _, (1, [Build_freenect_device_attributes (Some unit_serial)]))
    (λ _ s, if String.eqb s unit_serial then (0, Some 0%nat) else (-1, None))
    (λ _ i, if i =? 0 then (0, Some 0%nat) else (-1, None))
    start_depth events.

(** A session as [openDevice] hands it out: opened on the unit [dev], not
    streaming. *)
Definition opened (dev : DevPtr) (serial : string) (audio_supported : bool) : Device.t :=
  Device.set_dev_ (Some dev) (Device.new true 0 serial audio_supported).

(** No sub-stream is marked active. *)
Definition no_substream_active (d : Device.t) : Prop :=
  Device.depth_started_ d = false
  ∧ Device.video_started_ d = false
  ∧ Device.audio_started_ d = false.

(** The payload and the timestamp of a callback that writes: one whose frame
    pointer is not null. *)
Definition depth_payload (cb : Callback) : option NativeBuf :=
  match cb with cb_depth (Some src) _ => Some src | _ => None end.

Definition video_payload (cb : Callback) : option NativeBuf :=
  match cb with cb_video (Some src) _ => Some src | _ => None end.

Definition write_timestamp (cb : Callback) : option Z :=
  match cb with
  | cb_depth (Some _) timestamp | cb_video (Some _) timestamp => Some timestamp
  | _ => None
  end.

Definition last_depth_write (cbs : list Callback) : option NativeBuf :=
  last (omap depth_payload cbs).
Definition last_video_write (cbs : list Callback) : option NativeBuf :=
  last (omap video_payload cbs).
Definition last_write_timestamp (cbs : list Callback) : option Z :=
  last (omap write_timestamp cbs).

(** The frame that one write carries by itself: its own buffer and nothing
    else. *)
Definition written_frame (active : StreamKind) (cb : Callback) : option FrameData.t :=
  match cb with
  | cb_depth (Some src) timestamp =>
      Some (FrameData.mk [] (copy_from_native src kPixelCount) [] kWidth kHeight timestamp)
  | cb_video (Some src) timestamp =>
      Some (if StreamKind_eqb active kIr
            then FrameData.mk [] [] (copy_from_native src kPixelCount) kWidth kHeight timestamp
            else FrameData.mk (copy_from_native src (kPixelCount * 3)) [] [] kWidth kHeight
                   timestamp)
  | _ => None
  end.

(** The frame slot after the callbacks [cbs] ran on a slot holding [f0]. *)
Definition slot_after (active : StreamKind) (f0 : FrameData.t) (cbs : list Callback)
  : FrameData.t :=
  FrameData.mk
    (if StreamKind_eqb active kIr then FrameData.rgb f0
     else from_option (λ src, copy_from_native src (kPixelCount * 3)) (FrameData.rgb f0)
            (last_video_write cbs))
    (from_option (λ src, copy_from_native src kPixelCount) (FrameData.depth f0)
       (last_depth_write cbs))
    (if StreamKind_eqb active kIr
     then from_option (λ src, copy_from_native src kPixelCount) (FrameData.ir f0)
            (last_video_write cbs)
     else FrameData.ir f0)
    (from_option (λ _, kWidth) (FrameData.width f0) (last_write_timestamp cbs))
    (from_option (λ _, kHeight) (FrameData.height f0) (last_write_timestamp cbs))
    (from_option id (FrameData.timestamp f0) (last_write_timestamp cbs)).

(** *** Opening against a steady driver

    A driver is steady when its answers do not depend on the log: [n] units
    are counted, the listing is [listing], and opening by index [i] answers
    [by_index i]. *)

(** Opening by the index [i] succeeds. *)
Definition opens (by_index : Z → Z * option DevPtr) (i : Z) : bool :=
  (0 <=? i) && negb (fst (by_index i) <? 0) && non_null (snd (by_index i)).

(** The session that opening by the index [i] yields for a caller who asked
    for [serial]. *)
Definition session (be : Backend.t) (serial : string)
    (by_index : Z → Z * option DevPtr) (i : Z) : Device.t :=
  Device.set_dev_ (snd (by_index i))
    (Device.new (Backend.ctx_ be) i serial (Backend.has_audio_firmware_ be)).

(** What [listDevices] reports. *)
Definition listed (n : Z) (listing : Z * list freenect_device_attributes)
  : list DeviceInfo.t :=
  if (0 <? fst listing) && negb (vec_empty (snd listing))
  then devices_of_attributes (snd listing) 0
  else (λ i, DeviceInfo.mk kV1 (synthetic_serial i) "Kinect v1") <$> seqZ 0 (Z.max 0 n).

(** The enumeration positions tried for a real serial, in order: the position
    at which the serial is listed, if any, then every other position below
    the count. *)
Definition positional_candidates (serial : string) (n : Z)
    (listing : Z * list freenect_device_attributes) : list Z :=
  match find_serial (listed n listing) serial 0 with
  | Some idx => idx :: filter (λ j, j ≠ idx) (seqZ 0 (Z.max 0 n))
  | None => seqZ 0 (Z.max 0 n)
  end.
End V1Spec.

Module V2Spec.
Import V2.

(** The number of waits for a bundle in a log. *)
Definition calls_of_wait (h : History) : nat :=
  length (filter (λ c, c = c_waitForNewFrame) h).

(** A generation-2 driver that enumerates [count] units, names unit [i] by
    [serial_of i], opens every serial as the unit [0], starts it, and delivers
    the bundles of [bundles] one per wait (none once they run out). *)
Definition simple_driver {float : Type} (count : Z) (serial_of : Z → string)
    (bundles : list (FrameMap.t float)) : Driver float :=
  {| enumerateDevices := λ _, count;
     getDeviceSerialNumber := λ _ i, serial_of i;
     openDevice_native := λ _ _, Some 0%nat;
     start_native := λ _ _, true;
     waitForNewFrame := λ h, bundles !! calls_of_wait h |}.

(** The converted buffer of a stream and its header. *)
Definition buffer_of (kind : StreamKind) (c : Converted.t) : list Z :=
  match kind with
  | kRgb => Converted.rgb_data c
  | kIr => Converted.ir_data c
  | kDepth => Converted.depth_data c
  end.

Definition width_of (kind : StreamKind) (c : Converted.t) : Z :=
  match kind with
  | kRgb => Converted.rgb_w c
  | kIr => Converted.ir_w c
  | kDepth => Converted.depth_w c
  end.

Definition height_of (kind : StreamKind) (c : Converted.t) : Z :=
  match kind with
  | kRgb => Converted.rgb_h c
  | kIr => Converted.ir_h c
  | kDepth => Converted.depth_h c
  end.

Definition timestamp_of (kind : StreamKind) (c : Converted.t) : Z :=
  match kind with
  | kRgb => Converted.rgb_ts c
  | kIr => Converted.ir_ts c
  | kDepth => Converted.depth_ts c
  end.

(** A stream produced data: its buffer is not empty and its dimensions are
    positive. *)
Definition produced (kind : StreamKind) (c : Converted.t) : bool :=
  negb (vec_empty (buffer_of kind c)) && (0 <? width_of kind c) && (0 <? height_of kind c).

(** The stream whose buffer a bundle makes observable: the selected one when
    it produced data, otherwise the first that did among color, infrared,
    depth. *)
Definition chosen_stream (selected : StreamKind) (c : Converted.t) : option StreamKind :=
  if produced selected c then Some selected
  else List.find (λ kind, produced kind c) [kRgb; kIr; kDepth].

(** The frame that holds the buffer of [kind] and nothing else. *)
Definition only (kind : StreamKind) (c : Converted.t) : FrameData.t :=
  FrameData.mk
    (if StreamKind_eqb kind kRgb then buffer_of kind c else [])
    (if StreamKind_eqb kind kDepth then buffer_of kind c else [])
    (if StreamKind_eqb kind kIr then buffer_of kind c else [])
    (width_of kind c) (height_of kind c) (timestamp_of kind c).

(** A color frame of one pixel, and the bundle that holds it alone. *)
Definition one_pixel : Frame.t Z :=
  Frame.mk 1 1 7 (λ i, match i with 0%nat => 30 | 1%nat => 20 | 2%nat => 10 | _ => 255 end).

Definition color_bundle : FrameMap.t Z := FrameMap.mk (Some one_pixel) None None.

(** A generation-2 session that is streaming. *)
Definition streaming (selected : StreamKind) : Device.t :=
  Device.mk true "001122334455" (Some 0%nat) FrameData.empty false true selected.

(** How many of the three buffers of a frame are not empty. *)
Definition nonempty_buffers (f : FrameData.t) : nat :=
  length (filter (λ buffer, buffer ≠ [])
            [FrameData.rgb f; FrameData.depth f; FrameData.ir f]).
End V2Spec.

Module PlySpec.
Import ControlCenter.

(** The sample at [index] lies in the valid range [350, 6000]. *)
Definition valid_at (depth : list Z) (index : nat) : bool :=
  from_option (λ d, bool_decide (350 ≤ d ≤ 6000)) false (depth !! index).

(** The body line of the sample at [index]. *)
Definition point_of {double : Type} (camera_to_world : nat → nat → Z → double * double)
    (depth rgb : list Z) (index : nat) : PlyPoint double :=
  let d := default 0 (depth !! index) in
  let '(wx, wy) := camera_to_world (index mod kFrameWidth)%nat (index / kFrameWidth)%nat d in
  Build_PlyPoint wx wy d
    (default 0 (rgb !! (index * 3 + 0)%nat))
    (default 0 (rgb !! (index * 3 + 1)%nat))
    (default 0 (rgb !! (index * 3 + 2)%nat)).

(** The indices of the samples that get a body line, in file order. *)
Definition exported (depth : list Z) : list nat :=
  filter (λ index, valid_at depth index = true) (seq 0 kFramePixels).

(** How many body lines the sample at [index] gets. *)
Definition lines_of (depth : list Z) (index : nat) : nat :=
  length (filter (λ j, j = index) (exported depth)).

(** A depth frame that is empty but for 5000 mm at index 101, and a black
    color frame. *)
Definition sample_depth : list Z :=
  replicate 100 0 ++ [0; 5000] ++ replicate (kFramePixels - 102) 0.
Definition black : list Z := replicate kFrameRgbBytes 0.
End PlySpec.

Module DALSpec.
Import DAL.

(** The queue of the plugin exists, has the plugin's capacity and holds no
    more than that. *)
Definition bounded {A : Type} (st : State A) : Prop :=
  ∃ q, gSampleQueue st = Some q
       ∧ capacity q = kQueueCapacity
       ∧ CMSimpleQueueGetCount q ≤ kQueueCapacity.

End DALSpec.

(** Both counters lie between 0 and [k]. *)
Definition counted_up_to (k : Z) (result : PreviewResult.t) : Prop :=
  0 ≤ PreviewResult.color_frames result ≤ k ∧ 0 ≤ PreviewResult.depth_frames result ≤ k.

(** ** The frames of a polling run of [preview] *)

Module PreviewSpec.

(** The frames that [getFrame] handed to the polling loop of the
    generation-1 [preview], oldest first. *)
Fixpoint polled_v1 (drv : V1.Driver) (polls : nat) (device : V1.Device.t) (h : V1.History)
  : list FrameData.t :=
  match polls with
  | O => []
  | S polls' =>
      let '(_, device, h) := V1.update drv device h in
      let '(got, frame, device) := V1.getFrame device FrameData.empty in
      (if got then [frame] else []) ++ polled_v1 drv polls' device h
  end.

(** The same for generation 2, which asks for a frame only after an
    [update] that answered true. *)
Fixpoint polled_v2 (float : Type) (depth_sample ir_sample : float → Z)
    (drv : V2.Driver float) (polls : nat) (device : V2.Device.t) (h : V2.History)
  : list FrameData.t :=
  match polls with
  | O => []
  | S polls' =>
      let '(updated, device, h) := V2.update float depth_sample ir_sample drv device h in
      if updated then
        let '(got, frame, device) := V2.getFrame device FrameData.empty in
        (if got then [frame] else [])
          ++ polled_v2 float depth_sample ir_sample drv polls' device h
      else polled_v2 float depth_sample ir_sample drv polls' device h
  end.

(** How many frames carry color, and how many carry depth. *)
Definition with_color (frames : list FrameData.t) : Z :=
  Z.of_nat (length (filter (λ frame, FrameData.rgb frame ≠ []) frames)).

Definition with_depth (frames : list FrameData.t) : Z :=
  Z.of_nat (length (filter (λ frame, FrameData.depth frame ≠ []) frames)).
End PreviewSpec.

(** ** Runs of operations on a generation-1 session *)

Module V1Session.
Import V1.

(** The operations a caller runs on a session between [openDevice] and the
    destructor. *)
Inductive Op :=
  | op_start
  | op_stop
  | op_update
  | op_getFrame
  | op_setStreamKind (kind : StreamKind)
  | op_setAudioEnabled (enabled : bool).

Definition run_op (drv : Driver) (d : Device.t) (op : Op) : Native Device.t :=
  match op with
  | op_start => let* '(_, d) := start drv d in ret d
  | op_stop => let* '(_, d) := stop drv d in ret d
  | op_update => let* '(_, d) := update drv d in ret d
  | op_getFrame => ret (snd (getFrame d FrameData.empty))
  | op_setStreamKind kind => ret (setStreamKind kind d)
  | op_setAudioEnabled enabled =>
      let* '(_, d) := setAudioEnabled drv enabled d in ret d
  end.

Fixpoint run (drv : Driver) (d : Device.t) (ops : list Op) : Native Device.t :=
  match ops with
  | [] => ret d
  | op :: ops => let* d := run_op drv d op in run drv d ops
  end.

(** The depth sub-stream is active exactly while the session is running,
    audio is active only on a running session that supports it, and a
    running session is bound to a unit. *)
Definition coherent (d : Device.t) : Prop :=
  Device.depth_started_ d = Device.running_ d
  ∧ (Device.audio_started_ d = true
     → Device.running_ d = true ∧ Device.audio_supported_ d = true)
  ∧ (Device.running_ d = true → is_Some (Device.dev_ d)).

(** A session as the constructor and a successful [open] leave it. *)
Definition fresh (be : Backend.t) (index : Z) (serial : string) (dev : DevPtr)
  : Device.t :=
  Device.set_dev_ (Some dev)
    (Device.new (Backend.ctx_ be) index serial (Backend.has_audio_firmware_ be)).
End V1Session.

(** ** What a program appends to the log *)

Section Emits.
Context {Call : Type}.

(** The log [h'] is [h] followed by calls that all satisfy [P]. *)
Definition extends_with (P : Call → Prop) (h h' : list Call) : Prop :=
  ∃ t, h' = h ++ t ∧ Forall P t.

(** Every native call that [m] makes satisfies [P]. *)
Definition emits {A} (P : Call → Prop) (m : Logged Call A) : Prop :=
  ∀ h, extends_with P h (snd (m h)).
End Emits.

Module V1Trace.
Import V1.

(** The calls of an open by position: counting the units, opening by index,
    closing a unit that was bound but refused, and the sleeps between
    retries. *)
Definition positional_call (c : Call) : bool :=
  match c with
  | c_num_devices | c_open_device _ | c_close_device _ | c_sleep_for _ => true
  | _ => false
  end.

(** The calls of any open: those of an open by position, the listing of the
    attributes and the open by the serial [serial]. *)
Definition opening_call (serial : string) (c : Call) : bool :=
  match c with
  | c_list_device_attributes => true
  | c_open_device_by_camera_serial s => String.eqb s serial
  | _ => positional_call c
  end.

(** The identifier is a real serial: not empty and not positional. *)
Definition real_serial (serial : string) : bool :=
  negb (String.eqb serial "") && negb (IsSyntheticIndexSerial serial).

(** The number of sleeps of 250 ms in a log. *)
Definition long_sleeps (h : list Call) : nat :=
  length (filter (λ c, c = c_sleep_for 250) h).
End V1Trace.

(** The first character of a string is a decimal digit. *)
Definition leading_digit (s : string) : Prop :=
  match s with String c _ => is_Some (Stoi.digit c) | EmptyString => False end.

Module RecorderSpec.
Import Recorder.

(** The number that a run of bytes spells, least significant byte first. *)
Definition le_value (bytes : list Z) : Z := foldr (λ b acc, b + 256 * acc) 0 bytes.

(** The little-endian field of [len] bytes at offset [off]. *)
Definition field (off len : nat) (bytes : list Z) : Z := le_value (take len (drop off bytes)).

(** Every element is a byte. *)
Definition all_bytes (bytes : list Z) : Prop := Forall (λ b, 0 ≤ b < 256) bytes.

(** The header that [WriteWavHeader] lays out, field after field. *)
Definition wav_header (sample_rate bits_per_sample data_bytes : Z) : list Z :=
  bytes_of "RIFF" ++ PutLe32 (36 + data_bytes) ++ bytes_of "WAVE" ++ bytes_of "fmt "
    ++ PutLe32 16 ++ PutLe16 1 ++ PutLe16 1 ++ PutLe32 sample_rate
    ++ PutLe32 (Z.quot (sample_rate * bits_per_sample) 8)
    ++ PutLe16 (Z.quot bits_per_sample 8) ++ PutLe16 bits_per_sample
    ++ bytes_of "data" ++ PutLe32 data_bytes.

(** [n] is a value of the type [int]. *)
Definition is_int (n : Z) : Prop := Stoi.INT_MIN ≤ n ≤ Stoi.INT_MAX.

(** The two [int] arguments of [WriteWavHeader], and their product
    [sample_rate * channels * bits_per_sample] with [channels = 1], which the
    function computes in [int]. *)
Definition header_fits_int (sample_rate bits_per_sample : Z) : Prop :=
  is_int sample_rate ∧ is_int bits_per_sample ∧ is_int (sample_rate * 1 * bits_per_sample).

(** The size that [CloseWavSink] writes in the header of a sink. *)
Definition closing_size (sink : WavSink.t) : Z :=
  Z.min UINT32_MAX
    (to_u64 (WavSink.sample_count sink * to_u32 (Z.quot (WavSink.bits_per_sample sink) 8))).

(** A C library whose [fopen] and [fwrite] always succeed in full. *)
Definition obliging (io : Stdio) : Prop :=
  (∀ h path, fopen_answer io h path = true)
  ∧ (∀ h file size count, fwrite_answer io h file size count = count).

(** No stream of the recorder is open. *)
Definition all_closed (st : State) : Prop :=
  Forall (λ sink, WavSink.file sink = None) (g_mic_wavs st)
  ∧ WavSink.file (g_cancelled_wav st) = None.

(** Every stream of the recorder is open. *)
Definition all_open (st : State) : Prop :=
  Forall (λ sink, is_Some (WavSink.file sink)) (g_mic_wavs st)
  ∧ is_Some (WavSink.file (g_cancelled_wav st)).

(** The recorder has its four microphone sinks, and its streams are all open
    while it records and all closed while it does not. *)
Definition consistent (st : State) : Prop :=
  length (g_mic_wavs st) = 4%nat
  ∧ if g_audio_recording st then all_open st else all_closed st.

(** What the host does with the recorder: the key [a], or a block of samples
    from the driver. *)
Inductive Event :=
  | Toggle
  | Samples (num_samples : Z) (mic1 mic2 mic3 mic4 cancelled : option (list Z)).

Definition step (io : Stdio) (st : State) (e : Event) : Native State :=
  match e with
  | Toggle => ToggleAudioRecording io st
  | Samples n m1 m2 m3 m4 c => audio_in_cb io n m1 m2 m3 m4 c st
  end.

Fixpoint run (io : Stdio) (st : State) (events : list Event) : Native State :=
  match events with
  | [] => ret st
  | e :: events => let* st := step io st e in run io st events
  end.

(** The recorder once the driver thread has tried to start the audio stream
    and stored whether it is available. *)
Definition ready (available : bool) : State :=
  {| g_mic_wavs := replicate 4 WavSink.init; g_cancelled_wav := WavSink.init;
     g_audio_recording := false; g_audio_stream_available := available;
     g_status_message := "Ready."; files := ∅ |}.

(** A block of [n] samples on every channel: four bytes per microphone
    sample, two per sample of the cancelled channel. *)
Definition full_block (e : Event) : Prop :=
  match e with
  | Samples n (Some m1) (Some m2) (Some m3) (Some m4) (Some c) =>
      0 ≤ n
      ∧ Z.of_nat (length m1) = 4 * n ∧ Z.of_nat (length m2) = 4 * n
      ∧ Z.of_nat (length m3) = 4 * n ∧ Z.of_nat (length m4) = 4 * n
      ∧ Z.of_nat (length c) = 2 * n
  | _ => False
  end.

(** The bytes that a run of blocks carries for microphone [i] (from 0), and
    for the cancelled channel. *)
Definition mic_bytes (i : nat) (e : Event) : list Z :=
  match e with
  | Samples _ m1 m2 m3 m4 _ =>
      default [] (match i with
                  | 0%nat => m1 | 1%nat => m2 | 2%nat => m3 | _ => m4
                  end)
  | Toggle => []
  end.

Definition cancelled_bytes (e : Event) : list Z :=
  match e with Samples _ _ _ _ _ c => default [] c | Toggle => [] end.

Definition payload (channel : Event → list Z) (blocks : list Event) : list Z :=
  concat (channel <$> blocks).

(** The file of a channel in the directory of a recording. *)
Definition wav_path (dir name : string) : string := dir +:+ "/" +:+ name.

(** The names of the microphone files, by index. *)
Definition mic_name (i : nat) : string :=
  match i with
  | 0%nat => "mic1.wav" | 1%nat => "mic2.wav" | 2%nat => "mic3.wav" | _ => "mic4.wav"
  end.

(** A sink that is open on its file, after [bytes] of payload were written:
    the file holds the header of an empty recording and the payload, the
    stream stands at the end, and the sink counted the samples. *)
Definition sink_tracks (fs : Store) (dir name : string) (bits : Z) (bytes : list Z)
    (sink : WavSink.t) : Prop :=
  sink = WavSink.mk (Some (wav_path dir name)) (wav_path dir name) bits
           (Z.of_nat (length bytes) / (bits / 8))
  ∧ Z.of_nat (length bytes) mod (bits / 8) = 0
  ∧ fs !! wav_path dir name
    = Some (wav_header 16000 bits 0 ++ bytes, (44 + length bytes)%nat).

(** The recorder is recording into [dir] and holds the payloads [m1] to [m4]
    and [c]. *)
Definition tracking (dir : string) (m1 m2 m3 m4 c : list Z) (st : State) : Prop :=
  g_audio_recording st = true
  ∧ g_audio_stream_available st = true
  ∧ ∃ s1 s2 s3 s4,
      g_mic_wavs st = [s1; s2; s3; s4]
      ∧ sink_tracks (files st) dir "mic1.wav" 32 m1 s1
      ∧ sink_tracks (files st) dir "mic2.wav" 32 m2 s2
      ∧ sink_tracks (files st) dir "mic3.wav" 32 m3 s3
      ∧ sink_tracks (files st) dir "mic4.wav" 32 m4 s4
      ∧ sink_tracks (files st) dir "cancelled.wav" 16 c (g_cancelled_wav st).
End RecorderSpec.

Module DALStreamSpec.
Import DALStream.

Section Plugin.
Context {A : Type}.

(** No client, no producer and no queue yet: the plugin as loaded, or after
    [PlugInInitializeWithObjectID], whatever the object identifiers. *)
Definition idle (p : Plugin A) : Prop :=
  gRunningClients p = 0
  ∧ gProducerRunning p = false
  ∧ gProducerThread p = false
  ∧ DAL.gSampleQueue (queue p) = None
  ∧ DAL.released (queue p) = []
  ∧ taken p = []
  ∧ effects p = [].

(** The samples in the queue, oldest first. *)
Definition queued (p : Plugin A) : list A :=
  match DAL.gSampleQueue (queue p) with
  | Some q => DAL.elements q
  | None => []
  end.

(** The samples that [CreateSampleBuffer] returned, in order. *)
Definition created (p : Plugin A) : list A :=
  omap (λ e, match e with e_CreateSampleBuffer _ sample => sample | _ => None end)
    (effects p).

(** The producer runs exactly while there are clients, and the queue, once
    made, has the capacity of the plugin, never holds more and is empty
    while there is no client. *)
Definition steady (p : Plugin A) : Prop :=
  0 ≤ gRunningClients p < 2 ^ 32
  ∧ gProducerRunning p = (0 <? gRunningClients p)
  ∧ gProducerThread p = (0 <? gRunningClients p)
  ∧ (∀ q, DAL.gSampleQueue (queue p) = Some q → DAL.capacity q = DAL.kQueueCapacity)
  ∧ Z.of_nat (length (queued p)) ≤ DAL.kQueueCapacity
  ∧ (gRunningClients p = 0 → queued p = []).

(** Every sample that was created is with the host, released or in the
    queue, once; the host gets the samples in the order of creation. *)
Definition accounted (p : Plugin A) : Prop :=
  created p ≡ₚ taken p ++ DAL.released (queue p) ++ queued p
  ∧ sublist (taken p ++ queued p) (created p).

(** [steady] and [accounted] with a bound [n] on the number of clients: a
    call adds at most one client. *)
Definition kept (n : Z) (p : Plugin A) : Prop :=
  0 ≤ gRunningClients p ≤ n
  ∧ gRunningClients p < 2 ^ 32
  ∧ gProducerRunning p = (0 <? gRunningClients p)
  ∧ gProducerThread p = (0 <? gRunningClients p)
  ∧ (∀ q, DAL.gSampleQueue (queue p) = Some q → DAL.capacity q = DAL.kQueueCapacity)
  ∧ Z.of_nat (length (queued p)) ≤ DAL.kQueueCapacity
  ∧ (gRunningClients p = 0 → queued p = [])
  ∧ accounted p.
End Plugin.
End DALStreamSpec.

Module DALFillSpec.
Import DALFill.

(** The byte of the output frame at column [x], row [y], channel [k]
    (0 blue, 1 green, 2 red, 3 alpha). *)
Definition output_byte (m : Memory) (bytes_per_row x y k : Z) : option Z :=
  m !! (y * bytes_per_row + (x * 4 + k)).

(** The offsets that belong to the pixels of the output frame. *)
Definition in_frame (bytes_per_row offset : Z) : Prop :=
  ∃ x y k, 0 ≤ x < kOutputWidth ∧ 0 ≤ y < kOutputHeight ∧ 0 ≤ k < 4
           ∧ offset = y * bytes_per_row + (x * 4 + k).

(** Channel [k] (0 red, 1 green, 2 blue) of the source pixel at column [sx],
    row [sy] of an image of width [src_width]. *)
Definition source_byte (rgb : list Z) (src_width sx sy k : Z) : option Z :=
  rgb !! Z.to_nat ((sy * src_width + sx) * 3 + k).

(** The body of a loop that writes one BGRA pixel per item [i], at offset
    [addr i], unless [colour i] is undefined. *)
Definition paint {I : Type} (addr : I → Z) (colour : I → option (Z * Z * Z))
    (i : I) (m : Memory) : option Memory :=
  '(b, g, r) ← colour i; Some (write_bgra (addr i) 0 b g r m).
End DALFillSpec.

Module CLISpec.
Import CLI.

(** Nothing was written to [std::cerr], and the graphical interface was not
    started. *)
Definition only_cout (out : list Output) : Prop :=
  Forall (λ o, ∃ text, o = to_cout text) out.

(** The loop over the arguments as [main] runs it on [argv]. *)
Definition parsed (argv : list string) : Parsed :=
  parse_args (default "" (head argv)) (tail argv) default_options
    (bool_decide (length argv = 1%nat)) false.
End CLISpec.

(** ** Frames whose buffers match their dimensions *)

Module FrameSpec.

(** Every buffer that is present holds [width * height] pixels: three bytes
    per pixel of color, one sample per pixel of depth and of infrared. *)
Definition well_formed (f : FrameData.t) : Prop :=
  let pixels := FrameData.width f * FrameData.height f in
  0 ≤ FrameData.width f ∧ 0 ≤ FrameData.height f
  ∧ (FrameData.rgb f ≠ [] → Z.of_nat (length (FrameData.rgb f)) = pixels * 3)
  ∧ (FrameData.depth f ≠ [] → Z.of_nat (length (FrameData.depth f)) = pixels)
  ∧ (FrameData.ir f ≠ [] → Z.of_nat (length (FrameData.ir f)) = pixels).

(** The frame slot of a generation-1 session: empty as constructed, or 640
    by 480 with each buffer either absent or complete. *)
Definition vga (f : FrameData.t) : Prop :=
  (f = FrameData.empty ∨ (FrameData.width f = V1.kWidth ∧ FrameData.height f = V1.kHeight))
  ∧ (FrameData.rgb f = [] ∨ Z.of_nat (length (FrameData.rgb f)) = V1.kPixelCount * 3)
  ∧ (FrameData.depth f = [] ∨ Z.of_nat (length (FrameData.depth f)) = V1.kPixelCount)
  ∧ (FrameData.ir f = [] ∨ Z.of_nat (length (FrameData.ir f)) = V1.kPixelCount).

(** The dimensions of every frame of a bundle fit an [int]. *)
Definition fits_int {E : Type} (frame : option (V2.Frame.t E)) : Prop :=
  match frame with
  | Some f => 0 ≤ V2.Frame.width f ≤ Stoi.INT_MAX ∧ 0 ≤ V2.Frame.height f ≤ Stoi.INT_MAX
  | None => True
  end.

Definition bundle_fits_int {float : Type} (frames : V2.FrameMap.t float) : Prop :=
  fits_int (V2.FrameMap.Color frames) ∧ fits_int (V2.FrameMap.Ir frames)
  ∧ fits_int (V2.FrameMap.Depth frames).

(** A buffer of [per_pixel] elements per pixel that matches dimensions which
    are not negative. *)
Definition matching (data : list Z) (w h per_pixel : Z) : Prop :=
  0 ≤ w ∧ 0 ≤ h ∧ Z.of_nat (length data) = w * h * per_pixel.
End FrameSpec.

Module CaptureSpec.
Import Capture.

(** Reading a payload back two bytes at a time, most significant first. *)
Fixpoint be16 (bytes : list Z) : list Z :=
  match bytes with
  | hi :: lo :: rest => (hi * 256 + lo) :: be16 rest
  | _ => []
  end.

(** The header lines of the two image files, each ended by a line feed. *)
Definition ppm_header : list Z :=
  Recorder.bytes_of "P6" ++ [10] ++ Recorder.bytes_of "640 480" ++ [10]
    ++ Recorder.bytes_of "255" ++ [10].

Definition pgm_header : list Z :=
  Recorder.bytes_of "P5" ++ [10] ++ Recorder.bytes_of "640 480" ++ [10]
    ++ Recorder.bytes_of "65535" ++ [10].
End CaptureSpec.

Module ControlsSpec.
Import Controls.

(** The ranges that the controls keep. *)
Definition exposure_in_range (s : State) : Prop :=
  1000 ≤ g_manual_exposure_us s ≤ 200000.

Definition in_range (s : State) : Prop :=
  -30 ≤ g_freenect_angle s ≤ 30
  ∧ exposure_in_range s
  ∧ 1 ≤ g_ir_brightness s ≤ 50.

(** A call on a device that is there, with a value that the control
    allows. *)
Definition allowed (c : Call) : Prop :=
  match c with
  | c_set_tilt_degs g_dev angle => g_dev = true ∧ -30 ≤ angle ≤ 30
  | c_set_led g_dev _ => g_dev = true
  | c_set_flag g_dev _ _ => g_dev = true
  | c_set_exposure g_dev time_us => g_dev = true ∧ 1000 ≤ time_us ≤ 200000
  | c_set_ir_brightness g_dev brightness => g_dev = true ∧ 1 ≤ brightness ≤ 50
  end.

(** A call of [freenect_set_led] on a null device. *)
Definition led_on_null (c : Call) : Prop :=
  match c with
  | c_set_led false _ => True
  | _ => False
  end.

(** The value of the automatic exposure that the driver was last told, [auto]
    if it was never told. *)
Definition told_auto_exposure (auto : freenect_flag_value) (h : list Call)
  : freenect_flag_value :=
  foldl (λ auto c,
           match c with
           | c_set_flag _ FREENECT_AUTO_EXPOSURE value => value
           | _ => auto
           end) auto h.

(** Every manual exposure is set while the driver was last told that the
    automatic exposure is off. *)
Fixpoint manual_only_when_off (auto : freenect_flag_value) (h : list Call) : Prop :=
  match h with
  | [] => True
  | c_set_flag _ FREENECT_AUTO_EXPOSURE value :: h => manual_only_when_off value h
  | c_set_exposure _ _ :: h => auto = FREENECT_OFF ∧ manual_only_when_off auto h
  | _ :: h => manual_only_when_off auto h
  end.

(** What the keys keep while there is a device. *)
Definition kept (s : State) (h : list Call) : Prop :=
  g_dev s = true
  ∧ in_range s
  ∧ Forall allowed h
  ∧ told_auto_exposure FREENECT_ON h = g_auto_exposure s
  ∧ manual_only_when_off FREENECT_ON h.

(** What they keep while there is none. *)
Definition kept_without_device (s : State) (h : list Call) : Prop :=
  g_dev s = false
  ∧ exposure_in_range s
  ∧ Forall led_on_null h.
End ControlsSpec.

Module FrameBuffersSpec.
Import FrameBuffers.

(** The seven buffers of a state. *)
Definition buffers (s : State) : list Ptr :=
  [g_depth_mm_mid s; g_depth_mm_front s; g_depth_rgb_mid s; g_depth_rgb_front s;
   g_rgb_back s; g_rgb_mid s; g_rgb_front s].

(** The last video frame and the last depth frame of a run, if any. *)
Definition latest_video (events : list Event) : option (list Z) :=
  foldl (λ latest e, match e with VideoFrame bytes => Some bytes | _ => latest end)
    None events.

Definition latest_depth (events : list Event) : option (list Z) :=
  foldl (λ latest e, match e with DepthFrame depth => Some depth | _ => latest end)
    None events.

(** Where the newest frame is: in the middle buffer until the drawing
    thread has taken it, in the front buffer from then on. *)
Definition newest_rgb (s : State) : Ptr :=
  if g_got_rgb s then g_rgb_mid s else g_rgb_front s.

Definition newest_depth_mm (s : State) : Ptr :=
  if g_got_depth s then g_depth_mm_mid s else g_depth_mm_front s.

Definition newest_depth_rgb (s : State) : Ptr :=
  if g_got_depth s then g_depth_rgb_mid s else g_depth_rgb_front s.

(** What the buffers keep over a run of [events]. *)
Definition handed_over (DepthToFalseColor : Z → list Z) (events : list Event)
    (s : State) : Prop :=
  NoDup (buffers s)
  ∧ video_buffer s = g_rgb_back s
  ∧ (∀ bytes, latest_video events = Some bytes → heap s !! newest_rgb s = Some bytes)
  ∧ (∀ depth, latest_depth events = Some depth →
              heap s !! newest_depth_mm s = Some depth
              ∧ heap s !! newest_depth_rgb s = Some (concat (DepthToFalseColor <$> depth))).
End FrameBuffersSpec.

(** * Properties *)

(** Closes [run = (pattern)] by evaluating the run. *)
Ltac run_lhs :=
  match goal with
  | |- ?lhs = _ =>
      let v := eval vm_compute in lhs in
      transitivity v; [vm_compute; reflexivity|reflexivity]
  end.


(** ** The enumeration retry policy *)

Section Retry.
Import V1 V1Spec.
Variable drv : Driver.

Lemma rounds_S c delay k h :
  h ++ rounds c delay (S k) = ((h ++ [c]) ++ [c_sleep_for delay]) ++ rounds c delay k.
Proof. unfold rounds. simpl. by rewrite <- !app_assoc. Qed.

Lemma rounds_S_app c delay k h t :
  h ++ rounds c delay (S k) ++ t
  = ((h ++ [c]) ++ [c_sleep_for delay]) ++ rounds c delay k ++ t.
Proof. by rewrite !app_assoc, rounds_S. Qed.

Lemma sleeps_app h1 h2 : sleeps (h1 ++ h2) = sleeps h1 ++ sleeps h2.
Proof. unfold sleeps. apply omap_app. Qed.

Lemma sleeps_rounds c delay k :
  (∀ ms, c ≠ c_sleep_for ms) → sleeps (rounds c delay k) = replicate k delay.
Proof.
  intros Hc. induction k as [|k IH]; [done|].
  change (rounds c delay (S k)) with ([c; c_sleep_for delay] ++ rounds c delay k).
  rewrite sleeps_app, IH.
  destruct c; try done. by destruct (Hc ms).
Qed.

(** The equation of one round of the loop. *)
Lemma EnumerateCount_loop_S todo attempt clamped delay_ms h :
  EnumerateCount_loop drv (S todo) attempt clamped delay_ms h
  = if negb (freenect_num_devices drv h =? 0)
    then (freenect_num_devices drv h, h ++ [c_num_devices])
    else if attempt + 1 <? clamped
         then EnumerateCount_loop drv todo (attempt + 1) clamped delay_ms
                ((h ++ [c_num_devices]) ++ [c_sleep_for (Z.max 0 delay_ms)])
         else EnumerateCount_loop drv todo (attempt + 1) clamped delay_ms
                (h ++ [c_num_devices]).
Proof.
  simpl. unfold bind, native, when, sleep_for, native, ret.
  destruct (freenect_num_devices drv h =? 0); [|done].
  by destruct (attempt + 1 <? clamped).
Qed.

(** A non-zero count at round [k] ends the loop there. *)
Lemma EnumerateCount_loop_found k :
  ∀ todo attempt clamped delay_ms h count,
    (k < todo)%nat →
    attempt + Z.of_nat todo = clamped →
    (∀ j, (j < k)%nat →
          freenect_num_devices drv (h ++ rounds c_num_devices (Z.max 0 delay_ms) j) = 0) →
    freenect_num_devices drv (h ++ rounds c_num_devices (Z.max 0 delay_ms) k) = count →
    count ≠ 0 →
    EnumerateCount_loop drv todo attempt clamped delay_ms h
    = (count, h ++ rounds c_num_devices (Z.max 0 delay_ms) k ++ [c_num_devices]).
Proof.
  induction k as [|k IH]; intros todo attempt clamped delay_ms h count Hk Hinv Hzero Hcount Hne;
    (destruct todo as [|todo]; [lia|]); rewrite EnumerateCount_loop_S.
  - change (rounds c_num_devices (0 `max` delay_ms) 0) with (@nil Call) in *.
    rewrite app_nil_r in Hcount. rewrite Hcount.
    by destruct (Z.eqb_spec count 0).
  - pose proof (Hzero 0%nat ltac:(lia)) as H0.
    change (rounds c_num_devices (0 `max` delay_ms) 0) with (@nil Call) in H0.
    rewrite app_nil_r in H0. rewrite H0.
    replace (attempt + 1 <? clamped) with true by (symmetry; apply Z.ltb_lt; lia).
    cbn [Z.eqb negb]. rewrite rounds_S_app.
    apply IH; try lia; try done.
    + intros j Hj. rewrite <- rounds_S. apply Hzero. lia.
    + by rewrite <- rounds_S.
Qed.

(** When every round reports zero the loop runs out and returns zero; the
    last round is not followed by a sleep. *)
Lemma EnumerateCount_loop_exhausted todo :
  ∀ attempt clamped delay_ms h,
    attempt + Z.of_nat (S todo) = clamped →
    (∀ j, (j ≤ todo)%nat →
          freenect_num_devices drv (h ++ rounds c_num_devices (Z.max 0 delay_ms) j) = 0) →
    EnumerateCount_loop drv (S todo) attempt clamped delay_ms h
    = (0, h ++ rounds c_num_devices (Z.max 0 delay_ms) todo ++ [c_num_devices]).
Proof.
  induction todo as [|todo IH]; intros attempt clamped delay_ms h Hinv Hzero;
    rewrite EnumerateCount_loop_S;
    pose proof (Hzero 0%nat ltac:(lia)) as H0;
    change (rounds c_num_devices (0 `max` delay_ms) 0) with (@nil Call) in *;
    rewrite app_nil_r in H0; rewrite H0; cbn [Z.eqb negb].
  - replace (attempt + 1 <? clamped) with false by (symmetry; apply Z.ltb_ge; lia).
    done.
  - replace (attempt + 1 <? clamped) with true by (symmetry; apply Z.ltb_lt; lia).
    rewrite rounds_S_app. apply IH; [lia|].
    intros j Hj. rewrite <- rounds_S. apply Hzero. lia.
Qed.

(** The two lemmas on [EnumerateCountWithRetries] itself. *)
Lemma EnumerateCountWithRetries_found be attempts delay_ms (k : nat) h count :
  Backend.ctx_ be = true →
  Z.of_nat k < Z.max 1 attempts →
  (∀ j, (j < k)%nat →
        freenect_num_devices drv (h ++ rounds c_num_devices (Z.max 0 delay_ms) j) = 0) →
  freenect_num_devices drv (h ++ rounds c_num_devices (Z.max 0 delay_ms) k) = count →
  count ≠ 0 →
  EnumerateCountWithRetries drv be attempts delay_ms h
  = (count, h ++ rounds c_num_devices (Z.max 0 delay_ms) k ++ [c_num_devices]).
Proof.
  intros Hctx Hk Hzero Hcount Hne. unfold EnumerateCountWithRetries. rewrite Hctx.
  cbn [negb]. apply EnumerateCount_loop_found; try done; lia.
Qed.

Lemma EnumerateCountWithRetries_exhausted be attempts delay_ms h :
  Backend.ctx_ be = true →
  (∀ j : nat, Z.of_nat j < Z.max 1 attempts →
        freenect_num_devices drv (h ++ rounds c_num_devices (Z.max 0 delay_ms) j) = 0) →
  EnumerateCountWithRetries drv be attempts delay_ms h
  = (0, h ++ rounds c_num_devices (Z.max 0 delay_ms) (Z.to_nat (Z.max 1 attempts) - 1)
          ++ [c_num_devices]).
Proof.
  intros Hctx Hzero. unfold EnumerateCountWithRetries. rewrite Hctx. cbn [negb].
  destruct (Z.to_nat (Z.max 1 attempts)) as [|todo] eqn:Htodo; [lia|].
  replace (S todo - 1)%nat with todo by lia.
  apply EnumerateCount_loop_exhausted; [lia|].
  intros j Hj. apply Hzero. lia.
Qed.

(** The equation of one round of the first loop of [listDevices]. *)
Lemma listDevices_loop_S todo attempt h :
  listDevices_loop drv (S todo) attempt h
  = let listing := freenect_list_device_attributes drv h in
    if (0 <? fst listing) && negb (vec_empty (snd listing))
    then (Some (devices_of_attributes (snd listing) 0), h ++ [c_list_device_attributes])
    else if attempt + 1 <? 4
         then listDevices_loop drv todo (attempt + 1)
                ((h ++ [c_list_device_attributes]) ++ [c_sleep_for 80])
         else listDevices_loop drv todo (attempt + 1) (h ++ [c_list_device_attributes]).
Proof.
  simpl. unfold bind, native, when, sleep_for, native, ret.
  destruct (freenect_list_device_attributes drv h) as [count attrs]. simpl.
  destruct ((0 <? count) && negb (vec_empty attrs)); [done|].
  by destruct (attempt + 1 <? 4).
Qed.

(** Three empty listings, then a listing of two units. *)
Lemma listDevices_fourth_attempt be h a1 a2 :
  Backend.ctx_ be = true →
  (∀ j, (j < 3)%nat →
        freenect_list_device_attributes drv (h ++ rounds c_list_device_attributes 80 j)
        = (0, [])) →
  freenect_list_device_attributes drv (h ++ rounds c_list_device_attributes 80 3)
  = (2, [a1; a2]) →
  listDevices drv be h
  = (devices_of_attributes [a1; a2] 0,
     h ++ rounds c_list_device_attributes 80 3 ++ [c_list_device_attributes]).
Proof.
  intros Hctx Hzero Hfound. unfold listDevices. rewrite Hctx. cbn [negb]. unfold bind.
  pose proof (Hzero 0%nat ltac:(lia)) as H0.
  pose proof (Hzero 1%nat ltac:(lia)) as H1.
  pose proof (Hzero 2%nat ltac:(lia)) as H2.
  unfold rounds in *. cbn [replicate concat app] in *.
  rewrite app_nil_r in H0.
  rewrite listDevices_loop_S, H0. cbn -[listDevices_loop].
  rewrite <- !app_assoc. cbn [app].
  rewrite listDevices_loop_S, H1. cbn -[listDevices_loop].
  rewrite <- !app_assoc. cbn [app].
  rewrite listDevices_loop_S, H2. cbn -[listDevices_loop].
  rewrite <- !app_assoc. cbn [app].
  rewrite listDevices_loop_S, Hfound. cbn -[listDevices_loop].
  unfold ret. f_equal. by rewrite <- !app_assoc.
Qed.

(** C4.  With four attempts 80 ms apart, three empty listings followed by a
    listing of two units make [listDevices] return the two units after exactly
    three sleeps.  For every attempt count and delay,
    [EnumerateCountWithRetries] returns a non-zero count on the round that
    reports it, with no sleep or query after it, and returns the last count,
    zero, once every attempt reported zero. *)
Theorem C4_enumeration_retry_policy (be : Backend.t) (h : History) :
  Backend.ctx_ be = true →
  (∀ a1 a2,
      (∀ j, (j < 3)%nat →
            freenect_list_device_attributes drv (h ++ rounds c_list_device_attributes 80 j)
            = (0, [])) →
      freenect_list_device_attributes drv (h ++ rounds c_list_device_attributes 80 3)
      = (2, [a1; a2]) →
      ∃ d1 d2 h',
        listDevices drv be h = ([d1; d2], h')
        ∧ h' = h ++ rounds c_list_device_attributes 80 3 ++ [c_list_device_attributes]
        ∧ sleeps h' = sleeps h ++ [80; 80; 80])
  ∧ (∀ attempts delay_ms (k : nat) count,
        Z.of_nat k < Z.max 1 attempts →
        (∀ j, (j < k)%nat →
              freenect_num_devices drv (h ++ rounds c_num_devices (Z.max 0 delay_ms) j) = 0) →
        freenect_num_devices drv (h ++ rounds c_num_devices (Z.max 0 delay_ms) k) = count →
        count ≠ 0 →
        EnumerateCountWithRetries drv be attempts delay_ms h
        = (count, h ++ rounds c_num_devices (Z.max 0 delay_ms) k ++ [c_num_devices]))
  ∧ (∀ attempts delay_ms,
        (∀ j : nat, Z.of_nat j < Z.max 1 attempts →
              freenect_num_devices drv (h ++ rounds c_num_devices (Z.max 0 delay_ms) j) = 0) →
        EnumerateCountWithRetries drv be attempts delay_ms h
        = (0, h ++ rounds c_num_devices (Z.max 0 delay_ms) (Z.to_nat (Z.max 1 attempts) - 1)
                ++ [c_num_devices])).
Proof.
  intros Hctx. split_and!.
  - intros a1 a2 Hzero Hfound.
    eexists _, _, _. split; [by apply listDevices_fourth_attempt|]. split; [done|].
    rewrite !sleeps_app, sleeps_rounds by done. done.
  - intros. by apply EnumerateCountWithRetries_found.
  - intros. by apply EnumerateCountWithRetries_exhausted.
Qed.

(** With a usable context, four enumerations that all report zero make the
    generation-1 [probe] answer that the backend is ready. *)
Lemma probe_v1_no_devices (be : Backend.t) (h : History) :
  Backend.ctx_ be = true →
  (∀ j, (j < 4)%nat → freenect_num_devices drv (h ++ rounds c_num_devices 80 j) = 0) →
  ProbeResult.available (fst (probe drv be h)) = true.
Proof.
  intros Hctx Hzero. unfold probe. rewrite Hctx. cbn [negb]. unfold bind.
  rewrite (EnumerateCountWithRetries_exhausted be 4 80 h Hctx).
  - cbn [Z.ltb Z.eqb Z.compare]. by destruct (Backend.has_audio_firmware_ be).
  - intros j Hj. apply Hzero. lia.
Qed.
End Retry.

(** C4, on a driver whose scripted enumerations report nothing three times and
    two units the fourth time, and on one that never reports a unit. *)
Lemma C4_enumeration_retry_policy_witness :
  let unit_a := V1.Build_freenect_device_attributes (Some "A00364A11700045A") in
  let unit_b := V1.Build_freenect_device_attributes None in
  let drv :=
    V1Spec.scripted_driver (λ n, if (n <? 3)%nat then 0 else 2)
      (λ n, if (n <? 3)%nat then (0, []) else (2, [unit_a; unit_b])) in
  let silent := V1Spec.scripted_driver (λ _, 0) (λ _, (0, [])) in
  let be := V1.Backend.mk true false in
  (∃ d1 d2 h', V1.listDevices drv be [] = ([d1; d2], h') ∧ V1Spec.sleeps h' = [80; 80; 80])
  ∧ fst (V1.EnumerateCountWithRetries drv be 4 80 []) = 2
  ∧ V1.EnumerateCountWithRetries silent be 4 80 []
    = (0, V1Spec.rounds V1.c_num_devices 80 3 ++ [V1.c_num_devices]).
Proof.
  intros unit_a unit_b drv silent be.
  destruct (C4_enumeration_retry_policy drv be [] eq_refl) as (Hlist & Hfound & _).
  destruct (C4_enumeration_retry_policy silent be [] eq_refl) as (_ & _ & Hnone).
  split_and!.
  - destruct (Hlist unit_a unit_b) as (d1 & d2 & h' & Hrun & _ & Hsleeps).
    + intros [|[|[|j]]] Hj; [reflexivity..|lia].
    + reflexivity.
    + by exists d1, d2, h'.
  - rewrite (Hfound 4 80 3%nat 2); [reflexivity|lia| |reflexivity|lia].
    intros [|[|[|j]]] Hj; [reflexivity..|lia].
  - apply (Hnone 4 80). intros j _. reflexivity.
Defined.

(** ** What [probe] reports when nothing is plugged in *)

(** The generation-2 [probe] on a driver that enumerates no unit. *)
Lemma C1_probe_v2_unavailable_without_devices :
  let drv : V2.Driver Z := V2Spec.simple_driver 0 (λ _, "") [] in
  V2.enumerateDevices drv [] = 0
  ∧ ProbeResult.available (fst (V2.probe Z drv [])) = false.
Proof. by split. Qed.

(** C1, amended.  The generation-1 [probe] reports the backend available when
    its context is usable and the enumeration finds no unit.  The generation-2
    [probe] reports it unavailable, with the detail "No Kinect v2 devices
    found.", whenever the enumeration finds no unit. *)
Theorem C1_probe_without_devices :
  (∀ (drv : V1.Driver) (be : V1.Backend.t) (h : V1.History),
      V1.Backend.ctx_ be = true →
      (∀ j, (j < 4)%nat →
            V1.freenect_num_devices drv (h ++ V1Spec.rounds V1.c_num_devices 80 j) = 0) →
      ProbeResult.available (fst (V1.probe drv be h)) = true)
  ∧ (∀ (float : Type) (drv : V2.Driver float) (h : V2.History),
        V2.enumerateDevices drv h ≤ 0 →
        fst (V2.probe float drv h) = ProbeResult.mk false "No Kinect v2 devices found.").
Proof.
  split.
  - intros drv be h. apply probe_v1_no_devices.
  - intros float drv h Hcount. unfold V2.probe, bind, native, ret. simpl.
    by destruct (Z.leb_spec (V2.enumerateDevices drv h) 0); [|lia].
Qed.

Lemma C1_probe_without_devices_witness :
  let silent := V1Spec.scripted_driver (λ _, 0) (λ _, (0, [])) in
  let empty_bus : V2.Driver Z := V2Spec.simple_driver 0 (λ _, "") [] in
  ProbeResult.available (fst (V1.probe silent (V1.Backend.mk true true) [])) = true
  ∧ fst (V2.probe Z empty_bus []) = ProbeResult.mk false "No Kinect v2 devices found.".
Proof.
  intros silent empty_bus. destruct C1_probe_without_devices as [Hv1 Hv2]. split.
  - apply Hv1; [reflexivity|]. intros j _. reflexivity.
  - apply Hv2. simpl. lia.
Defined.

(** ** The streaming state machine of the generation-1 device *)

Section Streaming.
Import V1 V1Spec.
Variable drv : Driver.

(** A successful [ApplyVideoMode] leaves the video sub-stream started, so the
    explicit start of video in [start], and with it the only rollback in
    [start], never runs. *)
Lemma ApplyVideoMode_started d h d' h' :
  ApplyVideoMode drv d h = (true, d', h') → Device.video_started_ d' = true.
Proof.
  unfold ApplyVideoMode, bind, native, ret. intros Happly.
  destruct (Device.dev_ d) as [dev|]; [|done].
  destruct (negb (freenect_find_video_mode_is_valid drv _)); [done|].
  destruct (Device.video_started_ d); simpl in Happly;
    repeat match type of Happly with
           | context [if ?c then _ else _] => destruct c; simpl in Happly
           end;
    by inversion Happly.
Qed.

(** [stop] run twice is [stop] run once: same answer, same device, and no
    native call the second time. *)
Lemma stop_v1_idempotent d h :
  let '(r1, d1, h1) := stop drv d h in stop drv d1 h1 = (r1, d1, h1).
Proof.
  unfold stop, bind, native, ret. destruct d as [? [dev|] ? ? ? [] ? [] [] [] ? ? ? ?];
    simpl; try done;
    repeat match goal with |- context [if ?c then _ else _] => destruct c; simpl end; done.
Qed.

(** On a streaming device [stop] stops audio, then video, then depth, each
    one if it was started, and leaves nothing marked active. *)
Lemma stop_v1_teardown_order d dev h :
  Device.dev_ d = Some dev →
  Device.running_ d = true →
  ∃ d',
    stop drv d h
    = (true, d',
       h ++ (if Device.audio_started_ d then [c_stop_audio dev] else [])
         ++ (if Device.video_started_ d then [c_stop_video dev] else [])
         ++ (if Device.depth_started_ d then [c_stop_depth dev] else []))
    ∧ Device.running_ d' = false
    ∧ no_substream_active d'.
Proof.
  intros Hdev Hrun. unfold stop, bind, native, ret, no_substream_active.
  destruct d as [? dv ? ? ? rn ds vs au ? ? ? ? ?]. simpl in *. subst dv rn. simpl.
  destruct au, vs, ds; simpl; eexists;
    (split; [rewrite <- ?app_assoc, ?app_nil_r; reflexivity|done]).
Qed.

(** The failure path of [start] after the video mode was applied: when
    [freenect_start_depth] fails, [start] reports failure without stopping the
    video sub-stream that [ApplyVideoMode] started. *)
Lemma start_depth_failure d dev h :
  Device.dev_ d = Some dev →
  Device.running_ d = false →
  Device.video_started_ d = false →
  freenect_find_depth_mode_is_valid drv = true →
  (∀ format, freenect_find_video_mode_is_valid drv format = true) →
  (∀ h', 0 ≤ freenect_set_depth_mode drv h' dev) →
  (∀ h' format, 0 ≤ freenect_set_video_mode drv h' dev format) →
  (∀ h', 0 ≤ freenect_start_video drv h' dev) →
  (∀ h', freenect_start_depth drv h' dev < 0) →
  ∃ d' format,
    start drv d h
    = (false, d',
       h ++ [c_set_depth_mode dev; c_set_video_mode dev format; c_start_video dev;
             c_start_depth dev])
    ∧ Device.running_ d' = false
    ∧ Device.video_started_ d' = true.
Proof.
  intros Hdev Hrun Hvideo Hdepth Hmode Hsd Hsv Hst Hfail.
  unfold start, ApplyVideoMode, bind, native, ret.
  destruct d as [? dv ? ? ? rn ds vs au ? rq ? ? ?]. simpl in *. subst dv rn vs.
  rewrite Hdepth, Hmode. simpl.
  repeat match goal with
         | |- context [?x <? 0] =>
             first [ replace (x <? 0) with false by (symmetry; apply Z.ltb_ge; auto)
                   | replace (x <? 0) with true by (symmetry; apply Z.ltb_lt; auto) ];
             simpl
         end.
  eexists _, _. split; [by rewrite <- !app_assoc|done].
Qed.
End Streaming.

(** C2.  The generation-1 session that [openDevice] hands out, on a unit whose
    depth stream refuses to start: [start] reports failure and streaming stays
    off, but the video sub-stream that it started stays marked active and is
    never stopped. *)
Theorem C2_start_depth_failure_leaves_video_started :
  let serial := "A00364A11700045A" in
  let drv := V1Spec.one_unit_driver serial (λ _ _, -1) (λ _, (0, [])) in
  let be := V1.Backend.mk true false in
  ∃ d h d',
    V1.openDevice drv be serial [] = (Some d, h)
    ∧ V1Spec.no_substream_active d
    ∧ V1.start drv d h
      = (false, d',
         h ++ [V1.c_set_depth_mode 0; V1.c_set_video_mode 0 V1.FREENECT_VIDEO_RGB;
               V1.c_start_video 0; V1.c_start_depth 0])
    ∧ V1.Device.running_ d' = false
    ∧ V1.Device.video_started_ d' = true
    ∧ ¬ V1Spec.no_substream_active d'.
Proof.
  intros serial drv be. eexists _, _, _.
  split; [reflexivity|]. split; [done|]. split; [reflexivity|].
  split; [done|]. split; [done|]. intros (_ & Hvideo & _). done.
Qed.

(** C7.  On the session left behind by the failed [start] of C2, [stop]
    answers true both times and changes nothing: the video sub-stream stays
    marked active and [freenect_stop_video] is never called. *)
Theorem C7_stop_after_failed_start_keeps_video :
  let serial := "A00364A11700045A" in
  let drv := V1Spec.one_unit_driver serial (λ _ _, -1) (λ _, (0, [])) in
  let be := V1.Backend.mk true false in
  ∃ d h d' h',
    V1.openDevice drv be serial [] = (Some d, h)
    ∧ V1.start drv d h = (false, d', h')
    ∧ V1.stop drv d' h' = (true, d', h')
    ∧ V1.stop drv (snd (fst (V1.stop drv d' h'))) (snd (V1.stop drv d' h')) = (true, d', h')
    ∧ V1.Device.running_ d' = false
    ∧ V1.Device.video_started_ d' = true
    ∧ V1.c_stop_video 0 ∉ h'.
Proof.
  intros serial drv be. eexists _, _, _, _.
  split; [reflexivity|]. split; [reflexivity|]. split; [reflexivity|].
  split; [reflexivity|]. split; [done|]. split; [done|].
  intros Hin. by repeat (apply elem_of_cons in Hin as [Hin|Hin]; [done|]);
    apply elem_of_nil in Hin.
Qed.

(** ** The frame slot of the generation-1 device *)

Section Mailbox.
Import V1 V1Spec.

Lemma slot_after_nil active f0 : slot_after active f0 [] = f0.
Proof. unfold slot_after. destruct f0. simpl. by destruct (StreamKind_eqb active kIr). Qed.

(** What a run of callbacks leaves in the device: the slot, the fresh flag,
    and the active stream untouched. *)
Lemma deliver_all d cbs :
  let d' := foldl deliver d cbs in
  Device.frame_ d' = slot_after (Device.active_stream_ d) (Device.frame_ d) cbs
  ∧ Device.has_new_frame_ d'
    = Device.has_new_frame_ d || bool_decide (is_Some (last_write_timestamp cbs))
  ∧ Device.active_stream_ d' = Device.active_stream_ d.
Proof.
  induction cbs as [|cb cbs IH] using rev_ind; simpl.
  - rewrite slot_after_nil. split; [done|]. split; [|done].
    by rewrite orb_false_r.
  - rewrite foldl_snoc. destruct IH as (Hframe & Hnew & Hactive).
    set (d1 := foldl deliver d cbs) in *.
    unfold slot_after, last_video_write, last_depth_write, last_write_timestamp in *.
    rewrite !omap_app, !last_app.
    destruct cb as [[src|] ts|[src|] ts]; simpl.
    + rewrite Hframe, Hactive. split; [|split; [|done]].
      * simpl. by destruct (StreamKind_eqb (Device.active_stream_ d) kIr).
      * by rewrite orb_true_r.
    + done.
    + rewrite Hactive. destruct (StreamKind_eqb (Device.active_stream_ d) kIr); simpl;
        rewrite Hframe, ?Hactive; simpl; (split; [done|split; [by rewrite orb_true_r|done]]).
    + done.
Qed.

(** The frame handed out by [getFrame] after a run of callbacks with at least
    one write. *)
Lemma getFrame_after_writes d cbs out ts :
  last_write_timestamp cbs = Some ts →
  getFrame (foldl deliver d cbs) out
  = (true,
     FrameData.mk
       (if StreamKind_eqb (Device.active_stream_ d) kIr then FrameData.rgb (Device.frame_ d)
        else from_option (λ src, copy_from_native src (kPixelCount * 3))
               (FrameData.rgb (Device.frame_ d)) (last_video_write cbs))
       (from_option (λ src, copy_from_native src kPixelCount)
          (FrameData.depth (Device.frame_ d)) (last_depth_write cbs))
       (if StreamKind_eqb (Device.active_stream_ d) kIr
        then from_option (λ src, copy_from_native src kPixelCount)
               (FrameData.ir (Device.frame_ d)) (last_video_write cbs)
        else FrameData.ir (Device.frame_ d))
       kWidth kHeight ts,
     Device.set_has_new_frame_ false (foldl deliver d cbs)).
Proof.
  intros Hts. destruct (deliver_all d cbs) as (Hframe & Hnew & _).
  unfold getFrame. rewrite Hnew, Hts, orb_true_r. simpl. rewrite Hframe.
  unfold slot_after. by rewrite Hts.
Qed.

Lemma copy_from_native_length src n : length (copy_from_native src n) = Z.to_nat n.
Proof. unfold copy_from_native. by rewrite length_fmap, length_seq. Qed.
End Mailbox.


(** C3, as stated, fails on generation 1: a depth write followed by a video
    write, with no read between them, leaves a frame that holds the depth
    buffer of the first write next to the color buffer of the second. *)
Lemma C3_video_write_keeps_unread_depth :
  let d := V1Spec.opened 0 "A00364A11700045A" false in
  let depth_write := V1.cb_depth (Some (λ _, 1000)) 1 in
  let video_write := V1.cb_video (Some (λ _, 128)) 2 in
  ∃ observed d',
    V1.getFrame (foldl V1.deliver d [depth_write; video_write]) FrameData.empty
    = (true, observed, d')
    ∧ FrameData.depth observed = copy_from_native (λ _, 1000) V1.kPixelCount
    ∧ FrameData.rgb observed = copy_from_native (λ _, 128) (V1.kPixelCount * 3)
    ∧ Some observed ≠ V1Spec.written_frame (V1.Device.active_stream_ d) video_write.
Proof.
  intros d depth_write video_write. eexists _, _.
  split.
  { rewrite (getFrame_after_writes d _ FrameData.empty 2); [apply eq_refl|exact eq_refl]. }
  split; [cbn; exact eq_refl|]. split; [cbn; exact eq_refl|].
  intros Heq.
  pose proof (f_equal (λ o, match o with
                            | Some f => length (FrameData.depth f)
                            | None => 0%nat
                            end) Heq) as Hlen.
  cbn in Hlen. rewrite copy_from_native_length in Hlen.
  unfold V1.kPixelCount, V1.kWidth, V1.kHeight in Hlen. lia.
Qed.

(** ** The frame made observable by the generation-2 [update] *)

Section Update2.
Import V2 V2Spec.
Variable float : Type.
Variables depth_sample ir_sample : float → Z.
Variable drv : Driver float.

Lemma assign_rgb_produced c next :
  assign_rgb c next
  = if produced kRgb c
    then (true, FrameData.mk (Converted.rgb_data c) (FrameData.depth next) (FrameData.ir next)
                  (Converted.rgb_w c) (Converted.rgb_h c) (Converted.rgb_ts c))
    else (false, next).
Proof.
  unfold assign_rgb, produced. simpl. rewrite !Z.leb_antisym.
  by destruct (vec_empty _), (0 <? Converted.rgb_w c), (0 <? Converted.rgb_h c).
Qed.

Lemma assign_ir_produced c next :
  assign_ir c next
  = if produced kIr c
    then (true, FrameData.mk (FrameData.rgb next) (FrameData.depth next) (Converted.ir_data c)
                  (Converted.ir_w c) (Converted.ir_h c) (Converted.ir_ts c))
    else (false, next).
Proof.
  unfold assign_ir, produced. simpl. rewrite !Z.leb_antisym.
  by destruct (vec_empty _), (0 <? Converted.ir_w c), (0 <? Converted.ir_h c).
Qed.

Lemma assign_depth_produced c next :
  assign_depth c next
  = if produced kDepth c
    then (true, FrameData.mk (FrameData.rgb next) (Converted.depth_data c) (FrameData.ir next)
                  (Converted.depth_w c) (Converted.depth_h c) (Converted.depth_ts c))
    else (false, next).
Proof.
  unfold assign_depth, produced. simpl. rewrite !Z.leb_antisym.
  by destruct (vec_empty _), (0 <? Converted.depth_w c), (0 <? Converted.depth_h c).
Qed.

(** The selection, closed form: the chosen stream alone, or nothing. *)
Lemma select_frame_chosen selected c :
  select_frame selected c
  = match chosen_stream selected c with
    | Some kind => (true, only kind c)
    | None => (false, FrameData.empty)
    end.
Proof.
  unfold select_frame, or_else, chosen_stream.
  destruct selected;
    destruct (produced kRgb c) eqn:Hrgb, (produced kIr c) eqn:Hir,
      (produced kDepth c) eqn:Hdepth;
    repeat first [ rewrite assign_rgb_produced | rewrite assign_ir_produced
                 | rewrite assign_depth_produced
                 | rewrite Hrgb | rewrite Hir | rewrite Hdepth | progress simpl ];
    done.
Qed.

Lemma produced_nonempty kind c : produced kind c = true → buffer_of kind c ≠ [].
Proof.
  unfold produced. intros H. apply andb_true_iff in H as [H _].
  apply andb_true_iff in H as [H _]. by destruct (buffer_of kind c).
Qed.

Lemma only_single_buffer kind c :
  produced kind c = true → nonempty_buffers (only kind c) = 1%nat.
Proof.
  intros H%produced_nonempty. unfold nonempty_buffers, only.
  destruct kind; simpl in *;
    match type of H with ?buffer ≠ [] => destruct buffer eqn:E end; try done;
    unfold filter; simpl; repeat case_decide; simpl; congruence.
Qed.

Lemma chosen_stream_produced selected c kind :
  chosen_stream selected c = Some kind → produced kind c = true.
Proof.
  unfold chosen_stream. destruct (produced selected c) eqn:Hsel.
  - by intros [= <-].
  - simpl. destruct (produced kRgb c) eqn:Hrgb; [by intros [= <-]|].
    destruct (produced kIr c) eqn:Hir; [by intros [= <-]|].
    destruct (produced kDepth c) eqn:Hdepth; [by intros [= <-]|done].
Qed.

Lemma chosen_stream_None selected c :
  chosen_stream selected c = None → ∀ kind, produced kind c = false.
Proof.
  unfold chosen_stream. destruct (produced selected c) eqn:Hsel; [done|]. simpl.
  destruct (produced kRgb c) eqn:Hrgb; [done|].
  destruct (produced kIr c) eqn:Hir; [done|].
  destruct (produced kDepth c) eqn:Hdepth; [done|]. by intros _ [].
Qed.

(** C10.  Whenever the generation-2 [update] returns true it has stored a
    frame with exactly one non-empty buffer: that of the selected stream when
    this stream produced data, otherwise the first available among color,
    infrared, depth; the width, height and timestamp of the frame are those of
    that buffer.  It returns true exactly when the device is streaming, a
    bundle arrived and some stream of it produced data; when it returns false
    the device is left as it was. *)
Theorem C10_update_v2_single_buffer (d : Device.t) (h : History) :
  ∃ assigned d' h',
    update float depth_sample ir_sample drv d h = (assigned, d', h')
    ∧ (assigned = true →
       ∃ frames kind,
         waitForNewFrame drv h = Some frames
         ∧ chosen_stream (Device.selected_stream_ d) (convert float depth_sample ir_sample frames)
           = Some kind
         ∧ Device.frame_ d' = only kind (convert float depth_sample ir_sample frames)
         ∧ nonempty_buffers (Device.frame_ d') = 1%nat
         ∧ Device.has_new_frame_ d' = true)
    ∧ (assigned = false → d' = d)
    ∧ (assigned = true ↔
       Device.running_ d = true
       ∧ ∃ frames kind,
           waitForNewFrame drv h = Some frames
           ∧ produced kind (convert float depth_sample ir_sample frames) = true).
Proof.
  unfold update, bind, native, ret.
  destruct (Device.running_ d) eqn:Hrun; simpl.
  2: { eexists _, _, _. split; [done|]. split; [done|]. split; [done|].
       split; [done|]. by intros [? _]. }
  destruct (waitForNewFrame drv h) as [frames|] eqn:Hwait.
  2: { eexists _, _, _. split; [done|]. split; [done|]. split; [done|].
       split; [done|]. by intros (_ & ? & ? & ? & _). }
  rewrite select_frame_chosen.
  destruct (chosen_stream _ _) as [kind|] eqn:Hchosen.
  - eexists _, _, _. split; [done|]. split; [|split; [done|]].
    + intros _. exists frames, kind. split; [done|]. split; [done|]. split; [done|].
      split; [|done]. simpl. apply only_single_buffer. by eapply chosen_stream_produced.
    + split; [|done]. intros _. split; [done|]. exists frames, kind.
      split; [done|]. by eapply chosen_stream_produced.
  - eexists _, _, _. split; [done|]. split; [done|]. split; [done|].
    split; [done|]. intros (_ & frames' & kind & [= <-] & Hprod).
    by rewrite (chosen_stream_None _ _ Hchosen kind) in Hprod.
Qed.

(** [update] builds the frame it stores from the bundle alone: whatever frame
    was stored before does not enter the result. *)
Lemma update_v2_replaces_frame d kept h :
  let run := update float depth_sample ir_sample drv d h in
  let run' := update float depth_sample ir_sample drv (Device.set_frame_ kept d) h in
  fst (fst run') = fst (fst run)
  ∧ (fst (fst run) = true →
     Device.frame_ (snd (fst run')) = Device.frame_ (snd (fst run))).
Proof.
  unfold update, bind, native, ret. destruct d as [? ? ? ? ? rn sel]. simpl.
  destruct rn; simpl; [|done].
  destruct (waitForNewFrame drv h) as [frames|]; simpl; [|done].
  destruct (select_frame sel _) as [[] next]; simpl; done.
Qed.
End Update2.

(** C3, amended.  On generation 1, after any run of callbacks with at least
    one write and no read in between, [getFrame] hands out a frame whose
    width, height and timestamp are those of the last write and in which each
    buffer holds the payload of the last write of its own kind, or what the
    slot held before the run when there was none: a write replaces its own
    buffer and the header, and keeps the other buffers.  On generation 2 a
    successful [update] replaces the whole frame. *)
Theorem C3_last_write_per_buffer :
  (∀ (d : V1.Device.t) (cbs : list V1.Callback) (out : FrameData.t) (ts : Z),
      V1Spec.last_write_timestamp cbs = Some ts →
      ∃ f d',
        V1.getFrame (foldl V1.deliver d cbs) out = (true, f, d')
        ∧ V1.Device.has_new_frame_ d' = false
        ∧ FrameData.width f = V1.kWidth
        ∧ FrameData.height f = V1.kHeight
        ∧ FrameData.timestamp f = ts
        ∧ FrameData.depth f
          = from_option (λ src, copy_from_native src V1.kPixelCount)
              (FrameData.depth (V1.Device.frame_ d)) (V1Spec.last_depth_write cbs)
        ∧ FrameData.rgb f
          = (if StreamKind_eqb (V1.Device.active_stream_ d) kIr
             then FrameData.rgb (V1.Device.frame_ d)
             else from_option (λ src, copy_from_native src (V1.kPixelCount * 3))
                    (FrameData.rgb (V1.Device.frame_ d)) (V1Spec.last_video_write cbs))
        ∧ FrameData.ir f
          = (if StreamKind_eqb (V1.Device.active_stream_ d) kIr
             then from_option (λ src, copy_from_native src V1.kPixelCount)
                    (FrameData.ir (V1.Device.frame_ d)) (V1Spec.last_video_write cbs)
             else FrameData.ir (V1.Device.frame_ d)))
  ∧ (∀ (float : Type) (depth_sample ir_sample : float → Z) (drv : V2.Driver float)
       (d : V2.Device.t) (kept : FrameData.t) (h : V2.History),
        fst (fst (V2.update float depth_sample ir_sample drv d h)) = true →
        V2.Device.frame_
          (snd (fst (V2.update float depth_sample ir_sample drv (V2.Device.set_frame_ kept d) h)))
        = V2.Device.frame_ (snd (fst (V2.update float depth_sample ir_sample drv d h)))).
Proof.
  split.
  - intros d cbs out ts Hts. eexists _, _.
    split; [by apply getFrame_after_writes|]. by repeat split.
  - intros float depth_sample ir_sample drv d kept h Hassigned.
    by apply update_v2_replaces_frame.
Qed.

Lemma C3_last_write_per_buffer_witness :
  let d := V1Spec.opened 0 "A00364A11700045A" false in
  let depth_write := V1.cb_depth (Some (λ _, 1000)) 1 in
  let video_write := V1.cb_video (Some (λ _, 128)) 2 in
  let drv2 := V2Spec.simple_driver 1 (λ _, "001122334455") [V2Spec.color_bundle] in
  let d2 := V2Spec.streaming kRgb in
  (∃ f d',
      V1.getFrame (foldl V1.deliver d [depth_write; video_write]) FrameData.empty
      = (true, f, d')
      ∧ FrameData.timestamp f = 2)
  ∧ V2.Device.frame_
      (snd (fst (V2.update Z id id drv2
                   (V2.Device.set_frame_ (FrameData.mk [1] [2] [3] 1 1 0) d2) [])))
    = V2.Device.frame_ (snd (fst (V2.update Z id id drv2 d2 []))).
Proof.
  intros d depth_write video_write drv2 d2.
  destruct C3_last_write_per_buffer as [Hv1 Hv2]. split.
  - destruct (Hv1 d [depth_write; video_write] FrameData.empty 2 eq_refl)
      as (f & d' & Hget & _ & _ & _ & Hts & _).
    by exists f, d'.
  - apply Hv2. reflexivity.
Defined.

(** ** Opening a generation-1 device by serial *)

Lemma fst_bind {A B} {Call} (m : Logged Call A) (k : A → Logged Call B) h :
  fst (bind m k h) = fst (k (fst (m h)) (snd (m h))).
Proof. unfold bind. by destruct (m h). Qed.

Lemma filter_ext_in {A} (P Q : A → Prop) `{∀ x, Decision (P x)} `{∀ x, Decision (Q x)}
    (l : list A) :
  (∀ x, x ∈ l → P x ↔ Q x) → filter P l = filter Q l.
Proof.
  induction l as [|x l IH]; intros Hext; [done|].
  rewrite !filter_cons. rewrite IH by (intros y Hy; apply Hext; by right).
  destruct (decide (P x)) as [HP|HP], (decide (Q x)) as [HQ|HQ]; try done.
  - destruct HQ. apply Hext; [by left|done].
  - destruct HP. apply Hext; [by left|done].
Qed.

Lemma filter_all_in {A} (P : A → Prop) `{∀ x, Decision (P x)} (l : list A) :
  (∀ x, x ∈ l → P x) → filter P l = l.
Proof.
  induction l as [|x l IH]; intros Hall; [done|].
  rewrite filter_cons, IH by (intros y Hy; apply Hall; by right).
  destruct (decide (P x)) as [|HP]; [done|]. destruct HP. apply Hall. by left.
Qed.

(** The positions added after the first candidate: those not seen before, in
    ascending order. *)
Lemma add_unseen_unseen todo :
  ∀ i candidates (seen : gset Z),
    fst (V1.add_unseen todo i candidates seen)
    = candidates ++ filter (λ j, j ∉ seen) (seqZ i (Z.of_nat todo)).
Proof.
  induction todo as [|todo IH]; intros i candidates seen.
  - simpl. by rewrite app_nil_r.
  - cbn [V1.add_unseen]. rewrite seqZ_cons by lia. rewrite filter_cons.
    replace (Z.pred (Z.of_nat (S todo))) with (Z.of_nat todo) by lia.
    replace (Z.succ i) with (i + 1) by lia.
    destruct (decide (i ∈ seen)) as [Hin|Hin].
    + rewrite bool_decide_eq_true_2 by done. rewrite IH.
      by destruct (decide (i ∉ seen)).
    + rewrite bool_decide_eq_false_2 by done. rewrite IH.
      destruct (decide (i ∉ seen)); [|done]. rewrite <- app_assoc. simpl. do 2 f_equal.
      apply filter_ext_in. intros j Hj%elem_of_seqZ.
      rewrite not_elem_of_union, not_elem_of_singleton. intuition lia.
Qed.


Section Opening.
Import V1 V1Spec.
Variable drv : Driver.
Variable be : Backend.t.
Variable serial : string.
Variable n : Z.
Variable listing : Z * list freenect_device_attributes.
Variable by_index : Z → Z * option DevPtr.
Hypothesis Hctx : Backend.ctx_ be = true.
Hypothesis Hreal : negb (String.eqb serial "") && negb (IsSyntheticIndexSerial serial) = true.
Hypothesis Hnum : ∀ h, freenect_num_devices drv h = n.
Hypothesis Hlist : ∀ h, freenect_list_device_attributes drv h = listing.
Hypothesis Hserial : ∀ h, snd (freenect_open_device_by_camera_serial drv h serial) = None.
Hypothesis Hindex : ∀ h i, freenect_open_device drv h i = by_index i.

Lemma steady_count_loop todo attempt clamped delay_ms h :
  fst (EnumerateCount_loop drv todo attempt clamped delay_ms h)
  = match todo with O => 0 | S _ => n end.
Proof using Hnum.
  revert attempt h. induction todo as [|todo IH]; intros attempt h; [done|].
  rewrite EnumerateCount_loop_S, Hnum.
  destruct (Z.eqb_spec n 0) as [->|]; [|done]. simpl.
  destruct (attempt + 1 <? clamped); rewrite IH; by destruct todo.
Qed.

Lemma steady_count attempts delay_ms h :
  fst (EnumerateCountWithRetries drv be attempts delay_ms h) = n.
Proof using Hnum Hctx.
  unfold EnumerateCountWithRetries. rewrite Hctx. cbn [negb]. rewrite steady_count_loop.
  destruct (Z.to_nat (Z.max 1 attempts)) eqn:E; [lia|done].
Qed.

Lemma steady_listDevices_loop todo attempt h :
  fst (listDevices_loop drv todo attempt h)
  = match todo with
    | O => None
    | S _ => if (0 <? fst listing) && negb (vec_empty (snd listing))
             then Some (devices_of_attributes (snd listing) 0) else None
    end.
Proof using Hlist.
  revert attempt h. induction todo as [|todo IH]; intros attempt h; [done|].
  rewrite listDevices_loop_S, Hlist. cbv zeta.
  destruct ((0 <? fst listing) && negb (vec_empty (snd listing))); [done|].
  destruct (attempt + 1 <? 4); rewrite IH; by destruct todo.
Qed.

Lemma steady_listDevices h : fst (listDevices drv be h) = listed n listing.
Proof using Hnum Hlist Hctx.
  unfold listDevices, listed. rewrite Hctx. cbn [negb]. rewrite fst_bind, steady_listDevices_loop.
  destruct ((0 <? fst listing) && negb (vec_empty (snd listing))); [done|].
  by rewrite fst_bind, steady_count.
Qed.

(** [try_open] cannot open by the serial; it opens by the index when the
    index is not negative and the driver accepts it. *)
Lemma steady_try_open index h :
  fst (try_open drv be index serial h)
  = if opens by_index index then Some (session be serial by_index index) else None.
Proof using Hserial Hindex Hreal Hctx.
  unfold try_open, open, opens, session, Device.new, destroy, stop, bind, native, ret.
  cbn [Device.ctx_ Device.serial_]. rewrite Hctx, Hreal. cbn [negb].
  pose proof (Hserial h) as Hs.
  destruct (freenect_open_device_by_camera_serial drv h serial) as [rc dev].
  simpl in Hs. subst dev. simpl.
  destruct (Z.leb_spec 0 index); simpl; [|done].
  rewrite Hindex. destruct (by_index index) as [rc' [dev|]]; simpl.
  - by destruct (rc' <? 0).
  - by rewrite orb_true_r, andb_false_r.
Qed.

Lemma steady_open_candidates candidates h :
  fst (open_candidates drv be serial candidates h)
  = session be serial by_index <$> List.find (opens by_index) candidates.
Proof using Hserial Hindex Hreal Hctx.
  revert h. induction candidates as [|index rest IH]; intros h; [done|].
  simpl. rewrite fst_bind, steady_try_open.
  destruct (opens by_index index); [done|]. apply IH.
Qed.

Lemma real_serial_not_prefixed : String.prefix "DeviceIndex-" serial = false.
Proof using Hreal.
  apply andb_true_iff in Hreal as [_ Hsyn]. unfold IsSyntheticIndexSerial in Hsyn.
  by destruct (String.prefix _ serial).
Qed.

Lemma steady_candidates h :
  fst (candidates_of drv be serial (Z.max 0 n) h) = positional_candidates serial n listing.
Proof using Hnum Hlist Hreal Hctx.
  unfold candidates_of, positional_candidates. rewrite real_serial_not_prefixed.
  apply andb_true_iff in Hreal as [Hne _]. rewrite Hne.
  rewrite fst_bind, fst_bind, steady_listDevices.
  destruct (find_serial (listed n listing) serial 0) as [idx|]; unfold ret; simpl;
    rewrite add_unseen_unseen, Z2Nat.id by lia.
  - simpl. f_equal. apply filter_ext_in. intros j _. apply not_elem_of_singleton.
  - simpl. apply filter_all_in. intros j _. apply not_elem_of_empty.
Qed.

Lemma steady_openDevice_loop todo h :
  fst (openDevice_loop drv be serial todo h)
  = match todo with
    | O => None
    | S _ => session be serial by_index
               <$> List.find (opens by_index) (positional_candidates serial n listing)
    end.
Proof using Hserial Hnum Hlist Hindex Hreal Hctx.
  revert h. induction todo as [|todo IH]; intros h; [done|].
  cbn [openDevice_loop]. rewrite Hreal.
  rewrite fst_bind, steady_try_open. unfold opens at 1. simpl.
  rewrite fst_bind, steady_count, fst_bind, steady_candidates, fst_bind,
    steady_open_candidates.
  destruct (List.find _ _) as [i|] eqn:Hfind; [done|]. simpl.
  rewrite fst_bind, IH. by destruct todo.
Qed.

Lemma steady_openDevice h :
  fst (openDevice drv be serial h)
  = session be serial by_index
      <$> List.find (opens by_index) (positional_candidates serial n listing).
Proof using Hserial Hnum Hlist Hindex Hreal Hctx.
  unfold openDevice. rewrite Hctx. cbn [negb]. apply steady_openDevice_loop.
Qed.
End Opening.

(** C5, as stated, fails: one unit of serial A00364A11700045A is attached and
    the caller asks for the serial B00362214327044B.  Opening by that serial
    fails every time, yet [openDevice] hands out a session, opened by the
    enumeration position 0 on the unit of the other serial. *)
Lemma C5_exact_serial_open_lands_on_other_unit :
  let attached := "A00364A11700045A" in
  let asked := "B00362214327044B" in
  let drv := V1Spec.one_unit_driver attached (λ _ _, 0) (λ _, (0, [])) in
  let be := V1.Backend.mk true false in
  asked ≠ ""
  ∧ V1.IsSyntheticIndexSerial asked = false
  ∧ (∀ h, snd (V1.freenect_open_device_by_camera_serial drv h asked) = None)
  ∧ fst (V1.listDevices drv be []) = [DeviceInfo.mk kV1 attached "Kinect v1"]
  ∧ fst (V1.openDevice drv be asked [])
    = Some (V1Spec.opened 0 asked false)
  ∧ V1.Device.dev_ (V1Spec.opened 0 asked false) = Some 0%nat
  ∧ snd (V1.openDevice drv be asked [])
    = [V1.c_open_device_by_camera_serial asked; V1.c_num_devices;
       V1.c_list_device_attributes; V1.c_open_device_by_camera_serial asked;
       V1.c_open_device 0].
Proof.
  intros attached asked drv be. split; [done|]. split; [done|]. split; [done|].
  split; [done|]. split; [by vm_compute|]. split; [done|]. by vm_compute.
Qed.

(** C5, amended.  When the identifier is a real serial and opening by that
    serial fails, [openDevice] falls back to the enumeration positions within
    the same attempt: first the position at which the listing shows the
    serial, if any, then every other position below the device count in
    ascending order; it hands out the session of the first position that
    opens, whichever unit sits there, and fails only when no position opens.
    (Stated for a driver whose answers do not change during the call.) *)
Theorem C5_exact_serial_falls_back_to_positions
    (drv : V1.Driver) (be : V1.Backend.t) (serial : string) (n : Z)
    (listing : Z * list V1.freenect_device_attributes)
    (by_index : Z → Z * option nat) (h : V1.History) :
  V1.Backend.ctx_ be = true →
  serial ≠ "" →
  V1.IsSyntheticIndexSerial serial = false →
  (∀ h', V1.freenect_num_devices drv h' = n) →
  (∀ h', V1.freenect_list_device_attributes drv h' = listing) →
  (∀ h', snd (V1.freenect_open_device_by_camera_serial drv h' serial) = None) →
  (∀ h' i, V1.freenect_open_device drv h' i = by_index i) →
  fst (V1.openDevice drv be serial h)
  = V1Spec.session be serial by_index
      <$> List.find (V1Spec.opens by_index) (V1Spec.positional_candidates serial n listing).
Proof.
  intros Hctx Hne Hsyn Hnum Hlist Hserial Hindex.
  apply steady_openDevice; try done.
  apply String.eqb_neq in Hne. by rewrite Hne, Hsyn.
Qed.

Lemma C5_exact_serial_falls_back_to_positions_witness :
  let attached := "A00364A11700045A" in
  let asked := "B00362214327044B" in
  let drv := V1Spec.one_unit_driver attached (λ _ _, 0) (λ _, (0, [])) in
  let be := V1.Backend.mk true false in
  let by_index := λ i : Z, if i =? 0 then (0, Some 0%nat) else (-1, None) in
  fst (V1.openDevice drv be asked []) = Some (V1Spec.session be asked by_index 0).
Proof.
  intros attached asked drv be by_index.
  rewrite (C5_exact_serial_falls_back_to_positions drv be asked 1
             (1, [V1.Build_freenect_device_attributes (Some attached)]) by_index []);
    [reflexivity|reflexivity|discriminate|reflexivity|reflexivity|reflexivity|reflexivity
    |reflexivity].
Defined.

(** [stop] on generation 2 run twice is [stop] run once. *)
Lemma stop_v2_idempotent (d : V2.Device.t) (h : V2.History) :
  let '(r1, d1, h1) := V2.stop d h in V2.stop d1 h1 = (r1, d1, h1).
Proof.
  unfold V2.stop, bind, native, ret. by destruct d as [? ? [dev|] ? ? [] ?].
Qed.

(** ** The point-list export *)

Section PointList.
Import ControlCenter PlySpec.
Variable double : Type.
Variable camera_to_world : nat → nat → Z → double * double.

Lemma counted_in_range d : counted d = bool_decide (350 ≤ d ≤ 6000).
Proof.
  unfold counted. apply Bool.eq_iff_eq_true.
  rewrite andb_true_iff, !Z.leb_le, bool_decide_eq_true. done.
Qed.

Lemma skipped_not_counted d : skipped d = negb (counted d).
Proof.
  unfold skipped, counted. rewrite negb_andb, !Z.leb_antisym, !negb_involutive. done.
Qed.

(** The first loop counts the samples in range. *)
Lemma count_valid_filter depth :
  count_valid depth = Z.of_nat (length (filter (λ d, 350 ≤ d ≤ 6000) depth)).
Proof.
  unfold count_valid.
  enough (∀ acc, foldl (λ valid_points d, if counted d then valid_points + 1 else valid_points)
                   acc depth
                 = acc + Z.of_nat (length (filter (λ d, 350 ≤ d ≤ 6000) depth))) as ->
      by lia.
  induction depth as [|d depth IH]; intros acc; simpl; [lia|].
  rewrite IH, filter_cons, counted_in_range.
  destruct (decide (350 ≤ d ≤ 6000)).
  - rewrite bool_decide_eq_true_2 by done. simpl. lia.
  - by rewrite bool_decide_eq_false_2 by done.
Qed.

Lemma mapM_total {A B} (f : A → option B) (g : A → B) (l : list A) :
  (∀ x, x ∈ l → f x = Some (g x)) → mapM f l = Some (g <$> l).
Proof.
  induction l as [|x l IH]; intros Hall; [done|].
  simpl. rewrite (Hall x) by (by left). simpl.
  rewrite IH by (intros y Hy; apply Hall; by right). done.
Qed.

Lemma concat_guarded {A B} (P : A → bool) (g : A → B) (l : list A) :
  concat ((λ i, if P i then [g i] else []) <$> l) = g <$> filter (λ i, P i = true) l.
Proof.
  induction l as [|i l IH]; [done|].
  rewrite fmap_cons, filter_cons. cbn [concat]. rewrite IH. destruct (P i); simpl.
  - by destruct (decide (true = true)).
  - by destruct (decide (false = true)).
Qed.

Lemma index_bound x y :
  (x < kFrameWidth)%nat → (y < kFrameHeight)%nat → (y * kFrameWidth + x < kFramePixels)%nat.
Proof. unfold kFramePixels, kFrameWidth, kFrameHeight. lia. Qed.

Lemma index_column x y : (x < kFrameWidth)%nat → ((y * kFrameWidth + x) mod kFrameWidth = x)%nat.
Proof.
  intros Hx. rewrite Nat.add_comm, Nat.Div0.mod_add. by apply Nat.mod_small.
Qed.

Lemma index_row x y : (x < kFrameWidth)%nat → ((y * kFrameWidth + x) / kFrameWidth = y)%nat.
Proof.
  intros Hx. rewrite Nat.add_comm, Nat.div_add by (unfold kFrameWidth; lia).
  rewrite Nat.div_small by done. done.
Qed.

(** The body of the inner loop, for a pixel of the frame. *)
Lemma write_point_in_frame depth rgb x y :
  length depth = kFramePixels →
  length rgb = kFrameRgbBytes →
  (x < kFrameWidth)%nat →
  (y < kFrameHeight)%nat →
  write_point double camera_to_world depth rgb x y
  = Some (if valid_at depth (y * kFrameWidth + x)
          then [point_of camera_to_world depth rgb (y * kFrameWidth + x)]
          else []).
Proof.
  intros Hdepth Hrgb Hx Hy. pose proof (index_bound x y Hx Hy) as Hindex.
  unfold write_point, valid_at, point_of.
  rewrite index_column, index_row by done.
  destruct (lookup_lt_is_Some_2 depth (y * kFrameWidth + x)) as [d Hd]; [lia|].
  rewrite Hd. simpl. rewrite skipped_not_counted, counted_in_range.
  destruct (bool_decide (350 ≤ d ≤ 6000)); simpl; [|done].
  destruct (camera_to_world x y d) as [wx wy].
  assert (length rgb = kFramePixels * 3)%nat as Hlen by done.
  destruct (lookup_lt_is_Some_2 rgb ((y * kFrameWidth + x) * 3 + 0)) as [r Hr]; [lia|].
  destruct (lookup_lt_is_Some_2 rgb ((y * kFrameWidth + x) * 3 + 1)) as [g Hg]; [lia|].
  destruct (lookup_lt_is_Some_2 rgb ((y * kFrameWidth + x) * 3 + 2)) as [b Hb]; [lia|].
  rewrite Hr, Hg, Hb. done.
Qed.
Lemma concat_guarded_shift {B} (P : nat → bool) (g : nat → B) (j n : nat) :
  concat ((λ x, if P (j + x)%nat then [g (j + x)%nat] else []) <$> seq 0 n)
  = g <$> filter (λ i, P i = true) (seq j n).
Proof.
  induction n as [|n IH]; [done|].
  rewrite !seq_S, fmap_app, concat_app, IH, filter_app, fmap_app. f_equal.
  cbn [fmap list_fmap concat]. rewrite app_nil_r, filter_cons, filter_nil.
  replace (0 + n)%nat with n by done.
  destruct (P (j + n)%nat); simpl.
  - by destruct (decide (true = true)).
  - by destruct (decide (false = true)).
Qed.

Lemma concat_rows {B} (F : list nat → list B) (w n : nat) :
  (∀ l1 l2, F (l1 ++ l2) = F l1 ++ F l2) →
  F [] = [] →
  concat ((λ y, F (seq (y * w) w)) <$> seq 0 n) = F (seq 0 (n * w)).
Proof.
  intros Happ Hnil. induction n as [|n IH]; [done|].
  rewrite seq_S, fmap_app, concat_app, IH.
  cbn [fmap list_fmap concat]. rewrite app_nil_r.
  replace (S n * w)%nat with (n * w + w)%nat by lia.
  by rewrite seq_app, Happ.
Qed.

(** One row of the writing loop. *)
Lemma write_row_in_frame depth rgb y :
  length depth = kFramePixels →
  length rgb = kFrameRgbBytes →
  (y < kFrameHeight)%nat →
  write_row double camera_to_world depth rgb y
  = Some (point_of camera_to_world depth rgb
            <$> filter (λ index, valid_at depth index = true)
                  (seq (y * kFrameWidth) kFrameWidth)).
Proof.
  intros Hdepth Hrgb Hy. unfold write_row.
  rewrite (mapM_total _
             (λ x, if valid_at depth (y * kFrameWidth + x)
                   then [point_of camera_to_world depth rgb (y * kFrameWidth + x)]
                   else [])).
  - cbn [fmap option_fmap option_map]. f_equal.
    apply (concat_guarded_shift (valid_at depth) (point_of camera_to_world depth rgb)).
  - intros x Hx%elem_of_seq. apply write_point_in_frame; [assumption|assumption|lia|assumption].
Qed.

(** The whole writing loop: the lines of the samples in range, in index
    order. *)
Lemma write_body_in_frame depth rgb :
  length depth = kFramePixels →
  length rgb = kFrameRgbBytes →
  write_body double camera_to_world depth rgb
  = Some (point_of camera_to_world depth rgb <$> exported depth).
Proof.
  intros Hdepth Hrgb. unfold write_body, exported.
  rewrite (mapM_total _
             (λ y, point_of camera_to_world depth rgb
                     <$> filter (λ index, valid_at depth index = true)
                           (seq (y * kFrameWidth) kFrameWidth))).
  - cbn [fmap option_fmap option_map]. f_equal.
    replace kFramePixels with (kFrameHeight * kFrameWidth)%nat
      by (unfold kFramePixels; apply Nat.mul_comm).
    apply (concat_rows
             (λ l, point_of camera_to_world depth rgb
                     <$> filter (λ index, valid_at depth index = true) l)).
    + intros l1 l2. by rewrite filter_app, fmap_app.
    + done.
  - intros y Hy%elem_of_seq. apply write_row_in_frame; [assumption|assumption|lia].
Qed.

(** The number of exported indices is the number of samples in range. *)
Lemma exported_length depth :
  length depth = kFramePixels →
  length (exported depth) = length (filter (λ d, 350 ≤ d ≤ 6000) depth).
Proof.
  intros Hlen. unfold exported. rewrite <- Hlen. clear Hlen.
  enough (∀ prefix l,
             length (filter (λ index, valid_at (prefix ++ l) index = true)
                       (seq (length prefix) (length l)))
             = length (filter (λ d, 350 ≤ d ≤ 6000) l)) as H by apply (H []).
  intros prefix l. revert prefix. induction l as [|d l IH]; intros prefix; [done|].
  cbn [length seq]. rewrite !filter_cons.
  specialize (IH (prefix ++ [d])). rewrite <- app_assoc, length_app in IH.
  cbn [length app] in IH. replace (length prefix + 1)%nat with (S (length prefix)) in IH by lia.
  assert (valid_at (prefix ++ d :: l) (length prefix) = bool_decide (350 ≤ d ≤ 6000)) as ->
    by (unfold valid_at; by rewrite list_lookup_middle).
  destruct (decide (350 ≤ d ≤ 6000)) as [Hd|Hd].
  - rewrite bool_decide_eq_true_2 by done. destruct (decide (true = true)); [|done].
    cbn [length]. by rewrite IH.
  - rewrite bool_decide_eq_false_2 by done. destruct (decide (false = true)); [done|].
    by rewrite IH.
Qed.

(** A sample gets one line when it is in range and none otherwise. *)
Lemma lines_of_sample depth index d :
  depth !! index = Some d →
  (index < kFramePixels)%nat →
  lines_of depth index = if bool_decide (350 ≤ d ≤ 6000) then 1%nat else 0%nat.
Proof.
  intros Hd Hindex. unfold lines_of, exported.
  rewrite list_filter_filter.
  enough (∀ j n,
             length (filter (λ a, a = index ∧ valid_at depth a = true) (seq j n))
             = if bool_decide (j ≤ index < j + n)%nat && bool_decide (350 ≤ d ≤ 6000)
               then 1%nat else 0%nat) as ->.
  { rewrite bool_decide_eq_true_2 by lia. done. }
  intros j n. revert j. induction n as [|n IH]; intros j.
  - simpl. by rewrite bool_decide_eq_false_2 by lia.
  - cbn [seq]. rewrite filter_cons.
    destruct (decide (j = index ∧ valid_at depth j = true)) as [[-> Hv]|Hno];
      cbn [length]; rewrite IH.
    + unfold valid_at in Hv. rewrite Hd in Hv. cbn [from_option] in Hv. rewrite Hv.
      rewrite (bool_decide_eq_false_2 (S index ≤ index < _)%nat) by lia.
      by rewrite bool_decide_eq_true_2 by lia.
    + destruct (decide (j = index)) as [->|Hne].
      * rewrite (bool_decide_eq_false_2 (S index ≤ index < _)%nat) by lia.
        rewrite (bool_decide_eq_true_2 (index ≤ index < _)%nat) by lia.
        unfold valid_at in Hno. rewrite Hd in Hno. cbn [from_option] in Hno.
        destruct (bool_decide (350 ≤ d ≤ 6000)); [|done]. by destruct Hno.
      * destruct (decide (S j ≤ index < S j + n)%nat).
        -- by rewrite !(bool_decide_eq_true_2 (_ ≤ index < _)%nat) by lia.
        -- by rewrite !(bool_decide_eq_false_2 (_ ≤ index < _)%nat) by lia.
Qed.

(** C6.  For a depth frame and its color frame, with the device present and
    the file open, the export writes the lines of exactly the samples [d]
    with [350 <= d <= 6000], in index order, one line each and none for any
    other sample, and the vertex count of the header is the number of those
    samples; so a sample of 0 mm at index 100 gets no line and a sample of
    5000 mm at index 101 gets exactly one. *)
Theorem C6_point_list_export (depth rgb : list Z) :
  length depth = kFramePixels →
  length rgb = kFrameRgbBytes →
  ∃ file,
    SavePointCloudPly double camera_to_world true true depth rgb
    = Some (element_vertex file, Some file)
    ∧ points file = point_of camera_to_world depth rgb <$> exported depth
    ∧ element_vertex file = Z.of_nat (length (points file))
    ∧ element_vertex file = Z.of_nat (length (filter (λ d, 350 ≤ d ≤ 6000) depth))
    ∧ (∀ index d,
          depth !! index = Some d →
          lines_of depth index = if bool_decide (350 ≤ d ≤ 6000) then 1%nat else 0%nat)
    ∧ (depth !! 100%nat = Some 0 → depth !! 101%nat = Some 5000 →
       lines_of depth 100 = 0%nat ∧ lines_of depth 101 = 1%nat).
Proof.
  intros Hdepth Hrgb.
  assert (∀ index d, depth !! index = Some d →
                     lines_of depth index
                     = if bool_decide (350 ≤ d ≤ 6000) then 1%nat else 0%nat) as Hlines.
  { intros index d Hd. apply lines_of_sample; [assumption|].
    rewrite <- Hdepth. eapply lookup_lt_Some, Hd. }
  eexists (Build_PlyFile _ _).
  split.
  { unfold SavePointCloudPly. cbn [negb].
    rewrite write_body_in_frame by assumption. reflexivity. }
  cbn [points element_vertex].
  split; [reflexivity|]. split.
  { rewrite length_fmap, exported_length by assumption. apply count_valid_filter. }
  split; [apply count_valid_filter|]. split; [exact Hlines|].
  intros H100 H101. rewrite (Hlines _ _ H100), (Hlines _ _ H101). split; reflexivity.
Qed.
End PointList.

Lemma sample_depth_length : length PlySpec.sample_depth = ControlCenter.kFramePixels.
Proof.
  unfold PlySpec.sample_depth. rewrite !length_app, !length_replicate. cbn [length].
  unfold ControlCenter.kFramePixels, ControlCenter.kFrameWidth, ControlCenter.kFrameHeight.
  lia.
Qed.

Lemma sample_depth_lookup (i : nat) :
  (i < 2)%nat → PlySpec.sample_depth !! (100 + i)%nat = [0; 5000] !! i.
Proof.
  intros Hi. unfold PlySpec.sample_depth.
  rewrite lookup_app_r by (rewrite length_replicate; lia).
  rewrite length_replicate. replace (100 + i - 100)%nat with i by lia.
  by rewrite lookup_app_l by (cbn [length]; lia).
Qed.

(** C6 on a frame that holds 0 mm at index 100 and 5000 mm at index 101. *)
Lemma C6_point_list_export_witness :
  let camera_to_world := λ (x y : nat) (d : Z), (Z.of_nat x * d, Z.of_nat y * d) in
  ∃ file,
    ControlCenter.SavePointCloudPly Z camera_to_world true true
      PlySpec.sample_depth PlySpec.black
    = Some (ControlCenter.element_vertex file, Some file)
    ∧ PlySpec.lines_of PlySpec.sample_depth 100 = 0%nat
    ∧ PlySpec.lines_of PlySpec.sample_depth 101 = 1%nat.
Proof.
  intros camera_to_world.
  destruct (C6_point_list_export Z camera_to_world PlySpec.sample_depth PlySpec.black
              sample_depth_length (length_replicate _ _))
    as (file & Hsave & _ & _ & _ & _ & Hsample).
  exists file. split; [exact Hsave|].
  apply Hsample.
  - exact (sample_depth_lookup 0 ltac:(lia)).
  - exact (sample_depth_lookup 1 ltac:(lia)).
Defined.

(** ** The sample queue of the virtual camera *)

Section SampleQueue.
Import DAL DALSpec.
Context {A : Type}.

(** The eviction loop drops the oldest elements until fewer than
    [kQueueCapacity] are left, and hands each of them to [CFRelease]; the
    fuel it is given is never exhausted. *)
Lemma evict_drops_oldest (fuel : nat) :
  ∀ (q : CMSimpleQueue A) (rel : list A),
    (length (elements q) < fuel)%nat →
    evict fuel q rel
    = ({| capacity := capacity q;
          elements := drop (length (elements q) - 7) (elements q) |},
       rel ++ take (length (elements q) - 7) (elements q)).
Proof.
  induction fuel as [|fuel IH]; intros [cap els] rel Hfuel; [lia|].
  cbn [evict]. unfold CMSimpleQueueGetCount, CMSimpleQueueDequeue, kQueueCapacity.
  cbn [elements capacity] in *.
  destruct (Z.leb_spec 8 (Z.of_nat (length els))) as [Hfull|Hroom].
  - destruct els as [|oldest rest]; [simpl in Hfull; lia|].
    cbn [length] in *. rewrite IH by (cbn [elements]; lia).
    cbn [elements capacity].
    replace (S (length rest) - 7)%nat with (S (length rest - 7)) by lia.
    cbn [drop take]. by rewrite <- app_assoc.
  - replace (length els - 7)%nat with 0%nat by lia.
    by rewrite drop_0, take_0, app_nil_r.
Qed.

(** One round of the producer on a queue of the plugin's capacity. *)
Lemma produce_on_bounded_queue (st : State A) (q : CMSimpleQueue A) (sample : A) :
  gSampleQueue st = Some q →
  capacity q = kQueueCapacity →
  CMSimpleQueueGetCount q ≤ kQueueCapacity →
  let full := bool_decide (CMSimpleQueueGetCount q = kQueueCapacity) in
  produce st (Some sample)
  = {| gSampleQueue :=
         Some {| capacity := kQueueCapacity;
                 elements := (if full then drop 1 (elements q) else elements q) ++ [sample] |};
       gQueueAlteredProc := gQueueAlteredProc st;
       released := released st ++ (if full then take 1 (elements q) else []);
       announced := if gQueueAlteredProc st then announced st ++ [sample] else announced st |}.
Proof.
  intros Hq Hcap Hcount full. subst full. unfold produce. rewrite Hq.
  rewrite evict_drops_oldest by lia.
  unfold CMSimpleQueueGetCount, kQueueCapacity in *.
  unfold CMSimpleQueueEnqueue, CMSimpleQueueGetCount. cbn [elements capacity].
  rewrite Hcap, length_drop.
  replace (Z.of_nat (length (elements q) - (length (elements q) - 7)) <? 8) with true
    by (symmetry; apply Z.ltb_lt; lia).
  cbn [Z.eqb noErr].
  destruct (decide (Z.of_nat (length (elements q)) = 8)) as [Hfull|Hroom].
  - rewrite bool_decide_eq_true_2 by done.
    by replace (length (elements q) - 7)%nat with 1%nat by lia.
  - rewrite bool_decide_eq_false_2 by done.
    replace (length (elements q) - 7)%nat with 0%nat by lia.
    by rewrite drop_0, take_0.
Qed.

Lemma step_bounded (st : State A) (e : Event A) : bounded st → bounded (step st e).
Proof.
  intros (q & Hq & Hcap & Hcount). destruct e as [[sample|]|]; cbn [step].
  - rewrite (produce_on_bounded_queue st q sample) by done.
    eexists. split; [done|]. split; [done|].
    unfold CMSimpleQueueGetCount, kQueueCapacity in *. cbn [elements].
    rewrite length_app. cbn [length].
    destruct (decide (Z.of_nat (length (elements q)) = 8)).
    + rewrite bool_decide_eq_true_2 by done. rewrite length_drop. lia.
    + rewrite bool_decide_eq_false_2 by done. lia.
  - by exists q.
  - rewrite Hq. unfold CMSimpleQueueDequeue. destruct q as [cap [|oldest rest]].
    + by eexists.
    + eexists. split; [done|]. split; [done|].
      unfold CMSimpleQueueGetCount in *. cbn [elements length snd] in *. lia.
Qed.

Lemma ProducerLoop_bounded (st : State A) (events : list (Event A)) :
  bounded st → bounded (ProducerLoop st events).
Proof.
  unfold ProducerLoop. revert st.
  induction events as [|e events IH]; intros st Hst; [done|].
  cbn [foldl]. by apply IH, step_bounded.
Qed.

(** C8.  On the queue of capacity 8 a push into a full queue releases exactly
    the oldest sample and then enqueues the new one; a push into a queue with
    room releases nothing; either way the new sample becomes the newest
    element and the queue holds at most 8 afterwards.  Over every run of the
    producer, with the host dequeueing at will, the queue never holds more
    than 8 samples. *)
Theorem C8_queue_never_exceeds_capacity :
  (∀ (st : State A) (q : CMSimpleQueue A) (sample : A),
      gSampleQueue st = Some q →
      capacity q = kQueueCapacity →
      CMSimpleQueueGetCount q ≤ kQueueCapacity →
      ∃ q',
        gSampleQueue (produce st (Some sample)) = Some q'
        ∧ CMSimpleQueueGetCount q' ≤ kQueueCapacity
        ∧ (CMSimpleQueueGetCount q = kQueueCapacity →
           elements q' = drop 1 (elements q) ++ [sample]
           ∧ released (produce st (Some sample)) = released st ++ take 1 (elements q)
           ∧ length (take 1 (elements q)) = 1%nat)
        ∧ (CMSimpleQueueGetCount q < kQueueCapacity →
           elements q' = elements q ++ [sample]
           ∧ released (produce st (Some sample)) = released st))
  ∧ (∀ (proc : bool) (events : list (Event A)),
        ∃ q,
          gSampleQueue (ProducerLoop (initial proc) events) = Some q
          ∧ CMSimpleQueueGetCount q ≤ kQueueCapacity).
Proof.
  split.
  - intros st q sample Hq Hcap Hcount.
    pose proof (step_bounded st (Produced (Some sample))
                  (ex_intro _ q (conj Hq (conj Hcap Hcount))))
      as (q' & Hq' & _ & Hcount').
    cbn [step] in Hq'. exists q'. split; [done|]. split; [done|].
    rewrite (produce_on_bounded_queue st q sample) in Hq' |- * by done.
    cbn [gSampleQueue released] in *. injection Hq' as <-. cbn [elements].
    split.
    + intros Hfull. rewrite bool_decide_eq_true_2 by done. split; [done|]. split; [done|].
      rewrite length_take. unfold CMSimpleQueueGetCount, kQueueCapacity in Hfull. lia.
    + intros Hroom. rewrite bool_decide_eq_false_2 by lia. by rewrite app_nil_r.
  - intros proc events.
    destruct (ProducerLoop_bounded (initial proc) events) as (q & Hq & _ & Hcount).
    + eexists. split; [done|]. split; [done|]. by unfold CMSimpleQueueGetCount, kQueueCapacity.
    + by exists q.
Qed.
End SampleQueue.

(** C8 on a full queue of eight samples and on a run of ten pushes. *)
Lemma C8_queue_never_exceeds_capacity_witness :
  let q := DAL.Build_CMSimpleQueue 8 [1; 2; 3; 4; 5; 6; 7; 8]%nat in
  let st := DAL.Build_State (Some q) true [] [] in
  ∃ q',
    DAL.gSampleQueue (DAL.produce st (Some 9%nat)) = Some q'
    ∧ DAL.elements q' = [2; 3; 4; 5; 6; 7; 8; 9]%nat
    ∧ DAL.released (DAL.produce st (Some 9%nat)) = [1%nat].
Proof.
  intros q st.
  destruct (C8_queue_never_exceeds_capacity (A:=nat)) as [Hpush _].
  destruct (Hpush st q 9%nat) as (q' & Hq' & _ & Hfull & _);
    [reflexivity|reflexivity|vm_compute; discriminate|].
  exists q'. split; [exact Hq'|].
  destruct Hfull as (Hels & Hrel & _); [reflexivity|].
  split; [exact Hels|exact Hrel].
Defined.

(** ** The verdict of [preview] *)

Section Preview.

Lemma count_frame_up_to frame result k :
  counted_up_to k result → k + 1 < 2 ^ 64 → counted_up_to (k + 1) (count_frame frame result).
Proof.
  unfold counted_up_to, count_frame, incr64. intros [Hc Hd] Hk.
  cbn [PreviewResult.color_frames PreviewResult.depth_frames].
  destruct (negb (vec_empty (FrameData.rgb frame))), (negb (vec_empty (FrameData.depth frame)));
    rewrite ?Z.mod_small by lia; lia.
Qed.

Lemma counted_up_to_mono k k' result :
  counted_up_to k result → k ≤ k' → counted_up_to k' result.
Proof. unfold counted_up_to. lia. Qed.

Lemma preview_loop_v1_up_to drv polls :
  ∀ device result h k,
    counted_up_to k result →
    k + Z.of_nat polls < 2 ^ 64 →
    counted_up_to (k + Z.of_nat polls) (snd (fst (V1.preview_loop drv polls device result h))).
Proof.
  induction polls as [|polls IH]; intros device result h k Hres Hk.
  - cbn [V1.preview_loop]. unfold ret. cbn [fst snd]. eapply counted_up_to_mono; [done|lia].
  - cbn [V1.preview_loop]. unfold bind at 1.
    destruct (V1.update drv device h) as [[updated device1] h1].
    destruct (V1.getFrame device1 FrameData.empty) as [[got frame] device2].
    replace (k + Z.of_nat (S polls)) with ((k + 1) + Z.of_nat polls) by lia.
    apply IH; [|lia]. destruct got.
    + apply count_frame_up_to; [done|lia].
    + eapply counted_up_to_mono; [done|lia].
Qed.

Lemma preview_loop_v2_up_to (float : Type) (depth_sample ir_sample : float → Z)
    (drv : V2.Driver float) polls :
  ∀ device result h k,
    counted_up_to k result →
    k + Z.of_nat polls < 2 ^ 64 →
    counted_up_to (k + Z.of_nat polls)
      (snd (fst (V2.preview_loop float depth_sample ir_sample drv polls device result h))).
Proof.
  induction polls as [|polls IH]; intros device result h k Hres Hk.
  - cbn [V2.preview_loop]. unfold ret. cbn [fst snd]. eapply counted_up_to_mono; [done|lia].
  - cbn [V2.preview_loop]. unfold bind at 1.
    destruct (V2.update float depth_sample ir_sample drv device h) as [[updated device1] h1].
    replace (k + Z.of_nat (S polls)) with ((k + 1) + Z.of_nat polls) by lia.
    destruct updated.
    + destruct (V2.getFrame device1 FrameData.empty) as [[got frame] device2].
      apply IH; [|lia]. destruct got.
      * apply count_frame_up_to; [done|lia].
      * eapply counted_up_to_mono; [done|lia].
    + apply IH; [|lia]. eapply counted_up_to_mono; [done|lia].
Qed.

(** The verdict computed from counters that cannot wrap. *)
Lemma finish_preview_verdict result k :
  counted_up_to k result →
  k < 2 ^ 63 →
  let r := finish_preview result in
  (PreviewResult.success r = true
   ↔ 0 < PreviewResult.color_frames r + PreviewResult.depth_frames r)
  ∧ PreviewResult.detail r
    = (if PreviewResult.success r then "Preview captured." else "No frames captured.").
Proof.
  intros [Hc Hd] Hk. unfold finish_preview, sum64_positive. cbn.
  rewrite Z.mod_small by lia. split; [apply Z.ltb_lt|done].
Qed.

Lemma with_detail_verdict detail :
  let r := with_detail detail PreviewResult.init in
  PreviewResult.success r = true
  ↔ 0 < PreviewResult.color_frames r + PreviewResult.depth_frames r.
Proof. cbn. split; [done|lia]. Qed.
End Preview.

(** [preview] either stops before polling, with both counters at zero, or
    polls and computes the verdict from counters bounded by the number of
    polls. *)
Lemma preview_v1_run (drv : V1.Driver) (be : V1.Backend.t) (polls : nat) (h : V1.History) :
  Z.of_nat polls < 2 ^ 63 →
  (∃ detail,
      fst (V1.preview drv be polls h) = with_detail detail PreviewResult.init
      ∧ ∀ first rest h1 device h2 device' h3,
          V1.listDevices drv be h = (first :: rest, h1) →
          V1.openDevice drv be (DeviceInfo.serial first) h1 = (Some device, h2) →
          V1.start drv device h2 = (true, device', h3) → False)
  ∨ (∃ result,
        counted_up_to (Z.of_nat polls) result
        ∧ fst (V1.preview drv be polls h) = finish_preview result).
Proof.
  intros Hpolls. destruct (V1.preview drv be polls h) as [r hf] eqn:Hrun. cbn [fst].
  unfold V1.preview in Hrun. unfold bind at 1 in Hrun.
  destruct (V1.listDevices drv be h) as [[|first rest] h1] eqn:Hlist.
  { unfold ret in Hrun. injection Hrun as <- _. left. eexists. split; [done|].
    intros ? ? ? ? ? ? ? H1 H2 H3. simplify_eq. }
  unfold bind at 1 in Hrun.
  destruct (V1.openDevice drv be (DeviceInfo.serial first) h1) as [[device|] h2] eqn:Hopen.
  2: { unfold ret in Hrun. injection Hrun as <- _. left. eexists. split; [done|].
       intros ? ? ? ? ? ? ? H1 H2 H3. simplify_eq. congruence. }
  unfold bind at 1 in Hrun.
  destruct (V1.start drv device h2) as [[[] device'] h3] eqn:Hstart; cbn [negb] in Hrun.
  2: { unfold bind at 1 in Hrun. destruct (V1.destroy drv device' h3).
       unfold ret in Hrun. injection Hrun as <- _. left. eexists. split; [done|].
       intros ? ? ? ? ? ? ? H1 H2 H3. simplify_eq. congruence. }
  unfold bind at 1 in Hrun.
  pose proof (preview_loop_v1_up_to drv polls device' PreviewResult.init h3 0) as Hloop.
  destruct (V1.preview_loop drv polls device' PreviewResult.init h3) as [[device4 result] h4].
  cbn [fst snd] in Hloop.
  unfold bind at 1 in Hrun. destruct (V1.stop drv device4 h4) as [[stopped device5] h5].
  unfold bind at 1 in Hrun. destruct (V1.destroy drv device5 h5) as [[] h6].
  unfold ret in Hrun. injection Hrun as <- _. right. exists result. split; [|done].
  replace (Z.of_nat polls) with (0 + Z.of_nat polls) by lia.
  apply Hloop; [|lia]. unfold counted_up_to. cbn. lia.
Qed.

Lemma preview_v2_run (float : Type) (depth_sample ir_sample : float → Z)
    (drv : V2.Driver float) (polls : nat) (h : V2.History) :
  Z.of_nat polls < 2 ^ 63 →
  (∃ detail,
      fst (V2.preview float depth_sample ir_sample drv polls h)
      = with_detail detail PreviewResult.init
      ∧ ∀ first rest h1 device h2 device' h3,
          V2.listDevices float drv h = (first :: rest, h1) →
          V2.openDevice float drv (DeviceInfo.serial first) h1 = (Some device, h2) →
          V2.start float drv device h2 = (true, device', h3) → False)
  ∨ (∃ result,
        counted_up_to (Z.of_nat polls) result
        ∧ fst (V2.preview float depth_sample ir_sample drv polls h) = finish_preview result).
Proof.
  intros Hpolls.
  destruct (V2.preview float depth_sample ir_sample drv polls h) as [r hf] eqn:Hrun.
  cbn [fst]. unfold V2.preview in Hrun. unfold bind at 1 in Hrun.
  destruct (V2.listDevices float drv h) as [[|first rest] h1] eqn:Hlist.
  { unfold ret in Hrun. injection Hrun as <- _. left. eexists. split; [done|].
    intros ? ? ? ? ? ? ? H1 H2 H3. simplify_eq. }
  unfold bind at 1 in Hrun.
  destruct (V2.openDevice float drv (DeviceInfo.serial first) h1) as [[device|] h2] eqn:Hopen.
  2: { unfold ret in Hrun. injection Hrun as <- _. left. eexists. split; [done|].
       intros ? ? ? ? ? ? ? H1 H2 H3. simplify_eq. congruence. }
  unfold bind at 1 in Hrun.
  destruct (V2.start float drv device h2) as [[[] device'] h3] eqn:Hstart; cbn [negb] in Hrun.
  2: { unfold bind at 1 in Hrun. destruct (V2.destroy device' h3).
       unfold ret in Hrun. injection Hrun as <- _. left. eexists. split; [done|].
       intros ? ? ? ? ? ? ? H1 H2 H3. simplify_eq. congruence. }
  unfold bind at 1 in Hrun.
  pose proof (preview_loop_v2_up_to float depth_sample ir_sample drv polls device'
                PreviewResult.init h3 0) as Hloop.
  destruct (V2.preview_loop float depth_sample ir_sample drv polls device'
              PreviewResult.init h3) as [[device4 result] h4].
  cbn [fst snd] in Hloop.
  unfold bind at 1 in Hrun. destruct (V2.stop device4 h4) as [[stopped device5] h5].
  unfold bind at 1 in Hrun. destruct (V2.destroy device5 h5) as [[] h6].
  unfold ret in Hrun. injection Hrun as <- _. right. exists result. split; [|done].
  replace (Z.of_nat polls) with (0 + Z.of_nat polls) by lia.
  apply Hloop; [|lia]. unfold counted_up_to. cbn. lia.
Qed.

(** The verdict in either case. *)
Lemma run_verdict (r : PreviewResult.t) (polls : nat) (polled : Prop) :
  Z.of_nat polls < 2 ^ 63 →
  (∃ detail, r = with_detail detail PreviewResult.init ∧ (polled → False))
  ∨ (∃ result, counted_up_to (Z.of_nat polls) result ∧ r = finish_preview result) →
  (PreviewResult.success r = true
   ↔ 0 < PreviewResult.color_frames r + PreviewResult.depth_frames r)
  ∧ (polled →
     PreviewResult.detail r
     = (if PreviewResult.success r then "Preview captured." else "No frames captured.")).
Proof.
  intros Hpolls [(detail & -> & Hearly)|(result & Hbound & ->)].
  - split; [apply with_detail_verdict|]. intros Hp. destruct (Hearly Hp).
  - destruct (finish_preview_verdict result (Z.of_nat polls) Hbound Hpolls) as [Hiff Hdetail].
    split; [exact Hiff|]. intros _. exact Hdetail.
Qed.

(** The counters of the polling loop are the frames that were handed over. *)

Section Counting.
Import PreviewSpec.

Lemma with_color_app frames more :
  with_color (frames ++ more) = with_color frames + with_color more.
Proof. unfold with_color. rewrite filter_app, length_app. lia. Qed.

Lemma with_depth_app frames more :
  with_depth (frames ++ more) = with_depth frames + with_depth more.
Proof. unfold with_depth. rewrite filter_app, length_app. lia. Qed.

Lemma with_color_range frames : 0 ≤ with_color frames ≤ Z.of_nat (length frames).
Proof. unfold with_color. pose proof (length_filter (λ f, FrameData.rgb f ≠ []) frames). lia. Qed.

Lemma with_depth_range frames : 0 ≤ with_depth frames ≤ Z.of_nat (length frames).
Proof.
  unfold with_depth. pose proof (length_filter (λ f, FrameData.depth f ≠ []) frames). lia.
Qed.

(** Some frame carries color or depth exactly when the two counts add up to
    more than zero. *)
Lemma some_frame_counted frames :
  0 < with_color frames + with_depth frames
  ↔ ∃ frame, frame ∈ frames ∧ (FrameData.rgb frame ≠ [] ∨ FrameData.depth frame ≠ []).
Proof.
  induction frames as [|frame frames IH].
  - split; [unfold with_color, with_depth; cbn; lia|].
    intros (frame & Hin & _). by apply elem_of_nil in Hin.
  - change (frame :: frames) with ([frame] ++ frames).
    rewrite with_color_app, with_depth_app.
    pose proof (with_color_range frames). pose proof (with_depth_range frames).
    unfold with_color at 1, with_depth at 1. cbn [filter list_filter].
    split.
    + intros Hpos.
      destruct (decide (FrameData.rgb frame ≠ [])) as [Hc|Hc].
      { exists frame. split; [left|by left]. }
      destruct (decide (FrameData.depth frame ≠ [])) as [Hd|Hd].
      { exists frame. split; [left|by right]. }
      cbn in Hpos. destruct IH as [IH _]. destruct IH as (f & Hin & Hf); [lia|].
      exists f. split; [by right|done].
    + intros (f & Hin & Hf). apply elem_of_cons in Hin as [->|Hin].
      * destruct Hf as [Hf|Hf].
        -- destruct (decide (FrameData.rgb frame ≠ [])); [|done].
           destruct (decide (FrameData.depth frame ≠ [])); cbn; lia.
        -- destruct (decide (FrameData.depth frame ≠ [])); [|done].
           destruct (decide (FrameData.rgb frame ≠ [])); cbn; lia.
      * assert (0 < with_color frames + with_depth frames) by (apply IH; eauto).
        destruct (decide (FrameData.rgb frame ≠ [])),
          (decide (FrameData.depth frame ≠ [])); cbn; lia.
Qed.

(** One counted frame adds itself to the counters that have room. *)
Lemma count_frame_counts frame result k :
  counted_up_to k result → k + 1 < 2 ^ 64 →
  PreviewResult.color_frames (count_frame frame result)
  = PreviewResult.color_frames result + with_color [frame]
  ∧ PreviewResult.depth_frames (count_frame frame result)
    = PreviewResult.depth_frames result + with_depth [frame].
Proof.
  unfold counted_up_to, count_frame, incr64, with_color, with_depth. intros [Hc Hd] Hk.
  cbn [PreviewResult.color_frames PreviewResult.depth_frames filter list_filter].
  destruct (FrameData.rgb frame) as [|? ?], (FrameData.depth frame) as [|? ?];
    cbn [vec_empty negb]; repeat case_decide; try congruence; cbn [length];
    rewrite ?Z.mod_small by lia; lia.
Qed.
End Counting.

Section PollingLoop.
Import PreviewSpec.

Lemma preview_loop_v1_counts drv polls :
  ∀ device result h k,
    counted_up_to k result →
    k + Z.of_nat polls < 2 ^ 64 →
    let out := snd (fst (V1.preview_loop drv polls device result h)) in
    let frames := polled_v1 drv polls device h in
    PreviewResult.color_frames out = PreviewResult.color_frames result + with_color frames
    ∧ PreviewResult.depth_frames out
      = PreviewResult.depth_frames result + with_depth frames.
Proof.
  induction polls as [|polls IH]; intros device result h k Hres Hk.
  - cbn [V1.preview_loop polled_v1]. unfold ret. cbn [fst snd].
    unfold with_color, with_depth. cbn. lia.
  - cbn [V1.preview_loop polled_v1]. unfold bind.
    destruct (V1.update drv device h) as [[updated device1] h1].
    destruct (V1.getFrame device1 FrameData.empty) as [[got frame] device2].
    cbn zeta. rewrite with_color_app, with_depth_app. destruct got.
    + destruct (count_frame_counts frame result k Hres ltac:(lia)) as [Hc Hd].
      destruct (IH device2 (count_frame frame result) h1 (k + 1)) as [IHc IHd];
        [apply count_frame_up_to; [done|lia]|lia|].
      cbn zeta in IHc, IHd. cbn iota. split; [rewrite IHc, Hc|rewrite IHd, Hd]; lia.
    + destruct (IH device2 result h1 k Hres ltac:(lia)) as [IHc IHd].
      cbn zeta in IHc, IHd. cbn iota. unfold with_color at 1, with_depth at 1.
      cbn [filter list_filter length]. split; [rewrite IHc|rewrite IHd]; lia.
Qed.

Lemma preview_loop_v2_counts (float : Type) (depth_sample ir_sample : float → Z)
    (drv : V2.Driver float) polls :
  ∀ device result h k,
    counted_up_to k result →
    k + Z.of_nat polls < 2 ^ 64 →
    let out :=
      snd (fst (V2.preview_loop float depth_sample ir_sample drv polls device result h)) in
    let frames := polled_v2 float depth_sample ir_sample drv polls device h in
    PreviewResult.color_frames out = PreviewResult.color_frames result + with_color frames
    ∧ PreviewResult.depth_frames out
      = PreviewResult.depth_frames result + with_depth frames.
Proof.
  induction polls as [|polls IH]; intros device result h k Hres Hk.
  - cbn [V2.preview_loop polled_v2]. unfold ret. cbn [fst snd].
    unfold with_color, with_depth. cbn. lia.
  - cbn [V2.preview_loop polled_v2]. unfold bind.
    destruct (V2.update float depth_sample ir_sample drv device h) as [[updated device1] h1].
    destruct updated.
    + destruct (V2.getFrame device1 FrameData.empty) as [[got frame] device2].
      cbn zeta. rewrite with_color_app, with_depth_app. destruct got.
      * destruct (count_frame_counts frame result k Hres ltac:(lia)) as [Hc Hd].
        destruct (IH device2 (count_frame frame result) h1 (k + 1)) as [IHc IHd];
          [apply count_frame_up_to; [done|lia]|lia|].
        cbn zeta in IHc, IHd. cbn iota. split; [rewrite IHc, Hc|rewrite IHd, Hd]; lia.
      * destruct (IH device2 result h1 k Hres ltac:(lia)) as [IHc IHd].
        cbn zeta in IHc, IHd. cbn iota. unfold with_color at 1, with_depth at 1.
        cbn [filter list_filter length]. split; [rewrite IHc|rewrite IHd]; lia.
    + cbn zeta. apply (IH device1 result h1 k Hres). lia.
Qed.

Lemma length_polled_v1 drv polls :
  ∀ device h, (length (polled_v1 drv polls device h) ≤ polls)%nat.
Proof.
  induction polls as [|polls IH]; intros device h; cbn [polled_v1]; [done|].
  destruct (V1.update drv device h) as [[updated device1] h1].
  destruct (V1.getFrame device1 FrameData.empty) as [[got frame] device2].
  rewrite length_app. specialize (IH device2 h1). destruct got; cbn [length]; lia.
Qed.

Lemma length_polled_v2 (float : Type) (depth_sample ir_sample : float → Z)
    (drv : V2.Driver float) polls :
  ∀ device h,
    (length (polled_v2 float depth_sample ir_sample drv polls device h) ≤ polls)%nat.
Proof.
  induction polls as [|polls IH]; intros device h; cbn [polled_v2]; [done|].
  destruct (V2.update float depth_sample ir_sample drv device h) as [[updated device1] h1].
  destruct updated.
  - destruct (V2.getFrame device1 FrameData.empty) as [[got frame] device2].
    rewrite length_app. specialize (IH device2 h1). destruct got; cbn [length]; lia.
  - specialize (IH device1 h1). lia.
Qed.

(** The verdict on the counters of a polling run. *)
Lemma finish_preview_counts result frames (polls : nat) :
  Z.of_nat polls < 2 ^ 63 →
  (length frames ≤ polls)%nat →
  PreviewResult.color_frames result = with_color frames →
  PreviewResult.depth_frames result = with_depth frames →
  let r := finish_preview result in
  PreviewResult.color_frames r = with_color frames
  ∧ PreviewResult.depth_frames r = with_depth frames
  ∧ (PreviewResult.success r = true
     ↔ ∃ frame, frame ∈ frames
                ∧ (FrameData.rgb frame ≠ [] ∨ FrameData.depth frame ≠ []))
  ∧ PreviewResult.detail r
    = (if PreviewResult.success r then "Preview captured." else "No frames captured.").
Proof.
  intros Hpolls Hlen Hc Hd. unfold finish_preview, sum64_positive.
  cbn [PreviewResult.color_frames PreviewResult.depth_frames PreviewResult.success
       PreviewResult.detail].
  split; [done|]. split; [done|]. split; [|done].
  rewrite <- some_frame_counted, Hc, Hd.
  pose proof (with_color_range frames). pose proof (with_depth_range frames).
  rewrite Z.mod_small by lia. apply Z.ltb_lt.
Qed.
End PollingLoop.

(** A [preview] that lists a device, opens it and starts it polls [polls]
    times and computes its verdict from the counters of the loop. *)
Lemma preview_v1_polls (drv : V1.Driver) (be : V1.Backend.t) (polls : nat) (h : V1.History)
    first rest h1 device h2 device' h3 :
  V1.listDevices drv be h = (first :: rest, h1) →
  V1.openDevice drv be (DeviceInfo.serial first) h1 = (Some device, h2) →
  V1.start drv device h2 = (true, device', h3) →
  fst (V1.preview drv be polls h)
  = finish_preview (snd (fst (V1.preview_loop drv polls device' PreviewResult.init h3))).
Proof.
  intros Hlist Hopen Hstart. unfold V1.preview.
  unfold bind at 1. rewrite Hlist. unfold bind at 1. rewrite Hopen.
  unfold bind at 1. rewrite Hstart. cbn [negb]. unfold bind at 1.
  destruct (V1.preview_loop drv polls device' PreviewResult.init h3) as [[device4 result] h4].
  unfold bind at 1. destruct (V1.stop drv device4 h4) as [[stopped device5] h5].
  unfold bind at 1. by destruct (V1.destroy drv device5 h5) as [[] h6].
Qed.

Lemma preview_v2_polls (float : Type) (depth_sample ir_sample : float → Z)
    (drv : V2.Driver float) (polls : nat) (h : V2.History)
    first rest h1 device h2 device' h3 :
  V2.listDevices float drv h = (first :: rest, h1) →
  V2.openDevice float drv (DeviceInfo.serial first) h1 = (Some device, h2) →
  V2.start float drv device h2 = (true, device', h3) →
  fst (V2.preview float depth_sample ir_sample drv polls h)
  = finish_preview
      (snd (fst (V2.preview_loop float depth_sample ir_sample drv polls device'
                   PreviewResult.init h3))).
Proof.
  intros Hlist Hopen Hstart. unfold V2.preview.
  unfold bind at 1. rewrite Hlist. unfold bind at 1. rewrite Hopen.
  unfold bind at 1. rewrite Hstart. cbn [negb]. unfold bind at 1.
  destruct (V2.preview_loop float depth_sample ir_sample drv polls device'
              PreviewResult.init h3) as [[device4 result] h4].
  unfold bind at 1. destruct (V2.stop device4 h4) as [[stopped device5] h5].
  unfold bind at 1. by destruct (V2.destroy device5 h5) as [[] h6].
Qed.

(** C9.  For both generations, [preview] reports success exactly when the
    color frames and the depth frames it counted add up to more than zero.
    Whenever it got as far as polling (a device was listed, opened and
    started), the two counters it returns are the number of frames with
    color and the number of frames with depth among the frames that
    [getFrame] handed over while polling; it reports success exactly when
    one of these frames carried color or depth; and its detail is "Preview
    captured." on success and "No frames captured." otherwise.  The number
    of polls is below 2^63, so that the 64-bit counters cannot wrap. *)
Theorem C9_preview_success_iff_frames (polls : nat) :
  Z.of_nat polls < 2 ^ 63 →
  (∀ (drv : V1.Driver) (be : V1.Backend.t) (h : V1.History),
      let r := fst (V1.preview drv be polls h) in
      (PreviewResult.success r = true
       ↔ 0 < PreviewResult.color_frames r + PreviewResult.depth_frames r)
      ∧ (∀ first rest h1 device h2 device' h3,
            V1.listDevices drv be h = (first :: rest, h1) →
            V1.openDevice drv be (DeviceInfo.serial first) h1 = (Some device, h2) →
            V1.start drv device h2 = (true, device', h3) →
            let frames := PreviewSpec.polled_v1 drv polls device' h3 in
            PreviewResult.color_frames r = PreviewSpec.with_color frames
            ∧ PreviewResult.depth_frames r = PreviewSpec.with_depth frames
            ∧ (PreviewResult.success r = true
               ↔ ∃ frame, frame ∈ frames
                          ∧ (FrameData.rgb frame ≠ [] ∨ FrameData.depth frame ≠ []))
            ∧ PreviewResult.detail r
              = (if PreviewResult.success r
                 then "Preview captured." else "No frames captured.")))
  ∧ (∀ (float : Type) (depth_sample ir_sample : float → Z) (drv : V2.Driver float)
       (h : V2.History),
        let r := fst (V2.preview float depth_sample ir_sample drv polls h) in
        (PreviewResult.success r = true
         ↔ 0 < PreviewResult.color_frames r + PreviewResult.depth_frames r)
        ∧ (∀ first rest h1 device h2 device' h3,
              V2.listDevices float drv h = (first :: rest, h1) →
              V2.openDevice float drv (DeviceInfo.serial first) h1 = (Some device, h2) →
              V2.start float drv device h2 = (true, device', h3) →
              let frames :=
                PreviewSpec.polled_v2 float depth_sample ir_sample drv polls device' h3 in
              PreviewResult.color_frames r = PreviewSpec.with_color frames
              ∧ PreviewResult.depth_frames r = PreviewSpec.with_depth frames
              ∧ (PreviewResult.success r = true
                 ↔ ∃ frame, frame ∈ frames
                            ∧ (FrameData.rgb frame ≠ [] ∨ FrameData.depth frame ≠ []))
              ∧ PreviewResult.detail r
                = (if PreviewResult.success r
                   then "Preview captured." else "No frames captured."))).
Proof.
  intros Hpolls. split.
  - intros drv be h r. split.
    + destruct (run_verdict r polls
                  (∃ first rest h1 device h2 device' h3,
                      V1.listDevices drv be h = (first :: rest, h1)
                      ∧ V1.openDevice drv be (DeviceInfo.serial first) h1
                        = (Some device, h2)
                      ∧ V1.start drv device h2 = (true, device', h3)) Hpolls)
        as [Hiff _]; [|exact Hiff].
      destruct (preview_v1_run drv be polls h Hpolls) as [(detail & Hr & Hearly)|Hrun].
      * left. exists detail. split; [exact Hr|].
        intros (? & ? & ? & ? & ? & ? & ? & H1 & H2 & H3). eapply Hearly; eassumption.
      * by right.
    + intros first rest h1 device h2 device' h3 Hlist Hopen Hstart frames.
      subst r. rewrite (preview_v1_polls drv be polls h _ _ _ _ _ _ _ Hlist Hopen Hstart).
      destruct (preview_loop_v1_counts drv polls device' PreviewResult.init h3 0)
        as [Hc Hd]; [unfold counted_up_to; cbn; lia|lia|].
      apply (finish_preview_counts _ frames polls Hpolls).
      * apply length_polled_v1.
      * exact Hc.
      * exact Hd.
  - intros float depth_sample ir_sample drv h r. split.
    + destruct (run_verdict r polls
                  (∃ first rest h1 device h2 device' h3,
                      V2.listDevices float drv h = (first :: rest, h1)
                      ∧ V2.openDevice float drv (DeviceInfo.serial first) h1
                        = (Some device, h2)
                      ∧ V2.start float drv device h2 = (true, device', h3)) Hpolls)
        as [Hiff _]; [|exact Hiff].
      destruct (preview_v2_run float depth_sample ir_sample drv polls h Hpolls)
        as [(detail & Hr & Hearly)|Hrun].
      * left. exists detail. split; [exact Hr|].
        intros (? & ? & ? & ? & ? & ? & ? & H1 & H2 & H3). eapply Hearly; eassumption.
      * by right.
    + intros first rest h1 device h2 device' h3 Hlist Hopen Hstart frames.
      subst r.
      rewrite (preview_v2_polls float depth_sample ir_sample drv polls h _ _ _ _ _ _ _
                 Hlist Hopen Hstart).
      destruct (preview_loop_v2_counts float depth_sample ir_sample drv polls device'
                  PreviewResult.init h3 0)
        as [Hc Hd]; [unfold counted_up_to; cbn; lia|lia|].
      apply (finish_preview_counts _ frames polls Hpolls).
      * apply length_polled_v2.
      * exact Hc.
      * exact Hd.
Qed.

(** C9 on three polls.  A generation-2 unit that delivers one color bundle:
    one color frame is counted and the preview succeeds.  A generation-1 unit
    that delivers a depth frame at every poll: three depth frames are counted
    and the preview succeeds.  A generation-1 unit that delivers nothing: no
    frame is counted and the preview fails. *)
Lemma C9_preview_success_iff_frames_witness :
  let drv2 : V2.Driver Z :=
    V2Spec.simple_driver 1 (λ _, "001122334455") [V2Spec.color_bundle] in
  let r2 := fst (V2.preview Z id id drv2 3 []) in
  let drv1 :=
    V1Spec.one_unit_driver "A00364A11700045A" (λ _ _, 0)
      (λ _, (0, [V1.cb_depth (Some (λ _, 1000)) 5])) in
  let r1 := fst (V1.preview drv1 (V1.Backend.mk true false) 3 []) in
  let drv0 := V1Spec.one_unit_driver "A00364A11700045A" (λ _ _, 0) (λ _, (0, [])) in
  let r0 := fst (V1.preview drv0 (V1.Backend.mk true false) 3 []) in
  Z.of_nat 3 < 2 ^ 63
  ∧ (PreviewResult.success r2 = true
     ∧ PreviewResult.color_frames r2 = 1
     ∧ PreviewResult.depth_frames r2 = 0
     ∧ PreviewResult.detail r2 = "Preview captured.")
  ∧ (PreviewResult.success r1 = true
     ∧ PreviewResult.color_frames r1 = 0
     ∧ PreviewResult.depth_frames r1 = 3
     ∧ PreviewResult.detail r1 = "Preview captured.")
  ∧ (PreviewResult.success r0 = false
     ∧ PreviewResult.color_frames r0 = 0
     ∧ PreviewResult.depth_frames r0 = 0
     ∧ PreviewResult.detail r0 = "No frames captured.").
Proof.
  intros drv2 r2 drv1 r1 drv0 r0.
  assert (Z.of_nat 3 < 2 ^ 63) as Hpolls by lia.
  split; [exact Hpolls|].
  destruct (C9_preview_success_iff_frames 3 Hpolls) as [Hv1 Hv2].
  split; [|split].
  - destruct (Hv2 Z id id drv2 []) as [Hiff Hpolled].
    edestruct Hpolled as (Hc & Hd & _ & Hdetail); [run_lhs..|].
    fold r2 in Hiff, Hc, Hd, Hdetail.
    assert (PreviewResult.color_frames r2 = 1) as Hc' by (rewrite Hc; vm_compute; reflexivity).
    assert (PreviewResult.depth_frames r2 = 0) as Hd' by (rewrite Hd; vm_compute; reflexivity).
    assert (PreviewResult.success r2 = true) as Hs by (apply Hiff; rewrite Hc', Hd'; lia).
    rewrite Hs in Hdetail. auto.
  - destruct (Hv1 drv1 (V1.Backend.mk true false) []) as [Hiff Hpolled].
    edestruct Hpolled as (Hc & Hd & _ & Hdetail); [run_lhs..|].
    fold r1 in Hiff, Hc, Hd, Hdetail.
    assert (PreviewResult.color_frames r1 = 0) as Hc' by (rewrite Hc; vm_compute; reflexivity).
    assert (PreviewResult.depth_frames r1 = 3) as Hd' by (rewrite Hd; vm_compute; reflexivity).
    assert (PreviewResult.success r1 = true) as Hs by (apply Hiff; rewrite Hc', Hd'; lia).
    rewrite Hs in Hdetail. auto.
  - destruct (Hv1 drv0 (V1.Backend.mk true false) []) as [Hiff Hpolled].
    edestruct Hpolled as (Hc & Hd & _ & Hdetail); [run_lhs..|].
    fold r0 in Hiff, Hc, Hd, Hdetail.
    assert (PreviewResult.color_frames r0 = 0) as Hc' by (rewrite Hc; vm_compute; reflexivity).
    assert (PreviewResult.depth_frames r0 = 0) as Hd' by (rewrite Hd; vm_compute; reflexivity).
    assert (PreviewResult.success r0 = false) as Hs.
    { destruct (PreviewResult.success r0); [|done].
      destruct Hiff as [Hiff _]. specialize (Hiff eq_refl). lia. }
    rewrite Hs in Hdetail. auto.
Defined.

Section Sessions.
Import V1 V1Spec V1Session.
Variable drv : Driver.

(** [open] touches [dev_] only, and reports success only when it is bound. *)
Lemma open_binds d h ok d' h' :
  open drv d h = (ok, d', h') →
  d' = Device.set_dev_ (Device.dev_ d') d
  ∧ (ok = true → is_Some (Device.dev_ d')).
Proof.
  unfold open, bind, native, ret. destruct d as [cx dv ix sr ? ? ? ? ? ? ? ? ? ?]. simpl.
  destruct cx; simpl; [|intros [= <- <- <-]; done].
  destruct (negb (String.eqb sr "") && negb (IsSyntheticIndexSerial sr)); simpl.
  - destruct (freenect_open_device_by_camera_serial drv h sr) as [rc dev]. simpl.
    destruct dev as [dev|]; simpl.
    + intros [= <- <- <-]. split; [done|]. by eexists.
    + destruct (0 <=? ix); simpl.
      * destruct (freenect_open_device drv _ ix) as [rc' [dev|]]; simpl.
        -- rewrite orb_false_r. destruct (rc' <? 0); intros [= <- <- <-];
             (split; [done|]); [done|by eexists].
        -- rewrite orb_true_r. intros [= <- <- <-]. done.
      * intros [= <- <- <-]. done.
  - destruct dv as [dev|]; simpl.
    + intros [= <- <- <-]. split; [done|]. by eexists.
    + destruct (0 <=? ix); simpl.
      * destruct (freenect_open_device drv _ ix) as [rc' [dev|]]; simpl.
        -- rewrite orb_false_r. destruct (rc' <? 0); intros [= <- <- <-];
             (split; [done|]); [done|by eexists].
        -- rewrite orb_true_r. intros [= <- <- <-]. done.
      * intros [= <- <- <-]. done.
Qed.

Lemma try_open_fresh be index serial h d h' :
  try_open drv be index serial h = (Some d, h') → ∃ dev, d = fresh be index serial dev.
Proof.
  unfold try_open, bind, ret.
  destruct (open drv _ h) as [[ok d1] h1] eqn:Hopen.
  apply open_binds in Hopen as [Hd Hok].
  destruct ok; simpl.
  - intros [= <- <-]. destruct (Hok eq_refl) as [dev Hdev]. exists dev.
    rewrite Hd, Hdev. done.
  - destruct (destroy drv d1 h1). done.
Qed.

Lemma open_candidates_fresh be serial candidates h d h' :
  open_candidates drv be serial candidates h = (Some d, h') →
  ∃ index dev, index ∈ candidates ∧ d = fresh be index serial dev.
Proof.
  revert h. induction candidates as [|index rest IH]; intros h; simpl.
  - done.
  - unfold bind. destruct (try_open drv be index serial h) as [[d1|] h1] eqn:Htry.
    + intros [= <- <-]. apply try_open_fresh in Htry as [dev ->].
      exists index, dev. split; [left|done].
    + intros Hrest. apply IH in Hrest as (i & dev & Hin & ->).
      exists i, dev. split; [by right|done].
Qed.

Lemma openDevice_loop_fresh be serial todo h d h' :
  openDevice_loop drv be serial todo h = (Some d, h') →
  ∃ index dev, d = fresh be index serial dev.
Proof.
  revert h. induction todo as [|todo IH]; intros h; simpl; [done|].
  unfold bind.
  destruct ((if negb (String.eqb serial "") && negb (IsSyntheticIndexSerial serial)
             then try_open drv be (-1) serial else ret None) h) as [[d1|] h1] eqn:Hexact.
  - intros [= <- <-].
    destruct (negb (String.eqb serial "") && negb (IsSyntheticIndexSerial serial));
      [|done].
    apply try_open_fresh in Hexact as [dev ->]. by eexists _, _.
  - destruct (EnumerateCountWithRetries drv be 2 80 h1) as [n h2].
    destruct (candidates_of drv be serial (Z.max 0 n) h2) as [cands h3].
    destruct (open_candidates drv be serial cands h3) as [[d2|] h4] eqn:Hcands.
    + intros [= <- <-]. apply open_candidates_fresh in Hcands as (i & dev & _ & ->).
      by eexists _, _.
    + destruct (sleep_for 250 h4) as [[] h5]. apply IH.
Qed.
End Sessions.

Section Coherence.
Import V1 V1Spec V1Session.
Variable drv : Driver.

Local Ltac crush_flags :=
  repeat match goal with
         | |- context [if ?c then _ else _] => destruct c eqn:?; simpl
         | |- context [match ?c with _ => _ end] => destruct c eqn:?; simpl
         end.

Lemma fresh_coherent be index serial dev : coherent (fresh be index serial dev).
Proof. unfold coherent, fresh. simpl. split; [done|]. split; [done|]. done. Qed.

Lemma deliver_flags d cb :
  let d' := deliver d cb in
  Device.dev_ d' = Device.dev_ d ∧ Device.running_ d' = Device.running_ d
  ∧ Device.depth_started_ d' = Device.depth_started_ d
  ∧ Device.audio_started_ d' = Device.audio_started_ d
  ∧ Device.audio_supported_ d' = Device.audio_supported_ d.
Proof. destruct cb as [[?|] ?|[?|] ?]; simpl; done. Qed.

Lemma deliver_all_coherent d cbs : coherent d → coherent (foldl deliver d cbs).
Proof.
  revert d. induction cbs as [|cb cbs IH]; intros d Hd; simpl; [done|].
  apply IH. destruct (deliver_flags d cb) as (H1 & H2 & H3 & H4 & H5).
  unfold coherent in *. simpl in *. rewrite H1, H2, H3, H4, H5. done.
Qed.

Lemma ApplyVideoMode_coherent d h :
  coherent d → coherent (snd (fst (ApplyVideoMode drv d h))).
Proof.
  unfold coherent, ApplyVideoMode, bind, native, ret.
  destruct d as [? dv ? ? ? rn ds vs au ? rq ? ? ?]. simpl.
  intros Hd. destruct dv as [dev|]; simpl; [|done].
  crush_flags; done.
Qed.

Lemma setAudioEnabled_coherent enabled d h :
  coherent d → coherent (snd (fst (setAudioEnabled drv enabled d h))).
Proof.
  unfold coherent, setAudioEnabled, bind, native, ret.
  destruct d as [? dv ? ? sup rn ds vs au ? rq ? ? ?]. simpl.
  intros (H1 & H2 & H3). destruct sup; simpl; [|done].
  destruct dv as [dev|]; simpl; [|done].
  destruct rn; simpl; [|done]. simpl in *.
  destruct enabled, au; simpl; crush_flags; done.
Qed.

Lemma start_coherent d h : coherent d → coherent (snd (fst (start drv d h))).
Proof.
  intros Hd. unfold start, bind, native, ret.
  destruct (Device.dev_ d) as [dev|] eqn:Hdev; simpl; [|done].
  destruct (Device.running_ d) eqn:Hrun; simpl; [done|].
  destruct (negb (freenect_find_depth_mode_is_valid drv)); simpl; [done|].
  destruct (freenect_set_depth_mode drv h dev <? 0); simpl; [done|].
  pose proof (ApplyVideoMode_coherent d (h ++ [c_set_depth_mode dev]) Hd) as Happly.
  pose proof (ApplyVideoMode_started drv d (h ++ [c_set_depth_mode dev])) as Hstarted.
  assert (Hkeep : Device.running_ (snd (fst (ApplyVideoMode drv d (h ++ [c_set_depth_mode dev]))))
                  = Device.running_ d
                  ∧ Device.dev_ (snd (fst (ApplyVideoMode drv d (h ++ [c_set_depth_mode dev]))))
                    = Device.dev_ d
                  ∧ Device.audio_started_
                      (snd (fst (ApplyVideoMode drv d (h ++ [c_set_depth_mode dev]))))
                    = Device.audio_started_ d).
  { unfold ApplyVideoMode, bind, native, ret. rewrite Hdev. crush_flags; done. }
  destruct (ApplyVideoMode drv d (h ++ [c_set_depth_mode dev])) as [[applied d1] h1].
  simpl in *. destruct Hkeep as (Hrun1 & Hdev1 & Hau1).
  destruct applied; simpl; [|done].
  destruct (freenect_start_depth drv h1 dev <? 0); simpl; [done|].
  rewrite (Hstarted d1 h1 eq_refl). simpl.
  destruct d1 as [? dv1 ? ? sup rn1 ds1 vs1 au1 en1 ? ? ? ?]. simpl in *.
  subst rn1 dv1. destruct Hd as (_ & Hd2 & _). rewrite Hrun in Hd2.
  assert (au1 = false) as ->
    by (subst au1; destruct (Device.audio_started_ d); [by destruct Hd2|done]).
  rewrite Hdev. unfold coherent, setAudioEnabled, bind, native, ret.
  destruct en1, sup; simpl; crush_flags; done.
Qed.

Lemma stop_coherent d h : coherent d → coherent (snd (fst (stop drv d h))).
Proof.
  unfold coherent, stop, bind, native, ret.
  destruct d as [? dv ? ? sup rn ds vs au ? rq ? ? ?]. simpl.
  intros (H1 & H2 & H3). destruct dv as [dev|]; simpl; [|done].
  destruct rn; simpl; [|done]. destruct au, vs, ds; simpl; done.
Qed.

Lemma update_coherent d h : coherent d → coherent (snd (fst (update drv d h))).
Proof.
  intros Hd. unfold update, bind, native, ret.
  destruct (negb (Device.running_ d)); simpl; [done|].
  destruct (negb (StreamKind_eqb _ _)); simpl.
  - pose proof (ApplyVideoMode_coherent d h Hd) as Happly.
    destruct (ApplyVideoMode drv d h) as [[applied d1] h1]. simpl in *.
    destruct (freenect_process_events_timeout drv h1) as [rc cbs]. simpl.
    destruct (rc <? 0); simpl; by apply deliver_all_coherent.
  - destruct (freenect_process_events_timeout drv h) as [rc cbs]. simpl.
    destruct (rc <? 0); simpl; by apply deliver_all_coherent.
Qed.

Lemma run_op_coherent d op h : coherent d → coherent (fst (run_op drv d op h)).
Proof.
  intros Hd. destruct op; simpl; unfold bind, ret.
  - pose proof (start_coherent d h Hd). by destruct (start drv d h) as [[? ?] ?].
  - pose proof (stop_coherent d h Hd). by destruct (stop drv d h) as [[? ?] ?].
  - pose proof (update_coherent d h Hd). by destruct (update drv d h) as [[? ?] ?].
  - unfold getFrame. destruct (negb (Device.has_new_frame_ d)); simpl; done.
  - done.
  - pose proof (setAudioEnabled_coherent enabled d h Hd).
    by destruct (setAudioEnabled drv enabled d h) as [[? ?] ?].
Qed.

Lemma run_coherent ops d h : coherent d → coherent (fst (run drv d ops h)).
Proof.
  revert d h. induction ops as [|op ops IH]; intros d h Hd; simpl; [done|].
  unfold bind. pose proof (run_op_coherent d op h Hd).
  destruct (run_op drv d op h) as [d1 h1]. by apply IH.
Qed.
End Coherence.

(** X1.  Whatever the driver answers, a session handed out by [openDevice]
    stays coherent under every run of [start], [stop], [update], [getFrame],
    [setStreamKind] and [setAudioEnabled]: the depth sub-stream is marked
    active exactly while the session is running, audio is marked active only
    on a running session with audio support, and a running session is bound
    to a unit. *)
Theorem X1_session_stays_coherent
    (drv : V1.Driver) (be : V1.Backend.t) (serial : string) (h h1 : V1.History)
    (d : V1.Device.t) (ops : list V1Session.Op) :
  V1.openDevice drv be serial h = (Some d, h1) →
  V1Session.coherent (fst (V1Session.run drv d ops h1)).
Proof.
  unfold V1.openDevice. destruct (negb (V1.Backend.ctx_ be)); [done|].
  intros Hopen. apply openDevice_loop_fresh in Hopen as (index & dev & ->).
  apply run_coherent, fresh_coherent.
Qed.

Lemma X1_session_stays_coherent_witness :
  let drv :=
    V1Spec.one_unit_driver "A00364A11700045A" (λ _ _, 0)
      (λ _, (0, [V1.cb_depth (Some (λ _, 1000)) 5])) in
  let be := V1.Backend.mk true true in
  let ops :=
    [V1Session.op_setAudioEnabled true; V1Session.op_start; V1Session.op_update;
     V1Session.op_setStreamKind kIr; V1Session.op_update; V1Session.op_stop] in
  V1Session.coherent
    (fst (V1Session.run drv (V1Session.fresh be (-1) "A00364A11700045A" 0) ops
            [V1.c_open_device_by_camera_serial "A00364A11700045A"])).
Proof.
  intros drv be ops.
  apply (X1_session_stays_coherent drv be "A00364A11700045A" []
           [V1.c_open_device_by_camera_serial "A00364A11700045A"]).
  reflexivity.
Defined.

Section StartStop.
Import V1 V1Spec V1Session.
Variable drv : Driver.

Local Ltac crush_flags :=
  repeat match goal with
         | |- context [if ?c then _ else _] => destruct c eqn:?; simpl
         | |- context [match ?c with _ => _ end] => destruct c eqn:?; simpl
         end.

Lemma ApplyVideoMode_keeps d h :
  let d' := snd (fst (ApplyVideoMode drv d h)) in
  Device.dev_ d' = Device.dev_ d
  ∧ Device.running_ d' = Device.running_ d
  ∧ Device.depth_started_ d' = Device.depth_started_ d
  ∧ Device.audio_started_ d' = Device.audio_started_ d
  ∧ Device.audio_enabled_ d' = Device.audio_enabled_ d
  ∧ Device.audio_supported_ d' = Device.audio_supported_ d.
Proof.
  unfold ApplyVideoMode, bind, native, ret. destruct (Device.dev_ d) eqn:Hdev; simpl; [|done].
  crush_flags; rewrite ?Hdev; done.
Qed.

(** What a successful [start] on a session that was not running leaves. *)
Lemma start_true d h d' h' :
  start drv d h = (true, d', h') →
  Device.running_ d' = true
  ∧ Device.dev_ d' = Device.dev_ d
  ∧ is_Some (Device.dev_ d)
  ∧ (Device.running_ d = false →
     Device.depth_started_ d' = true ∧ Device.video_started_ d' = true
     ∧ Device.active_stream_ d' = Device.requested_stream_ d').
Proof.
  unfold start, bind, native, ret.
  destruct (Device.dev_ d) as [dev|] eqn:Hdev; simpl; [|done].
  destruct (Device.running_ d) eqn:Hrun; simpl.
  { intros [= <- <-]. rewrite Hdev. split; [done|]. split; [done|]. split; [by eexists|done]. }
  destruct (negb (freenect_find_depth_mode_is_valid drv)); simpl; [done|].
  destruct (freenect_set_depth_mode drv h dev <? 0); simpl; [done|].
  pose proof (ApplyVideoMode_keeps d (h ++ [c_set_depth_mode dev])) as Hkeep.
  pose proof (ApplyVideoMode_started drv d (h ++ [c_set_depth_mode dev])) as Hstarted.
  assert (Hactive : fst (fst (ApplyVideoMode drv d (h ++ [c_set_depth_mode dev]))) = true →
                    Device.active_stream_
                      (snd (fst (ApplyVideoMode drv d (h ++ [c_set_depth_mode dev]))))
                    = Device.requested_stream_
                        (snd (fst (ApplyVideoMode drv d (h ++ [c_set_depth_mode dev]))))).
  { unfold ApplyVideoMode, bind, native, ret. rewrite Hdev. crush_flags; done. }
  destruct (ApplyVideoMode drv d (h ++ [c_set_depth_mode dev])) as [[applied d1] h1].
  simpl in *. destruct Hkeep as (Hdev1 & Hrun1 & _ & Hau1 & _).
  destruct applied; simpl; [|done].
  destruct (freenect_start_depth drv h1 dev <? 0); simpl; [done|].
  rewrite (Hstarted d1 h1 eq_refl). simpl.
  specialize (Hstarted d1 h1 eq_refl). specialize (Hactive eq_refl).
  destruct d1 as [? dv1 ? ? sup rn1 ds1 vs1 au1 en1 rq1 ac1 ? ?]. simpl in *.
  subst. unfold setAudioEnabled, bind, native, ret.
  destruct en1, sup; simpl; rewrite ?Hdev; simpl; crush_flags;
    intros [= <- <-]; simpl; (split; [done|]); (split; [done|]); (split; [by eexists|done]).
Qed.
End StartStop.

(** X2.  On both generations a [start] that succeeded leaves the session
    running, and a second [start] is then a no-operation: it answers true,
    makes no native call and changes nothing.  On generation 1 a session that
    was not running has its depth and video sub-streams active afterwards,
    with the requested video stream as the active one. *)
Theorem X2_start_twice_is_start_once :
  (∀ (drv : V1.Driver) (d d' : V1.Device.t) (h h' : V1.History),
      V1.start drv d h = (true, d', h') →
      V1.Device.running_ d' = true
      ∧ V1.start drv d' h' = (true, d', h')
      ∧ (V1.Device.running_ d = false →
         V1.Device.depth_started_ d' = true ∧ V1.Device.video_started_ d' = true
         ∧ V1.Device.active_stream_ d' = V1.Device.requested_stream_ d'))
  ∧ (∀ (float : Type) (drv : V2.Driver float) (d d' : V2.Device.t) (h h' : V2.History),
        V2.start float drv d h = (true, d', h') →
        V2.Device.running_ d' = true
        ∧ V2.start float drv d' h' = (true, d', h')).
Proof.
  split.
  - intros drv d d' h h' Hstart.
    destruct (start_true drv d h d' h' Hstart) as (Hrun & Hdev & [dev Hsome] & Hfirst).
    split; [done|]. split; [|done].
    unfold V1.start. rewrite Hdev, Hsome, Hrun. done.
  - intros float drv d d' h h'. unfold V2.start, bind, native, ret.
    destruct (V2.Device.dev_ d) as [dev|] eqn:Hdev; [|done].
    destruct (V2.Device.running_ d) eqn:Hrun.
    + intros [= <- <-]. by rewrite Hdev, Hrun.
    + destruct (negb (V2.start_native drv h dev)); [done|].
      intros [= <- <-]. simpl. by rewrite Hdev.
Qed.

Lemma X2_start_twice_is_start_once_witness :
  let drv := V1Spec.one_unit_driver "A00364A11700045A" (λ _ _, 0) (λ _, (0, [])) in
  let d := V1Spec.opened 0 "A00364A11700045A" false in
  let drv2 : V2.Driver Z := V2Spec.simple_driver 1 (λ _, "001122334455") [] in
  let d2 := V2.Device.set_dev_ (Some 0%nat) (V2.Device.new true "001122334455") in
  (let '(_, d', h') := V1.start drv d [] in V1.start drv d' h' = (true, d', h'))
  ∧ (let '(_, d', h') := V2.start Z drv2 d2 [] in V2.start Z drv2 d' h' = (true, d', h')).
Proof.
  intros drv d drv2 d2. destruct X2_start_twice_is_start_once as [Hv1 Hv2]. split.
  - destruct (V1.start drv d []) as [[r d'] h'] eqn:Hstart.
    assert (r = true) as -> by (by vm_compute in Hstart; injection Hstart as <- _ _).
    by apply (Hv1 drv d d' [] h').
  - destruct (V2.start Z drv2 d2 []) as [[r d'] h'] eqn:Hstart.
    assert (r = true) as -> by (by vm_compute in Hstart; injection Hstart as <- _ _).
    by apply (Hv2 Z drv2 d2 d' [] h').
Defined.

(** X3.  On generation 1, after a [start] that succeeded on a session that was
    not running, [stop] answers true, stops audio if it was started, then
    video, then depth, and leaves the session idle with no sub-stream marked
    active.  On generation 2, [stop] after a successful [start] stops the
    unit and leaves the session not running. *)
Theorem X3_stop_undoes_start :
  (∀ (drv : V1.Driver) (d d' : V1.Device.t) (h h' : V1.History),
      V1.Device.running_ d = false →
      V1.start drv d h = (true, d', h') →
      ∃ dev d'',
        V1.Device.dev_ d = Some dev
        ∧ V1.stop drv d' h'
          = (true, d'',
             h' ++ (if V1.Device.audio_started_ d' then [V1.c_stop_audio dev] else [])
                ++ [V1.c_stop_video dev; V1.c_stop_depth dev])
        ∧ V1.Device.running_ d'' = false
        ∧ V1Spec.no_substream_active d'')
  ∧ (∀ (float : Type) (drv : V2.Driver float) (d d' : V2.Device.t) (h h' : V2.History),
        V2.start float drv d h = (true, d', h') →
        ∃ dev,
          V2.Device.dev_ d = Some dev
          ∧ V2.stop d' h' = (true, V2.Device.set_running_ false d', h' ++ [V2.c_stop dev])).
Proof.
  split.
  - intros drv d d' h h' Hidle Hstart.
    destruct (start_true drv d h d' h' Hstart) as (Hrun & Hdev & [dev Hsome] & Hfirst).
    destruct (Hfirst Hidle) as (Hdepth & Hvideo & _).
    rewrite Hsome in Hdev.
    destruct (stop_v1_teardown_order drv d' dev h' Hdev Hrun) as (d'' & Hstop & Hoff & Hnone).
    exists dev, d''. rewrite Hdepth, Hvideo in Hstop. done.
  - intros float drv d d' h h'. unfold V2.start, V2.stop, bind, native, ret.
    destruct (V2.Device.dev_ d) as [dev|] eqn:Hdev; [|done].
    destruct (V2.Device.running_ d) eqn:Hrun.
    + intros [= <- <-]. exists dev. by rewrite Hdev, Hrun.
    + destruct (negb (V2.start_native drv h dev)); [done|].
      intros [= <- <-]. exists dev. simpl. by rewrite Hdev.
Qed.

Lemma X3_stop_undoes_start_witness :
  let drv := V1Spec.one_unit_driver "A00364A11700045A" (λ _ _, 0) (λ _, (0, [])) in
  let d := V1Spec.opened 0 "A00364A11700045A" false in
  let drv2 : V2.Driver Z := V2Spec.simple_driver 1 (λ _, "001122334455") [] in
  let d2 := V2.Device.set_dev_ (Some 0%nat) (V2.Device.new true "001122334455") in
  (∃ dev d'',
      V1.Device.dev_ d = Some dev
      ∧ V1.stop drv (snd (fst (V1.start drv d []))) (snd (V1.start drv d []))
        = (true, d'',
           snd (V1.start drv d [])
             ++ (if V1.Device.audio_started_ (snd (fst (V1.start drv d [])))
                 then [V1.c_stop_audio dev] else [])
             ++ [V1.c_stop_video dev; V1.c_stop_depth dev])
      ∧ V1.Device.running_ d'' = false
      ∧ V1Spec.no_substream_active d'')
  ∧ (∃ dev,
        V2.Device.dev_ d2 = Some dev
        ∧ V2.stop (snd (fst (V2.start Z drv2 d2 []))) (snd (V2.start Z drv2 d2 []))
          = (true, V2.Device.set_running_ false (snd (fst (V2.start Z drv2 d2 []))),
             snd (V2.start Z drv2 d2 []) ++ [V2.c_stop dev])).
Proof.
  intros drv d drv2 d2. destruct X3_stop_undoes_start as [Hv1 Hv2]. split.
  - apply (Hv1 drv d _ [] _); [reflexivity|]. reflexivity.
  - apply (Hv2 Z drv2 d2 _ [] _). reflexivity.
Defined.

Section Polling.
Import V1 V1Spec V1Session.
Variable drv : Driver.

(** The video format that [ApplyVideoMode] asks for. *)
Lemma update_switches_stream d dev h :
  Device.dev_ d = Some dev →
  Device.running_ d = true →
  Device.requested_stream_ d ≠ Device.active_stream_ d →
  let format :=
    if StreamKind_eqb (Device.requested_stream_ d) kIr
    then FREENECT_VIDEO_IR_8BIT else FREENECT_VIDEO_RGB in
  let h1 := h ++ (if Device.video_started_ d then [c_stop_video dev] else []) in
  let h2 := h1 ++ [c_set_video_mode dev format; c_start_video dev] in
  freenect_find_video_mode_is_valid drv format = true →
  0 ≤ freenect_set_video_mode drv h1 dev format →
  0 ≤ freenect_start_video drv (h1 ++ [c_set_video_mode dev format]) dev →
  let d1 :=
    Device.set_active_stream_ (Device.requested_stream_ d)
      (Device.set_video_started_ true d) in
  let d' := foldl deliver d1 (snd (freenect_process_events_timeout drv h2)) in
  update drv d h
  = (if fst (freenect_process_events_timeout drv h2) <? 0 then false
     else Device.has_new_frame_ d',
     d', h2 ++ [c_process_events]).
Proof.
  intros Hdev Hrun Hne format h1 h2 Hvalid Hset Hstart d1 d'.
  unfold update, ApplyVideoMode, bind, native, ret. rewrite Hrun, Hdev. simpl.
  assert (StreamKind_eqb (Device.requested_stream_ d) (Device.active_stream_ d) = false)
    as ->.
  { destruct (Device.requested_stream_ d), (Device.active_stream_ d); done. }
  simpl. fold format. rewrite Hvalid. simpl.
  subst d' d1 h2 h1.
  destruct (Device.video_started_ d) eqn:Hvs; simpl.
  - apply Z.ltb_ge in Hset as ->. simpl in *.
    apply Z.ltb_ge in Hstart as ->. simpl.
    rewrite <- !app_assoc. simpl.
    destruct (freenect_process_events_timeout drv _) as [rc cbs]. simpl.
    destruct d; simpl in *. by destruct (rc <? 0).
  - rewrite app_nil_r in *. apply Z.ltb_ge in Hset as ->. simpl in *.
    apply Z.ltb_ge in Hstart as ->. simpl.
    rewrite <- !app_assoc. simpl.
    destruct (freenect_process_events_timeout drv _) as [rc cbs]. simpl.
    destruct d; simpl in *. by destruct (rc <? 0).
Qed.

Lemma deliver_all_video d cbs :
  Device.video_started_ (foldl deliver d cbs) = Device.video_started_ d.
Proof.
  revert d. induction cbs as [|cb cbs IH]; intros d; [done|].
  simpl. rewrite IH. by destruct cb as [[?|] ?|[?|] ?].
Qed.
End Polling.

(** X4.  On a running generation-1 session whose requested stream differs
    from the active one, [update] first re-applies the video mode (it stops
    video if it was started, sets the format of the requested stream and
    starts video again) and only then processes events: when the driver
    accepts the mode, the requested stream is the active one for the
    callbacks of that very [update], so their video payload lands in the
    buffer of the requested stream. *)
Theorem X4_update_applies_requested_stream
    (drv : V1.Driver) (d : V1.Device.t) (dev : nat) (h : V1.History) :
  V1.Device.dev_ d = Some dev →
  V1.Device.running_ d = true →
  V1.Device.requested_stream_ d ≠ V1.Device.active_stream_ d →
  let format :=
    if StreamKind_eqb (V1.Device.requested_stream_ d) kIr
    then V1.FREENECT_VIDEO_IR_8BIT else V1.FREENECT_VIDEO_RGB in
  let h1 := h ++ (if V1.Device.video_started_ d then [V1.c_stop_video dev] else []) in
  let h2 := h1 ++ [V1.c_set_video_mode dev format; V1.c_start_video dev] in
  V1.freenect_find_video_mode_is_valid drv format = true →
  0 ≤ V1.freenect_set_video_mode drv h1 dev format →
  0 ≤ V1.freenect_start_video drv (h1 ++ [V1.c_set_video_mode dev format]) dev →
  ∃ r d',
    V1.update drv d h = (r, d', h2 ++ [V1.c_process_events])
    ∧ V1.Device.active_stream_ d' = V1.Device.requested_stream_ d
    ∧ V1.Device.video_started_ d' = true
    ∧ V1.Device.frame_ d'
      = V1Spec.slot_after (V1.Device.requested_stream_ d) (V1.Device.frame_ d)
          (snd (V1.freenect_process_events_timeout drv h2)).
Proof.
  intros Hdev Hrun Hne format h1 h2 Hvalid Hset Hstart.
  rewrite (update_switches_stream drv d dev h Hdev Hrun Hne Hvalid Hset Hstart).
  eexists _, _. split; [reflexivity|].
  match goal with |- context [foldl V1.deliver ?d1 ?cbs] =>
    destruct (deliver_all d1 cbs) as (Hframe & _ & Hactive);
    pose proof (deliver_all_video d1 cbs) as Hvideo
  end.
  split; [by rewrite Hactive|]. split; [done|]. rewrite Hframe. done.
Qed.

Lemma X4_update_applies_requested_stream_witness :
  let drv :=
    V1Spec.one_unit_driver "A00364A11700045A" (λ _ _, 0)
      (λ _, (0, [V1.cb_video (Some (λ _, 77)) 9])) in
  let d0 := V1Spec.opened 0 "A00364A11700045A" false in
  let d := V1.setStreamKind kIr (snd (fst (V1.start drv d0 []))) in
  let h := snd (V1.start drv d0 []) in
  ∃ r d',
    V1.update drv d h
    = (r, d',
       (h ++ [V1.c_stop_video 0])
         ++ [V1.c_set_video_mode 0 V1.FREENECT_VIDEO_IR_8BIT; V1.c_start_video 0]
         ++ [V1.c_process_events])
    ∧ V1.Device.active_stream_ d' = kIr
    ∧ FrameData.rgb (V1.Device.frame_ d') = [].
Proof.
  intros drv d0 d h.
  destruct (X4_update_applies_requested_stream drv d 0%nat h)
    as (r & d' & Hupdate & Hactive & _ & Hframe);
    [reflexivity|reflexivity|discriminate|reflexivity|cbn; lia|cbn; lia|].
  exists r, d'. split; [|split].
  - rewrite Hupdate. by rewrite <- !app_assoc.
  - exact Hactive.
  - rewrite Hframe. reflexivity.
Defined.

(** X5.  On both generations, when [update] answers true a frame is waiting:
    the next [getFrame] answers true and hands out the frame slot of the
    session, and a further [getFrame] with no [update] in between answers
    false and leaves the caller's frame untouched. *)
Theorem X5_update_true_then_one_frame :
  (∀ (drv : V1.Driver) (d d' : V1.Device.t) (h h' : V1.History) (out out' : FrameData.t),
      V1.update drv d h = (true, d', h') →
      ∃ d'',
        V1.getFrame d' out = (true, V1.Device.frame_ d', d'')
        ∧ V1.getFrame d'' out' = (false, out', d''))
  ∧ (∀ (float : Type) (depth_sample ir_sample : float → Z) (drv : V2.Driver float)
       (d d' : V2.Device.t) (h h' : V2.History) (out out' : FrameData.t),
        V2.update float depth_sample ir_sample drv d h = (true, d', h') →
        ∃ d'',
          V2.getFrame d' out = (true, V2.Device.frame_ d', d'')
          ∧ V2.getFrame d'' out' = (false, out', d'')).
Proof.
  split.
  - intros drv d d' h h' out out'. unfold V1.update, bind, native, ret.
    destruct (negb (V1.Device.running_ d)); [done|].
    destruct (negb (StreamKind_eqb _ _)).
    + destruct (V1.ApplyVideoMode drv d h) as [[applied d1] h1].
      destruct (V1.freenect_process_events_timeout drv h1) as [rc cbs]. simpl.
      destruct (rc <? 0); [done|]. intros [= Hnew <- <-].
      unfold V1.getFrame. rewrite Hnew. simpl. eexists. split; [reflexivity|done].
    + destruct (V1.freenect_process_events_timeout drv h) as [rc cbs]. simpl.
      destruct (rc <? 0); [done|]. intros [= Hnew <- <-].
      unfold V1.getFrame. rewrite Hnew. simpl. eexists. split; [reflexivity|done].
  - intros float depth_sample ir_sample drv d d' h h' out out'.
    unfold V2.update, bind, native, ret.
    destruct (negb (V2.Device.running_ d)); [done|].
    destruct (V2.waitForNewFrame drv h) as [frames|]; [|done].
    destruct (V2.select_frame _ _) as [assigned next_frame]. simpl.
    intros [= -> <- <-]. unfold V2.getFrame. simpl. eexists. split; [reflexivity|done].
Qed.

Lemma X5_update_true_then_one_frame_witness :
  let drv2 := V2Spec.simple_driver 1 (λ _, "001122334455") [V2Spec.color_bundle] in
  let d2 := V2Spec.streaming kRgb in
  let d' := snd (fst (V2.update Z id id drv2 d2 [])) in
  ∃ d'',
    V2.getFrame d' FrameData.empty = (true, V2.Device.frame_ d', d'')
    ∧ V2.getFrame d'' FrameData.empty = (false, FrameData.empty, d'').
Proof.
  intros drv2 d2 d'. destruct X5_update_true_then_one_frame as [_ Hv2].
  apply (Hv2 Z id id drv2 d2 d' [] (snd (V2.update Z id id drv2 d2 []))).
  reflexivity.
Defined.

(** X6.  On a coherent generation-1 session the answer of [setAudioEnabled]
    is what [audioEnabled] reports afterwards.  Without audio support, or on
    a session that is not running, it answers false and makes no native
    call; on a running session with audio support it makes at most one, a
    start or a stop of the audio sub-stream. *)
Theorem X6_setAudioEnabled_answer
    (drv : V1.Driver) (enabled : bool) (d : V1.Device.t) (h : V1.History) :
  V1Session.coherent d →
  ∃ r d' h',
    V1.setAudioEnabled drv enabled d h = (r, d', h')
    ∧ r = V1.audioEnabled d'
    ∧ (V1.Device.audio_supported_ d = false ∨ V1.Device.running_ d = false →
       r = false ∧ h' = h)
    ∧ (∀ dev, V1.Device.dev_ d = Some dev →
              h' = h ∨ h' = h ++ [V1.c_start_audio dev] ∨ h' = h ++ [V1.c_stop_audio dev]).
Proof.
  unfold V1Session.coherent, V1.setAudioEnabled, V1.audioEnabled, bind, native, ret.
  destruct d as [? dv ? ? sup rn ds vs au en ? ? ? ?]. simpl.
  intros (_ & Hau & Hrun).
  destruct sup; simpl.
  2:{ eexists _, _, _. split; [reflexivity|]. simpl. split; [done|].
      split; [done|]. intros; by left. }
  destruct dv as [dev|]; simpl.
  2:{ eexists _, _, _. split; [reflexivity|]. simpl.
      destruct rn; [by destruct (Hrun eq_refl)|].
      destruct au; [by destruct (Hau eq_refl)|]. rewrite andb_false_r.
      split; [done|]. split; [done|]. done. }
  destruct rn; simpl.
  2:{ eexists _, _, _. split; [reflexivity|]. simpl.
      destruct au; [by destruct (Hau eq_refl)|]. rewrite andb_false_r.
      split; [done|]. split; [done|]. intros; by left. }
  destruct enabled, au; simpl.
  - eexists _, _, _. split; [reflexivity|]. simpl. split; [done|].
    split; [by intros [|]|]. intros; by left.
  - destruct (V1.freenect_start_audio drv h dev =? 0); simpl;
      (eexists _, _, _; split; [reflexivity|]; simpl; split; [done|];
       split; [by intros [|]|]; intros ? [= <-]; right; by left).
  - eexists _, _, _. split; [reflexivity|]. simpl. split; [done|].
    split; [by intros [|]|]. intros ? [= <-]. right; by right.
  - eexists _, _, _. split; [reflexivity|]. simpl. split; [done|].
    split; [by intros [|]|]. intros; by left.
Qed.

Lemma X6_setAudioEnabled_answer_witness :
  let drv := V1Spec.one_unit_driver "A00364A11700045A" (λ _ _, 0) (λ _, (0, [])) in
  let d := snd (fst (V1.start drv (V1Spec.opened 0 "A00364A11700045A" true) [])) in
  ∃ r d' h',
    V1.setAudioEnabled drv true d [] = (r, d', h')
    ∧ r = V1.audioEnabled d'
    ∧ (V1.Device.audio_supported_ d = false ∨ V1.Device.running_ d = false →
       r = false ∧ h' = [])
    ∧ (∀ dev, V1.Device.dev_ d = Some dev →
              h' = [] ∨ h' = [] ++ [V1.c_start_audio dev] ∨ h' = [] ++ [V1.c_stop_audio dev]).
Proof.
  intros drv d. apply (X6_setAudioEnabled_answer drv true d []).
  unfold V1Session.coherent. cbn. split; [reflexivity|]. split; [discriminate|].
  intros _. by eexists.
Defined.

(** X7.  Whatever the driver answers, a session that the generation-1
    [openDevice] hands out is freshly constructed and bound to a unit: it
    carries the identifier that was asked for and the audio capability of the
    backend, it is not running, no sub-stream is marked active and its frame
    slot is empty.  With a null context [openDevice] answers null and makes
    no native call. *)
Theorem X7_openDevice_hands_out_fresh_sessions
    (drv : V1.Driver) (be : V1.Backend.t) (serial : string) (h : V1.History) :
  (V1.Backend.ctx_ be = false → V1.openDevice drv be serial h = (None, h))
  ∧ (∀ d h',
        V1.openDevice drv be serial h = (Some d, h') →
        ∃ index dev,
          d = V1Session.fresh be index serial dev
          ∧ V1.Device.serial_ d = serial
          ∧ V1.Device.dev_ d = Some dev
          ∧ V1.Device.running_ d = false
          ∧ V1Spec.no_substream_active d
          ∧ V1.Device.frame_ d = FrameData.empty
          ∧ V1.Device.has_new_frame_ d = false).
Proof.
  split.
  - intros Hctx. unfold V1.openDevice. by rewrite Hctx.
  - intros d h'. unfold V1.openDevice. destruct (negb (V1.Backend.ctx_ be)); [done|].
    intros Hopen. apply openDevice_loop_fresh in Hopen as (index & dev & ->).
    exists index, dev. done.
Qed.

Lemma X7_openDevice_hands_out_fresh_sessions_witness :
  let drv := V1Spec.one_unit_driver "A00364A11700045A" (λ _ _, 0) (λ _, (0, [])) in
  let be := V1.Backend.mk true false in
  V1.openDevice drv (V1.Backend.mk false false) "DeviceIndex-0" [] = (None, [])
  ∧ ∃ index dev,
      fst (V1.openDevice drv be "DeviceIndex-0" [])
      = Some (V1Session.fresh be index "DeviceIndex-0" dev).
Proof.
  intros drv be. split.
  - by apply (X7_openDevice_hands_out_fresh_sessions drv (V1.Backend.mk false false)).
  - destruct (V1.openDevice drv be "DeviceIndex-0" []) as [[d|] h'] eqn:Hopen;
      [|by vm_compute in Hopen].
    destruct (X7_openDevice_hands_out_fresh_sessions drv be "DeviceIndex-0" [])
      as [_ Hfresh].
    destruct (Hfresh d h' Hopen) as (index & dev & -> & _). by exists index, dev.
Defined.

Section Positional.
Import V1.

Lemma digit_pretty_N_char (m : N) :
  (m < 10)%N → Stoi.digit (pretty_N_char m) = Some (Z.of_N m).
Proof.
  intros Hm.
  assert (m = 0 ∨ m = 1 ∨ m = 2 ∨ m = 3 ∨ m = 4 ∨ m = 5 ∨ m = 6 ∨ m = 7 ∨ m = 8 ∨ m = 9)%N
    as Hcases by lia.
  repeat destruct Hcases as [->|Hcases]; try reflexivity. by subst m.
Qed.

Lemma digits_pretty_N_go (x : N) :
  ∀ s, (0 < x)%N → Stoi.digits (pretty_N_go x s) None = Stoi.digits s (Some (Z.of_N x)).
Proof.
  induction x as [x IH] using (well_founded_induction N.lt_wf_0). intros s Hx.
  rewrite pretty_N_go_step by done.
  destruct (decide (x `div` 10 = 0)%N) as [Hz|Hz].
  - rewrite Hz, pretty_N_go_0. simpl.
    rewrite digit_pretty_N_char by (apply N.mod_lt; lia). simpl.
    do 2 f_equal. pose proof (N.div_mod x 10 ltac:(done)). lia.
  - rewrite IH; [|apply N.div_lt; lia|by apply N.neq_0_lt_0]. simpl.
    rewrite digit_pretty_N_char by (apply N.mod_lt; lia). simpl.
    do 2 f_equal. pose proof (N.div_mod x 10 ltac:(done)). lia.
Qed.

Lemma leading_digit_pretty_N_go (x : N) :
  ∀ s, (0 < x)%N → leading_digit (pretty_N_go x s).
Proof.
  induction x as [x IH] using (well_founded_induction N.lt_wf_0). intros s Hx.
  rewrite pretty_N_go_step by done.
  destruct (decide (x `div` 10 = 0)%N) as [Hz|Hz].
  - rewrite Hz, pretty_N_go_0. simpl.
    rewrite digit_pretty_N_char by (apply N.mod_lt; lia). by eexists.
  - apply IH; [apply N.div_lt; lia|by apply N.neq_0_lt_0].
Qed.

Lemma stoi_leading_digit s v :
  leading_digit s → Stoi.digits s None = Some v →
  Stoi.INT_MIN ≤ v ≤ Stoi.INT_MAX → Stoi.stoi s = Some v.
Proof.
  destruct s as [|c s]; [done|]. intros [d Hd] Hv Hrange.
  unfold Stoi.stoi.
  assert (Stoi.skip_space (String c s) = String c s) as ->.
  { simpl. unfold Stoi.digit, Stoi.isspace in *.
    destruct ((48 <=? nat_of_ascii c)%nat && (nat_of_ascii c <=? 57)%nat) eqn:E; [|done].
    apply andb_true_iff in E as [E1%Nat.leb_le E2%Nat.leb_le].
    replace (nat_of_ascii c =? 32)%nat with false by (symmetry; apply Nat.eqb_neq; lia).
    replace (nat_of_ascii c <=? 13)%nat with false by (symmetry; apply Nat.leb_gt; lia).
    by rewrite andb_false_r. }
  assert ((let '(negative, s2) :=
             match String c s with
             | String "-" r => (true, r)
             | String "+" r => (false, r)
             | _ => (false, String c s)
             end in (negative, s2)) = (false, String c s)) as Hsign.
  { unfold Stoi.digit in Hd.
    destruct c as [[] [] [] [] [] [] [] []]; try done. }
  destruct c as [[] [] [] [] [] [] [] []]; try done;
    rewrite Hv; (rewrite (proj2 (andb_true_iff _ _)); [done|]);
    split; apply Z.leb_le; lia.
Qed.

Lemma stoi_pretty (i : Z) : 0 ≤ i ≤ Stoi.INT_MAX → Stoi.stoi (to_string i) = Some i.
Proof.
  intros Hi. unfold to_string.
  destruct i as [|p|p]; [done| |lia].
  change (pretty (Z.pos p)) with (pretty_N_go (N.pos p) "").
  apply stoi_leading_digit.
  - by apply leading_digit_pretty_N_go.
  - by rewrite digits_pretty_N_go.
  - unfold Stoi.INT_MIN. lia.
Qed.

Lemma substring_all s : String.substring 0 (String.length s) s = s.
Proof. induction s as [|c s IH]; simpl; [done|]. by rewrite IH. Qed.

Lemma substr_synthetic t : substr 12 ("DeviceIndex-" +:+ t) = t.
Proof. unfold substr. simpl. rewrite Nat.sub_0_r. apply substring_all. Qed.
End Positional.

(** X8.  A positional identifier names its position: for every position [i]
    of an [int] that is not negative, the identifier that [listDevices]
    makes up for it is recognised as positional, [std::stoi] on its tail
    gives [i] back, and the positions that [openDevice] tries for it are [i]
    first, then every other position below the device count in ascending
    order, with no native call to build the list. *)
Theorem X8_positional_identifier_round_trip (i : Z) :
  0 ≤ i ≤ Stoi.INT_MAX →
  V1.IsSyntheticIndexSerial (V1.synthetic_serial i) = true
  ∧ Stoi.stoi (V1.substr 12 (V1.synthetic_serial i)) = Some i
  ∧ ∀ (drv : V1.Driver) (be : V1.Backend.t) (count : Z) (h : V1.History),
      0 ≤ count →
      V1.candidates_of drv be (V1.synthetic_serial i) count h
      = (i :: filter (λ j, j ≠ i) (seqZ 0 count), h).
Proof.
  intros Hi.
  assert (Hsyn : V1.IsSyntheticIndexSerial (V1.synthetic_serial i) = true).
  { unfold V1.IsSyntheticIndexSerial, V1.synthetic_serial. simpl.
    by destruct (_ +:+ _). }
  split; [done|].
  assert (Hstoi : Stoi.stoi (V1.substr 12 (V1.synthetic_serial i)) = Some i).
  { unfold V1.synthetic_serial. by rewrite substr_synthetic, stoi_pretty. }
  split; [done|]. intros drv be count h Hcount.
  unfold V1.candidates_of, bind, ret.
  unfold V1.IsSyntheticIndexSerial in Hsyn. rewrite Hsyn. rewrite Hstoi. cbv iota beta.
  rewrite add_unseen_unseen, Z2Nat.id by done.
  simpl. do 2 f_equal. apply filter_ext_in. intros j _. apply not_elem_of_singleton.
Qed.

Lemma X8_positional_identifier_round_trip_witness :
  V1.IsSyntheticIndexSerial (V1.synthetic_serial 12) = true
  ∧ Stoi.stoi (V1.substr 12 (V1.synthetic_serial 12)) = Some 12
  ∧ ∀ (drv : V1.Driver) (be : V1.Backend.t) (count : Z) (h : V1.History),
      0 ≤ count →
      V1.candidates_of drv be (V1.synthetic_serial 12) count h
      = (12 :: filter (λ j, j ≠ 12) (seqZ 0 count), h).
Proof. apply (X8_positional_identifier_round_trip 12). by vm_compute. Defined.

Section EmitsLemmas.
Context {Call : Type}.
Implicit Types P : Call → Prop.

Lemma extends_with_refl P (h : list Call) : extends_with P h h.
Proof. exists []. by rewrite app_nil_r. Qed.

Lemma extends_with_trans P (h1 h2 h3 : list Call) :
  extends_with P h1 h2 → extends_with P h2 h3 → extends_with P h1 h3.
Proof.
  intros (t1 & -> & H1) (t2 & -> & H2). exists (t1 ++ t2).
  split; [by rewrite app_assoc|by apply Forall_app].
Qed.

Lemma emits_ret {A} P (a : A) : emits P (ret a).
Proof. intros h. apply extends_with_refl. Qed.

Lemma emits_bind {A B} P (m : Logged Call A) (k : A → Logged Call B) :
  emits P m → (∀ a, emits P (k a)) → emits P (bind m k).
Proof.
  intros Hm Hk h. unfold bind. specialize (Hm h). destruct (m h) as [a h1].
  eapply extends_with_trans; [exact Hm|apply Hk].
Qed.

Lemma emits_native {A} P (c : Call) (answer : list Call → A) :
  P c → emits P (native c answer).
Proof. intros Hc h. exists [c]. split; [done|]. by apply Forall_singleton. Qed.

Lemma emits_when P (b : bool) (m : Logged Call ()) : emits P m → emits P (when b m).
Proof. intros Hm. destruct b; [done|apply emits_ret]. Qed.

Lemma emits_mono {A} P Q (m : Logged Call A) :
  (∀ c, P c → Q c) → emits P m → emits Q m.
Proof.
  intros HPQ Hm h. destruct (Hm h) as (t & Ht & HP). exists t. split; [done|].
  eapply Forall_impl; [exact HP|done].
Qed.
End EmitsLemmas.

Section OpenTrace.
Import V1 V1Spec V1Session V1Trace.
Variable drv : Driver.

Lemma EnumerateCount_loop_emits P todo attempt clamped delay_ms :
  P c_num_devices → P (c_sleep_for (Z.max 0 delay_ms)) →
  emits P (EnumerateCount_loop drv todo attempt clamped delay_ms).
Proof.
  intros H1 H2. revert attempt. induction todo as [|todo IH]; intros attempt; simpl.
  - apply emits_ret.
  - apply emits_bind; [by apply emits_native|]. intros count.
    destruct (negb (count =? 0)); [apply emits_ret|].
    apply emits_bind; [apply emits_when; by apply emits_native|]. intros _. apply IH.
Qed.

Lemma EnumerateCountWithRetries_emits P be attempts delay_ms :
  P c_num_devices → P (c_sleep_for (Z.max 0 delay_ms)) →
  emits P (EnumerateCountWithRetries drv be attempts delay_ms).
Proof.
  intros H1 H2. unfold EnumerateCountWithRetries.
  destruct (negb (Backend.ctx_ be)); [apply emits_ret|].
  by apply EnumerateCount_loop_emits.
Qed.

Lemma listDevices_loop_emits P todo attempt :
  P c_list_device_attributes → P (c_sleep_for 80) →
  emits P (listDevices_loop drv todo attempt).
Proof.
  intros H1 H2. revert attempt. induction todo as [|todo IH]; intros attempt; simpl.
  - apply emits_ret.
  - apply emits_bind; [by apply emits_native|]. intros [count attrs].
    destruct ((0 <? count) && negb (vec_empty attrs)); [apply emits_ret|].
    apply emits_bind; [apply emits_when; by apply emits_native|]. intros _. apply IH.
Qed.

Lemma listDevices_emits P be :
  P c_list_device_attributes → P c_num_devices → P (c_sleep_for 80) →
  emits P (listDevices drv be).
Proof.
  intros H1 H2 H3. unfold listDevices.
  destruct (negb (Backend.ctx_ be)); [apply emits_ret|].
  apply emits_bind; [by apply listDevices_loop_emits|]. intros [devices|].
  - apply emits_ret.
  - apply emits_bind; [by apply EnumerateCountWithRetries_emits|]. intros n.
    apply emits_ret.
Qed.

Lemma open_emits P d :
  (real_serial (Device.serial_ d) = true →
   P (c_open_device_by_camera_serial (Device.serial_ d))) →
  P (c_open_device (Device.index_ d)) →
  emits P (open drv d).
Proof.
  intros H1 H2 h. unfold open, bind, native, ret.
  destruct d as [cx dv ix sr ? ? ? ? ? ? ? ? ? ?]. simpl in *.
  destruct cx; simpl; [|apply extends_with_refl].
  fold (real_serial sr). destruct (real_serial sr); simpl.
  - destruct (freenect_open_device_by_camera_serial drv h sr) as [rc [dev|]]; simpl.
    + eexists [_]. split; [done|]. apply Forall_singleton. by apply H1.
    + destruct (0 <=? ix); simpl.
      * destruct (freenect_open_device drv _ ix) as [rc' dev']. simpl.
        destruct ((rc' <? 0) || negb (non_null dev')); simpl;
          [|destruct (negb (non_null dev'))]; simpl;
          (eexists [_; _]; split; [by rewrite <- app_assoc|];
           repeat constructor; [by apply H1|done]).
      * eexists [_]. split; [done|]. apply Forall_singleton. by apply H1.
  - destruct dv as [dev|]; simpl; [apply extends_with_refl|].
    destruct (0 <=? ix); simpl; [|apply extends_with_refl].
    destruct (freenect_open_device drv _ ix) as [rc' dev']. simpl.
    destruct ((rc' <? 0) || negb (non_null dev')); simpl;
      [|destruct (negb (non_null dev'))]; simpl;
      (eexists [_]; split; [done|]; by apply Forall_singleton).
Qed.

Lemma try_open_emits P be index serial :
  (real_serial serial = true → P (c_open_device_by_camera_serial serial)) →
  P (c_open_device index) → (∀ dev, P (c_close_device dev)) →
  emits P (try_open drv be index serial).
Proof.
  intros H1 H2 H3 h. unfold try_open, bind, ret.
  pose proof (open_emits P
                (Device.new (Backend.ctx_ be) index serial (Backend.has_audio_firmware_ be))
                H1 H2 h) as Hopen.
  destruct (open drv _ h) as [[ok d1] h1] eqn:Heq. simpl in Hopen.
  apply open_binds in Heq as [Hd _].
  destruct ok; simpl; [done|].
  eapply extends_with_trans; [exact Hopen|].
  rewrite Hd. unfold destroy, stop, bind, native, ret. simpl.
  destruct (Device.dev_ d1) as [dev|]; simpl; [|apply extends_with_refl].
  eexists [_]. split; [done|]. by apply Forall_singleton.
Qed.

Lemma open_candidates_emits P be serial candidates :
  (real_serial serial = true → P (c_open_device_by_camera_serial serial)) →
  (∀ index, P (c_open_device index)) → (∀ dev, P (c_close_device dev)) →
  emits P (open_candidates drv be serial candidates).
Proof.
  intros H1 H2 H3. induction candidates as [|index rest IH]; simpl; [apply emits_ret|].
  apply emits_bind; [by apply try_open_emits|]. intros [d|]; [apply emits_ret|done].
Qed.

Lemma candidates_of_emits P be serial count :
  (real_serial serial = true →
   P c_list_device_attributes ∧ P c_num_devices ∧ P (c_sleep_for 80)) →
  emits P (candidates_of drv be serial count).
Proof.
  intros H1. unfold candidates_of. apply emits_bind; [|intros [? ?]; apply emits_ret].
  unfold real_serial, IsSyntheticIndexSerial in H1.
  destruct (String.prefix "DeviceIndex-" serial).
  { destruct (Stoi.stoi _); apply emits_ret. }
  destruct (negb (String.eqb serial "")); [|apply emits_ret].
  destruct (H1 eq_refl) as (? & ? & ?).
  apply emits_bind; [by apply listDevices_emits|]. intros devices.
  destruct (find_serial devices serial 0); apply emits_ret.
Qed.

(** Every call of [openDevice] is a call of an open for the identifier asked
    for; when the identifier is not a real serial, a call of an open by
    position. *)
Lemma openDevice_emits be serial :
  emits (λ c, opening_call serial c = true
              ∧ (real_serial serial = false → positional_call c = true))
    (openDevice drv be serial).
Proof.
  unfold openDevice. destruct (negb (Backend.ctx_ be)); [apply emits_ret|].
  set (P := λ c, _).
  assert (Hserial : real_serial serial = true → P (c_open_device_by_camera_serial serial)).
  { intros Hreal. unfold P. simpl. rewrite String.eqb_refl, Hreal. done. }
  assert (Hsleep : ∀ ms, P (c_sleep_for ms)) by done.
  assert (Hindex : ∀ index, P (c_open_device index)) by done.
  assert (Hclose : ∀ dev, P (c_close_device dev)) by done.
  assert (Hnum : P c_num_devices) by done.
  assert (Hlist : real_serial serial = true → P c_list_device_attributes).
  { intros Hreal. unfold P. simpl. by rewrite Hreal. }
  clearbody P.
  induction kMaxRetries as [|todo IH]; simpl; [apply emits_ret|].
  apply emits_bind.
  { fold (real_serial serial). destruct (real_serial serial) eqn:Hreal; [|apply emits_ret].
    apply try_open_emits; auto. }
  intros [d|]; [apply emits_ret|].
  apply emits_bind; [by apply EnumerateCountWithRetries_emits|]. intros n.
  apply emits_bind; [apply candidates_of_emits; auto|]. intros candidates.
  apply emits_bind; [apply open_candidates_emits; auto|]. intros [d|]; [apply emits_ret|].
  apply emits_bind; [by apply emits_native|]. intros _. exact IH.
Qed.
End OpenTrace.

(** X9.  Whatever the driver answers, the generation-1 [openDevice] only
    counts and lists the units, opens by the serial it was given or by
    position, closes units that were bound but refused, and sleeps: it never
    sets a mode, starts or stops a sub-stream or processes events.  When the
    identifier is empty or positional it never opens by serial and never
    lists the attributes. *)
Theorem X9_openDevice_only_opens
    (drv : V1.Driver) (be : V1.Backend.t) (serial : string) (h : V1.History) :
  ∃ t,
    snd (V1.openDevice drv be serial h) = h ++ t
    ∧ Forall (λ c, V1Trace.opening_call serial c = true) t
    ∧ (V1Trace.real_serial serial = false →
       Forall (λ c, V1Trace.positional_call c = true) t).
Proof.
  destruct (openDevice_emits drv be serial h) as (t & Ht & Hall).
  exists t. split; [done|]. split.
  - eapply Forall_impl; [exact Hall|]. by intros c [? _].
  - intros Hpos. eapply Forall_impl; [exact Hall|]. intros c [_ Hc]. by apply Hc.
Qed.

Lemma X9_openDevice_only_opens_witness :
  let drv := V1Spec.one_unit_driver "A00364A11700045A" (λ _ _, 0) (λ _, (0, [])) in
  let be := V1.Backend.mk true false in
  Forall (λ c, V1Trace.positional_call c = true)
    (snd (V1.openDevice drv be "DeviceIndex-3" [])).
Proof.
  intros drv be.
  destruct (X9_openDevice_only_opens drv be "DeviceIndex-3" []) as (t & Ht & _ & Hpos).
  rewrite Ht. apply Hpos. reflexivity.
Defined.

Section RetryBudget.
Import V1 V1Spec V1Session V1Trace.
Variable drv : Driver.

Lemma long_sleeps_app h t : long_sleeps (h ++ t) = (long_sleeps h + long_sleeps t)%nat.
Proof. unfold long_sleeps. by rewrite filter_app, length_app. Qed.

Lemma long_sleeps_none h t :
  extends_with (λ c, c ≠ c_sleep_for 250) h t → long_sleeps t = long_sleeps h.
Proof.
  intros (t' & -> & Hall). rewrite long_sleeps_app.
  assert (long_sleeps t' = 0%nat) as ->; [|lia].
  unfold long_sleeps. induction Hall as [|c t' Hc _ IH]; [done|].
  rewrite filter_cons. by destruct (decide (c = c_sleep_for 250)).
Qed.

(** One attempt of [openDevice], up to the sleep that follows a failure,
    makes no sleep of 250 ms. *)
Lemma attempt_has_no_long_sleep be serial h :
  let exact :=
    (if negb (String.eqb serial "") && negb (IsSyntheticIndexSerial serial)
     then try_open drv be (-1) serial else ret None) h in
  long_sleeps (snd exact) = long_sleeps h
  ∧ ∀ h1, let n := EnumerateCountWithRetries drv be 2 80 h1 in
          let candidates := candidates_of drv be serial (Z.max 0 (fst n)) (snd n) in
          let opened := open_candidates drv be serial (fst candidates) (snd candidates) in
          long_sleeps (snd opened) = long_sleeps h1.
Proof.
  set (P := λ c, c ≠ c_sleep_for 250). split.
  - apply (long_sleeps_none h).
    destruct (negb (String.eqb serial "") && negb (IsSyntheticIndexSerial serial));
      [|apply (emits_ret P)].
    by apply (try_open_emits drv P).
  - intros h1. simpl. apply (long_sleeps_none h1).
    pose proof (EnumerateCountWithRetries_emits drv P be 2 80) as Hcount.
    eapply extends_with_trans; [apply Hcount; unfold P; [done|by intros [=]]|].
    eapply extends_with_trans;
      [apply (candidates_of_emits drv P be serial); unfold P; intros _;
       split; [done|split; [done|by intros [=]]]|].
    by apply (open_candidates_emits drv P).
Qed.

Lemma openDevice_loop_budget be serial todo :
  ∀ h,
    let r := openDevice_loop drv be serial todo h in
    (fst r = None → long_sleeps (snd r) = (long_sleeps h + todo)%nat)
    ∧ (is_Some (fst r) → (long_sleeps (snd r) < long_sleeps h + todo)%nat).
Proof.
  induction todo as [|todo IH]; intros h; simpl.
  { split; [intros _; lia|by intros [? ?]]. }
  unfold bind.
  destruct (attempt_has_no_long_sleep be serial h) as [Hexact Hrest].
  destruct ((if negb (String.eqb serial "") && negb (IsSyntheticIndexSerial serial)
             then try_open drv be (-1) serial else ret None) h) as [[d1|] h1].
  { unfold ret. cbn [fst snd] in *. split; [done|]. intros _. lia. }
  specialize (Hrest h1). cbv zeta in Hrest. cbn [fst snd] in Hexact.
  destruct (EnumerateCountWithRetries drv be 2 80 h1) as [n h2]. cbn [fst snd] in Hrest.
  destruct (candidates_of drv be serial (Z.max 0 n) h2) as [cands h3]. cbn [fst snd] in Hrest.
  destruct (open_candidates drv be serial cands h3) as [[d2|] h4].
  { unfold ret. cbn [fst snd] in *. split; [done|]. intros _. lia. }
  cbn [fst snd] in *. unfold sleep_for, native.
  specialize (IH (h4 ++ [c_sleep_for 250])).
  rewrite long_sleeps_app in IH. change (long_sleeps [c_sleep_for 250]) with 1%nat in IH.
  destruct IH as [IH1 IH2]. split.
  - intros Hnone. rewrite IH1 by done. lia.
  - intros Hsome. specialize (IH2 Hsome). lia.
Qed.
End RetryBudget.

(** X10.  With a usable context, the generation-1 [openDevice] makes at most
    six attempts and sleeps 250 ms after each one that failed: when it
    answers null it slept 250 ms exactly six times, and when it hands out a
    session it did so fewer than six times. *)
Theorem X10_openDevice_gives_up_after_six_attempts
    (drv : V1.Driver) (be : V1.Backend.t) (serial : string) (h : V1.History) :
  V1.Backend.ctx_ be = true →
  let r := V1.openDevice drv be serial h in
  (fst r = None → V1Trace.long_sleeps (snd r) = (V1Trace.long_sleeps h + 6)%nat)
  ∧ (is_Some (fst r) → (V1Trace.long_sleeps (snd r) < V1Trace.long_sleeps h + 6)%nat).
Proof.
  intros Hctx. unfold V1.openDevice. rewrite Hctx. simpl.
  apply (openDevice_loop_budget drv be serial V1.kMaxRetries h).
Qed.

Lemma X10_openDevice_gives_up_after_six_attempts_witness :
  let drv := V1Spec.scripted_driver (λ _, 0) (λ _, (0, [])) in
  let r := V1.openDevice drv (V1.Backend.mk true false) "A00364A11700045A" [] in
  fst r = None ∧ V1Trace.long_sleeps (snd r) = 6%nat.
Proof.
  intros drv r. assert (Hnone : fst r = None) by (by vm_compute).
  split; [exact Hnone|].
  by apply (X10_openDevice_gives_up_after_six_attempts drv (V1.Backend.mk true false)
              "A00364A11700045A" []).
Defined.

Section Conversions.
Import V2.
Variable float : Type.
Variables depth_sample ir_sample : float → Z.

(** A vector of [n] elements written index by index from [g]. *)
Lemma fill_by_index (g : nat → Z) (n : nat) (init : list Z) :
  length init = n →
  foldl (λ data i, <[i := g i]> data) init (seq 0 n) = g <$> seq 0 n.
Proof.
  intros Hlen.
  assert (∀ k, (k ≤ n)%nat →
               foldl (λ data i, <[i := g i]> data) init (seq 0 k)
               = (g <$> seq 0 k) ++ drop k init) as Hk.
  { induction k as [|k IH]; intros Hle; [done|].
    rewrite seq_S, foldl_app, IH by lia. simpl.
    rewrite fmap_app. simpl.
    destruct (drop k init) as [|x rest] eqn:Hdrop.
    { apply (f_equal length) in Hdrop. rewrite length_drop in Hdrop. simpl in Hdrop. lia. }
    rewrite insert_app_r_alt by (rewrite length_fmap, length_seq; lia).
    rewrite length_fmap, length_seq, Nat.sub_diag. simpl.
    rewrite <- app_assoc. simpl. do 2 f_equal.
    rewrite <- (Nat.add_1_r k), <- drop_drop, Hdrop. done. }
  rewrite Hk by done. rewrite drop_ge by lia. by rewrite app_nil_r.
Qed.

(** A vector of [3 * n] elements written three at a time. *)
Lemma fill_by_triples (a b c : nat → Z) (n : nat) (init : list Z) :
  length init = (3 * n)%nat →
  let data :=
    foldl (λ data i,
             <[(i * 3 + 2)%nat := c i]>
               (<[(i * 3 + 1)%nat := b i]> (<[(i * 3 + 0)%nat := a i]> data)))
      init (seq 0 n) in
  length data = (3 * n)%nat
  ∧ ∀ i, (i < n)%nat →
         data !! (i * 3 + 0)%nat = Some (a i)
         ∧ data !! (i * 3 + 1)%nat = Some (b i)
         ∧ data !! (i * 3 + 2)%nat = Some (c i).
Proof.
  intros Hlen.
  set (f := λ data i, <[(i * 3 + 2)%nat := c i]>
                        (<[(i * 3 + 1)%nat := b i]> (<[(i * 3 + 0)%nat := a i]> data))).
  assert (∀ k, (k ≤ n)%nat →
               length (foldl f init (seq 0 k)) = (3 * n)%nat
               ∧ ∀ i, (i < k)%nat →
                      foldl f init (seq 0 k) !! (i * 3 + 0)%nat = Some (a i)
                      ∧ foldl f init (seq 0 k) !! (i * 3 + 1)%nat = Some (b i)
                      ∧ foldl f init (seq 0 k) !! (i * 3 + 2)%nat = Some (c i)) as Hk.
  { induction k as [|k IH]; intros Hle.
    { split; [done|]. intros i Hi. lia. }
    destruct IH as [IHlen IHget]; [lia|].
    rewrite seq_S, foldl_app. simpl. set (prev := foldl f init (seq 0 k)) in *.
    clearbody prev. unfold f. split; [by rewrite !length_insert|].
    intros i Hi. destruct (decide (i = k)) as [->|Hne].
    - split; [|split].
      + rewrite !list_lookup_insert_ne by lia.
        apply list_lookup_insert_eq. lia.
      + rewrite list_lookup_insert_ne by lia.
        apply list_lookup_insert_eq. rewrite length_insert. lia.
      + apply list_lookup_insert_eq. rewrite !length_insert. lia.
    - rewrite !list_lookup_insert_ne by lia. apply IHget. lia. }
  apply Hk. done.
Qed.
End Conversions.
(** X11.  The conversions at the head of the generation-2 [update], for a
    frame whose dimensions are not negative and whose indices fit an [int]:
    the color vector has three bytes per pixel and pixel [i] holds the red,
    green and blue bytes of the BGRA pixel [i] of the frame, in this order;
    the depth and infrared vectors hold one converted sample per pixel, in
    frame order. *)
Theorem X11_v2_conversions (float : Type) (depth_sample ir_sample : float → Z) :
  (∀ color : V2.Frame.t Z,
      0 ≤ V2.Frame.width color → 0 ≤ V2.Frame.height color →
      V2.Frame.width color * V2.Frame.height color * 4 < 2 ^ 31 →
      let pixels := Z.to_nat (V2.Frame.width color * V2.Frame.height color) in
      let rgb_data := V2.convert_color color in
      length rgb_data = (3 * pixels)%nat
      ∧ ∀ i, (i < pixels)%nat →
             rgb_data !! (i * 3 + 0)%nat = Some (V2.Frame.data color (i * 4 + 2)%nat)
             ∧ rgb_data !! (i * 3 + 1)%nat = Some (V2.Frame.data color (i * 4 + 1)%nat)
             ∧ rgb_data !! (i * 3 + 2)%nat = Some (V2.Frame.data color (i * 4 + 0)%nat))
  ∧ (∀ depth : V2.Frame.t float,
        0 ≤ V2.Frame.width depth * V2.Frame.height depth < 2 ^ 31 →
        V2.convert_depth float depth_sample depth
        = (λ i, depth_sample (V2.Frame.data depth i))
            <$> seq 0 (Z.to_nat (V2.Frame.width depth * V2.Frame.height depth)))
  ∧ (∀ ir : V2.Frame.t float,
        0 ≤ V2.Frame.width ir * V2.Frame.height ir < 2 ^ 31 →
        V2.convert_ir float ir_sample ir
        = (λ i, ir_sample (V2.Frame.data ir i))
            <$> seq 0 (Z.to_nat (V2.Frame.width ir * V2.Frame.height ir))).
Proof.
  split; [|split].
  - intros color Hw Hh Hfit pixels rgb_data.
    apply (fill_by_triples
             (λ i, V2.Frame.data color (i * 4 + 2)%nat)
             (λ i, V2.Frame.data color (i * 4 + 1)%nat)
             (λ i, V2.Frame.data color (i * 4 + 0)%nat)).
    rewrite length_replicate. unfold V2.to_size_t, pixels.
    rewrite Z.mod_small by nia. nia.
  - intros depth Hfit. unfold V2.convert_depth.
    apply (fill_by_index (λ i, depth_sample (V2.Frame.data depth i))).
    rewrite length_replicate. unfold V2.to_size_t. rewrite Z.mod_small; lia.
  - intros ir Hfit. unfold V2.convert_ir.
    apply (fill_by_index (λ i, ir_sample (V2.Frame.data ir i))).
    rewrite length_replicate. unfold V2.to_size_t. rewrite Z.mod_small; lia.
Qed.

Lemma X11_v2_conversions_witness :
  V2.convert_color V2Spec.one_pixel = [10; 20; 30]
  ∧ V2.convert_depth Z id (V2.Frame.mk 2 1 0 (λ i, Z.of_nat i + 500)) = [500; 501].
Proof.
  destruct (X11_v2_conversions Z id id) as (Hcolor & Hdepth & _). split.
  - destruct (Hcolor V2Spec.one_pixel) as [Hlen Hget]; [done|done|done|].
    destruct (Hget 0%nat) as (H0 & H1 & H2); [cbn; lia|].
    destruct (V2.convert_color V2Spec.one_pixel) as [|r [|g [|b [|? ?]]]]; try done.
    cbn in H0, H1, H2. by simplify_eq.
  - rewrite Hdepth; [reflexivity|]. cbn. lia.
Defined.

Section LittleEndian.
Import Recorder RecorderSpec.

Lemma land_255 v : Z.land v 255 = v mod 256.
Proof. change 255 with (Z.ones 8). by rewrite Z.land_ones. Qed.

Lemma shiftr_div v n : 0 ≤ n → Z.shiftr v n = v / 2 ^ n.
Proof. intros. by rewrite Z.shiftr_div_pow2. Qed.

Lemma PutLe16_value v : le_value (PutLe16 v) = v mod 2 ^ 16 ∧ all_bytes (PutLe16 v).
Proof.
  unfold PutLe16, le_value, all_bytes, to_u8, to_u16. cbv zeta. simpl foldr.
  rewrite !land_255, !shiftr_div by lia. split.
  - change (2 ^ 8) with 256. change (2 ^ 16) with 65536.
    Z.to_euclidean_division_equations. lia.
  - repeat constructor; apply Z.mod_pos_bound; lia.
Qed.

Lemma PutLe32_value v : le_value (PutLe32 v) = v mod 2 ^ 32 ∧ all_bytes (PutLe32 v).
Proof.
  unfold PutLe32, le_value, all_bytes, to_u8, to_u32. cbv zeta. simpl foldr.
  rewrite !land_255, !shiftr_div by lia. split.
  - change (2 ^ 8) with 256. change (2 ^ 16) with 65536.
    change (2 ^ 24) with 16777216. change (2 ^ 32) with 4294967296.
    Z.to_euclidean_division_equations. lia.
  - repeat constructor; apply Z.mod_pos_bound; lia.
Qed.
End LittleEndian.

(** X12.  [PutLe16] and [PutLe32] store bytes, and reading them back least
    significant byte first gives the value again, reduced to 16 and to 32
    bits. *)
Theorem X12_PutLe_round_trip (value : Z) :
  RecorderSpec.le_value (Recorder.PutLe16 value) = value mod 2 ^ 16
  ∧ RecorderSpec.le_value (Recorder.PutLe32 value) = value mod 2 ^ 32
  ∧ RecorderSpec.all_bytes (Recorder.PutLe16 value)
  ∧ RecorderSpec.all_bytes (Recorder.PutLe32 value).
Proof.
  destruct (PutLe16_value value) as [H16 B16], (PutLe32_value value) as [H32 B32]. done.
Qed.

Section WavHeader.
Import Recorder RecorderSpec.
Variable io : Stdio.

Lemma to_u32_idem x : to_u32 (to_u32 x) = to_u32 x.
Proof. unfold to_u32. by rewrite Z.mod_mod. Qed.

Lemma to_u16_idem x : to_u16 (to_u16 x) = to_u16 x.
Proof. unfold to_u16. by rewrite Z.mod_mod. Qed.

Lemma to_u32_add_r x y : to_u32 (x + to_u32 y) = to_u32 (x + y).
Proof. unfold to_u32. by rewrite Zplus_mod_idemp_r. Qed.

(** The array [header] once all its fields are stored. *)
Lemma header_array sample_rate bits_per_sample data_bytes :
  poke 40 (PutLe32 (to_u32 data_bytes))
    (poke 36 (bytes_of "data")
       (poke 34 (PutLe16 (to_u16 bits_per_sample))
          (poke 32 (PutLe16 (to_u16 (Z.quot (1 * bits_per_sample) 8)))
             (poke 28 (PutLe32 (to_u32 (Z.quot (sample_rate * 1 * bits_per_sample) 8)))
                (poke 24 (PutLe32 (to_u32 sample_rate))
                   (poke 22 (PutLe16 1)
                      (poke 20 (PutLe16 1)
                         (poke 16 (PutLe32 16)
                            (poke 12 (bytes_of "fmt ")
                               (poke 8 (bytes_of "WAVE")
                                  (poke 4 (PutLe32 (to_u32 (36 + to_u32 data_bytes)))
                                     (poke 0 (bytes_of "RIFF") (replicate 44 0)))))))))))))
  = wav_header sample_rate bits_per_sample data_bytes.
Proof.
  unfold wav_header, PutLe32, PutLe16. cbv zeta.
  rewrite !to_u32_idem, !to_u16_idem, to_u32_add_r, Z.mul_1_r, Z.mul_1_l.
  reflexivity.
Qed.

Lemma wav_header_length sample_rate bits_per_sample data_bytes :
  length (wav_header sample_rate bits_per_sample data_bytes) = 44%nat.
Proof. reflexivity. Qed.

Lemma WriteWavHeader_writes file sample_rate bits_per_sample data_bytes fs h bytes pos :
  fs !! file = Some (bytes, pos) →
  let answer := fwrite_answer io h file 1 44 in
  let written := Z.to_nat (Z.max 0 (Z.min 44 answer)) in
  WriteWavHeader io (Some file) sample_rate bits_per_sample data_bytes fs h
  = (bool_decide (44 ≤ answer),
     <[file := (poke 0 (take written (wav_header sample_rate bits_per_sample data_bytes)) bytes,
                written)]> fs,
     h ++ [c_fwrite file 1 44]).
Proof.
  intros Hfile answer written.
  unfold WriteWavHeader. cbv zeta. rewrite header_array.
  unfold rewind. rewrite Hfile. cbv iota beta.
  unfold fwrite, bind, native, ret. rewrite lookup_insert_eq. cbv iota beta zeta.
  fold answer. rewrite Z.mul_1_r. fold written.
  rewrite insert_insert_eq. f_equal. f_equal.
  - destruct (Z.eqb_spec (Z.max 0 (Z.min 44 answer)) 44) as [Heq|Hne].
    + rewrite bool_decide_eq_true_2; [done|lia].
    + rewrite bool_decide_eq_false_2; [done|lia].
  - do 2 f_equal. rewrite length_take, wav_header_length. lia.
Qed.
End WavHeader.

(** X13.  [WriteWavHeader], called with a sample rate and a number of bits
    per sample that are [int]s whose product fits an [int], on an open
    stream whose [fwrite] stores all 44 bytes answers true, overwrites the
    first 44 bytes of the file and leaves the rest of the file as it was.
    The 44 bytes are a RIFF/WAVE header of one PCM channel: read
    little-endian, its fields give the sample rate, the byte rate
    [sample_rate * bits / 8], the block size [bits / 8], the bits per sample
    and the data size back, and the RIFF size is the data size plus 36,
    reduced to 32 bits. *)
Theorem X13_wav_header_layout
    (io : Recorder.Stdio) (file : string) (sample_rate bits_per_sample data_bytes : Z)
    (fs : gmap string (list Z * nat)) (h : list Recorder.Call) (bytes : list Z) (pos : nat) :
  RecorderSpec.header_fits_int sample_rate bits_per_sample →
  fs !! file = Some (bytes, pos) →
  44 ≤ Recorder.fwrite_answer io h file 1 44 →
  let header := RecorderSpec.wav_header sample_rate bits_per_sample data_bytes in
  Recorder.WriteWavHeader io (Some file) sample_rate bits_per_sample data_bytes fs h
  = (true, <[file := (header ++ drop 44 bytes, 44%nat)]> fs,
     h ++ [Recorder.c_fwrite file 1 44])
  ∧ length header = 44%nat
  ∧ RecorderSpec.all_bytes header
  ∧ take 4 header = Recorder.bytes_of "RIFF"
  ∧ take 4 (drop 8 header) = Recorder.bytes_of "WAVE"
  ∧ take 4 (drop 12 header) = Recorder.bytes_of "fmt "
  ∧ take 4 (drop 36 header) = Recorder.bytes_of "data"
  ∧ RecorderSpec.field 4 4 header = (36 + data_bytes) mod 2 ^ 32
  ∧ RecorderSpec.field 16 4 header = 16
  ∧ RecorderSpec.field 20 2 header = 1
  ∧ RecorderSpec.field 22 2 header = 1
  ∧ RecorderSpec.field 24 4 header = sample_rate mod 2 ^ 32
  ∧ RecorderSpec.field 28 4 header = Z.quot (sample_rate * bits_per_sample) 8 mod 2 ^ 32
  ∧ RecorderSpec.field 32 2 header = Z.quot bits_per_sample 8 mod 2 ^ 16
  ∧ RecorderSpec.field 34 2 header = bits_per_sample mod 2 ^ 16
  ∧ RecorderSpec.field 40 4 header = data_bytes mod 2 ^ 32.
Proof.
  intros _ Hfile Hall header.
  split.
  { rewrite (WriteWavHeader_writes io file sample_rate bits_per_sample data_bytes fs h
               bytes pos Hfile).
    rewrite bool_decide_eq_true_2 by done.
    replace (Z.to_nat (Z.max 0 (Z.min 44 (Recorder.fwrite_answer io h file 1 44))))
      with 44%nat by lia.
    rewrite take_ge by (rewrite wav_header_length; lia).
    unfold Recorder.poke. rewrite wav_header_length. done. }
  split; [done|]. split.
  { unfold RecorderSpec.all_bytes, header, RecorderSpec.wav_header.
    repeat (apply Forall_app; split);
      first [ apply PutLe32_value | apply PutLe16_value
            | repeat constructor; cbn; lia ]. }
  do 4 (split; [reflexivity|]).
  split; [apply (PutLe32_value (36 + data_bytes))|].
  split; [apply (PutLe32_value 16)|].
  split; [apply (PutLe16_value 1)|].
  split; [apply (PutLe16_value 1)|].
  split; [apply (PutLe32_value sample_rate)|].
  split; [apply (PutLe32_value (Z.quot (sample_rate * bits_per_sample) 8))|].
  split; [apply (PutLe16_value (Z.quot bits_per_sample 8))|].
  split; [apply (PutLe16_value bits_per_sample)|].
  apply (PutLe32_value data_bytes).
Qed.

Lemma X13_wav_header_layout_witness :
  let io :=
    {| Recorder.TimestampNow_answer := λ _, "20240101-120000";
       Recorder.fopen_answer := λ _ _, true;
       Recorder.fwrite_answer := λ _ _ _ count, count |} in
  let fs : gmap string (list Z * nat) := {[ "cancelled.wav" := ([], 0%nat) ]} in
  let header := RecorderSpec.wav_header 16000 16 640 in
  RecorderSpec.header_fits_int 16000 16
  ∧ fst (Recorder.WriteWavHeader io (Some "cancelled.wav") 16000 16 640 fs [])
  = (true, <["cancelled.wav" := (header ++ [], 44%nat)]> fs)
  ∧ RecorderSpec.field 24 4 header = 16000
  ∧ RecorderSpec.field 28 4 header = 32000
  ∧ RecorderSpec.field 40 4 header = 640.
Proof.
  intros io fs header.
  assert (RecorderSpec.header_fits_int 16000 16) as Hint
    by (unfold RecorderSpec.header_fits_int, RecorderSpec.is_int, Stoi.INT_MIN,
          Stoi.INT_MAX; lia).
  split; [exact Hint|].
  destruct (X13_wav_header_layout io "cancelled.wav" 16000 16 640 fs [] [] 0%nat)
    as (Hwrite & _ & _ & _ & _ & _ & _ & _ & _ & _ & _ & Hrate & Hbyte & _ & _ & Hdata);
    [exact Hint|reflexivity|cbn; lia|].
  split; [by rewrite Hwrite|]. split; [exact Hrate|]. split; [exact Hbyte|exact Hdata].
Defined.

Section Closing.
Import Recorder RecorderSpec.
Variable io : Stdio.

Lemma closing_size_range sink : 0 ≤ closing_size sink ≤ UINT32_MAX.
Proof.
  unfold closing_size, to_u64, UINT32_MAX.
  pose proof (Z.mod_pos_bound
                (WavSink.sample_count sink * to_u32 (Z.quot (WavSink.bits_per_sample sink) 8))
                (2 ^ 64) ltac:(lia)). lia.
Qed.

(** The size computed by [CloseWavSink]. *)
Lemma closing_size_code sink :
  let bytes_u64 :=
    to_u64 (WavSink.sample_count sink * to_u32 (Z.quot (WavSink.bits_per_sample sink) 8)) in
  (if UINT32_MAX <? bytes_u64 then UINT32_MAX else to_u32 bytes_u64) = closing_size sink.
Proof.
  intros bytes_u64. unfold closing_size. fold bytes_u64.
  assert (0 ≤ bytes_u64) by (apply Z.mod_pos_bound; lia).
  destruct (Z.ltb_spec UINT32_MAX bytes_u64); [lia|].
  unfold to_u32, UINT32_MAX in *. rewrite Z.mod_small; lia.
Qed.

Lemma CloseWavSink_open sink file fs h bytes pos :
  WavSink.file sink = Some file →
  fs !! file = Some (bytes, pos) →
  let written := Z.to_nat (Z.max 0 (Z.min 44 (fwrite_answer io h file 1 44))) in
  CloseWavSink io sink fs h
  = (WavSink.mk None (WavSink.path sink) (WavSink.bits_per_sample sink)
       (WavSink.sample_count sink),
     <[file := (poke 0
                  (take written
                     (wav_header 16000 (WavSink.bits_per_sample sink) (closing_size sink)))
                  bytes, written)]> fs,
     h ++ [c_fwrite file 1 44; c_fclose file]).
Proof.
  intros Hopen Hfile written. unfold CloseWavSink. rewrite Hopen. cbv zeta.
  rewrite closing_size_code. unfold bind.
  rewrite (WriteWavHeader_writes io file 16000 _ _ fs h bytes pos Hfile).
  unfold fclose, native, ret. by rewrite <- app_assoc.
Qed.
End Closing.

(** X14.  [CloseWavSink] does nothing on a sink whose stream is already
    closed.  On an open sink whose number of bits per sample is an [int]
    that multiplied by 16000 still fits an [int], it rewrites the header with
    the data size [sample_count * (bits_per_sample / 8)], computed in 64 bits
    and capped at [2^32 - 1], closes the stream and marks the sink closed,
    whatever [fwrite] answers; the sample count is kept.  When all 44 bytes
    are stored, the data-size field of the file holds that size and the RIFF
    size holds it plus 36 reduced to 32 bits. *)
Theorem X14_CloseWavSink
    (io : Recorder.Stdio) (sink : Recorder.WavSink.t) (fs : gmap string (list Z * nat))
    (h : list Recorder.Call) :
  (Recorder.WavSink.file sink = None → Recorder.CloseWavSink io sink fs h = (sink, fs, h))
  ∧ (∀ file bytes pos,
        RecorderSpec.header_fits_int 16000 (Recorder.WavSink.bits_per_sample sink) →
        Recorder.WavSink.file sink = Some file →
        fs !! file = Some (bytes, pos) →
        let size := RecorderSpec.closing_size sink in
        let header :=
          RecorderSpec.wav_header 16000 (Recorder.WavSink.bits_per_sample sink) size in
        0 ≤ size ≤ Recorder.UINT32_MAX
        ∧ (∃ fs',
              Recorder.CloseWavSink io sink fs h
              = (Recorder.WavSink.mk None (Recorder.WavSink.path sink)
                   (Recorder.WavSink.bits_per_sample sink)
                   (Recorder.WavSink.sample_count sink),
                 fs', h ++ [Recorder.c_fwrite file 1 44; Recorder.c_fclose file])
              ∧ (44 ≤ Recorder.fwrite_answer io h file 1 44 →
                 fs' = <[file := (header ++ drop 44 bytes, 44%nat)]> fs))
        ∧ RecorderSpec.field 40 4 header = size
        ∧ RecorderSpec.field 4 4 header = (36 + size) mod 2 ^ 32).
Proof.
  split.
  - intros Hclosed. unfold Recorder.CloseWavSink. by rewrite Hclosed.
  - intros file bytes pos _ Hopen Hfile size header.
    pose proof (closing_size_range sink) as Hrange. fold size in Hrange.
    split; [done|]. split.
    + eexists. split; [by apply (CloseWavSink_open io sink file fs h bytes pos)|].
      intros Hall.
      replace (Z.to_nat (Z.max 0 (Z.min 44 (Recorder.fwrite_answer io h file 1 44))))
        with 44%nat by lia.
      rewrite take_ge by (rewrite wav_header_length; lia).
      unfold Recorder.poke. by rewrite wav_header_length.
    + split.
      * unfold header.
        change (RecorderSpec.field 40 4 (RecorderSpec.wav_header 16000 _ size))
          with (RecorderSpec.le_value (Recorder.PutLe32 size)).
        destruct (PutLe32_value size) as [-> _].
        unfold Recorder.UINT32_MAX in Hrange. rewrite Z.mod_small; lia.
      * apply (PutLe32_value (36 + size)).
Qed.

Lemma X14_CloseWavSink_witness :
  let io :=
    {| Recorder.TimestampNow_answer := λ _, "20240101-120000";
       Recorder.fopen_answer := λ _ _, true;
       Recorder.fwrite_answer := λ _ _ _ count, count |} in
  let sink := Recorder.WavSink.mk (Some "mic1.wav") "mic1.wav" 32 (2 ^ 30 + 5) in
  let fs : gmap string (list Z * nat) := {[ "mic1.wav" := ([], 0%nat) ]} in
  RecorderSpec.closing_size sink = 2 ^ 32 - 1
  ∧ RecorderSpec.field 4 4 (RecorderSpec.wav_header 16000 32 (2 ^ 32 - 1)) = 35.
Proof.
  intros io sink fs.
  destruct (X14_CloseWavSink io sink fs []) as [_ Hopen].
  destruct (Hopen "mic1.wav" [] 0%nat) as (_ & _ & _ & Hriff);
    [unfold RecorderSpec.header_fits_int, RecorderSpec.is_int, Stoi.INT_MIN, Stoi.INT_MAX;
     cbn; lia
    |reflexivity|reflexivity|].
  assert (Hsize : RecorderSpec.closing_size sink = 2 ^ 32 - 1) by reflexivity.
  split; [exact Hsize|]. rewrite Hsize in Hriff. exact Hriff.
Defined.

Section RecorderInvariant.
Import Recorder RecorderSpec.
Variable io : Stdio.

Lemma CloseWavSink_closes sink fs h :
  WavSink.file (fst (fst (CloseWavSink io sink fs h))) = None.
Proof.
  unfold CloseWavSink, bind, fclose, native, ret.
  destruct (WavSink.file sink) as [file|] eqn:Hfile; [|done].
  destruct (WriteWavHeader io _ _ _ _ fs h) as [[ok fs'] h']. done.
Qed.

Lemma close_mics_closes todo :
  ∀ i st h,
    let st' := fst (close_mics io todo i st h) in
    length (g_mic_wavs st') = length (g_mic_wavs st)
    ∧ g_cancelled_wav st' = g_cancelled_wav st
    ∧ g_audio_stream_available st' = g_audio_stream_available st
    ∧ (∀ j sink, g_mic_wavs st' !! j = Some sink →
                 ((i ≤ j < i + todo)%nat → WavSink.file sink = None)
                 ∧ (¬ (i ≤ j < i + todo)%nat → g_mic_wavs st !! j = Some sink)).
Proof.
  induction todo as [|todo IH]; intros i st h; simpl.
  { split; [done|]. split; [done|]. split; [done|]. intros j sink Hj.
    split; [lia|done]. }
  destruct (g_mic_wavs st !! i) as [sink|] eqn:Hi; simpl.
  2:{ split; [done|]. split; [done|]. split; [done|]. intros j s Hj.
      split; [|done]. intros Hrange. apply lookup_ge_None in Hi.
      apply lookup_lt_Some in Hj. lia. }
  unfold bind. pose proof (CloseWavSink_closes sink (files st) h) as Hclosed.
  destruct (CloseWavSink io sink (files st) h) as [[sink' fs'] h']. simpl in Hclosed.
  specialize (IH (S i) (set_files fs' (set_mic i sink' st)) h').
  destruct IH as (IHlen & IHc & IHa & IHget). simpl in *.
  rewrite length_insert in IHlen.
  split; [done|]. split; [done|]. split; [done|].
  intros j s Hj. destruct (IHget j s Hj) as [Hin Hout].
  split.
  - intros Hrange. destruct (decide (i = j)) as [->|Hne].
    + assert (<[j:=sink']> (g_mic_wavs st) !! j = Some s) as Hold by (apply Hout; lia).
      rewrite list_lookup_insert_eq in Hold by (by eapply lookup_lt_Some).
      by injection Hold as <-.
    + apply Hin. lia.
  - intros Hrange.
    assert (<[i:=sink']> (g_mic_wavs st) !! j = Some s) as Hold by (apply Hout; lia).
    rewrite list_lookup_insert_ne in Hold by lia. done.
Qed.

Lemma Stop_closes st h :
  let st' := fst (StopAudioRecordingLocked io st h) in
  length (g_mic_wavs st') = length (g_mic_wavs st)
  ∧ g_audio_stream_available st' = g_audio_stream_available st
  ∧ g_audio_recording st' = false
  ∧ all_closed st'.
Proof.
  unfold StopAudioRecordingLocked, bind, ret.
  pose proof (close_mics_closes (length (g_mic_wavs st)) 0 st h) as Hmics.
  destruct (close_mics io (length (g_mic_wavs st)) 0 st h) as [st1 h1].
  simpl in Hmics. destruct Hmics as (Hlen & Hc & Ha & Hget).
  pose proof (CloseWavSink_closes (g_cancelled_wav st1) (files st1) h1) as Hclosed.
  destruct (CloseWavSink io (g_cancelled_wav st1) (files st1) h1) as [[sink fs'] h2].
  simpl in *. split; [done|]. split; [done|]. split; [done|].
  split; [|done]. apply Forall_lookup. intros j s Hj. simpl in Hj.
  destruct (Hget j s Hj) as [Hin _]. apply Hin.
  apply lookup_lt_Some in Hj. lia.
Qed.

Lemma write_samples_keeps size n sink samples fs h :
  WavSink.file (fst (fst (write_samples io size n sink samples fs h))) = WavSink.file sink.
Proof.
  unfold write_samples, bind, ret.
  destruct (WavSink.file sink) as [file|] eqn:Hfile, samples as [data|]; simpl; try done.
  by destruct (fwrite io data size (to_u64 n) file fs h) as [[? ?] ?].
Qed.

Lemma write_mic_keeps n i samples st h :
  let st' := fst (write_mic io n i samples st h) in
  g_audio_recording st' = g_audio_recording st
  ∧ g_audio_stream_available st' = g_audio_stream_available st
  ∧ length (g_mic_wavs st') = length (g_mic_wavs st)
  ∧ WavSink.file <$> g_mic_wavs st' = WavSink.file <$> g_mic_wavs st
  ∧ g_cancelled_wav st' = g_cancelled_wav st.
Proof.
  unfold write_mic, bind, ret.
  pose proof (write_samples_keeps 4 n (default WavSink.init (g_mic_wavs st !! i)) samples
                (files st) h) as Hkeep.
  destruct (write_samples io 4 n _ samples (files st) h) as [[sink fs] h']. simpl in *.
  split; [done|]. split; [done|]. rewrite length_insert. split; [done|]. split; [|done].
  rewrite list_fmap_insert, Hkeep.
  destruct (g_mic_wavs st !! i) as [old|] eqn:Hi; simpl.
  - apply list_insert_id. by rewrite list_lookup_fmap, Hi.
  - apply lookup_ge_None in Hi. rewrite list_insert_ge; [done|]. by rewrite length_fmap.
Qed.

Lemma Forall_by_image {A B} (f : A → B) (P : B → Prop) (l l' : list A) :
  f <$> l' = f <$> l → Forall (λ x, P (f x)) l → Forall (λ x, P (f x)) l'.
Proof.
  intros Heq Hall. apply Forall_lookup. intros i x Hx.
  assert ((f <$> l) !! i = Some (f x)) as Hi by (by rewrite <- Heq, list_lookup_fmap, Hx).
  rewrite list_lookup_fmap in Hi. destruct (l !! i) as [y|] eqn:Hy; [|done].
  injection Hi as <-. by apply (Forall_lookup_1 (λ x, P (f x)) l i y).
Qed.

Lemma all_open_files st st' :
  WavSink.file <$> g_mic_wavs st' = WavSink.file <$> g_mic_wavs st →
  WavSink.file (g_cancelled_wav st') = WavSink.file (g_cancelled_wav st) →
  (all_open st → all_open st') ∧ (all_closed st → all_closed st').
Proof.
  intros Hmics Hc. unfold all_open, all_closed. rewrite Hc.
  split; intros [Hall Hcan]; (split; [|done]).
  - by apply (Forall_by_image WavSink.file is_Some (g_mic_wavs st)).
  - by apply (Forall_by_image WavSink.file (λ f, f = None) (g_mic_wavs st)).
Qed.

Lemma audio_in_cb_consistent n m1 m2 m3 m4 c st h :
  consistent st → consistent (fst (audio_in_cb io n m1 m2 m3 m4 c st h)).
Proof.
  intros [Hlen Hst]. unfold audio_in_cb, bind, ret.
  destruct (g_audio_recording st) eqn:Hrec; simpl; [|by split; [|rewrite Hrec]].
  pose proof (write_mic_keeps n 0 m1 st h) as K1.
  destruct (write_mic io n 0 m1 st h) as [st1 h1]. simpl in K1.
  pose proof (write_mic_keeps n 1 m2 st1 h1) as K2.
  destruct (write_mic io n 1 m2 st1 h1) as [st2 h2]. simpl in K2.
  pose proof (write_mic_keeps n 2 m3 st2 h2) as K3.
  destruct (write_mic io n 2 m3 st2 h2) as [st3 h3]. simpl in K3.
  pose proof (write_mic_keeps n 3 m4 st3 h3) as K4.
  destruct (write_mic io n 3 m4 st3 h3) as [st4 h4]. simpl in K4.
  pose proof (write_samples_keeps 2 n (g_cancelled_wav st4) c (files st4) h4) as K5.
  destruct (write_samples io 2 n (g_cancelled_wav st4) c (files st4) h4) as [[sink fs] h5].
  simpl in *.
  destruct K1 as (R1 & _ & L1 & F1 & C1), K2 as (R2 & _ & L2 & F2 & C2),
    K3 as (R3 & _ & L3 & F3 & C3), K4 as (R4 & _ & L4 & F4 & C4).
  split; [simpl; congruence|]. simpl.
  replace (g_audio_recording st4) with true by congruence.
  apply (all_open_files st); [simpl; congruence|simpl; congruence|done].
Qed.

Lemma open_sink_file dir sink name bits fs h :
  let r := open_sink io dir sink name bits fs h in
  fst (fst (fst r)) = true → is_Some (WavSink.file (snd (fst (fst r)))).
Proof.
  unfold open_sink, fopen, bind, native, ret. cbv zeta.
  destruct (fopen_answer io h _); cbv beta iota; [|done].
  match goal with |- context [WriteWavHeader io ?a ?b ?c ?d ?e ?f] =>
    destruct (WriteWavHeader io a b c d e f) as [[ok fs'] h'] end.
  simpl. intros _. by eexists.
Qed.

Lemma open_mic_sets dir i name st h :
  let r := open_mic io dir i name st h in
  ∃ sink,
    g_mic_wavs (snd (fst r)) = <[i := sink]> (g_mic_wavs st)
    ∧ g_cancelled_wav (snd (fst r)) = g_cancelled_wav st
    ∧ g_audio_recording (snd (fst r)) = g_audio_recording st
    ∧ g_audio_stream_available (snd (fst r)) = g_audio_stream_available st
    ∧ (fst (fst r) = true → is_Some (WavSink.file sink)).
Proof.
  unfold open_mic, bind, ret.
  pose proof (open_sink_file dir (default WavSink.init (g_mic_wavs st !! i)) name 32
                (files st) h) as Hfile.
  destruct (open_sink io dir _ name 32 (files st) h) as [[[ok sink] fs] h']. simpl in *.
  by exists sink.
Qed.

Lemma open_cancelled_sets dir st h :
  let r := open_cancelled io dir st h in
  g_mic_wavs (snd (fst r)) = g_mic_wavs st
  ∧ g_audio_recording (snd (fst r)) = g_audio_recording st
  ∧ g_audio_stream_available (snd (fst r)) = g_audio_stream_available st
  ∧ (fst (fst r) = true → is_Some (WavSink.file (g_cancelled_wav (snd (fst r))))).
Proof.
  unfold open_cancelled, bind, ret.
  pose proof (open_sink_file dir (g_cancelled_wav st) "cancelled.wav" 16 (files st) h)
    as Hfile.
  destruct (open_sink io dir _ _ 16 (files st) h) as [[[ok sink] fs] h']. simpl in *. done.
Qed.

(** The five [open_sink] calls joined by [&&]: the sinks keep their number
    and the flags their value; when the conjunction holds every stream is
    open. *)
Lemma open_all_sets dir st h :
  length (g_mic_wavs st) = 4%nat →
  let r :=
    and_then (open_mic io dir 0 "mic1.wav")
      (and_then (open_mic io dir 1 "mic2.wav")
         (and_then (open_mic io dir 2 "mic3.wav")
            (and_then (open_mic io dir 3 "mic4.wav") (open_cancelled io dir)))) st h in
  length (g_mic_wavs (snd (fst r))) = 4%nat
  ∧ g_audio_recording (snd (fst r)) = g_audio_recording st
  ∧ g_audio_stream_available (snd (fst r)) = g_audio_stream_available st
  ∧ (fst (fst r) = true → all_open (snd (fst r))).
Proof.
  intros Hlen. unfold and_then, bind, ret.
  destruct (open_mic_sets dir 0 "mic1.wav" st h) as (s0 & M0 & C0 & R0 & A0 & F0).
  destruct (open_mic io dir 0 "mic1.wav" st h) as [[ok0 st0] h0]. simpl in *.
  destruct ok0; simpl.
  2:{ rewrite M0, length_insert. done. }
  destruct (open_mic_sets dir 1 "mic2.wav" st0 h0) as (s1 & M1 & C1 & R1 & A1 & F1).
  destruct (open_mic io dir 1 "mic2.wav" st0 h0) as [[ok1 st1] h1]. simpl in *.
  destruct ok1; simpl.
  2:{ rewrite M1, M0, !length_insert. split; [done|]. split; [congruence|].
      split; [congruence|done]. }
  destruct (open_mic_sets dir 2 "mic3.wav" st1 h1) as (s2 & M2 & C2 & R2 & A2 & F2).
  destruct (open_mic io dir 2 "mic3.wav" st1 h1) as [[ok2 st2] h2]. simpl in *.
  destruct ok2; simpl.
  2:{ rewrite M2, M1, M0, !length_insert. split; [done|]. split; [congruence|].
      split; [congruence|done]. }
  destruct (open_mic_sets dir 3 "mic4.wav" st2 h2) as (s3 & M3 & C3 & R3 & A3 & F3).
  destruct (open_mic io dir 3 "mic4.wav" st2 h2) as [[ok3 st3] h3]. simpl in *.
  destruct ok3; simpl.
  2:{ rewrite M3, M2, M1, M0, !length_insert. split; [done|]. split; [congruence|].
      split; [congruence|done]. }
  destruct (open_cancelled_sets dir st3 h3) as (M4 & R4 & A4 & F4).
  destruct (open_cancelled io dir st3 h3) as [[ok4 st4] h4]. simpl in *.
  rewrite M4, M3, M2, M1, M0, !length_insert.
  split; [done|]. split; [congruence|]. split; [congruence|].
  intros ->. split; [|by apply F4].
  rewrite M4, M3, M2, M1, M0.
  destruct (g_mic_wavs st) as [|a [|b [|c [|d [|e l]]]]]; try done. simpl.
  repeat constructor; auto.
Qed.

Lemma Start_consistent st h :
  length (g_mic_wavs st) = 4%nat →
  let st' := snd (fst (StartAudioRecordingLocked io st h)) in
  consistent st' ∧ g_audio_stream_available st' = g_audio_stream_available st.
Proof.
  intros Hlen. unfold StartAudioRecordingLocked, bind, native, ret.
  set (dir := "captures/audio/" +:+ TimestampNow_answer io h).
  set (h1 := (((h ++ _) ++ _) ++ _) ++ _).
  destruct (open_all_sets dir st h1 Hlen) as (L & R & A & F).
  match goal with |- context [and_then ?a ?b st h1] =>
    destruct (and_then a b st h1) as [[opened st1] h2] end.
  simpl in *. destruct opened; simpl.
  - split; [|done]. split; [done|]. simpl. by apply F.
  - destruct (Stop_closes st1 h2) as (L' & A' & R' & C').
    destruct (StopAudioRecordingLocked io st1 h2) as [st2 h3]. simpl in *.
    split; [|congruence]. split; [simpl; congruence|]. simpl. by rewrite R'.
Qed.

Lemma Toggle_consistent st h :
  consistent st → consistent (fst (ToggleAudioRecording io st h)).
Proof.
  intros [Hlen Hst]. unfold ToggleAudioRecording, bind, ret.
  destruct (negb (g_audio_stream_available st)); simpl; [done|].
  destruct (g_audio_recording st) eqn:Hrec; simpl.
  - destruct (Stop_closes st h) as (L' & A' & R' & C').
    destruct (StopAudioRecordingLocked io st h) as [st2 h3]. simpl in *.
    split; [simpl; congruence|]. simpl. by rewrite R'.
  - destruct (Start_consistent st h Hlen) as [Hc _].
    destruct (StartAudioRecordingLocked io st h) as [[ok st1] h1]. done.
Qed.

Lemma run_consistent events :
  ∀ st h, consistent st → consistent (fst (run io st events h)).
Proof.
  induction events as [|e events IH]; intros st h Hst; simpl; [done|].
  unfold bind.
  assert (consistent (fst (step io st e h))) as Hstep.
  { destruct e; simpl; [by apply Toggle_consistent|by apply audio_in_cb_consistent]. }
  destruct (step io st e h) as [st1 h1]. by apply IH.
Qed.
End RecorderInvariant.

(** X15.  Whatever the C library answers and whether or not the audio stream
    is available, over every run of key presses [a] and of sample blocks the
    recorder keeps its four microphone sinks, has all five streams open while
    it records and none open while it does not: a start that fails half-way
    closes the streams it had opened, and a stop closes them all. *)
Theorem X15_recorder_streams_follow_flag
    (io : Recorder.Stdio) (available : bool) (events : list RecorderSpec.Event)
    (h : list Recorder.Call) :
  let st := fst (RecorderSpec.run io (RecorderSpec.ready available) events h) in
  length (Recorder.g_mic_wavs st) = 4%nat
  ∧ (Recorder.g_audio_recording st = true → RecorderSpec.all_open st)
  ∧ (Recorder.g_audio_recording st = false → RecorderSpec.all_closed st).
Proof.
  intros st.
  assert (RecorderSpec.consistent (RecorderSpec.ready available)) as Hinit.
  { split; [done|]. simpl. split; [|done]. by repeat constructor. }
  destruct (run_consistent io events (RecorderSpec.ready available) h Hinit) as [Hlen Hst].
  fold st in Hlen, Hst. split; [done|].
  destruct (Recorder.g_audio_recording st); split; done.
Qed.

Section Recording.
Import Recorder RecorderSpec.
Variable io : Stdio.
Hypothesis Hio : obliging io.

Lemma append_inj (s a b : string) : s +:+ a = s +:+ b → a = b.
Proof. induction s as [|c s IH]; simpl; [done|]. intros [= H]. by apply IH. Qed.

Lemma wav_path_inj dir a b : wav_path dir a = wav_path dir b → a = b.
Proof. unfold wav_path. intros H%append_inj. by injection H. Qed.

Lemma open_sink_obliging dir sink name bits fs h :
  open_sink io dir sink name bits fs h
  = (true, WavSink.mk (Some (wav_path dir name)) (wav_path dir name) bits 0,
     <[wav_path dir name := (wav_header 16000 bits 0, 44%nat)]> fs,
     h ++ [c_fopen (wav_path dir name); c_fwrite (wav_path dir name) 1 44]).
Proof.
  destruct Hio as [Hopen Hwrite].
  unfold open_sink, fopen, bind, native, ret. cbv zeta. fold (wav_path dir name).
  rewrite Hopen. cbv beta iota.
  rewrite (WriteWavHeader_writes io (wav_path dir name) 16000 bits 0 _ _ [] 0%nat)
    by apply lookup_insert_eq.
  rewrite Hwrite. rewrite bool_decide_eq_true_2 by done.
  change (Z.to_nat (Z.max 0 (Z.min 44 44))) with 44%nat.
  rewrite take_ge by (rewrite wav_header_length; lia).
  rewrite insert_insert_eq. unfold poke. rewrite wav_header_length. simpl drop.
  rewrite app_nil_r. by rewrite <- app_assoc.
Qed.

Lemma sink_tracks_other fs dir name bits bytes sink path' v :
  path' ≠ wav_path dir name →
  sink_tracks fs dir name bits bytes sink →
  sink_tracks (<[path' := v]> fs) dir name bits bytes sink.
Proof.
  intros Hne (Hsink & Hmod & Hfile). split; [done|]. split; [done|].
  by rewrite lookup_insert_ne.
Qed.

Lemma sink_tracks_fresh fs dir name bits :
  sink_tracks (<[wav_path dir name := (wav_header 16000 bits 0, 44%nat)]> fs) dir name bits []
    (WavSink.mk (Some (wav_path dir name)) (wav_path dir name) bits 0).
Proof.
  split; [done|]. split; [apply Zmod_0_l|].
  rewrite lookup_insert_eq, app_nil_r. done.
Qed.

Lemma write_samples_obliging fs dir name bits bytes sink size n data h :
  sink_tracks fs dir name bits bytes sink →
  bits / 8 = size → 0 < size →
  0 ≤ n → Z.of_nat (length data) = size * n →
  Z.of_nat (length bytes) / size + n < 2 ^ 64 →
  ∃ sink' fs',
    write_samples io size n sink (Some data) fs h
    = (sink', fs', h ++ [c_fwrite (wav_path dir name) size (to_u64 n)])
    ∧ sink_tracks fs' dir name bits (bytes ++ data) sink'
    ∧ ∀ path', path' ≠ wav_path dir name → fs' !! path' = fs !! path'.
Proof.
  destruct Hio as [_ Hwrite].
  intros (-> & Hmod & Hfile) Hsize Hpos Hn Hlen Hfit.
  unfold write_samples, fwrite, bind, native, ret. cbn [WavSink.file]. rewrite Hfile.
  rewrite Hwrite. cbv beta iota zeta.
  pose proof (Z.div_pos (Z.of_nat (length bytes)) size ltac:(lia) Hpos) as Hquot.
  assert (to_u64 n = n) as Hu by (unfold to_u64; rewrite Z.mod_small; [done|lia]).
  rewrite !Hu.
  replace (Z.max 0 (Z.min n n)) with n by lia.
  rewrite take_ge by lia.
  eexists _, _. split; [reflexivity|]. split.
  - split; [|split].
    + cbn [WavSink.path WavSink.bits_per_sample WavSink.sample_count]. f_equal.
      rewrite Hsize, length_app, Nat2Z.inj_add, Hlen.
      rewrite (Z.mul_comm size n), Z.div_add by lia.
      unfold to_u64. rewrite Z.mod_small; [done|lia].
    + rewrite Hsize in *. rewrite length_app, Nat2Z.inj_add, Hlen.
      rewrite (Z.mul_comm size n), Z.mod_add by lia. done.
    + rewrite lookup_insert_eq. unfold poke. f_equal. f_equal.
      * rewrite take_ge by (rewrite length_app, wav_header_length; lia).
        rewrite drop_ge by (rewrite length_app, wav_header_length; lia).
        by rewrite app_nil_r, <- app_assoc.
      * rewrite length_app. lia.
  - intros path' Hne. by rewrite lookup_insert_ne.
Qed.
End Recording.

Section RecordingRun.
Import Recorder RecorderSpec.
Variable io : Stdio.
Hypothesis Hio : obliging io.

Local Ltac other_path := intros Hsame%wav_path_inj; discriminate Hsame.

Lemma Start_tracking st h a b c d :
  g_mic_wavs st = [a; b; c; d] →
  g_audio_stream_available st = true →
  ∃ st' h',
    StartAudioRecordingLocked io st h = (true, st', h')
    ∧ tracking ("captures/audio/" +:+ TimestampNow_answer io h) [] [] [] [] [] st'.
Proof.
  intros Hmics Havail.
  unfold StartAudioRecordingLocked, and_then, open_mic, open_cancelled, bind, native, ret.
  set (dir := "captures/audio/" +:+ TimestampNow_answer io h).
  rewrite (open_sink_obliging io Hio). cbv beta iota. cbn [negb].
  cbn [files set_files set_mic g_mic_wavs].
  rewrite (open_sink_obliging io Hio). cbv beta iota.
  cbn [files set_files set_mic g_mic_wavs].
  rewrite (open_sink_obliging io Hio). cbv beta iota.
  cbn [files set_files set_mic g_mic_wavs].
  rewrite (open_sink_obliging io Hio). cbv beta iota.
  cbn [files set_files set_mic g_mic_wavs g_cancelled_wav set_cancelled].
  rewrite (open_sink_obliging io Hio). cbv beta iota. cbn [negb].
  eexists _, _. split; [reflexivity|].
  split; [done|]. split; [done|].
  cbn [g_mic_wavs SetStatus set_recording set_files set_cancelled set_mic files
       g_cancelled_wav].
  rewrite Hmics. cbn [insert list_insert]. eexists _, _, _, _. split; [reflexivity|].
  split; [|split; [|split; [|split]]].
  - do 4 (apply sink_tracks_other; [other_path|]). apply sink_tracks_fresh.
  - do 3 (apply sink_tracks_other; [other_path|]). apply sink_tracks_fresh.
  - do 2 (apply sink_tracks_other; [other_path|]). apply sink_tracks_fresh.
  - do 1 (apply sink_tracks_other; [other_path|]). apply sink_tracks_fresh.
  - apply sink_tracks_fresh.
Qed.

Lemma sink_tracks_frame fs fs' dir name bits bytes sink :
  fs' !! wav_path dir name = fs !! wav_path dir name →
  sink_tracks fs dir name bits bytes sink → sink_tracks fs' dir name bits bytes sink.
Proof. intros Heq (? & ? & ?). split; [done|]. split; [done|]. by rewrite Heq. Qed.

Lemma block_tracking dir m1 m2 m3 m4 c st h n d1 d2 d3 d4 dc :
  tracking dir m1 m2 m3 m4 c st →
  full_block (Samples n (Some d1) (Some d2) (Some d3) (Some d4) (Some dc)) →
  Z.of_nat (length (m1 ++ d1)) < 2 ^ 32 → Z.of_nat (length (m2 ++ d2)) < 2 ^ 32 →
  Z.of_nat (length (m3 ++ d3)) < 2 ^ 32 → Z.of_nat (length (m4 ++ d4)) < 2 ^ 32 →
  Z.of_nat (length (c ++ dc)) < 2 ^ 32 →
  ∃ st' h',
    audio_in_cb io n (Some d1) (Some d2) (Some d3) (Some d4) (Some dc) st h = (st', h')
    ∧ tracking dir (m1 ++ d1) (m2 ++ d2) (m3 ++ d3) (m4 ++ d4) (c ++ dc) st'.
Proof.
  intros (Hrec & Havail & s1 & s2 & s3 & s4 & Hmics & T1 & T2 & T3 & T4 & Tc).
  intros (Hn & L1 & L2 & L3 & L4 & Lc) B1 B2 B3 B4 Bc.
  rewrite length_app, Nat2Z.inj_add in B1, B2, B3, B4, Bc.
  assert (∀ len : nat, Z.of_nat len / 4 ≤ Z.of_nat len) as Hq4
    by (intros; apply Z.div_le_upper_bound; lia).
  assert (∀ len : nat, Z.of_nat len / 2 ≤ Z.of_nat len) as Hq2
    by (intros; apply Z.div_le_upper_bound; lia).
  unfold audio_in_cb, write_mic, bind, ret. rewrite Hrec. cbn [negb].
  rewrite Hmics. cbn [lookup list_lookup default id].
  destruct (write_samples_obliging io Hio (files st) dir "mic1.wav" 32 m1 s1 4 n d1 h T1)
    as (s1' & fs1 & -> & T1' & F1); [done|done|done|lia|specialize (Hq4 (length m1)); lia|].
  cbv beta iota. cbn [files set_files set_mic g_mic_wavs]. rewrite ?Hmics.
  cbn [insert list_insert lookup list_lookup default id].
  assert (sink_tracks fs1 dir "mic2.wav" 32 m2 s2) as T2a
    by (apply (sink_tracks_frame (files st)); [apply F1; other_path|done]).
  destruct (write_samples_obliging io Hio fs1 dir "mic2.wav" 32 m2 s2 4 n d2
              (h ++ [c_fwrite (wav_path dir "mic1.wav") 4 (to_u64 n)]) T2a)
    as (s2' & fs2 & -> & T2' & F2); [done|done|done|lia|specialize (Hq4 (length m2)); lia|].
  cbv beta iota. cbn [files set_files set_mic g_mic_wavs]. rewrite ?Hmics.
  cbn [insert list_insert lookup list_lookup default id].
  assert (sink_tracks fs2 dir "mic3.wav" 32 m3 s3) as T3a.
  { apply (sink_tracks_frame (files st)); [|done].
    rewrite F2 by other_path. apply F1. other_path. }
  destruct (write_samples_obliging io Hio fs2 dir "mic3.wav" 32 m3 s3 4 n d3
              ((h ++ [c_fwrite (wav_path dir "mic1.wav") 4 (to_u64 n)])
                 ++ [c_fwrite (wav_path dir "mic2.wav") 4 (to_u64 n)]) T3a)
    as (s3' & fs3 & -> & T3' & F3); [done|done|done|lia|specialize (Hq4 (length m3)); lia|].
  cbv beta iota. cbn [files set_files set_mic g_mic_wavs]. rewrite ?Hmics.
  cbn [insert list_insert lookup list_lookup default id].
  assert (sink_tracks fs3 dir "mic4.wav" 32 m4 s4) as T4a.
  { apply (sink_tracks_frame (files st)); [|done].
    rewrite F3 by other_path. rewrite F2 by other_path. apply F1. other_path. }
  destruct (write_samples_obliging io Hio fs3 dir "mic4.wav" 32 m4 s4 4 n d4
              (((h ++ [c_fwrite (wav_path dir "mic1.wav") 4 (to_u64 n)])
                  ++ [c_fwrite (wav_path dir "mic2.wav") 4 (to_u64 n)])
                 ++ [c_fwrite (wav_path dir "mic3.wav") 4 (to_u64 n)]) T4a)
    as (s4' & fs4 & -> & T4' & F4); [done|done|done|lia|specialize (Hq4 (length m4)); lia|].
  cbv beta iota. cbn [files set_files set_mic g_mic_wavs g_cancelled_wav]. rewrite ?Hmics.
  cbn [insert list_insert lookup list_lookup default id].
  assert (sink_tracks fs4 dir "cancelled.wav" 16 c (g_cancelled_wav st)) as Tca.
  { apply (sink_tracks_frame (files st)); [|done].
    rewrite F4 by other_path. rewrite F3 by other_path. rewrite F2 by other_path.
    apply F1. other_path. }
  destruct (write_samples_obliging io Hio fs4 dir "cancelled.wav" 16 c (g_cancelled_wav st)
              2 n dc
              ((((h ++ [c_fwrite (wav_path dir "mic1.wav") 4 (to_u64 n)])
                   ++ [c_fwrite (wav_path dir "mic2.wav") 4 (to_u64 n)])
                  ++ [c_fwrite (wav_path dir "mic3.wav") 4 (to_u64 n)])
                 ++ [c_fwrite (wav_path dir "mic4.wav") 4 (to_u64 n)]) Tca)
    as (sc' & fsc & -> & Tc' & Fc); [done|done|done|lia|specialize (Hq2 (length c)); lia|].
  cbv beta iota. eexists _, _. split; [reflexivity|].
  split; [done|]. split; [done|].
  exists s1', s2', s3', s4'.
  cbn [files set_files set_cancelled set_mic g_mic_wavs g_cancelled_wav]. rewrite ?Hmics.
  split; [done|].
  split; [|split; [|split; [|split]]].
  - apply (sink_tracks_frame fs1); [|done].
    rewrite Fc by other_path. rewrite F4 by other_path. rewrite F3 by other_path.
    apply F2. other_path.
  - apply (sink_tracks_frame fs2); [|done].
    rewrite Fc by other_path. rewrite F4 by other_path. apply F3. other_path.
  - apply (sink_tracks_frame fs3); [|done].
    rewrite Fc by other_path. apply F4. other_path.
  - apply (sink_tracks_frame fs4); [|done]. apply Fc. other_path.
  - done.
Qed.

Lemma closing_size_tracks fs dir name bits bytes sink :
  sink_tracks fs dir name bits bytes sink →
  bits = 32 ∨ bits = 16 →
  Z.of_nat (length bytes) < 2 ^ 32 →
  closing_size sink = Z.of_nat (length bytes).
Proof.
  intros (-> & Hmod & _) Hbits Hlen.
  unfold closing_size, to_u64, to_u32, UINT32_MAX.
  cbn [WavSink.sample_count WavSink.bits_per_sample].
  assert (Z.quot bits 8 = bits / 8) as -> by (by destruct Hbits as [->| ->]).
  assert (0 < bits / 8 < 2 ^ 32) as Hsize by (by destruct Hbits as [->| ->]).
  rewrite (Z.mod_small (bits / 8)) by lia.
  assert (Z.of_nat (length bytes) / (bits / 8) * (bits / 8) = Z.of_nat (length bytes)) as ->.
  { pose proof (Z.div_mod (Z.of_nat (length bytes)) (bits / 8) ltac:(lia)). lia. }
  rewrite Z.mod_small by lia. lia.
Qed.

Lemma CloseWavSink_obliging fs dir name bits bytes sink h :
  sink_tracks fs dir name bits bytes sink →
  bits = 32 ∨ bits = 16 →
  Z.of_nat (length bytes) < 2 ^ 32 →
  CloseWavSink io sink fs h
  = (WavSink.mk None (wav_path dir name) bits (WavSink.sample_count sink),
     <[wav_path dir name
       := (wav_header 16000 bits (Z.of_nat (length bytes)) ++ bytes, 44%nat)]> fs,
     h ++ [c_fwrite (wav_path dir name) 1 44; c_fclose (wav_path dir name)]).
Proof.
  intros Htracks Hbits Hlen.
  pose proof (closing_size_tracks fs dir name bits bytes sink Htracks Hbits Hlen) as Hsize.
  destruct Htracks as (Hsink & Hmod & Hfile). destruct Hio as [_ Hwrite].
  rewrite (CloseWavSink_open io sink (wav_path dir name) fs h _ _) by (by subst sink).
  rewrite Hwrite, Hsize. subst sink. cbn [WavSink.path WavSink.bits_per_sample].
  change (Z.to_nat (Z.max 0 (Z.min 44 44))) with 44%nat.
  rewrite take_ge by (rewrite wav_header_length; lia).
  unfold poke. rewrite wav_header_length. cbn [take Nat.add app].
  rewrite drop_app_length'; [done|by rewrite wav_header_length].
Qed.

(** [StopAudioRecordingLocked] on a recorder that tracks its payloads. *)
Lemma Stop_tracking dir m1 m2 m3 m4 c st h :
  tracking dir m1 m2 m3 m4 c st →
  Z.of_nat (length m1) < 2 ^ 32 → Z.of_nat (length m2) < 2 ^ 32 →
  Z.of_nat (length m3) < 2 ^ 32 → Z.of_nat (length m4) < 2 ^ 32 →
  Z.of_nat (length c) < 2 ^ 32 →
  ∃ st' h',
    StopAudioRecordingLocked io st h = (st', h')
    ∧ g_audio_recording st' = false
    ∧ files st' !! wav_path dir "mic1.wav"
      = Some (wav_header 16000 32 (Z.of_nat (length m1)) ++ m1, 44%nat)
    ∧ files st' !! wav_path dir "mic2.wav"
      = Some (wav_header 16000 32 (Z.of_nat (length m2)) ++ m2, 44%nat)
    ∧ files st' !! wav_path dir "mic3.wav"
      = Some (wav_header 16000 32 (Z.of_nat (length m3)) ++ m3, 44%nat)
    ∧ files st' !! wav_path dir "mic4.wav"
      = Some (wav_header 16000 32 (Z.of_nat (length m4)) ++ m4, 44%nat)
    ∧ files st' !! wav_path dir "cancelled.wav"
      = Some (wav_header 16000 16 (Z.of_nat (length c)) ++ c, 44%nat).
Proof.
  intros (Hrec & Havail & s1 & s2 & s3 & s4 & Hmics & T1 & T2 & T3 & T4 & Tc).
  intros B1 B2 B3 B4 Bc.
  unfold StopAudioRecordingLocked, bind, ret. rewrite Hmics.
  cbn [length close_mics]. unfold bind, ret.
  rewrite Hmics. cbn [lookup list_lookup].
  rewrite (CloseWavSink_obliging (files st) dir "mic1.wav" 32 m1 s1 h T1) by (auto; lia).
  cbv beta iota. cbn [files set_files set_mic g_mic_wavs]. rewrite ?Hmics.
  cbn [insert list_insert lookup list_lookup].
  rewrite (CloseWavSink_obliging _ dir "mic2.wav" 32 m2 s2)
    by (first [apply sink_tracks_other; [other_path|done] | auto; lia]).
  cbv beta iota. cbn [files set_files set_mic g_mic_wavs]. rewrite ?Hmics.
  cbn [insert list_insert lookup list_lookup].
  rewrite (CloseWavSink_obliging _ dir "mic3.wav" 32 m3 s3)
    by (first [do 2 (apply sink_tracks_other; [other_path|]); done | auto; lia]).
  cbv beta iota. cbn [files set_files set_mic g_mic_wavs]. rewrite ?Hmics.
  cbn [insert list_insert lookup list_lookup].
  rewrite (CloseWavSink_obliging _ dir "mic4.wav" 32 m4 s4)
    by (first [do 3 (apply sink_tracks_other; [other_path|]); done | auto; lia]).
  cbv beta iota. cbn [files set_files set_mic g_mic_wavs g_cancelled_wav]. rewrite ?Hmics.
  cbn [insert list_insert lookup list_lookup].
  rewrite (CloseWavSink_obliging _ dir "cancelled.wav" 16 c (g_cancelled_wav st))
    by (first [do 4 (apply sink_tracks_other; [other_path|]); done | auto; lia]).
  cbv beta iota. eexists _, _. split; [reflexivity|]. split; [done|].
  cbn [files set_files set_recording set_cancelled set_mic].
  split; [|split; [|split; [|split]]].
  - rewrite !lookup_insert_ne by other_path. apply lookup_insert_eq.
  - rewrite !lookup_insert_ne by other_path. apply lookup_insert_eq.
  - rewrite !lookup_insert_ne by other_path. apply lookup_insert_eq.
  - rewrite !lookup_insert_ne by other_path. apply lookup_insert_eq.
  - apply lookup_insert_eq.
Qed.
End RecordingRun.

Section RecordingSession.
Import Recorder RecorderSpec.
Variable io : Stdio.
Hypothesis Hio : obliging io.

Lemma run_app st a b h :
  run io st (a ++ b) h = let '(st1, h1) := run io st a h in run io st1 b h1.
Proof.
  revert st h. induction a as [|e a IH]; intros st h; simpl; [done|].
  unfold bind. destruct (step io st e h) as [st1 h1]. apply IH.
Qed.

Lemma run_blocks_tracking blocks :
  ∀ dir m1 m2 m3 m4 c st h,
    tracking dir m1 m2 m3 m4 c st →
    Forall full_block blocks →
    Z.of_nat (length (m1 ++ payload (mic_bytes 0) blocks)) < 2 ^ 32 →
    Z.of_nat (length (m2 ++ payload (mic_bytes 1) blocks)) < 2 ^ 32 →
    Z.of_nat (length (m3 ++ payload (mic_bytes 2) blocks)) < 2 ^ 32 →
    Z.of_nat (length (m4 ++ payload (mic_bytes 3) blocks)) < 2 ^ 32 →
    Z.of_nat (length (c ++ payload cancelled_bytes blocks)) < 2 ^ 32 →
    ∃ st' h',
      run io st blocks h = (st', h')
      ∧ tracking dir (m1 ++ payload (mic_bytes 0) blocks) (m2 ++ payload (mic_bytes 1) blocks)
          (m3 ++ payload (mic_bytes 2) blocks) (m4 ++ payload (mic_bytes 3) blocks)
          (c ++ payload cancelled_bytes blocks) st'.
Proof.
  induction blocks as [|e blocks IH]; intros dir m1 m2 m3 m4 c st h Ht Hfull B1 B2 B3 B4 Bc.
  { unfold payload. simpl. rewrite !app_nil_r. by eexists _, _. }
  apply Forall_cons in Hfull as [He Hfull].
  destruct e as [|n [d1|] [d2|] [d3|] [d4|] [dc|]]; try done.
  unfold payload in *. cbn [fmap list_fmap concat mic_bytes cancelled_bytes default id] in *.
  rewrite !length_app in B1, B2, B3, B4, Bc.
  destruct (block_tracking io Hio dir m1 m2 m3 m4 c st h n d1 d2 d3 d4 dc Ht He)
    as (st1 & h1 & Hstep & Ht1); [rewrite length_app; lia..|].
  cbn [run step]. unfold bind. rewrite Hstep.
  destruct (IH dir (m1 ++ d1) (m2 ++ d2) (m3 ++ d3) (m4 ++ d4) (c ++ dc) st1 h1 Ht1 Hfull)
    as (st2 & h2 & Hrun & Ht2); [rewrite !length_app; lia..|].
  exists st2, h2. split; [done|]. by rewrite <- !app_assoc in Ht2.
Qed.
End RecordingSession.

(** X16.  A recording made with a C library that opens every file and stores
    every byte is a set of well-formed WAV files.  The key [a], then blocks of
    samples on all five channels, then the key [a] again leave the recorder
    not recording, and in the directory named after the time of the first key
    each of the files [mic1.wav] to [mic4.wav] and [cancelled.wav] holds a
    44-byte header followed by exactly the bytes of its channel, in the order
    they came, with the length of that payload as the data size of the header
    (32-bit samples at 16 kHz for the microphones, 16-bit for the cancelled
    channel), as long as each payload is shorter than [2^32] bytes. *)
Theorem X16_recorded_files_are_well_formed
    (io : Recorder.Stdio) (blocks : list RecorderSpec.Event) (h : list Recorder.Call) :
  RecorderSpec.obliging io →
  Forall RecorderSpec.full_block blocks →
  (∀ i, Z.of_nat (length (RecorderSpec.payload (RecorderSpec.mic_bytes i) blocks)) < 2 ^ 32) →
  Z.of_nat (length (RecorderSpec.payload RecorderSpec.cancelled_bytes blocks)) < 2 ^ 32 →
  let st :=
    fst (RecorderSpec.run io (RecorderSpec.ready true)
           (RecorderSpec.Toggle :: blocks ++ [RecorderSpec.Toggle]) h) in
  let dir := "captures/audio/" +:+ Recorder.TimestampNow_answer io h in
  Recorder.g_audio_recording st = false
  ∧ (∀ i, (i < 4)%nat →
          let bytes := RecorderSpec.payload (RecorderSpec.mic_bytes i) blocks in
          Recorder.files st !! RecorderSpec.wav_path dir (RecorderSpec.mic_name i)
          = Some (RecorderSpec.wav_header 16000 32 (Z.of_nat (length bytes)) ++ bytes, 44%nat))
  ∧ (let bytes := RecorderSpec.payload RecorderSpec.cancelled_bytes blocks in
     Recorder.files st !! RecorderSpec.wav_path dir "cancelled.wav"
     = Some (RecorderSpec.wav_header 16000 16 (Z.of_nat (length bytes)) ++ bytes, 44%nat)).
Proof.
  intros Hio Hfull Hmics Hcancelled st dir.
  destruct (Start_tracking io Hio (RecorderSpec.ready true) h
              Recorder.WavSink.init Recorder.WavSink.init Recorder.WavSink.init
              Recorder.WavSink.init eq_refl eq_refl) as (st1 & h1 & Hstart & Ht1).
  fold dir in Ht1.
  destruct (run_blocks_tracking io Hio blocks dir [] [] [] [] [] st1 h1 Ht1 Hfull)
    as (st2 & h2 & Hrun & Ht2); [by apply Hmics..|done|].
  simpl app in Ht2.
  destruct (Stop_tracking io Hio dir _ _ _ _ _ st2 h2 Ht2)
    as (st3 & h3 & Hstop & Hrec & F1 & F2 & F3 & F4 & Fc); [by apply Hmics..|done|].
  assert (st = Recorder.SetStatus "Audio recording stopped." st3) as ->.
  { unfold st. cbn [RecorderSpec.run RecorderSpec.step]. unfold bind at 1.
    unfold Recorder.ToggleAudioRecording at 1. cbn [RecorderSpec.ready
      Recorder.g_audio_stream_available Recorder.g_audio_recording negb].
    unfold bind at 1. change (Recorder.StartAudioRecordingLocked io _ h)
      with (Recorder.StartAudioRecordingLocked io (RecorderSpec.ready true) h).
    rewrite Hstart. unfold ret at 1. cbv beta iota.
    rewrite run_app, Hrun. cbn [RecorderSpec.run RecorderSpec.step]. unfold bind, ret.
    unfold Recorder.ToggleAudioRecording, bind, ret.
    destruct Ht2 as (Hrec2 & Havail2 & _). rewrite Havail2, Hrec2. cbn [negb].
    by rewrite Hstop. }
  split; [done|]. split; [|done].
  intros i Hi bytes. destruct i as [|[|[|[|i]]]]; [done..|lia].
Qed.

Lemma X16_recorded_files_are_well_formed_witness :
  let io :=
    {| Recorder.TimestampNow_answer := λ _, "20240101-120000";
       Recorder.fopen_answer := λ _ _, true;
       Recorder.fwrite_answer := λ _ _ _ count, count |} in
  let block :=
    RecorderSpec.Samples 1 (Some [1; 0; 0; 0]) (Some [2; 0; 0; 0]) (Some [3; 0; 0; 0])
      (Some [4; 0; 0; 0]) (Some [5; 0]) in
  let st :=
    fst (RecorderSpec.run io (RecorderSpec.ready true)
           [RecorderSpec.Toggle; block; block; RecorderSpec.Toggle] []) in
  Recorder.files st !! "captures/audio/20240101-120000/cancelled.wav"
  = Some (RecorderSpec.wav_header 16000 16 4 ++ [5; 0; 5; 0], 44%nat).
Proof.
  intros io block st.
  destruct (X16_recorded_files_are_well_formed io [block; block] []) as (_ & _ & Hc).
  - split; reflexivity.
  - repeat constructor; cbn; lia.
  - intros i. destruct i as [|[|[|i]]]; cbn; lia.
  - cbn; lia.
  - exact Hc.
Defined.

(** ** The stream control of the virtual camera *)

Section StreamControl.
Import DAL DALStream DALStreamSpec.
Context {A : Type}.
Implicit Types p : Plugin A.

Local Ltac fields :=
  unfold kept, accounted, created, queued in *;
  cbn [gPlugInRef gDeviceObjectID gStreamObjectID gRunningClients gProducerRunning
       gProducerThread gFrameCounter queue taken effects effect set_thread set_running
       set_counter set_clients set_queue set_taken set_ids
       gSampleQueue gQueueAlteredProc released announced elements capacity] in *;
  rewrite ?omap_app; cbn [omap list_omap]; rewrite ?app_nil_r.

Local Ltac settle H5 H8 H9 :=
  repeat split; try done; try lia;
  try (intros ? [= <-]; by apply (H5 _ eq_refl));
  try (etrans; [|exact H9]; by apply sublist_inserts_r);
  try (rewrite H8; by rewrite ?app_nil_r).

Lemma kept_mono n m p : n ≤ m → kept n p → kept m p.
Proof. intros Hnm (H1 & H). split; [lia|done]. Qed.

Lemma flush_all (fuel : nat) :
  ∀ (q : CMSimpleQueue A) (rel : list A),
    (length (elements q) < fuel)%nat →
    flush fuel q rel = ({| capacity := capacity q; elements := [] |}, rel ++ elements q).
Proof.
  induction fuel as [|fuel IH]; intros [cap els] rel Hfuel; [lia|].
  cbn [flush]. unfold CMSimpleQueueGetCount, CMSimpleQueueDequeue.
  cbn [elements capacity] in *. destruct els as [|oldest rest].
  - by rewrite app_nil_r.
  - cbn [length] in *.
    replace (0 <? Z.of_nat (S (length rest))) with true by (symmetry; apply Z.ltb_lt; lia).
    rewrite IH by (cbn [elements]; lia). cbn [elements capacity].
    by rewrite <- app_assoc.
Qed.

Lemma FlushQueueLocked_all (st : State A) (q : CMSimpleQueue A) :
  gSampleQueue st = Some q →
  FlushQueueLocked st
  = {| gSampleQueue := Some {| capacity := capacity q; elements := [] |};
       gQueueAlteredProc := gQueueAlteredProc st;
       released := released st ++ elements q; announced := announced st |}.
Proof. intros Hq. unfold FlushQueueLocked. rewrite Hq. by rewrite flush_all by lia. Qed.

Lemma FlushQueueLocked_none (st : State A) :
  gSampleQueue st = None → FlushQueueLocked st = st.
Proof. intros Hq. unfold FlushQueueLocked. by rewrite Hq. Qed.

Lemma kept_notify n p : kept n p → kept n (NotifyDeviceRunningChanged p).
Proof.
  unfold NotifyDeviceRunningChanged. destruct (_ || _); [done|].
  intros (H1 & H2 & H3 & H4 & H5 & H6 & H7 & H8 & H9). fields. done.
Qed.

Lemma clients_notify p :
  gRunningClients (NotifyDeviceRunningChanged p) = gRunningClients p.
Proof. unfold NotifyDeviceRunningChanged. by destruct (_ || _). Qed.

Lemma Start_kept n p :
  n + 1 < 2 ^ 32 → kept n p →
  ∃ p', StartProducingIfNeeded p = Some p'
        ∧ gRunningClients p' = gRunningClients p + 1 ∧ kept (n + 1) p'.
Proof.
  intros Hn (H1 & H2 & H3 & H4 & H5 & H6 & H7 & H8 & H9).
  unfold StartProducingIfNeeded, to_u32.
  rewrite (Z.mod_small (gRunningClients p + 1)) by lia.
  destruct (Z.eqb_spec (gRunningClients p) 0) as [Hzero|Hsome]; cbn [negb].
  - cbn [gProducerThread set_running effect set_counter set_clients].
    rewrite H4, Hzero. cbn [Z.ltb Z.compare]. eexists. split; [done|].
    rewrite clients_notify. split; [done|]. apply kept_notify.
    specialize (H7 Hzero). fields. repeat split; try done; try lia.
  - eexists. split; [done|]. rewrite clients_notify. split; [done|].
    apply kept_notify. fields. rewrite H3, H4.
    replace (0 <? gRunningClients p) with true by (symmetry; apply Z.ltb_lt; lia).
    replace (0 <? gRunningClients p + 1) with true by (symmetry; apply Z.ltb_lt; lia).
    repeat split; try done; try lia.
Qed.

Lemma Stop_kept n p :
  0 < gRunningClients p → kept n p →
  gRunningClients (StopProducingIfNeeded p) = gRunningClients p - 1
  ∧ kept n (StopProducingIfNeeded p).
Proof.
  intros Hpos (H1 & H2 & H3 & H4 & H5 & H6 & H7 & (H8 & H9)).
  unfold StopProducingIfNeeded, to_u32.
  rewrite (Z.mod_small (gRunningClients p - 1)) by lia.
  destruct (Z.ltb_spec 1 (gRunningClients p)) as [Hmore|Hlast].
  - rewrite clients_notify. split; [done|]. apply kept_notify. fields.
    rewrite H3, H4.
    replace (0 <? gRunningClients p) with true by (symmetry; apply Z.ltb_lt; lia).
    replace (0 <? gRunningClients p - 1) with true by (symmetry; apply Z.ltb_lt; lia).
    repeat split; try done; try lia.
  - assert (gRunningClients p = 1) as Hone by lia.
    unfold join. cbn [gProducerThread set_running set_clients]. rewrite H4, Hone.
    cbn [Z.ltb Z.compare].
    rewrite clients_notify. split; [done|]. apply kept_notify.
    destruct (gSampleQueue (queue p)) as [q|] eqn:Hq.
    + fields. rewrite (FlushQueueLocked_all _ q) by done. fields. rewrite Hq in *.
      settle H5 H8 H9.
    + fields. rewrite FlushQueueLocked_none by done. rewrite Hq in *. settle H5 H8 H9.
Qed.

Lemma suspend_kept n (fuel : nat) :
  ∀ p, gRunningClients p ≤ Z.of_nat fuel → kept n p →
       gRunningClients (suspend fuel p) = 0 ∧ kept n (suspend fuel p).
Proof.
  induction fuel as [|fuel IH]; intros p Hfuel Hp.
  - cbn [suspend]. pose proof Hp as (H1 & _). split; [lia|done].
  - cbn [suspend]. destruct (Z.ltb_spec 0 (gRunningClients p)) as [Hpos|Hzero].
    + destruct (Stop_kept n p Hpos Hp) as [Hless Hkept]. apply IH; [lia|done].
    + pose proof Hp as (H1 & _). split; [lia|done].
Qed.

Lemma Teardown_kept n p : 0 ≤ n → kept n p → kept n (TeardownObjects p).
Proof.
  intros Hn (H1 & H2 & H3 & H4 & H5 & H6 & H7 & (H8 & H9)).
  unfold TeardownObjects, join. cbn [gProducerThread set_running].
  destruct (gSampleQueue (queue p)) as [q|] eqn:Hq.
  - destruct (gProducerThread p) eqn:Hthread; fields;
      rewrite (FlushQueueLocked_all _ q) by done;
      fields; rewrite Hq in *; settle H5 H8 H9.
  - destruct (gProducerThread p) eqn:Hthread; fields;
      rewrite FlushQueueLocked_none by done;
      fields; rewrite Hq in *; settle H5 H8 H9.
Qed.

Lemma round_kept n p (sample : option A) : kept n p → kept n (producer_round sample p).
Proof.
  intros Hp. pose proof Hp as (H1 & H2 & H3 & H4 & H5 & H6 & H7 & (H8 & H9)).
  unfold producer_round. rewrite H3, H4.
  destruct (decide (0 < gRunningClients p)) as [Hpos|Hzero].
  2: { by replace (0 <? gRunningClients p) with false by (symmetry; apply Z.ltb_ge; lia). }
  replace (0 <? gRunningClients p) with true by (symmetry; apply Z.ltb_lt; lia).
  cbn [andb negb]. clear Hp H7.
  destruct sample as [s|]; [|fields; repeat split; try done; lia].
  destruct (gSampleQueue (queue p)) as [q|] eqn:Hq.
  - fields.
    rewrite (produce_on_bounded_queue _ q s) by (fields; rewrite ?Hq in *; auto).
    fields. rewrite Hq in *.
    unfold CMSimpleQueueGetCount, kQueueCapacity in *.
    destruct (decide (Z.of_nat (length (elements q)) = 8)) as [Hfull|Hroom].
    + rewrite bool_decide_eq_true_2 by done.
      destruct (elements q) as [|oldest rest] eqn:Hels; [simpl in Hfull; lia|].
      cbn [drop take length] in *. rewrite drop_0, take_0.
      split; [done|]. split; [done|]. split; [done|]. split; [done|].
      split; [by intros ? [= <-]|].
      split; [rewrite length_app; cbn [length]; lia|].
      split; [intros ?; lia|]. split.
      * rewrite H8. rewrite !app_assoc. apply Permutation_app_tail.
        rewrite <- !app_assoc. apply Permutation_app_head. cbn [app].
        by rewrite <- Permutation_middle.
      * rewrite app_assoc. apply sublist_app; [|done].
        etrans; [|exact H9]. apply sublist_app; [done|]. by apply sublist_cons.
    + rewrite bool_decide_eq_false_2 by done. rewrite app_nil_r.
      split; [done|]. split; [done|]. split; [done|]. split; [done|].
      split; [by intros ? [= <-]|].
      split; [rewrite length_app; cbn [length]; lia|].
      split; [intros ?; lia|]. split.
      * rewrite H8. by rewrite !app_assoc.
      * rewrite app_assoc. by apply sublist_app.
  - unfold produce. fields. rewrite Hq in *. fields.
    split; [done|]. split; [done|]. split; [done|]. split; [done|].
    split; [done|]. split; [done|]. split; [done|]. split.
    + rewrite H8. rewrite !app_nil_r. by rewrite app_assoc.
    + rewrite app_nil_r in *. by apply sublist_inserts_r.
Qed.

Lemma host_dequeue_kept n p : kept n p → kept n (host_dequeue p).
Proof.
  intros Hp. pose proof Hp as (H1 & H2 & H3 & H4 & H5 & H6 & H7 & (H8 & H9)).
  unfold host_dequeue. destruct (gSampleQueue (queue p)) as [q|] eqn:Hq; [|done].
  unfold CMSimpleQueueDequeue. destruct q as [cap [|oldest rest]].
  - clear Hp. fields. rewrite Hq in *. fields.
    rewrite app_nil_r in H8, H9. repeat split; try done; lia.
  - clear Hp. fields. rewrite Hq in *. fields.
    split; [done|]. split; [done|]. split; [done|]. split; [done|].
    split; [intros ? [= <-]; by apply (H5 _ eq_refl)|].
    split; [cbn [length] in H6; lia|].
    split; [intros Hzero; by specialize (H7 Hzero)|]. split.
    + rewrite H8. rewrite <- !app_assoc. apply Permutation_app_head. cbn [app].
      by rewrite <- Permutation_middle.
    + by rewrite <- app_assoc.
Qed.

Lemma CopyBufferQueue_kept n p stream_id proc queue_out made :
  kept n p →
  kept n (snd (fst (PlugInStreamCopyBufferQueue stream_id proc queue_out made p))).
Proof.
  intros Hp. pose proof Hp as (H1 & H2 & H3 & H4 & H5 & H6 & H7 & (H8 & H9)).
  unfold PlugInStreamCopyBufferQueue.
  destruct queue_out; cbn [negb]; [|done].
  destruct (negb (stream_id =? gStreamObjectID p)); [done|].
  destruct (gSampleQueue (queue p)) as [q|] eqn:Hq.
  - clear Hp. fields. rewrite Hq in *.
    split; [done|]. split; [done|]. split; [done|]. split; [done|].
    split; [intros ? [= <-]; by apply (H5 _ eq_refl)|]. done.
  - destruct made; [|exact Hp]. clear Hp. fields. rewrite Hq in *.
    unfold CMSimpleQueueCreate. cbn [elements capacity length]. rewrite ?app_nil_r in *.
    split; [done|]. split; [done|]. split; [done|]. split; [done|].
    split; [by intros ? [= <-]|]. split; [done|]. done.
Qed.

Lemma step_kept n p (e : Event A) :
  n + 1 < 2 ^ 32 → kept n p → ∃ p', step p e = Some p' ∧ kept (n + 1) p'.
Proof.
  intros Hn Hp. pose proof Hp as (H1 & _).
  destruct e as [device_id stream_id|device_id stream_id|device_id|device_id
                 |stream_id proc queue_out made| |sample|]; cbn [step].
  - unfold PlugInDeviceStartStream.
    destruct (negb (device_id =? _)); [eexists; split; [done|]; apply (kept_mono n); [lia|done]|].
    destruct (negb (stream_id =? _)); [eexists; split; [done|]; apply (kept_mono n); [lia|done]|].
    destruct (Start_kept n p Hn Hp) as (p' & -> & _ & Hp'). by exists p'.
  - eexists. split; [done|]. apply (kept_mono n); [lia|].
    unfold PlugInDeviceStopStream.
    destruct (negb (device_id =? _)); [done|].
    destruct (negb (stream_id =? _)); [done|]. cbn [snd].
    destruct (Z.ltb_spec 0 (gRunningClients p)); [by apply Stop_kept|done].
  - eexists. split; [done|]. apply (kept_mono n); [lia|].
    unfold PlugInDeviceSuspend. destruct (negb (device_id =? _)); [done|]. cbn [snd].
    apply suspend_kept; [lia|done].
  - eexists. split; [done|]. apply (kept_mono n); [lia|].
    unfold PlugInDeviceResume. by destruct (negb (device_id =? _)).
  - eexists. split; [done|]. apply (kept_mono n); [lia|]. by apply CopyBufferQueue_kept.
  - eexists. split; [done|]. apply (kept_mono n); [lia|].
    unfold PlugInTeardown. cbn [snd].
    pose proof (Teardown_kept n p ltac:(lia) Hp) as Ht. revert Ht.
    generalize (TeardownObjects p). intros p' (K1 & K2 & K3 & K4 & K5 & K6 & K7 & K8 & K9).
    fields. done.
  - eexists. split; [done|]. apply (kept_mono n); [lia|]. by apply round_kept.
  - eexists. split; [done|]. apply (kept_mono n); [lia|]. by apply host_dequeue_kept.
Qed.

Lemma run_kept (events : list (Event A)) :
  ∀ n p, n + Z.of_nat (length events) < 2 ^ 32 → kept n p →
         ∃ p', run p events = Some p' ∧ kept (n + Z.of_nat (length events)) p'.
Proof.
  induction events as [|e events IH]; intros n p Hn Hp.
  - exists p. split; [done|]. eapply kept_mono; [|done]. simpl. lia.
  - cbn [length] in *. destruct (step_kept n p e ltac:(lia) Hp) as (p1 & Hstep & Hp1).
    destruct (IH (n + 1) p1 ltac:(lia) Hp1) as (p2 & Hrun & Hp2).
    exists p2. cbn [run]. rewrite Hstep. cbn. split; [done|].
    eapply kept_mono; [|done]. lia.
Qed.

Lemma idle_kept p : idle p → kept 0 p.
Proof.
  intros (H1 & H2 & H3 & H4 & H5 & H6 & H7). fields.
  rewrite H1, H2, H3, H4, H5, H6, H7. cbn. repeat split; try done.
Qed.
Lemma kept_steady n p : kept n p → steady p.
Proof. intros (H1 & H2 & H3 & H4 & H5 & H6 & H7 & _). repeat split; try done; lia. Qed.
End StreamControl.

(** X17.  From the plugin at rest, over every run of fewer than [2^32] calls
    of the host (start, stop, suspend, resume, obtaining the queue, teardown,
    with any identifiers), rounds of the producer and samples taken by the
    host, the plugin never assigns over a joinable thread, the producer runs
    and its thread exists exactly while the client count is positive, the
    count never wraps, and the queue has capacity 8, holds at most 8 samples
    and is empty while there is no client.  A stop with no client changes
    nothing, and a suspend leaves no client, no producer and an empty
    queue. *)
Theorem X17_producer_runs_while_clients
    (A : Type) (p0 : DALStream.Plugin A) (events : list (DALStream.Event A)) :
  DALStreamSpec.idle p0 →
  Z.of_nat (length events) < 2 ^ 32 →
  ∃ p,
    DALStream.run p0 events = Some p
    ∧ DALStreamSpec.steady p
    ∧ (DALStream.gRunningClients p = 0 →
       ∀ device_id stream_id,
         snd (DALStream.PlugInDeviceStopStream device_id stream_id p) = p)
    ∧ (let p' := snd (DALStream.PlugInDeviceSuspend (DALStream.gDeviceObjectID p) p) in
       DALStream.gRunningClients p' = 0
       ∧ DALStream.gProducerRunning p' = false
       ∧ DALStreamSpec.queued p' = []
       ∧ DALStreamSpec.steady p').
Proof.
  intros Hidle Hlen.
  destruct (run_kept events 0 p0 ltac:(lia) (idle_kept p0 Hidle)) as (p & Hrun & Hp).
  exists p. split; [done|]. split; [by eapply kept_steady|]. split.
  - intros Hzero device_id stream_id. unfold DALStream.PlugInDeviceStopStream.
    destruct (negb (device_id =? _)); [done|]. destruct (negb (stream_id =? _)); [done|].
    by rewrite Hzero.
  - unfold DALStream.PlugInDeviceSuspend. rewrite Z.eqb_refl. cbn [negb snd].
    pose proof Hp as (H1 & _).
    destruct (suspend_kept _ (Z.to_nat (DALStream.gRunningClients p)) p ltac:(lia) Hp)
      as [Hzero Hkept].
    pose proof (kept_steady _ _ Hkept) as Hsteady.
    pose proof Hsteady as (_ & H3 & _ & _ & _ & H7).
    rewrite Hzero in H3. auto.
Qed.

Lemma X17_producer_runs_while_clients_witness :
  ∃ p,
    DALStream.run (DALStream.initialized 7 8)
      [DALStream.CopyBufferQueue 8 true true true; DALStream.StartStream 7 8;
       DALStream.Round (Some 1%nat); DALStream.StartStream 7 8; DALStream.StopStream 7 8;
       DALStream.Round (Some 2%nat); DALStream.HostDequeue; DALStream.Suspend 7]
    = Some p
    ∧ DALStreamSpec.steady p.
Proof.
  destruct (X17_producer_runs_while_clients nat (DALStream.initialized 7 8)
              [DALStream.CopyBufferQueue 8 true true true; DALStream.StartStream 7 8;
               DALStream.Round (Some 1%nat); DALStream.StartStream 7 8;
               DALStream.StopStream 7 8; DALStream.Round (Some 2%nat);
               DALStream.HostDequeue; DALStream.Suspend 7])
    as (p & Hrun & Hsteady & _).
  - repeat split; reflexivity.
  - vm_compute. reflexivity.
  - exists p. split; [exact Hrun|exact Hsteady].
Defined.

(** X18.  Over the same runs no sample is lost and none is released twice:
    the samples that [CreateSampleBuffer] returned are, counted with
    multiplicity, those the host took, those handed to [CFRelease] and those
    still in the queue; and the samples the host took followed by the queued
    ones appear in the order of their creation. *)
Theorem X18_samples_are_accounted_for
    (A : Type) (p0 : DALStream.Plugin A) (events : list (DALStream.Event A)) :
  DALStreamSpec.idle p0 →
  Z.of_nat (length events) < 2 ^ 32 →
  ∃ p,
    DALStream.run p0 events = Some p
    ∧ DALStreamSpec.created p
      ≡ₚ DALStream.taken p ++ DAL.released (DALStream.queue p) ++ DALStreamSpec.queued p
    ∧ sublist (DALStream.taken p ++ DALStreamSpec.queued p) (DALStreamSpec.created p).
Proof.
  intros Hidle Hlen.
  destruct (run_kept events 0 p0 ltac:(lia) (idle_kept p0 Hidle)) as (p & Hrun & Hp).
  exists p. split; [done|]. by destruct Hp as (_ & _ & _ & _ & _ & _ & _ & Hacc).
Qed.

Lemma X18_samples_are_accounted_for_witness :
  ∃ p,
    DALStream.run DALStream.loaded
      ([DALStream.CopyBufferQueue 0 true true true; DALStream.StartStream 0 0]
         ++ ((λ i, DALStream.Round (Some i)) <$> seq 0 10)
         ++ [DALStream.HostDequeue; DALStream.StopStream 0 0])
    = Some p
    ∧ DALStreamSpec.created p
      ≡ₚ DALStream.taken p ++ DAL.released (DALStream.queue p) ++ DALStreamSpec.queued p.
Proof.
  destruct (X18_samples_are_accounted_for nat DALStream.loaded
              ([DALStream.CopyBufferQueue 0 true true true; DALStream.StartStream 0 0]
                 ++ ((λ i, DALStream.Round (Some i)) <$> seq 0 10)
                 ++ [DALStream.HostDequeue; DALStream.StopStream 0 0]))
    as (p & Hrun & Hperm & _).
  - repeat split; reflexivity.
  - vm_compute. reflexivity.
  - exists p. split; [exact Hrun|exact Hperm].
Defined.

(** ** The pixel buffers of the virtual camera *)

Section Painting.
Import DALFill DALFillSpec.
Context {I : Type}.
Variable addr : I → Z.
Variable colour : I → option (Z * Z * Z).

Lemma write_bgra_other row b g r m a :
  ¬ (row ≤ a < row + 4) → write_bgra row 0 b g r m !! a = m !! a.
Proof.
  intros Ha. unfold write_bgra.
  rewrite !lookup_insert_ne by lia. done.
Qed.

Lemma write_bgra_here row b g r m :
  write_bgra row 0 b g r m !! row = Some b
  ∧ write_bgra row 0 b g r m !! (row + 1) = Some g
  ∧ write_bgra row 0 b g r m !! (row + 2) = Some r
  ∧ write_bgra row 0 b g r m !! (row + 3) = Some 255.
Proof.
  unfold write_bgra. replace (0 * 4 + 0) with 0 by lia. replace (row + 0) with row by lia.
  repeat split.
  - rewrite !lookup_insert_ne by lia. by rewrite lookup_insert_eq.
  - rewrite !lookup_insert_ne by lia. by rewrite lookup_insert_eq.
  - rewrite !lookup_insert_ne by lia. by rewrite lookup_insert_eq.
  - by rewrite lookup_insert_eq.
Qed.

Lemma paint_all (items : list I) :
  ∀ m,
    (∀ i, i ∈ items → is_Some (colour i)) →
    (∀ i j, i ∈ items → j ∈ items → addr i - 4 < addr j < addr i + 4 → colour i = colour j
                                                                      ∧ addr i = addr j) →
    ∃ m',
      for_each items (paint addr colour) m = Some m'
      ∧ (∀ a, (∀ i, i ∈ items → ¬ (addr i ≤ a < addr i + 4)) → m' !! a = m !! a)
      ∧ (∀ i b g r, i ∈ items → colour i = Some (b, g, r) →
                    m' !! addr i = Some b ∧ m' !! (addr i + 1) = Some g
                    ∧ m' !! (addr i + 2) = Some r ∧ m' !! (addr i + 3) = Some 255).
Proof.
  induction items as [|i items IH]; intros m Hsome Hapart.
  - exists m. split; [done|]. split; [done|]. intros i b g r Hi. by apply elem_of_nil in Hi.
  - destruct (Hsome i ltac:(left)) as [[[b g] r] Hi].
    destruct (IH (write_bgra (addr i) 0 b g r m)) as (m' & Hrun & Hframe & Hpix).
    { intros j Hj. apply Hsome. by right. }
    { intros j k Hj Hk. apply Hapart; by right. }
    exists m'. split; [|split].
    + cbn [for_each].
      assert (paint addr colour i m = Some (write_bgra (addr i) 0 b g r m)) as ->
          by (unfold DALFillSpec.paint; by rewrite Hi).
      exact Hrun.
    + intros a Ha. rewrite Hframe by (intros j Hj; apply Ha; by right).
      apply write_bgra_other. apply Ha. by left.
    + intros j b' g' r' Hj Hcj.
      apply elem_of_cons in Hj as [->|Hj]; [|by eapply Hpix].
      rewrite Hi in Hcj. injection Hcj as <- <- <-.
      destruct (write_bgra_here (addr i) b g r m) as (Wb & Wg & Wr & Wa).
      (* either a later item paints the same pixel, with the same colour, or none does *)
      assert (∀ d v, 0 ≤ d < 4 →
                write_bgra (addr i) 0 b g r m !! (addr i + d) = Some v →
                (∀ k, k ∈ items → addr k = addr i → m' !! (addr i + d) = Some v) →
                m' !! (addr i + d) = Some v) as Hcell.
      { intros d v Hd Hw Hsame.
        destruct (decide (Exists (λ k, addr k - 4 < addr i + d < addr k + 4
                                       ∧ addr k ≤ addr i + d) items))
          as [Hex|Hnone].
        - apply Exists_exists in Hex as (k & Hk & Hnear & Hle).
          apply (Hsame k Hk).
          destruct (Hapart i k ltac:(left) ltac:(by right)) as [_ ?]; lia.
        - rewrite Hframe; [done|]. intros k Hk Hin. apply Hnone.
          apply Exists_exists. exists k. split; [done|]. lia. }
      assert (∀ k, k ∈ items → addr k = addr i → colour k = Some (b, g, r)) as Hcol.
      { intros k Hk Hka. destruct (Hapart i k ltac:(left) ltac:(by right)) as [Hc _]; [lia|].
        by rewrite <- Hc. }
      repeat split.
      * replace (addr i) with (addr i + 0) at 1 by lia. apply Hcell; [lia| |].
        { by replace (addr i + 0) with (addr i) by lia. }
        intros k Hk Hka. replace (addr i + 0) with (addr k) by lia.
        by apply (Hpix k b g r Hk (Hcol k Hk Hka)).
      * apply Hcell; [lia|done|]. intros k Hk Hka. rewrite <- Hka.
        by apply (Hpix k b g r Hk (Hcol k Hk Hka)).
      * apply Hcell; [lia|done|]. intros k Hk Hka. rewrite <- Hka.
        by apply (Hpix k b g r Hk (Hcol k Hk Hka)).
      * apply Hcell; [lia|done|]. intros k Hk Hka. rewrite <- Hka.
        by apply (Hpix k b g r Hk (Hcol k Hk Hka)).
Qed.
End Painting.

Section Filling.
Import DALFill DALFillSpec.

Lemma for_each_app {I : Type} (a b : list I) (body : I → Memory → option Memory) m :
  for_each (a ++ b) body m = for_each a body m ≫= for_each b body.
Proof.
  revert m. induction a as [|i a IH]; intros m; [done|].
  cbn [app for_each]. destruct (body i m) as [m1|]; [|done]. cbn. apply IH.
Qed.

Lemma for_each_ext {I : Type} (items : list I) (f g : I → Memory → option Memory) m :
  (∀ i m, i ∈ items → f i m = g i m) → for_each items f m = for_each items g m.
Proof.
  revert m. induction items as [|i items IH]; intros m Hfg; [done|].
  cbn [for_each]. rewrite (Hfg i m) by left. destruct (g i m) as [m1|]; [|done].
  cbn. apply IH. intros j m2 Hj. apply Hfg. by right.
Qed.

(** Two nested loops are one loop over the pairs, row by row. *)
Lemma for_each_nested {I J : Type} (rows : list I) (columns : list J)
    (body : I → J → Memory → option Memory) m :
  for_each rows (λ y m, for_each columns (body y) m) m
  = for_each (y ← rows; (λ x, (y, x)) <$> columns) (λ i, body i.1 i.2) m.
Proof.
  revert m. induction rows as [|y rows IH]; intros m; [done|].
  cbn [for_each mbind list_bind]. rewrite for_each_app.
  assert (for_each ((λ x, (y, x)) <$> columns) (λ i, body i.1 i.2) m
          = for_each columns (body y) m) as ->.
  { clear IH. revert m. induction columns as [|x columns IHc]; intros m; [done|].
    cbn [fmap list_fmap for_each fst snd]. destruct (body y x m) as [m1|]; [|done].
    cbn. apply IHc. }
  destruct (for_each columns (body y) m) as [m1|]; [|done]. cbn. apply IH.
Qed.

Lemma write_bgra_column row x b g r m :
  write_bgra row x b g r m = write_bgra (row + x * 4) 0 b g r m.
Proof.
  unfold write_bgra.
  replace (row + x * 4 + (0 * 4 + 3)) with (row + (x * 4 + 3)) by lia.
  replace (row + x * 4 + (0 * 4 + 2)) with (row + (x * 4 + 2)) by lia.
  replace (row + x * 4 + (0 * 4 + 1)) with (row + (x * 4 + 1)) by lia.
  by replace (row + x * 4 + (0 * 4 + 0)) with (row + (x * 4 + 0)) by lia.
Qed.

Lemma elem_of_pixels (y x : Z) :
  (y, x) ∈ (y ← seqZ 0 kOutputHeight; (λ x, (y, x)) <$> seqZ 0 kOutputWidth)
  ↔ 0 ≤ y < kOutputHeight ∧ 0 ≤ x < kOutputWidth.
Proof.
  rewrite list_elem_of_bind. split.
  - intros (y' & Hx & Hy). apply list_elem_of_fmap in Hx as (x' & [= -> ->] & Hx).
    apply elem_of_seqZ in Hx, Hy. lia.
  - intros [Hy Hx]. exists y. split; [|apply elem_of_seqZ; lia].
    apply list_elem_of_fmap. exists x. split; [done|]. apply elem_of_seqZ. lia.
Qed.

(** Rows of at least [4 * kOutputWidth] bytes do not overlap. *)
Lemma pixels_apart (bytes_per_row y x y' x' : Z) :
  kOutputWidth * 4 ≤ bytes_per_row →
  0 ≤ y < kOutputHeight → 0 ≤ x < kOutputWidth →
  0 ≤ y' < kOutputHeight → 0 ≤ x' < kOutputWidth →
  y * bytes_per_row + x * 4 - 4 < y' * bytes_per_row + x' * 4
                                < y * bytes_per_row + x * 4 + 4 →
  y = y' ∧ x = x'.
Proof.
  unfold kOutputWidth, kOutputHeight. intros Hrow Hy Hx Hy' Hx' Hnear.
  assert (y = y') as <-; [|lia].
  destruct (Z.lt_trichotomy y y') as [Hlt|[Heq|Hgt]]; [|done|].
  - assert ((y + 1) * bytes_per_row ≤ y' * bytes_per_row) by nia. lia.
  - assert ((y' + 1) * bytes_per_row ≤ y * bytes_per_row) by nia. lia.
Qed.

(** The source pixel of an output pixel lies in the source image. *)
Lemma source_in_range (src_width src_height y x : Z) :
  0 < src_width → 0 < src_height →
  0 ≤ y < kOutputHeight → 0 ≤ x < kOutputWidth →
  let sy := Z.quot (y * src_height) kOutputHeight in
  let sx := Z.quot (x * src_width) kOutputWidth in
  0 ≤ sy < src_height ∧ 0 ≤ sx < src_width
  ∧ 0 ≤ (sy * src_width + sx) * 3
  ∧ (sy * src_width + sx) * 3 + 2 < src_width * src_height * 3.
Proof.
  intros Hw Hh Hy Hx sy sx. unfold kOutputWidth, kOutputHeight in *.
  assert (0 ≤ sy < src_height) as Hsy.
  { subst sy. split; [apply Z.quot_pos; lia|]. apply Z.quot_lt_upper_bound; nia. }
  assert (0 ≤ sx < src_width) as Hsx.
  { subst sx. split; [apply Z.quot_pos; lia|]. apply Z.quot_lt_upper_bound; nia. }
  split; [done|]. split; [done|]. nia.
Qed.
End Filling.

Section FillingPixels.
Import DALFill DALFillSpec.

(** [FillFromRGB] on a source that holds its pixels: every output pixel is
    painted from its source pixel, and nothing else is written. *)
Lemma FillFromRGB_pixels
    (rgb : list Z) (src_width src_height : Z) (base : gmap Z Z)
    (bytes_per_row gFrameCounter : Z) :
  0 < src_width → 0 < src_height →
  src_width * src_height * 3 < 2 ^ 31 →
  src_width * src_height * 3 ≤ Z.of_nat (length rgb) →
  kOutputWidth * 4 ≤ bytes_per_row →
  ∃ out,
    FillFromRGB rgb src_width src_height base bytes_per_row gFrameCounter = Some out
    ∧ (∀ x y,
          0 ≤ x < kOutputWidth → 0 ≤ y < kOutputHeight →
          let sx := x * src_width / kOutputWidth in
          let sy := y * src_height / kOutputHeight in
          ∃ r g b,
            source_byte rgb src_width sx sy 0 = Some r
            ∧ source_byte rgb src_width sx sy 1 = Some g
            ∧ source_byte rgb src_width sx sy 2 = Some b
            ∧ output_byte out bytes_per_row x y 0 = Some b
            ∧ output_byte out bytes_per_row x y 1 = Some g
            ∧ output_byte out bytes_per_row x y 2 = Some r
            ∧ output_byte out bytes_per_row x y 3 = Some 255)
    ∧ (∀ offset, ¬ in_frame bytes_per_row offset → out !! offset = base !! offset).
Proof.
  intros Hw Hh Hint Hlen Hrow.
  set (addr := λ i : Z * Z, i.1 * bytes_per_row + i.2 * 4).
  set (colour := λ i : Z * Z,
         let sy := Z.quot (i.1 * src_height) kOutputHeight in
         let sx := Z.quot (i.2 * src_width) kOutputWidth in
         let si := (sy * src_width + sx) * 3 in
         b ← rgb !! Z.to_nat (si + 2);
         g ← rgb !! Z.to_nat (si + 1);
         r ← rgb !! Z.to_nat (si + 0);
         Some (b, g, r)).
  set (items := y ← seqZ 0 kOutputHeight; (λ x, (y, x)) <$> seqZ 0 kOutputWidth).
  assert (∀ y x, (y, x) ∈ items →
            ∃ r g b,
              source_byte rgb src_width (x * src_width / kOutputWidth)
                (y * src_height / kOutputHeight) 0 = Some r
              ∧ source_byte rgb src_width (x * src_width / kOutputWidth)
                  (y * src_height / kOutputHeight) 1 = Some g
              ∧ source_byte rgb src_width (x * src_width / kOutputWidth)
                  (y * src_height / kOutputHeight) 2 = Some b
              ∧ colour (y, x) = Some (b, g, r)) as Hsource.
  { intros y x [Hy Hx]%elem_of_pixels.
    destruct (source_in_range src_width src_height y x Hw Hh Hy Hx) as (_ & _ & Hlo & Hhi).
    unfold source_byte, colour. cbn [fst snd].
    rewrite <- !Z.quot_div_nonneg by (unfold kOutputWidth, kOutputHeight; lia).
    cbv zeta in Hlo, Hhi |- *.
    set (si := (_ * src_width + _) * 3) in *.
    destruct (lookup_lt_is_Some_2 rgb (Z.to_nat (si + 0)) ltac:(lia)) as [r Hr].
    destruct (lookup_lt_is_Some_2 rgb (Z.to_nat (si + 1)) ltac:(lia)) as [g Hg].
    destruct (lookup_lt_is_Some_2 rgb (Z.to_nat (si + 2)) ltac:(lia)) as [b Hb].
    exists r, g, b. rewrite Hr, Hg, Hb. done. }
  destruct (paint_all addr colour items base) as (out & Hrun & Hframe & Hpix).
  { intros [y x] Hi. destruct (Hsource y x Hi) as (r & g & b & _ & _ & _ & ->). by eexists. }
  { intros [y x] [y' x'] [Hy Hx]%elem_of_pixels [Hy' Hx']%elem_of_pixels Hnear.
    unfold addr in Hnear. cbn [fst snd] in Hnear.
    destruct (pixels_apart bytes_per_row y x y' x') as [-> ->]; done. }
  exists out. split; [|split].
  - unfold FillFromRGB.
    replace (src_width <=? 0) with false by (symmetry; apply Z.leb_gt; lia).
    replace (src_height <=? 0) with false by (symmetry; apply Z.leb_gt; lia).
    unfold to_u64 at 1. rewrite (Z.mod_small (src_width * src_height * 3)) by lia.
    replace (Z.of_nat (length rgb) <? _) with false by (symmetry; apply Z.ltb_ge; lia).
    cbn [orb]. rewrite for_each_nested. fold items. rewrite <- Hrun.
    apply for_each_ext. intros [y x] m [Hy Hx]%elem_of_pixels.
    destruct (source_in_range src_width src_height y x Hw Hh Hy Hx) as (_ & _ & Hlo & Hhi).
    unfold paint, colour, addr. cbn [fst snd]. cbv zeta in Hlo, Hhi |- *.
    set (si := (_ * src_width + _) * 3) in *.
    unfold to_u64. rewrite (Z.mod_small si) by lia.
    unfold at_index.
    replace (si + 2 <? 0) with false by (symmetry; apply Z.ltb_ge; lia).
    replace (si + 1 <? 0) with false by (symmetry; apply Z.ltb_ge; lia).
    replace (si + 0 <? 0) with false by (symmetry; apply Z.ltb_ge; lia).
    destruct (rgb !! Z.to_nat (si + 2)) as [b|]; [|done].
    destruct (rgb !! Z.to_nat (si + 1)) as [g|]; [|done].
    destruct (rgb !! Z.to_nat (si + 0)) as [r|]; [|done].
    cbn. by rewrite write_bgra_column.
  - intros x y Hx Hy sx sy.
    assert ((y, x) ∈ items) as Hi by by apply elem_of_pixels.
    destruct (Hsource y x Hi) as (r & g & b & Hr & Hg & Hb & Hc).
    exists r, g, b. split; [done|]. split; [done|]. split; [done|].
    destruct (Hpix (y, x) b g r Hi Hc) as (Pb & Pg & Pr & Pa).
    unfold output_byte, addr in *. cbn [fst snd] in *.
    rewrite !Z.add_assoc. rewrite Z.add_0_r. done.
  - intros offset Hout. apply Hframe. intros [y x] [Hy Hx]%elem_of_pixels Hin.
    apply Hout. exists x, y, (offset - addr (y, x)).
    unfold addr in *. cbn [fst snd] in *. lia.
Qed.
End FillingPixels.

(** X19.  [FillFromRGB] on a source image of positive dimensions whose
    vector holds at least [src_width * src_height * 3] bytes, with index
    arithmetic that fits an [int] and rows of at least [4 * 640] bytes, reads
    the source within its bounds only and scales it to 640 by 480 by nearest
    neighbour: the output pixel at column [x], row [y] is the source pixel at
    column [x * src_width / 640], row [y * src_height / 480], which lies in the
    source image, stored as blue, green, red and an alpha of 255.  Bytes that
    belong to no output pixel (row padding, memory past the frame) keep their
    value.  A source of 640 by 480 is copied pixel for pixel. *)
Theorem X19_FillFromRGB_scales
    (rgb : list Z) (src_width src_height : Z) (base : gmap Z Z)
    (bytes_per_row gFrameCounter : Z) :
  0 < src_width → 0 < src_height →
  src_width * src_height * 3 < 2 ^ 31 →
  (DALFill.kOutputWidth - 1) * src_width < 2 ^ 31 →
  (DALFill.kOutputHeight - 1) * src_height < 2 ^ 31 →
  src_width * src_height * 3 ≤ Z.of_nat (length rgb) →
  DALFill.kOutputWidth * 4 ≤ bytes_per_row →
  ∃ out,
    DALFill.FillFromRGB rgb src_width src_height base bytes_per_row gFrameCounter = Some out
    ∧ (∀ x y,
          0 ≤ x < DALFill.kOutputWidth → 0 ≤ y < DALFill.kOutputHeight →
          let sx := x * src_width / DALFill.kOutputWidth in
          let sy := y * src_height / DALFill.kOutputHeight in
          0 ≤ sx < src_width ∧ 0 ≤ sy < src_height
          ∧ (src_width = DALFill.kOutputWidth → sx = x)
          ∧ (src_height = DALFill.kOutputHeight → sy = y)
          ∧ ∃ r g b,
              DALFillSpec.source_byte rgb src_width sx sy 0 = Some r
              ∧ DALFillSpec.source_byte rgb src_width sx sy 1 = Some g
              ∧ DALFillSpec.source_byte rgb src_width sx sy 2 = Some b
              ∧ DALFillSpec.output_byte out bytes_per_row x y 0 = Some b
              ∧ DALFillSpec.output_byte out bytes_per_row x y 1 = Some g
              ∧ DALFillSpec.output_byte out bytes_per_row x y 2 = Some r
              ∧ DALFillSpec.output_byte out bytes_per_row x y 3 = Some 255)
    ∧ (∀ offset, ¬ DALFillSpec.in_frame bytes_per_row offset → out !! offset = base !! offset).
Proof.
  intros Hw Hh Hint Hintx Hinty Hlen Hrow.
  destruct (FillFromRGB_pixels rgb src_width src_height base bytes_per_row gFrameCounter)
    as (out & Hrun & Hpix & Hframe); [done..|].
  exists out. split; [done|]. split; [|done].
  intros x y Hx Hy sx sy.
  destruct (source_in_range src_width src_height y x Hw Hh Hy Hx) as (Hsy & Hsx & _).
  cbv zeta in Hsy, Hsx.
  rewrite !Z.quot_div_nonneg in Hsy, Hsx
    by (unfold DALFill.kOutputWidth, DALFill.kOutputHeight in *; lia).
  split; [done|]. split; [done|].
  split; [intros ->; subst sx; by rewrite Z.div_mul|].
  split; [intros ->; subst sy; by rewrite Z.div_mul|].
  by apply Hpix.
Qed.

Lemma X19_FillFromRGB_scales_witness :
  ∃ out,
    DALFill.FillFromRGB [10; 20; 30; 40; 50; 60] 2 1 ∅ 2560 0 = Some out
    ∧ DALFillSpec.output_byte out 2560 639 479 0 = Some 60
    ∧ DALFillSpec.output_byte out 2560 639 479 2 = Some 40
    ∧ DALFillSpec.output_byte out 2560 0 0 0 = Some 30.
Proof.
  destruct (X19_FillFromRGB_scales [10; 20; 30; 40; 50; 60] 2 1 ∅ 2560 0)
    as (out & Hrun & Hpix & _); [reflexivity..|vm_compute; discriminate
                                |vm_compute; discriminate|].
  exists out. split; [exact Hrun|].
  destruct (Hpix 639 479) as (_ & _ & _ & _ & r & g & b & Hr & Hg & Hb & Pb & _ & Pr & _);
    [vm_compute; split; [discriminate|reflexivity]..|].
  destruct (Hpix 0 0) as (_ & _ & _ & _ & r0 & g0 & b0 & _ & _ & Hb0 & Pb0 & _);
    [vm_compute; split; [discriminate|reflexivity]..|].
  vm_compute in Hr, Hb, Hb0.
  injection Hr as <-. injection Hb as <-. injection Hb0 as <-.
  split; [exact Pb|]. split; [exact Pr|exact Pb0].
Defined.

(** ** The command line *)

Section CommandLine.
Import CLI.

Lemma stoi_in_range (s : string) (v : Z) :
  Stoi.stoi s = Some v → Stoi.INT_MIN ≤ v ≤ Stoi.INT_MAX.
Proof.
  unfold Stoi.stoi. destruct (match Stoi.skip_space s with
                              | String "-" r => (true, r)
                              | String "+" r => (false, r)
                              | _ => (false, Stoi.skip_space s)
                              end) as [negative s2].
  destruct (Stoi.digits s2 None) as [d|]; [|done].
  destruct (_ && _) eqn:Hrange; [|done]. intros [= <-].
  apply andb_true_iff in Hrange as [?%Z.leb_le ?%Z.leb_le]. done.
Qed.

Lemma ParsePositiveInt_positive (text : string) (value : Z) :
  ParsePositiveInt text = Some value → 1 ≤ value ≤ Stoi.INT_MAX.
Proof.
  unfold ParsePositiveInt. destruct (Stoi.stoi text) as [parsed|] eqn:Hstoi; [|done].
  destruct (Z.leb_spec parsed 0); [done|]. intros [= <-].
  apply stoi_in_range in Hstoi. lia.
Qed.

Local Ltac recurse IH Hrun :=
  apply IH in Hrun as (? & ? & ? & ?);
  [repeat split; auto; lia | simpl in *; lia | simpl in *; auto; lia | simpl; auto].

(** What the loop keeps: the preview lasts at least a second, and an option
    of the command-line mode is only set together with that mode. *)
Lemma parse_args_keeps_upto (program : string) (n : nat) :
  ∀ args options gui_mode cli_mode options' gui_mode' cli_mode',
    (length args ≤ n)%nat →
    1 ≤ preview_seconds options ≤ Stoi.INT_MAX →
    (run_preview options || list_devices options = true → cli_mode = true) →
    parse_args program args options gui_mode cli_mode = Run options' gui_mode' cli_mode' →
    1 ≤ preview_seconds options' ≤ Stoi.INT_MAX
    ∧ (run_preview options' || list_devices options' = true → cli_mode' = true)
    ∧ (cli_mode = true → cli_mode' = true)
    ∧ (gui_mode = true → gui_mode' = true).
Proof.
  induction n as [|n IH]; intros args options gui_mode cli_mode options' gui_mode' cli_mode'
    Hlen Hsec Hmode Hrun.
  { destruct args; [|simpl in Hlen; lia]. by injection Hrun as <- <- <-. }
  destruct args as [|arg rest]; [by injection Hrun as <- <- <-|].
  cbn [length] in Hlen. cbn [parse_args] in Hrun.
  destruct (String.eqb arg "--help" || String.eqb arg "-h"); [done|].
  destruct (String.eqb arg "--gui").
  { recurse IH Hrun. }
  destruct (String.eqb arg "--list").
  { recurse IH Hrun. }
  destruct (String.eqb arg "--preview").
  { destruct rest as [|next rest'].
    - recurse IH Hrun.
    - destruct (negb (starts_with_dash next)).
      + destruct (ParsePositiveInt next) as [value|] eqn:Hvalue; [|done].
        apply ParsePositiveInt_positive in Hvalue.
        recurse IH Hrun.
      + recurse IH Hrun. }
  destruct (String.prefix "--preview=" arg).
  { destruct (ParsePositiveInt _) as [value|] eqn:Hvalue; [|done].
    apply ParsePositiveInt_positive in Hvalue.
    recurse IH Hrun. }
  destruct (String.eqb arg "--backend").
  { destruct rest as [|next rest']; [done|].
    destruct (ParseBackendChoice next) as [choice|]; [|done].
    recurse IH Hrun. }
  recurse IH Hrun.
Qed.

Lemma preview_equals_is_no_flag (next : string) :
  let arg := "--preview=" +:+ next in
  String.eqb arg "--help" || String.eqb arg "-h" = false
  ∧ String.eqb arg "--gui" = false
  ∧ String.eqb arg "--list" = false
  ∧ String.eqb arg "--preview" = false
  ∧ String.prefix "--preview=" arg = true
  ∧ V1.substr (String.length "--preview=") arg = next.
Proof.
  simpl. repeat split.
  - by destruct (_ +:+ _).
  - unfold V1.substr. simpl. rewrite Nat.sub_0_r. apply substring_all.
Qed.
End CommandLine.

(** X20.  The loop over the arguments of [main], started as [main] starts
    it.  When it reaches its end the preview duration is at least one second
    and fits an [int], and [run_preview] or [list_devices] is only set
    together with the command-line mode.  [--preview N] and [--preview=N]
    mean the same whenever [N] does not start with a dash and
    [ParsePositiveInt] accepts it, and both are refused when it does not; a
    [--preview] that is last or followed by an argument that starts with a
    dash keeps the duration and goes on with that argument. *)
Theorem X20_preview_option
    (program : string) (options : CLI.Options) (gui_mode cli_mode : bool) :
  (∀ args options' gui_mode' cli_mode',
      CLI.parse_args program args CLI.default_options gui_mode false
      = CLI.Run options' gui_mode' cli_mode' →
      1 ≤ CLI.preview_seconds options' ≤ Stoi.INT_MAX
      ∧ (CLI.run_preview options' || CLI.list_devices options' = true → cli_mode' = true))
  ∧ (∀ next rest,
        CLI.starts_with_dash next = false →
        match CLI.ParsePositiveInt next with
        | Some value =>
            1 ≤ value ≤ Stoi.INT_MAX
            ∧ CLI.parse_args program ("--preview" :: next :: rest) options gui_mode cli_mode
              = CLI.parse_args program rest
                  (CLI.set_preview_seconds value (CLI.set_run_preview true options))
                  gui_mode true
            ∧ CLI.parse_args program (("--preview=" +:+ next) :: rest) options gui_mode cli_mode
              = CLI.parse_args program rest
                  (CLI.set_preview_seconds value (CLI.set_run_preview true options))
                  gui_mode true
        | None =>
            CLI.parse_args program ("--preview" :: next :: rest) options gui_mode cli_mode
            = CLI.Exit CLI.EXIT_FAILURE
                (CLI.to_cerr ("Invalid preview seconds: " +:+ next +:+ CLI.nl))
            ∧ CLI.parse_args program (("--preview=" +:+ next) :: rest) options gui_mode
                cli_mode
              = CLI.Exit CLI.EXIT_FAILURE
                  (CLI.to_cerr ("Invalid preview seconds: --preview=" +:+ next +:+ CLI.nl))
        end)
  ∧ (∀ next rest,
        CLI.starts_with_dash next = true →
        CLI.parse_args program ("--preview" :: next :: rest) options gui_mode cli_mode
        = CLI.parse_args program (next :: rest) (CLI.set_run_preview true options)
            gui_mode true)
  ∧ CLI.parse_args program ["--preview"] options gui_mode cli_mode
    = CLI.Run (CLI.set_run_preview true options) gui_mode true.
Proof.
  split; [|split; [|split]].
  - intros args options' gui_mode' cli_mode' Hrun.
    destruct (parse_args_keeps_upto program (length args) args CLI.default_options gui_mode
                false options' gui_mode' cli_mode') as (? & ? & _); done.
  - intros next rest Hdash.
    destruct (preview_equals_is_no_flag next) as (E1 & E2 & E3 & E4 & E5 & E6).
    cbv zeta in *.
    destruct (CLI.ParsePositiveInt next) as [value|] eqn:Hvalue.
    + split; [by apply ParsePositiveInt_positive in Hvalue|]. split.
      * cbn [CLI.parse_args]. cbn [String.eqb Ascii.eqb Bool.eqb orb].
        by rewrite Hdash, Hvalue.
      * cbn [CLI.parse_args]. by rewrite E1, E2, E3, E4, E5, E6, Hvalue.
    + split.
      * cbn [CLI.parse_args]. cbn [String.eqb Ascii.eqb Bool.eqb orb].
        by rewrite Hdash, Hvalue.
      * cbn [CLI.parse_args]. by rewrite E1, E2, E3, E4, E5, E6, Hvalue.
  - intros next rest Hdash. cbn [CLI.parse_args].
    cbn [String.eqb Ascii.eqb Bool.eqb orb]. by rewrite Hdash.
  - done.
Qed.

Lemma X20_preview_option_witness :
  CLI.parse_args "kinect" ["--preview"; "12"; "--list"] CLI.default_options false false
  = CLI.parse_args "kinect" ["--preview=12"; "--list"] CLI.default_options false false
  ∧ CLI.parse_args "kinect" ["--preview=12"; "--list"] CLI.default_options false false
    = CLI.Run {| CLI.run_preview := true; CLI.list_devices := true;
                 CLI.preview_seconds := 12; CLI.backend := CLI.BackendChoice.kAuto |}
        false true.
Proof.
  destruct (X20_preview_option "kinect" CLI.default_options false false)
    as (_ & Hsame & _ & _).
  specialize (Hsame "12" ["--list"] eq_refl).
  change (CLI.ParsePositiveInt "12") with (Some 12) in Hsame.
  destruct Hsame as (_ & Hspace & Hequals).
  split.
  - exact (eq_trans Hspace (eq_sym Hequals)).
  - exact Hequals.
Defined.

Section MainExit.
Import CLI CLISpec.

Lemma report_only_cout (options : Options) (b : Backend) : only_cout (report options b).1.
Proof.
  unfold report, only_cout.
  destruct (negb (MatchesChoice _ _)); [by constructor|].
  assert (∀ text, Forall (λ o, ∃ text, o = to_cout text) [to_cout text]) as Hone
      by (intros; repeat constructor; by eexists).
  assert (∀ (c : bool) text,
            Forall (λ o, ∃ text, o = to_cout text) (if c then [to_cout text] else []))
    as Hif by (intros [|] ?; [apply Hone|constructor]).
  destruct (negb (ProbeResult.available _)); cbn [fst]; [apply Forall_app; auto|].
  destruct (vec_empty _); cbn [fst]; [repeat (apply Forall_app; split); auto|].
  destruct (run_preview options); cbn [fst]; repeat (apply Forall_app; split); auto.
  - apply Forall_fmap, Forall_true. intros device. by eexists.
  - repeat constructor; by eexists.
  - apply Forall_fmap, Forall_true. intros device. by eexists.
Qed.

Lemma report_selected (options : Options) (b : Backend) :
  (report options b).2 = MatchesChoice (generation b) (backend options).
Proof.
  unfold report. destruct (MatchesChoice _ _); cbn [negb]; [|done].
  destruct (negb (ProbeResult.available _)); [done|].
  destruct (vec_empty _); [done|]. by destruct (run_preview options).
Qed.

Lemma report_builtin (options : Options) (v1 v2 : Answers) :
  ∃ out n,
    report_all options [CreateKinectV1Backend v1; CreateKinectV2Backend v2] 0 = (out, n)
    ∧ only_cout out ∧ 1 ≤ n ≤ 2.
Proof.
  cbn [report_all].
  pose proof (report_only_cout options (CreateKinectV1Backend v1)) as O1.
  pose proof (report_only_cout options (CreateKinectV2Backend v2)) as O2.
  pose proof (report_selected options (CreateKinectV1Backend v1)) as S1.
  pose proof (report_selected options (CreateKinectV2Backend v2)) as S2.
  destruct (report options (CreateKinectV1Backend v1)) as [out1 sel1].
  destruct (report options (CreateKinectV2Backend v2)) as [out2 sel2].
  cbn [fst snd generation CreateKinectV1Backend CreateKinectV2Backend] in *.
  eexists _, _. split; [done|]. split.
  - apply Forall_app. split; [done|]. apply Forall_app. split; [done|constructor].
  - subst sel1 sel2. by destruct (backend options); cbn.
Qed.

(** The loop stops early with the usage text and success, or with one line
    on the standard error and failure. *)
Lemma parse_args_exit (program : string) (n : nat) :
  ∀ args options gui_mode cli_mode code output,
    (length args ≤ n)%nat →
    parse_args program args options gui_mode cli_mode = Exit code output →
    (code = EXIT_SUCCESS ∧ output = PrintUsage program)
    ∨ (code = EXIT_FAILURE ∧ ∃ text, output = to_cerr text).
Proof.
  induction n as [|n IH]; intros args options gui_mode cli_mode code output Hlen Hexit.
  { by destruct args; [|simpl in Hlen; lia]. }
  destruct args as [|arg rest]; [done|].
  cbn [length] in Hlen. cbn [parse_args] in Hexit.
  destruct (String.eqb arg "--help" || String.eqb arg "-h");
    [injection Hexit as <- <-; by left|].
  destruct (String.eqb arg "--gui"); [apply IH in Hexit; [done|lia]|].
  destruct (String.eqb arg "--list"); [apply IH in Hexit; [done|lia]|].
  destruct (String.eqb arg "--preview").
  { destruct rest as [|next rest']; [done|].
    destruct (negb (starts_with_dash next)).
    - destruct (ParsePositiveInt next) as [value|].
      + apply IH in Hexit; [done|simpl in *; lia].
      + injection Hexit as <- <-. right. split; [done|by eexists].
    - apply IH in Hexit; [done|simpl in *; lia]. }
  destruct (String.prefix "--preview=" arg).
  { destruct (ParsePositiveInt _) as [value|].
    - apply IH in Hexit; [done|lia].
    - injection Hexit as <- <-. right. split; [done|by eexists]. }
  destruct (String.eqb arg "--backend").
  { destruct rest as [|next rest'].
    - injection Hexit as <- <-. right. split; [done|by eexists].
    - destruct (ParseBackendChoice next) as [choice|].
      + apply IH in Hexit; [done|simpl in *; lia].
      + injection Hexit as <- <-. right. split; [done|by eexists]. }
  apply IH in Hexit; [done|lia].
Qed.
End MainExit.

(** X21.  The exit status of [main].  With the program name alone it hands
    over to the graphical interface and returns what that returns.  When the
    argument loop reaches its end in command-line mode, [main] returns
    [EXIT_SUCCESS] and writes to the standard output only, whatever the two
    backends answer (unavailable, no device, failed preview): each backend
    choice selects at least one of the two backends, so the complaint that no
    backend matched is never written.  When [main] itself returns
    [EXIT_FAILURE], the argument loop refused an argument and one line on
    the standard error is all that was written. *)
Theorem X21_main_exit_status
    (RunGuiApp : list string → Z) (v1 v2 : CLI.Answers) (argv : list string) :
  (length argv = 1%nat →
   CLI.main RunGuiApp v1 v2 argv = (RunGuiApp argv, [CLI.call_RunGuiApp argv]))
  ∧ match CLISpec.parsed argv with
    | CLI.Exit code output => CLI.main RunGuiApp v1 v2 argv = (code, [output])
    | CLI.Run options gui_mode cli_mode =>
        if gui_mode && negb cli_mode
        then CLI.main RunGuiApp v1 v2 argv = (RunGuiApp argv, [CLI.call_RunGuiApp argv])
        else (CLI.main RunGuiApp v1 v2 argv).1 = CLI.EXIT_SUCCESS
             ∧ CLISpec.only_cout (CLI.main RunGuiApp v1 v2 argv).2
    end
  ∧ ((CLI.main RunGuiApp v1 v2 argv).1 = CLI.EXIT_FAILURE →
     (CLI.main RunGuiApp v1 v2 argv).2 = [CLI.call_RunGuiApp argv]
     ∨ ∃ text, (CLI.main RunGuiApp v1 v2 argv).2 = [CLI.to_cerr text]).
Proof.
  assert (match CLISpec.parsed argv with
          | CLI.Exit code output => CLI.main RunGuiApp v1 v2 argv = (code, [output])
          | CLI.Run options gui_mode cli_mode =>
              if gui_mode && negb cli_mode
              then CLI.main RunGuiApp v1 v2 argv
                   = (RunGuiApp argv, [CLI.call_RunGuiApp argv])
              else (CLI.main RunGuiApp v1 v2 argv).1 = CLI.EXIT_SUCCESS
                   ∧ CLISpec.only_cout (CLI.main RunGuiApp v1 v2 argv).2
          end) as Hmain.
  { unfold CLI.main, CLISpec.parsed.
    destruct (CLI.parse_args _ _ _ _ _) as [code output|options gui_mode cli_mode]; [done|].
    destruct (gui_mode && negb cli_mode); [done|].
    destruct (report_builtin options v1 v2) as (out & n & -> & Hout & Hn).
    cbv zeta. replace (n =? 0) with false by (symmetry; apply Z.eqb_neq; lia). done. }
  split; [|split; [exact Hmain|]].
  - intros Hone. unfold CLI.main.
    destruct argv as [|program [|arg rest]]; [done| |done]. done.
  - intros Hfail. unfold CLISpec.parsed in Hmain.
    destruct (CLI.parse_args _ _ _ _ _) as [code output|options gui_mode cli_mode] eqn:Hparse.
    + rewrite Hmain in Hfail |- *. cbn [fst snd] in *. right.
      apply (parse_args_exit _ (length (tail argv))) in Hparse as [[-> _]|[_ [text ->]]];
        [done|by exists text|done].
    + destruct (gui_mode && negb cli_mode); [left; by rewrite Hmain|].
      destruct Hmain as [Hok _]. rewrite Hok in Hfail. done.
Qed.

(** ** The geometry of the frames handed out *)

Section FrameGeometry.
Import V1 V1Session FrameSpec.
Variable drv : Driver.

Local Ltac crush_flags :=
  repeat match goal with
         | |- context [if ?c then _ else _] => destruct c eqn:?; simpl
         | |- context [match ?c with _ => _ end] => destruct c eqn:?; simpl
         end.

Lemma vga_well_formed f : vga f → well_formed f.
Proof.
  unfold vga, well_formed, kPixelCount, kWidth, kHeight.
  intros ([->|[-> ->]] & Hrgb & Hdepth & Hir); cbn; [repeat split; done|].
  split; [done|]. split; [done|].
  split; [by destruct Hrgb|]. split; [by destruct Hdepth|by destruct Hir].
Qed.

Lemma copied_pixels src n : 0 ≤ n → Z.of_nat (length (copy_from_native src n)) = n.
Proof. intros Hn. rewrite copy_from_native_length. lia. Qed.

Lemma deliver_vga d cb : vga (Device.frame_ d) → vga (Device.frame_ (deliver d cb)).
Proof.
  intros (Hdims & Hrgb & Hdepth & Hir).
  assert (0 ≤ kPixelCount) as Hcount by (unfold kPixelCount, kWidth, kHeight; lia).
  destruct cb as [[src|] ts|[src|] ts];
    cbn [deliver OnDepthFrame OnVideoFrame default Device.frame_ Device.set_frame_
         Device.set_has_new_frame_]; try by repeat split.
  - split; [by right|]. split; [exact Hrgb|]. split; [|exact Hir].
    right. by apply copied_pixels.
  - destruct (StreamKind_eqb _ _);
      cbn [FrameData.rgb FrameData.depth FrameData.ir FrameData.width FrameData.height].
    + split; [by right|]. split; [exact Hrgb|]. split; [exact Hdepth|].
      right. by apply copied_pixels.
    + split; [by right|]. split; [|split; [exact Hdepth|exact Hir]].
      right. apply copied_pixels. lia.
Qed.

Lemma deliver_all_vga d cbs : vga (Device.frame_ d) → vga (Device.frame_ (foldl deliver d cbs)).
Proof.
  revert d. induction cbs as [|cb cbs IH]; intros d Hd; simpl; [done|].
  by apply IH, deliver_vga.
Qed.

Lemma ApplyVideoMode_frame d h :
  Device.frame_ (snd (fst (ApplyVideoMode drv d h))) = Device.frame_ d.
Proof.
  unfold ApplyVideoMode, bind, native, ret. destruct (Device.dev_ d); simpl; [|done].
  crush_flags; done.
Qed.

Lemma setAudioEnabled_frame enabled d h :
  Device.frame_ (snd (fst (setAudioEnabled drv enabled d h))) = Device.frame_ d.
Proof.
  unfold setAudioEnabled, bind, native, ret.
  destruct d as [? dv ? ? sup rn ds vs au ? rq ? ? ?]. simpl.
  destruct sup; simpl; [|done]. destruct dv; simpl; [|done].
  destruct rn; simpl; [|done]. destruct enabled, au; simpl; crush_flags; done.
Qed.

Lemma start_frame d h : Device.frame_ (snd (fst (start drv d h))) = Device.frame_ d.
Proof.
  unfold start, bind, native, ret.
  destruct (Device.dev_ d) as [dev|]; simpl; [|done].
  destruct (Device.running_ d); simpl; [done|].
  destruct (negb (freenect_find_depth_mode_is_valid drv)); simpl; [done|].
  destruct (freenect_set_depth_mode drv h dev <? 0); simpl; [done|].
  pose proof (ApplyVideoMode_frame d (h ++ [c_set_depth_mode dev])) as Happly.
  destruct (ApplyVideoMode drv d (h ++ [c_set_depth_mode dev])) as [[applied d1] h1].
  simpl in *. destruct applied; simpl; [|done].
  destruct (freenect_start_depth drv h1 dev <? 0); simpl; [done|].
  destruct (Device.video_started_ d1) eqn:Hvs; simpl.
  - destruct (Device.audio_enabled_ d1) eqn:Hae; simpl; [|done].
    match goal with
    | |- context [setAudioEnabled drv true ?d2 ?h2] =>
        pose proof (setAudioEnabled_frame true d2 h2) as Haudio;
        destruct (setAudioEnabled drv true d2 h2) as [[? d3] h3]
    end.
    simpl in *. by rewrite Haudio.
  - destruct (freenect_start_video drv (h1 ++ [c_start_depth dev]) dev <? 0); simpl; [done|].
    destruct (Device.audio_enabled_ d1) eqn:Hae; simpl; [|done].
    match goal with
    | |- context [setAudioEnabled drv true ?d2 ?h2] =>
        pose proof (setAudioEnabled_frame true d2 h2) as Haudio;
        destruct (setAudioEnabled drv true d2 h2) as [[? d3] h3]
    end.
    simpl in *. by rewrite Haudio.
Qed.

Lemma stop_frame d h : Device.frame_ (snd (fst (stop drv d h))) = Device.frame_ d.
Proof.
  unfold stop, bind, native, ret.
  destruct d as [? dv ? ? sup rn ds vs au ? rq ? ? ?]. simpl.
  destruct dv; simpl; [|done]. destruct rn; simpl; [|done].
  by destruct au, vs, ds.
Qed.

Lemma update_vga d h :
  vga (Device.frame_ d) → vga (Device.frame_ (snd (fst (update drv d h)))).
Proof.
  intros Hd. unfold update, bind, native, ret.
  destruct (negb (Device.running_ d)); simpl; [done|].
  destruct (negb (StreamKind_eqb _ _)); simpl.
  - pose proof (ApplyVideoMode_frame d h) as Happly.
    destruct (ApplyVideoMode drv d h) as [[applied d1] h1]. simpl in *.
    destruct (freenect_process_events_timeout drv h1) as [rc cbs]. simpl.
    destruct (rc <? 0); simpl; apply deliver_all_vga; by rewrite Happly.
  - destruct (freenect_process_events_timeout drv h) as [rc cbs]. simpl.
    destruct (rc <? 0); simpl; by apply deliver_all_vga.
Qed.

Lemma run_op_vga d op h :
  vga (Device.frame_ d) → vga (Device.frame_ (fst (run_op drv d op h))).
Proof.
  intros Hd. destruct op; simpl; unfold bind, ret.
  - pose proof (start_frame d h). destruct (start drv d h) as [[? ?] ?]. simpl in *. congruence.
  - pose proof (stop_frame d h). destruct (stop drv d h) as [[? ?] ?]. simpl in *. congruence.
  - pose proof (update_vga d h Hd). by destruct (update drv d h) as [[? ?] ?].
  - unfold getFrame. destruct (negb (Device.has_new_frame_ d)); simpl; done.
  - done.
  - pose proof (setAudioEnabled_frame enabled d h).
    destruct (setAudioEnabled drv enabled d h) as [[? ?] ?]. simpl in *. congruence.
Qed.

Lemma run_vga ops d h :
  vga (Device.frame_ d) → vga (Device.frame_ (fst (run drv d ops h))).
Proof.
  revert d h. induction ops as [|op ops IH]; intros d h Hd; simpl; [done|].
  unfold bind. pose proof (run_op_vga d op h Hd).
  destruct (run_op drv d op h) as [d1 h1]. by apply IH.
Qed.
Lemma session_frame_vga be serial h h1 d ops :
  openDevice drv be serial h = (Some d, h1) →
  vga (Device.frame_ (fst (run drv d ops h1))).
Proof.
  unfold openDevice. destruct (negb (Backend.ctx_ be)); [done|].
  intros Hopen. apply openDevice_loop_fresh in Hopen as (index & dev & ->).
  apply run_vga. unfold vga. cbn. split; [by left|]. by repeat split; left.
Qed.
End FrameGeometry.

Section FrameGeometry2.
Import V2 FrameSpec.
Variable float : Type.
Variables depth_sample ir_sample : float → Z.

Lemma length_foldl_same {A B : Type} (f : list A → B → list A) (init : list A)
    (items : list B) :
  (∀ l i, length (f l i) = length l) → length (foldl f init items) = length init.
Proof.
  intros Hf. revert init. induction items as [|i items IH]; intros init; [done|].
  simpl. by rewrite IH, Hf.
Qed.

Lemma to_int_small n : 0 ≤ n ≤ Stoi.INT_MAX → to_int n = n.
Proof.
  unfold to_int, Stoi.INT_MAX. intros Hn. rewrite Z.mod_small; lia.
Qed.

(** What [convert] leaves for each stream: the buffer matches the
    dimensions, which are those of the frame, or the stream is absent. *)
Lemma convert_matching (frames : FrameMap.t float) :
  bundle_fits_int frames →
  let c := convert float depth_sample ir_sample frames in
  matching (Converted.rgb_data c) (Converted.rgb_w c) (Converted.rgb_h c) 3
  ∧ matching (Converted.depth_data c) (Converted.depth_w c) (Converted.depth_h c) 1
  ∧ matching (Converted.ir_data c) (Converted.ir_w c) (Converted.ir_h c) 1.
Proof.
  unfold bundle_fits_int, fits_int, matching, Stoi.INT_MAX.
  destruct frames as [[color|] [ir|] [depth|]]; cbn -[Z.pow];
    intros (Hc & Hi & Hd); unfold to_int, convert_color, convert_depth, convert_ir, to_size_t;
    repeat split;
    try (rewrite ?Zmod_small by nia; nia);
    try (rewrite length_foldl_same by (intros; by rewrite ?length_insert);
         rewrite length_replicate, !Zmod_small by nia; nia);
    try done.
Qed.

Lemma select_frame_well_formed (kind : StreamKind) (c : Converted.t) (next : FrameData.t) :
  matching (Converted.rgb_data c) (Converted.rgb_w c) (Converted.rgb_h c) 3 →
  matching (Converted.depth_data c) (Converted.depth_w c) (Converted.depth_h c) 1 →
  matching (Converted.ir_data c) (Converted.ir_w c) (Converted.ir_h c) 1 →
  select_frame kind c = (true, next) →
  well_formed next ∧ 0 < FrameData.width next ∧ 0 < FrameData.height next.
Proof.
  intros (R1 & R2 & R3) (D1 & D2 & D3) (I1 & I2 & I3). rewrite select_frame_chosen.
  destruct (V2Spec.chosen_stream kind c) as [chosen|] eqn:Hchosen; [|done].
  intros [= <-]. apply chosen_stream_produced in Hchosen.
  unfold V2Spec.produced in Hchosen.
  apply andb_true_iff in Hchosen as [Hchosen Hh%Z.ltb_lt].
  apply andb_true_iff in Hchosen as [_ Hw%Z.ltb_lt].
  unfold well_formed, V2Spec.only.
  destruct chosen; cbn in *; repeat split; first [done|lia].
Qed.

Lemma update_well_formed (drv : Driver float) (d d' : Device.t) (h h' : History) :
  (∀ frames, waitForNewFrame drv h = Some frames → bundle_fits_int frames) →
  update float depth_sample ir_sample drv d h = (true, d', h') →
  well_formed (Device.frame_ d')
  ∧ 0 < FrameData.width (Device.frame_ d') ∧ 0 < FrameData.height (Device.frame_ d').
Proof.
  intros Hfits. unfold update, bind, native, ret.
  destruct (negb (Device.running_ d)); [done|].
  destruct (waitForNewFrame drv h) as [frames|] eqn:Hwait; [|done].
  destruct (convert_matching frames (Hfits frames eq_refl)) as (Hr & Hd & Hi).
  destruct (select_frame _ _) as [assigned next] eqn:Hselect.
  intros [= -> <- <-]. cbn. by eapply select_frame_well_formed.
Qed.
End FrameGeometry2.

(** X22.  The frames that a session holds match their dimensions.  On
    generation 1, whatever the driver answers and whatever is run on a
    session that [openDevice] handed out, the frame slot is empty as
    constructed or is 640 by 480 with each of its three buffers either
    absent or complete (three bytes per pixel of color, one sample per pixel
    of depth and of infrared).  On generation 2, when the driver delivers
    frames whose dimensions fit an [int], the frame that an [update]
    answering true leaves has positive dimensions and its buffer holds
    exactly [width * height] pixels. *)
Theorem X22_frames_match_their_dimensions :
  (∀ (drv : V1.Driver) (be : V1.Backend.t) (serial : string) (h h1 : V1.History)
     (d : V1.Device.t) (ops : list V1Session.Op),
      V1.openDevice drv be serial h = (Some d, h1) →
      let frame := V1.Device.frame_ (fst (V1Session.run drv d ops h1)) in
      FrameSpec.vga frame ∧ FrameSpec.well_formed frame)
  ∧ (∀ (float : Type) (depth_sample ir_sample : float → Z) (drv : V2.Driver float)
       (d d' : V2.Device.t) (h h' : V2.History),
        (∀ frames, V2.waitForNewFrame drv h = Some frames → FrameSpec.bundle_fits_int frames) →
        V2.update float depth_sample ir_sample drv d h = (true, d', h') →
        FrameSpec.well_formed (V2.Device.frame_ d')
        ∧ 0 < FrameData.width (V2.Device.frame_ d')
        ∧ 0 < FrameData.height (V2.Device.frame_ d')).
Proof.
  split.
  - intros drv be serial h h1 d ops Hopen frame.
    assert (FrameSpec.vga frame) as Hvga by by eapply session_frame_vga.
    split; [done|]. by apply vga_well_formed.
  - intros float depth_sample ir_sample drv d d' h h' Hfits Hupdate.
    by eapply update_well_formed.
Qed.

Lemma X22_frames_match_their_dimensions_witness :
  let drv :=
    V1Spec.one_unit_driver "A00364A11700045A" (λ _ _, 0)
      (λ _, (0, [V1.cb_depth (Some (λ _, 1000)) 5])) in
  let be := V1.Backend.mk true true in
  FrameSpec.well_formed
    (V1.Device.frame_
       (fst (V1Session.run drv
               (V1Session.fresh be (-1) "A00364A11700045A" 0)
               [V1Session.op_start; V1Session.op_update]
               [V1.c_open_device_by_camera_serial "A00364A11700045A"])))
  ∧ FrameSpec.well_formed
      (FrameData.mk [10; 20; 30] [] [] 1 1 7).
Proof.
  intros drv be. destruct X22_frames_match_their_dimensions as [Hv1 Hv2]. split.
  - refine (proj2 (Hv1 drv be "A00364A11700045A" []
                     [V1.c_open_device_by_camera_serial "A00364A11700045A"] _
                     [V1Session.op_start; V1Session.op_update] _)).
    reflexivity.
  - refine (proj1 (Hv2 Z (λ x, x) (λ x, x)
                     (V2Spec.simple_driver 1 (λ _, "001122334455") [V2Spec.color_bundle])
                     (V2Spec.streaming kRgb)
                     (V2.Device.mk true "001122334455" (Some 0%nat)
                        (FrameData.mk [10; 20; 30] [] [] 1 1 7) true true kRgb)
                     [] [V2.c_waitForNewFrame; V2.c_release] _ _)).
    + intros frames Hwait. vm_compute in Hwait. injection Hwait as <-.
      vm_compute. repeat split; discriminate.
    + vm_compute. reflexivity.
Defined.

(** ** The depth view of the graphical interface *)

Section DepthView.
Import GuiApp.

(** While every index is within both vectors, the loop is the three writes
    per index of [fill_by_triples]. *)
Lemma shade_all_fill (depth : list Z) (indices : list nat) :
  ∀ visual,
    (∀ i, i ∈ indices → (i < length depth)%nat ∧ (i * 3 + 2 < length visual)%nat) →
    shade_all depth indices visual
    = Some (foldl (λ data i,
                     <[(i * 3 + 2)%nat := to_u8 (default 0 (depth !! i) / 16)]>
                       (<[(i * 3 + 1)%nat := to_u8 (default 0 (depth !! i) / 16)]>
                          (<[(i * 3 + 0)%nat := to_u8 (default 0 (depth !! i) / 16)]> data)))
              visual indices).
Proof.
  induction indices as [|i indices IH]; intros visual Hin; [done|].
  destruct (Hin i ltac:(left)) as [Hdepth Hvisual].
  destruct (lookup_lt_is_Some_2 depth i Hdepth) as [d Hd].
  cbn [shade_all foldl]. unfold shade at 1. rewrite Hd. cbn [mbind option_bind default].
  replace (i * 3 + 2 <? length visual)%nat with true by (symmetry; apply Nat.ltb_lt; lia).
  cbn [mbind option_bind]. apply IH. intros j Hj.
  destruct (Hin j ltac:(by right)) as [? ?]. by rewrite !length_insert.
Qed.
End DepthView.

(** X23.  The depth view of the graphical interface on a frame whose depth
    buffer is present and matches its dimensions, with a pixel count that
    fits an [int]: whatever the view buffer held before, the loop reads the
    depth buffer within its bounds only and leaves a view buffer of three
    bytes per pixel, each of them [(d / 16) mod 256] for the depth [d] of the
    pixel.  That grey level is [d / 16] below 4096 mm and wraps around from
    there on.  Every frame of a generation-1 session is such a frame. *)
Theorem X23_depth_view :
  (∀ (frame : FrameData.t) (depth_buffer_visual : list Z),
      FrameSpec.well_formed frame →
      FrameData.depth frame ≠ [] →
      FrameData.width frame * FrameData.height frame ≤ Stoi.INT_MAX →
      ∃ visual,
        GuiApp.depth_visual frame depth_buffer_visual = Some visual
        ∧ Z.of_nat (length visual) = FrameData.width frame * FrameData.height frame * 3
        ∧ ∀ i d,
            FrameData.depth frame !! i = Some d →
            visual !! (i * 3 + 0)%nat = Some ((d / 16) mod 256)
            ∧ visual !! (i * 3 + 1)%nat = Some ((d / 16) mod 256)
            ∧ visual !! (i * 3 + 2)%nat = Some ((d / 16) mod 256)
            ∧ (0 ≤ d < 4096 → (d / 16) mod 256 = d / 16)
            ∧ (d = 4096 → (d / 16) mod 256 = 0))
  ∧ (∀ (drv : V1.Driver) (be : V1.Backend.t) (serial : string) (h h1 : V1.History)
       (d : V1.Device.t) (ops : list V1Session.Op) (depth_buffer_visual : list Z),
        V1.openDevice drv be serial h = (Some d, h1) →
        let frame := V1.Device.frame_ (fst (V1Session.run drv d ops h1)) in
        FrameData.depth frame ≠ [] →
        is_Some (GuiApp.depth_visual frame depth_buffer_visual)).
Proof.
  assert (∀ (frame : FrameData.t) (depth_buffer_visual : list Z),
            FrameSpec.well_formed frame →
            FrameData.depth frame ≠ [] →
            FrameData.width frame * FrameData.height frame ≤ Stoi.INT_MAX →
            ∃ visual,
              GuiApp.depth_visual frame depth_buffer_visual = Some visual
              ∧ Z.of_nat (length visual) = FrameData.width frame * FrameData.height frame * 3
              ∧ ∀ i d,
                  FrameData.depth frame !! i = Some d →
                  visual !! (i * 3 + 0)%nat = Some ((d / 16) mod 256)
                  ∧ visual !! (i * 3 + 1)%nat = Some ((d / 16) mod 256)
                  ∧ visual !! (i * 3 + 2)%nat = Some ((d / 16) mod 256)
                  ∧ (0 ≤ d < 4096 → (d / 16) mod 256 = d / 16)
                  ∧ (d = 4096 → (d / 16) mod 256 = 0)) as Hview.
  { intros frame old (Hw & Hh & _ & Hdepth & _) Hsome Hint.
    specialize (Hdepth Hsome). unfold Stoi.INT_MAX in Hint.
    set (pixels := FrameData.width frame * FrameData.height frame) in *.
    assert (0 ≤ pixels) as Hpixels by lia.
    unfold GuiApp.depth_visual, GuiApp.to_size_t. fold pixels.
    rewrite (Z.mod_small pixels) by lia. rewrite (Z.mod_small (pixels * 3)) by lia.
    set (visual0 := if negb (Z.of_nat (length old) =? pixels * 3)
                    then resize (Z.to_nat (pixels * 3)) 0 old else old).
    assert (length visual0 = (3 * Z.to_nat pixels)%nat) as Hlen0.
    { subst visual0. destruct (Z.eqb_spec (Z.of_nat (length old)) (pixels * 3)); cbn [negb].
      - lia.
      - rewrite length_resize. lia. }
    rewrite shade_all_fill.
    2: { intros i Hi%elem_of_seq. lia. }
    destruct (fill_by_triples
                (λ i, GuiApp.to_u8 (default 0 (FrameData.depth frame !! i) / 16))
                (λ i, GuiApp.to_u8 (default 0 (FrameData.depth frame !! i) / 16))
                (λ i, GuiApp.to_u8 (default 0 (FrameData.depth frame !! i) / 16))
                (Z.to_nat pixels) visual0 Hlen0) as [Hlen Hget].
    eexists. split; [done|]. split; [lia|].
    intros i d Hd. pose proof (lookup_lt_Some _ _ _ Hd) as Hi.
    destruct (Hget i ltac:(lia)) as (G0 & G1 & G2). rewrite Hd in G0, G1, G2.
    split; [done|]. split; [done|]. split; [done|]. split.
    - intros Hrange. apply Z.mod_small. split; [apply Z.div_pos; lia|].
      apply Z.div_lt_upper_bound; lia.
    - by intros ->. }
  split; [exact Hview|].
  intros drv be serial h h1 d ops old Hopen frame Hsome.
  assert (FrameSpec.vga frame) as Hvga by by eapply session_frame_vga.
  destruct (Hview frame old) as (visual & -> & _); [by apply vga_well_formed|done| |done].
  destruct Hvga as ([Hempty|[-> ->]] & _); [|done].
  by rewrite Hempty in Hsome.
Qed.

Lemma X23_depth_view_witness :
  ∃ visual,
    GuiApp.depth_visual (FrameData.mk [] [800; 4095; 4096; 65535] [] 2 2 9) [1; 2; 3]
    = Some visual
    ∧ visual !! 0%nat = Some 50 ∧ visual !! 3%nat = Some 255
    ∧ visual !! 6%nat = Some 0 ∧ visual !! 9%nat = Some 255.
Proof.
  destruct X23_depth_view as [Hview _].
  destruct (Hview (FrameData.mk [] [800; 4095; 4096; 65535] [] 2 2 9) [1; 2; 3])
    as (visual & Hrun & _ & Hget).
  - repeat split; first [discriminate|reflexivity|done].
  - discriminate.
  - discriminate.
  - exists visual. split; [exact Hrun|].
    destruct (Hget 0%nat 800 eq_refl) as (G0 & _).
    destruct (Hget 1%nat 4095 eq_refl) as (G1 & _).
    destruct (Hget 2%nat 4096 eq_refl) as (G2 & _).
    destruct (Hget 3%nat 65535 eq_refl) as (G3 & _).
    split; [exact G0|]. split; [exact G1|]. split; [exact G2|exact G3].
Defined.

(** ** The capture bundle *)

Section CaptureBundle.
Import Capture CaptureSpec.

Lemma be16_put_hi_lo (depth : list Z) :
  be16 (concat (put_hi_lo <$> depth)) = (λ v, v mod 2 ^ 16) <$> depth
  ∧ length (concat (put_hi_lo <$> depth)) = (2 * length depth)%nat
  ∧ RecorderSpec.all_bytes (concat (put_hi_lo <$> depth)).
Proof.
  induction depth as [|v depth (IH1 & IH2 & IH3)]; [by repeat split; try constructor|].
  cbn [fmap list_fmap concat put_hi_lo app be16 length].
  rewrite !land_255, !shiftr_div by lia. split; [|split].
  - rewrite IH1. f_equal. change (2 ^ 8) with 256. change (2 ^ 16) with 65536.
    Z.to_euclidean_division_equations. lia.
  - rewrite IH2. lia.
  - repeat constructor; try (apply Z.mod_pos_bound; lia). exact IH3.
Qed.

Lemma SaveColorPpm_sent (good : bool) (rgb : list Z) :
  SaveColorPpm true good rgb = (good, Some (ppm_header ++ rgb)).
Proof. reflexivity. Qed.

Lemma SaveDepthPgm16_sent (good : bool) (depth : list Z) :
  SaveDepthPgm16 true good depth = (good, Some (pgm_header ++ concat (put_hi_lo <$> depth))).
Proof. reflexivity. Qed.
End CaptureBundle.

(** X24.  A capture with both front buffers present never reads a vector
    past its end.  It makes the directories [captures] and
    [captures/<stamp>]; [color.ppm] is sent the header [P6], [640 480], [255]
    and then the 640 by 480 by 3 bytes of the color front buffer;
    [depth_mm.pgm] is sent the header [P5], [640 480], [65535] and then two
    bytes per pixel of the depth front buffer, most significant first, which
    read back give every depth again (reduced to 16 bits): both payloads have
    the size their header announces.  The status line reports a file as [ok]
    when its stream opened and stayed good, and as points the number of depth
    samples from 350 to 6000 when there is a device and the point file
    opened, 0 otherwise.  With a front buffer missing nothing is made or
    written and the status line says so. *)
Theorem X24_capture_bundle
    (double : Type) (freenect_camera_to_world : nat → nat → Z → double * double)
    (rgb_front depth_front : NativeBuf) (stamp : string) (g_dev : bool)
    (io : Capture.Streams) :
  let rgb := copy_from_native rgb_front (Z.of_nat ControlCenter.kFrameRgbBytes) in
  let depth := copy_from_native depth_front (Z.of_nat ControlCenter.kFramePixels) in
  let payload := concat (Capture.put_hi_lo <$> depth) in
  let dir := "captures/" +:+ stamp in
  let saved (opened good : bool) := if opened && good then "ok" else "fail" in
  (∃ captured,
      Capture.CaptureFrameBundle double freenect_camera_to_world (Some rgb_front)
        (Some depth_front) stamp g_dev io = Some captured
      ∧ Capture.made captured = ["captures"; dir]
      ∧ Capture.color_ppm captured
        = (if Capture.color_is_open io
           then Some (dir +:+ "/color.ppm", CaptureSpec.ppm_header ++ rgb) else None)
      ∧ Capture.depth_pgm captured
        = (if Capture.depth_is_open io
           then Some (dir +:+ "/depth_mm.pgm", CaptureSpec.pgm_header ++ payload) else None)
      ∧ (is_Some (Capture.scan_ply captured) ↔ g_dev && Capture.ply_is_open io = true)
      ∧ Capture.status captured
        = "Capture saved to " +:+ dir
          +:+ " (color=" +:+ saved (Capture.color_is_open io) (Capture.color_good io)
          +:+ ", depth=" +:+ saved (Capture.depth_is_open io) (Capture.depth_good io)
          +:+ ", points="
          +:+ to_string (if g_dev && Capture.ply_is_open io
                         then ControlCenter.count_valid depth else 0)
          +:+ ")")
  ∧ length rgb = ControlCenter.kFrameRgbBytes
  ∧ length payload = (2 * ControlCenter.kFramePixels)%nat
  ∧ CaptureSpec.be16 payload = (λ v, v mod 2 ^ 16) <$> depth
  ∧ RecorderSpec.all_bytes payload
  ∧ (∀ front,
        Capture.CaptureFrameBundle double freenect_camera_to_world None front stamp g_dev io
        = Some (Capture.Build_Captured "No frame buffers available to capture." []
                  None None None)
        ∧ Capture.CaptureFrameBundle double freenect_camera_to_world front None stamp g_dev io
          = Some (Capture.Build_Captured "No frame buffers available to capture." []
                    None None None)).
Proof.
  intros rgb depth payload dir saved.
  assert (length rgb = ControlCenter.kFrameRgbBytes) as Hrgb
      by (subst rgb; rewrite copy_from_native_length; apply Nat2Z.id).
  assert (length depth = ControlCenter.kFramePixels) as Hdepth
      by (subst depth; rewrite copy_from_native_length; apply Nat2Z.id).
  destruct (be16_put_hi_lo depth) as (Hback & Hlen & Hbytes). fold payload in Hback, Hlen, Hbytes.
  split; [|split; [exact Hrgb|split; [rewrite Hlen, Hdepth; reflexivity|
                    split; [exact Hback|split; [exact Hbytes|]]]]].
  - unfold Capture.CaptureFrameBundle. fold rgb depth dir. fold payload.
    clear Hback Hlen Hbytes. clearbody rgb depth.
    unfold ControlCenter.SavePointCloudPly.
    rewrite (write_body_in_frame double freenect_camera_to_world depth rgb Hdepth Hrgb).
    destruct io as [co cg do dg po]. cbn [Capture.color_is_open Capture.color_good
      Capture.depth_is_open Capture.depth_good Capture.ply_is_open].
    destruct co, do; destruct g_dev, po; cbn [negb andb];
      rewrite ?SaveColorPpm_sent, ?SaveDepthPgm16_sent;
      cbn [Capture.SaveColorPpm Capture.SaveDepthPgm16 negb mbind option_bind];
      eexists; (split; [reflexivity|]);
      cbn [Capture.made Capture.color_ppm Capture.depth_pgm Capture.scan_ply Capture.status
           fmap option_fmap option_map];
      (split; [done|]); (split; [done|]); (split; [done|]);
      (split; [split; [intros [? [=]] || done|done || by eexists]|]);
      subst saved; cbn [andb]; by destruct cg, dg.
  - intros [front|]; split; reflexivity.
Qed.

(** ** From the camera to the virtual camera *)

Section CameraToVirtualCamera.
Import FrameSpec.

(** What [nextRGB] hands out on a generation-1 device whose frame slot is
    640 by 480 or empty. *)
Lemma nextRGB_v1 (drv : V1.Driver) (d : V1.Device.t) (h h' : V1.History)
    (rgb : list Z) (width height : Z) (device_ : option V1.Device.t) :
  vga (V1.Device.frame_ d) →
  FrameSource.nextRGB (FrameSource.FreenectV1Device drv) (Some d) h
  = (Some (rgb, width, height), device_, h') →
  width = V1.kWidth ∧ height = V1.kHeight
  ∧ Z.of_nat (length rgb) = V1.kPixelCount * 3.
Proof.
  intros Hvga. unfold FrameSource.nextRGB, bind, ret.
  cbn [FrameSource.update FrameSource.setStreamKind FrameSource.getFrame
       FrameSource.FreenectV1Device].
  pose proof (update_vga drv (V1.setStreamKind kRgb d) h Hvga) as Hupdated.
  destruct (V1.update drv (V1.setStreamKind kRgb d) h) as [[updated d1] h1].
  cbn [fst snd] in Hupdated. destruct updated; cbn [negb]; [|done].
  unfold V1.getFrame. destruct (V1.Device.has_new_frame_ d1); cbn [negb orb]; [|done].
  destruct (vec_empty (FrameData.rgb (V1.Device.frame_ d1))) eqn:Hempty; cbn [orb]; [done|].
  destruct (_ || _); [done|]. intros [= <- <- <- _ _].
  destruct Hupdated as ([Hnone|[-> ->]] & [Hrgb|Hrgb] & _).
  - by rewrite Hnone in Hempty.
  - by rewrite Hnone in Hempty.
  - by rewrite Hrgb in Hempty.
  - done.
Qed.
End CameraToVirtualCamera.

(** X25.  From a generation-1 camera to the virtual camera.  Whatever the
    driver answers and whatever was run on the session before, when
    [nextRGB] on a session that [openDevice] handed out answers true, the
    image is 640 by 480 with all of its 921600 bytes; [FillFromRGB] then
    reads it within its bounds and the frame of the virtual camera is that
    image pixel for pixel, as blue, green, red and an alpha of 255, for rows
    of at least 2560 bytes.  With no device [nextRGB] answers false and
    makes no native call. *)
Theorem X25_camera_to_virtual_camera
    (drv : V1.Driver) (be : V1.Backend.t) (serial : string) (h0 h1 h h' : V1.History)
    (d0 d : V1.Device.t) (ops : list V1Session.Op)
    (rgb : list Z) (width height : Z) (device_ : option V1.Device.t) :
  V1.openDevice drv be serial h0 = (Some d0, h1) →
  V1Session.run drv d0 ops h1 = (d, h) →
  FrameSource.nextRGB (FrameSource.FreenectV1Device drv) (Some d) h
  = (Some (rgb, width, height), device_, h') →
  width = 640 ∧ height = 480 ∧ Z.of_nat (length rgb) = 640 * 480 * 3
  ∧ (∀ (base : gmap Z Z) (bytes_per_row gFrameCounter : Z),
        2560 ≤ bytes_per_row →
        ∃ out,
          DALFill.FillFromRGB rgb width height base bytes_per_row gFrameCounter = Some out
          ∧ ∀ x y,
              0 ≤ x < 640 → 0 ≤ y < 480 →
              ∃ r g b,
                DALFillSpec.source_byte rgb 640 x y 0 = Some r
                ∧ DALFillSpec.source_byte rgb 640 x y 1 = Some g
                ∧ DALFillSpec.source_byte rgb 640 x y 2 = Some b
                ∧ DALFillSpec.output_byte out bytes_per_row x y 0 = Some b
                ∧ DALFillSpec.output_byte out bytes_per_row x y 1 = Some g
                ∧ DALFillSpec.output_byte out bytes_per_row x y 2 = Some r
                ∧ DALFillSpec.output_byte out bytes_per_row x y 3 = Some 255)
  ∧ FrameSource.nextRGB (FrameSource.FreenectV1Device drv) None h = (None, None, h).
Proof.
  intros Hopen Hrun Hnext.
  pose proof (session_frame_vga drv be serial h0 h1 d0 ops Hopen) as Hvga.
  rewrite Hrun in Hvga. cbn [fst] in Hvga.
  destruct (nextRGB_v1 drv d h h' rgb width height device_ Hvga Hnext) as (-> & -> & Hlen).
  unfold V1.kPixelCount in *. unfold V1.kWidth, V1.kHeight in *.
  split; [done|]. split; [done|]. split; [lia|]. split; [|done].
  intros base bytes_per_row gFrameCounter Hrow.
  destruct (FillFromRGB_pixels rgb 640 480 base bytes_per_row gFrameCounter)
    as (out & Hfill & Hpix & _); [lia..|done|].
  exists out. split; [done|]. intros x y Hx Hy.
  specialize (Hpix x y Hx Hy). cbv zeta in Hpix.
  unfold DALFill.kOutputWidth, DALFill.kOutputHeight in Hpix.
  by rewrite !Z.div_mul in Hpix.
Qed.

Lemma X25_camera_to_virtual_camera_witness :
  let rgb := copy_from_native (λ _, 7) (V1.kPixelCount * 3) in
  ∃ out,
    DALFill.FillFromRGB rgb 640 480 ∅ 2560 0 = Some out
    ∧ ∃ b, DALFillSpec.source_byte rgb 640 639 479 2 = Some b
           ∧ DALFillSpec.output_byte out 2560 639 479 0 = Some b.
Proof.
  intros rgb.
  pose (drv := V1Spec.one_unit_driver "A00364A11700045A" (λ _ _, 0)
                 (λ _, (0, [V1.cb_video (Some (λ _, 7)) 5]))).
  pose (be := V1.Backend.mk true true).
  pose (d0 := V1Session.fresh be (-1) "A00364A11700045A" 0).
  pose (h1 := [V1.c_open_device_by_camera_serial "A00364A11700045A"]).
  pose (started := V1Session.run drv d0 [V1Session.op_start] h1).
  pose (next := FrameSource.nextRGB (FrameSource.FreenectV1Device drv)
                  (Some (fst started)) (snd started)).
  destruct (X25_camera_to_virtual_camera drv be "A00364A11700045A" [] h1
              (snd started) (snd next) d0 (fst started) [V1Session.op_start]
              rgb 640 480 (snd (fst next))) as (_ & _ & _ & Hfill & _).
  - reflexivity.
  - reflexivity.
  - reflexivity.
  - destruct (Hfill ∅ 2560 0) as (out & Hout & Hpix); [discriminate|].
    exists out. split; [exact Hout|].
    destruct (Hpix 639 479) as (r & g & b & _ & _ & Hb & Pb & _);
      [split; [discriminate|reflexivity]..|].
    exists b. split; [exact Hb|exact Pb].
Defined.

(** ** The keyboard controls *)

Section KeyboardControls.
Import Controls ControlsSpec.

Lemma told_app auto h t :
  told_auto_exposure auto (h ++ t) = told_auto_exposure (told_auto_exposure auto h) t.
Proof. apply foldl_app. Qed.

Lemma manual_app auto h t :
  manual_only_when_off auto (h ++ t)
  ↔ manual_only_when_off auto h ∧ manual_only_when_off (told_auto_exposure auto h) t.
Proof.
  revert auto. induction h as [|c h IH]; intros auto; [cbn; tauto|].
  destruct c as [?|?|? [] ?|?|?]; cbn [app manual_only_when_off told_auto_exposure foldl];
    rewrite IH; unfold told_auto_exposure; tauto.
Qed.

Local Ltac branches :=
  repeat match goal with
         | |- context [if ?c then _ else _] => destruct c
         end.

Lemma keyPressed_kept key s h :
  kept s h → kept (keyPressed key s h).1.1 (keyPressed key s h).2.
Proof.
  destruct s as [dev angle led vf df ae awb mir nm exp ir st].
  intros (Hdev & (Ha & He & Hi) & Hall & Htold & Hman).
  unfold exposure_in_range in *. cbn in Hdev, Ha, He, Hi, Htold. subst dev.
  unfold keyPressed, set_led_key, ApplyTilt, ApplyMirror, ApplyAutoExposureBundle,
    ApplyWhiteBalance, ApplyManualExposure, ApplyIrBrightness, bind, ret, call, native, is_key.
  cbn [g_dev g_freenect_angle g_led_mode g_requested_video_format g_requested_depth_format
       g_auto_exposure g_auto_white_balance g_mirror g_near_mode g_manual_exposure_us
       g_ir_brightness g_status_message set_angle set_led_mode set_video_format
       set_depth_format set_auto_exposure set_auto_white_balance set_mirror
       set_manual_exposure_us set_ir_brightness SetStatus negb fst snd].
  branches; cbn [fst snd]; try (destruct ae); cbn [toggled fst snd];
    unfold kept, in_range, exposure_in_range;
    cbn [g_dev g_freenect_angle g_auto_exposure g_manual_exposure_us g_ir_brightness];
    repeat (progress (rewrite ?Forall_app, ?told_app, ?manual_app, ?Htold;
                      cbn [told_auto_exposure foldl manual_only_when_off]));
    unfold to_u16; rewrite ?Z.mod_small by lia;
    repeat split; try done; try lia;
    repeat constructor; cbn; try done; try lia.
Qed.
Lemma keyPressed_kept_without_device key s h :
  kept_without_device s h →
  kept_without_device (keyPressed key s h).1.1 (keyPressed key s h).2.
Proof.
  destruct s as [dev angle led vf df ae awb mir nm exp ir st].
  intros (Hdev & He & Hall).
  unfold exposure_in_range in *. cbn in Hdev, He. subst dev.
  unfold keyPressed, set_led_key, ApplyTilt, ApplyMirror, ApplyAutoExposureBundle,
    ApplyWhiteBalance, ApplyManualExposure, ApplyIrBrightness, bind, ret, call, native, is_key.
  cbn [g_dev g_freenect_angle g_led_mode g_requested_video_format g_requested_depth_format
       g_auto_exposure g_auto_white_balance g_mirror g_near_mode g_manual_exposure_us
       g_ir_brightness g_status_message set_angle set_led_mode set_video_format
       set_depth_format set_auto_exposure set_auto_white_balance set_mirror
       set_manual_exposure_us set_ir_brightness SetStatus negb fst snd].
  branches; cbn [fst snd];
    unfold kept_without_device, exposure_in_range;
    cbn [g_dev g_manual_exposure_us set_angle set_led_mode set_video_format
         set_depth_format set_auto_exposure set_auto_white_balance set_mirror
         set_manual_exposure_us set_ir_brightness SetStatus];
    rewrite ?Forall_app;
    repeat split; try done; try lia;
    repeat constructor.
Qed.

Lemma keys_kept status_after pressed :
  ∀ s h, kept s h →
         kept (keys status_after pressed s h).1 (keys status_after pressed s h).2.
Proof.
  induction pressed as [|key pressed IH]; intros s h Hs; [done|].
  cbn [keys]. unfold bind. pose proof (keyPressed_kept key s h Hs) as Hstep.
  destruct (keyPressed key s h) as [[s1 action] h1]. cbn [fst snd] in Hstep.
  destruct action; cbn [ret fst snd]; first [done|by apply IH|apply IH; by destruct s1].
Qed.

Lemma keys_kept_without_device status_after pressed :
  ∀ s h, kept_without_device s h →
         kept_without_device (keys status_after pressed s h).1
           (keys status_after pressed s h).2.
Proof.
  induction pressed as [|key pressed IH]; intros s h Hs; [done|].
  cbn [keys]. unfold bind. pose proof (keyPressed_kept_without_device key s h Hs) as Hstep.
  destruct (keyPressed key s h) as [[s1 action] h1]. cbn [fst snd] in Hstep.
  destruct action; cbn [ret fst snd]; first [done|by apply IH|apply IH; by destruct s1].
Qed.

(** The key [w] pressed over and over. *)
Lemma tilt_up status_after (k : nat) :
  ∀ s h,
    g_dev s = true → -30 ≤ g_freenect_angle s ≤ 30 →
    g_freenect_angle (keys status_after (replicate k "w"%char) s h).1
    = Z.min 30 (g_freenect_angle s + 2 * Z.of_nat k).
Proof.
  induction k as [|k IH]; intros s h Hdev Hangle; [cbn; lia|].
  cbn [replicate keys]. unfold bind.
  assert (keyPressed "w" s h
          = (SetStatus "Tilt increased."
               (set_angle (Z.max (-30) (Z.min 30 (g_freenect_angle s + 2))) s),
             handled,
             h ++ [c_set_tilt_degs true (Z.max (-30) (Z.min 30 (g_freenect_angle s + 2)))]))
    as ->.
  { unfold keyPressed, ApplyTilt, bind, ret, call, native. cbn [Ascii.eqb Bool.eqb is_key orb].
    cbn [g_dev set_angle]. rewrite Hdev. done. }
  rewrite IH; cbn [g_dev g_freenect_angle SetStatus set_angle]; [lia|done|lia].
Qed.
End KeyboardControls.

(** X26.  The keyboard controls of the control centre, from the values the
    program starts with and over every run of keys.  With a device: the tilt
    stays from -30 to 30 degrees, the manual exposure from 1000 to 200000
    microseconds and the infrared brightness from 1 to 50; every call into
    the driver is on that device and carries a value within these ranges; a
    manual exposure is only sent while the driver was last told that the
    automatic exposure is off, which is what [g_auto_exposure] holds; and the
    tilt key [w], pressed [k] times running from the centre, leaves the tilt
    at [2 * k] degrees up to 30 and at 30 from there on.  Without a device
    the manual exposure still stays in its range, and the only calls into the
    driver are calls of [freenect_set_led] from the keys [0] to [6], on the
    null device. *)
Theorem X26_controls_stay_in_range (status_after : Controls.Action → string)
    (pressed : list ascii) :
  (let r := Controls.keys status_after pressed (Controls.initial true) [] in
   ControlsSpec.in_range r.1
   ∧ Forall ControlsSpec.allowed r.2
   ∧ ControlsSpec.manual_only_when_off Controls.FREENECT_ON r.2
   ∧ ControlsSpec.told_auto_exposure Controls.FREENECT_ON r.2
     = Controls.g_auto_exposure r.1)
  ∧ (let r := Controls.keys status_after pressed (Controls.initial false) [] in
     ControlsSpec.exposure_in_range r.1 ∧ Forall ControlsSpec.led_on_null r.2)
  ∧ (∀ k : nat,
        Controls.g_freenect_angle
          (Controls.keys status_after (replicate k "w"%char) (Controls.initial true) []).1
        = Z.min 30 (2 * Z.of_nat k)).
Proof.
  split; [|split].
  - intros r.
    destruct (keys_kept status_after pressed (Controls.initial true) [])
      as (_ & Hrange & Hall & Htold & Hman).
    + unfold ControlsSpec.kept, ControlsSpec.in_range, ControlsSpec.exposure_in_range.
      cbn. repeat split; try done; lia.
    + done.
  - intros r.
    destruct (keys_kept_without_device status_after pressed (Controls.initial false) [])
      as (_ & Hrange & Hall).
    + unfold ControlsSpec.kept_without_device, ControlsSpec.exposure_in_range.
      cbn. repeat split; try done; lia.
    + done.
  - intros k.
    rewrite tilt_up; cbn; [lia|done|lia].
Qed.

(** ** The frame buffers of the control centre *)

Section BufferRotation.
Import FrameBuffers FrameBuffersSpec.
Variable DepthToFalseColor : Z → list Z.

Lemma latest_video_snoc events e :
  latest_video (events ++ [e])
  = match e with VideoFrame bytes => Some bytes | _ => latest_video events end.
Proof. unfold latest_video. by rewrite foldl_app. Qed.

Lemma latest_depth_snoc events e :
  latest_depth (events ++ [e])
  = match e with DepthFrame depth => Some depth | _ => latest_depth events end.
Proof. unfold latest_depth. by rewrite foldl_app. Qed.

(** Seven addresses without repetition are pairwise different. *)
Lemma seven_apart (a b c d e f g : Ptr) :
  NoDup [a; b; c; d; e; f; g] →
  a ≠ b ∧ a ≠ c ∧ a ≠ d ∧ a ≠ e ∧ a ≠ f ∧ a ≠ g ∧ b ≠ c ∧ b ≠ d ∧ b ≠ e ∧ b ≠ f ∧ b ≠ g
  ∧ c ≠ d ∧ c ≠ e ∧ c ≠ f ∧ c ≠ g ∧ d ≠ e ∧ d ≠ f ∧ d ≠ g ∧ e ≠ f ∧ e ≠ g ∧ f ≠ g.
Proof.
  rewrite !NoDup_cons, !not_elem_of_cons.
  intros H. repeat split; intros Heq; rewrite Heq in H; tauto.
Qed.

Lemma seven_nodup (a b c d e f g : Ptr) :
  a ≠ b → a ≠ c → a ≠ d → a ≠ e → a ≠ f → a ≠ g → b ≠ c → b ≠ d → b ≠ e → b ≠ f → b ≠ g →
  c ≠ d → c ≠ e → c ≠ f → c ≠ g → d ≠ e → d ≠ f → d ≠ g → e ≠ f → e ≠ g → f ≠ g →
  NoDup [a; b; c; d; e; f; g].
Proof.
  intros. rewrite !NoDup_cons, !not_elem_of_cons.
  repeat split; first [assumption | apply not_elem_of_nil | apply NoDup_nil_2].
Qed.

Lemma step_handed_over events s e :
  handed_over DepthToFalseColor events s →
  ∃ s', step DepthToFalseColor s e = Some s'
        ∧ handed_over DepthToFalseColor (events ++ [e]) s'.
Proof.
  destruct s as [mm_mid mm_front d_mid d_front back mid front got_rgb got_depth
                 rgb_frames depth_frames format registered heap shown].
  unfold handed_over, buffers, newest_rgb, newest_depth_mm, newest_depth_rgb.
  cbn [g_depth_mm_mid g_depth_mm_front g_depth_rgb_mid g_depth_rgb_front g_rgb_back
       g_rgb_mid g_rgb_front g_got_rgb g_got_depth video_buffer FrameBuffers.heap].
  intros (Hdup & -> & Hvideo & Hdepth).
  pose proof (seven_apart _ _ _ _ _ _ _ Hdup)
    as (? & ? & ? & ? & ? & ? & ? & ? & ? & ? & ? & ? & ? & ? & ? & ? & ? & ? & ? & ? & ?).
  rewrite latest_video_snoc, latest_depth_snoc.
  destruct e as [bytes|depth| |new_format]; cbn [step].
  - (* a video frame *)
    unfold rgb_cb.
    cbn [g_depth_mm_mid g_depth_mm_front g_depth_rgb_mid g_depth_rgb_front g_rgb_back
         g_rgb_mid g_rgb_front g_got_rgb g_got_depth video_buffer FrameBuffers.heap
         g_current_video_format g_rgb_frames g_depth_frames FrameBuffers.shown].
    rewrite Nat.eqb_refl. cbn [negb]. rewrite lookup_insert_eq. cbn [mbind option_bind].
    destruct format; eexists; (split; [reflexivity|]);
      cbn [g_depth_mm_mid g_depth_mm_front g_depth_rgb_mid g_depth_rgb_front g_rgb_back
           g_rgb_mid g_rgb_front g_got_rgb g_got_depth video_buffer FrameBuffers.heap];
      (split; [apply seven_nodup; congruence|]); (split; [done|]); split.
    all: try (intros ? [= <-]; rewrite ?lookup_insert_eq; done).
    all: intros depth Hd; destruct (Hdepth depth Hd) as [D1 D2];
      destruct got_depth; rewrite !lookup_insert_ne by congruence; done.
  - (* a depth frame *)
    eexists. split; [reflexivity|]. unfold depth_cb.
    cbn [g_depth_mm_mid g_depth_mm_front g_depth_rgb_mid g_depth_rgb_front g_rgb_back
         g_rgb_mid g_rgb_front g_got_rgb g_got_depth video_buffer FrameBuffers.heap].
    split; [done|]. split; [done|]. split.
    + intros bytes Hb. specialize (Hvideo bytes Hb).
      destruct got_rgb; rewrite !lookup_insert_ne by congruence; done.
    + intros ? [= <-]. split.
      * rewrite lookup_insert_ne by congruence. by rewrite lookup_insert_eq.
      * by rewrite lookup_insert_eq.
  - (* the drawing thread *)
    eexists. split; [reflexivity|]. unfold DrawGLScene.
    cbn [g_depth_mm_mid g_depth_mm_front g_depth_rgb_mid g_depth_rgb_front g_rgb_back
         g_rgb_mid g_rgb_front g_got_rgb g_got_depth video_buffer FrameBuffers.heap].
    destruct got_depth, got_rgb; cbn [negb andb];
      cbn [g_depth_mm_mid g_depth_mm_front g_depth_rgb_mid g_depth_rgb_front g_rgb_back
           g_rgb_mid g_rgb_front g_got_rgb g_got_depth video_buffer FrameBuffers.heap];
      (split; [apply seven_nodup; congruence|]); done.
  - (* a change of the video format *)
    eexists. split; [reflexivity|]. unfold video_mode_changed.
    cbn [g_depth_mm_mid g_depth_mm_front g_depth_rgb_mid g_depth_rgb_front g_rgb_back
         g_rgb_mid g_rgb_front g_got_rgb g_got_depth video_buffer FrameBuffers.heap]. done.
Qed.

Lemma run_handed_over events :
  ∀ seen s,
    handed_over DepthToFalseColor seen s →
    ∃ s', run DepthToFalseColor s events = Some s'
          ∧ handed_over DepthToFalseColor (seen ++ events) s'.
Proof.
  induction events as [|e events IH]; intros seen s Hs.
  - exists s. by rewrite app_nil_r.
  - destruct (step_handed_over seen s e Hs) as (s1 & Hstep & Hs1).
    destruct (IH (seen ++ [e]) s1 Hs1) as (s2 & Hrun & Hs2).
    exists s2. cbn [run]. rewrite Hstep. cbn. split; [done|].
    by rewrite <- app_assoc in Hs2.
Qed.

Lemma step_buffers s e s' :
  step DepthToFalseColor s e = Some s' → buffers s' ≡ₚ buffers s.
Proof.
  destruct s as [mm_mid mm_front d_mid d_front back mid front got_rgb got_depth
                 rgb_frames depth_frames format registered heap shown].
  destruct e as [bytes|depth| |new_format]; cbn [step]; unfold buffers.
  - unfold rgb_cb.
    cbn [g_depth_mm_mid g_depth_mm_front g_depth_rgb_mid g_depth_rgb_front g_rgb_back
         g_rgb_mid g_rgb_front g_current_video_format video_buffer FrameBuffers.heap].
    rewrite lookup_insert_eq. cbn [mbind option_bind].
    destruct format; try destruct (Nat.eqb_spec back registered) as [->|];
      cbn [negb]; intros [= <-];
      cbn [g_depth_mm_mid g_depth_mm_front g_depth_rgb_mid g_depth_rgb_front g_rgb_back
           g_rgb_mid g_rgb_front]; solve_Permutation.
  - by intros [= <-].
  - intros [= <-]. unfold DrawGLScene.
    cbn [g_depth_mm_mid g_depth_mm_front g_depth_rgb_mid g_depth_rgb_front g_rgb_back
         g_rgb_mid g_rgb_front g_got_rgb g_got_depth].
    destruct got_depth, got_rgb; cbn [negb andb];
      cbn [g_depth_mm_mid g_depth_mm_front g_depth_rgb_mid g_depth_rgb_front g_rgb_back
           g_rgb_mid g_rgb_front]; solve_Permutation.
  - by intros [= <-].
Qed.

Lemma run_buffers events :
  ∀ s s', run DepthToFalseColor s events = Some s' → buffers s' ≡ₚ buffers s.
Proof.
  induction events as [|e events IH]; intros s s'; cbn [run].
  - by intros [= <-].
  - destruct (step DepthToFalseColor s e) as [s1|] eqn:Hstep; [|done]. cbn.
    intros Hrun. rewrite (IH _ _ Hrun). by apply (step_buffers s e).
Qed.

Lemma started_handed_over a b c d e f g :
  NoDup [a; b; c; d; e; f; g] →
  handed_over DepthToFalseColor [] (started a b c d e f g).
Proof. intros Hdup. unfold handed_over. by repeat split. Qed.

Lemma drawn_newest s events bytes depth :
  handed_over DepthToFalseColor events s →
  g_got_rgb s || g_got_depth s = true →
  latest_video events = Some bytes →
  latest_depth events = Some depth →
  last (shown (DrawGLScene s))
  = Some (Some bytes, Some (concat (DepthToFalseColor <$> depth))).
Proof.
  intros (_ & _ & Hv & Hd) Hgot Hb Hdepth.
  specialize (Hv bytes Hb). destruct (Hd depth Hdepth) as [_ Hd2]. clear Hd.
  unfold DrawGLScene, newest_rgb, newest_depth_rgb in *.
  destruct (g_got_depth s), (g_got_rgb s); try done; cbn [negb andb shown];
    rewrite last_snoc; by rewrite Hv, Hd2.
Qed.
End BufferRotation.

(** X27 (control_center_v1.cpp, [rgb_cb], [depth_cb], [DrawGLScene] and the
    video branch of [freenect_threadfunc]): from seven distinct buffers, any
    sequence of video frames, depth frames, redraws and changes of the video
    format runs without a failed [assert] and without a copy from an empty
    address.  The seven pointers stay a rearrangement of the allocated ones,
    without repetition, and the buffer registered with the driver is always
    [g_rgb_back], so the driver never writes into the middle or the front
    buffer.  The bytes of the last video frame are in the middle buffer
    while [g_got_rgb] is set and in the front buffer afterwards; the last
    depth frame and its false-colour image likewise; and a redraw with a
    flag set uploads exactly these two images. *)
Theorem X27_newest_frame_reaches_the_screen (DepthToFalseColor : Z → list Z)
    (depth_mm_mid depth_mm_front depth_rgb_mid depth_rgb_front rgb_back rgb_mid rgb_front :
       FrameBuffers.Ptr)
    (events : list FrameBuffers.Event) :
  NoDup [depth_mm_mid; depth_mm_front; depth_rgb_mid; depth_rgb_front;
         rgb_back; rgb_mid; rgb_front] →
  ∃ s,
    FrameBuffers.run DepthToFalseColor
      (FrameBuffers.started depth_mm_mid depth_mm_front depth_rgb_mid depth_rgb_front
         rgb_back rgb_mid rgb_front) events = Some s
    ∧ FrameBuffersSpec.buffers s
      ≡ₚ [depth_mm_mid; depth_mm_front; depth_rgb_mid; depth_rgb_front;
          rgb_back; rgb_mid; rgb_front]
    ∧ FrameBuffersSpec.handed_over DepthToFalseColor events s
    ∧ (∀ bytes depth,
         FrameBuffers.g_got_rgb s || FrameBuffers.g_got_depth s = true →
         FrameBuffersSpec.latest_video events = Some bytes →
         FrameBuffersSpec.latest_depth events = Some depth →
         last (FrameBuffers.shown (FrameBuffers.DrawGLScene s))
         = Some (Some bytes, Some (concat (DepthToFalseColor <$> depth)))).
Proof.
  intros Hdup.
  destruct (run_handed_over DepthToFalseColor events [] _
              (started_handed_over DepthToFalseColor _ _ _ _ _ _ _ Hdup))
    as (s & Hrun & Hs).
  exists s. split; [done|]. split.
  - apply (run_buffers DepthToFalseColor events _ _ Hrun).
  - split; [done|]. intros bytes depth. by apply drawn_newest.
Qed.

Lemma X27_newest_frame_reaches_the_screen_witness :
  NoDup [1; 2; 3; 4; 5; 6; 7]%nat
  ∧ ∃ s,
      FrameBuffers.run (λ mm, [mm; mm; mm]) (FrameBuffers.started 1 2 3 4 5 6 7)
        [FrameBuffers.VideoFrame [10; 20; 30]; FrameBuffers.DepthFrame [700];
         FrameBuffers.Draw; FrameBuffers.VideoFrame [40; 50; 60]] = Some s
      ∧ FrameBuffers.heap s !! FrameBuffersSpec.newest_rgb s = Some [40; 50; 60].
Proof.
  assert (NoDup [1; 2; 3; 4; 5; 6; 7]%nat) as Hdup by compute_done.
  split; [exact Hdup|].
  destruct (X27_newest_frame_reaches_the_screen (λ mm, [mm; mm; mm]) 1 2 3 4 5 6 7
              [FrameBuffers.VideoFrame [10; 20; 30]; FrameBuffers.DepthFrame [700];
               FrameBuffers.Draw; FrameBuffers.VideoFrame [40; 50; 60]] Hdup)
    as (s & Hrun & _ & (_ & _ & Hvideo & _) & _).
  exists s. split; [exact Hrun|]. by apply Hvideo.
Defined.
